(** * x402 payment gate for CRE workflows: a shallow embedding

    The development follows the TypeScript sources:

    - [x402-verifier.ts]   proof codec and [X402Verifier]
    - [cre-registry.ts]    [CREWorkflowRegistry]
    - [payment-gateway.ts] [X402CREPaymentGateway]
    - [agent-client.ts]    [AgentClient.batchInvoke]
    - [workflow-orchestrator.ts] [WorkflowOrchestrator]

    Part I holds the definitions, Part II the theorems.

    Conventions of the embedding.
    - A JavaScript [number] is an IEEE-754 binary64 value: Rocq's primitive
      [float].  A [bigint] is a [Z].
    - A string is a [string] of bytes, the UTF-8 form of the text.  What the
      runtime does by its Unicode tables, [String.prototype.toLowerCase], is a
      component of the host, like the codecs; on ASCII text it is
      [asciiLowerCase].
    - A value of type [unknown] obtained from [JSON.parse] is a [json];
      [undefined] is [None] in an [option json].
    - A function that can throw returns an [outcome]; an [async] function
      whose promise rejects is a function that throws.
    - Effects on the outside world (handlers, the HTTP client) are explicit
      state passing; clock readings and fresh identifiers are inputs. *)

From Stdlib Require Import ZArith List String Ascii Bool Lia Floats.
From Stdlib Require Import Strings.Byte.
Import ListNotations.

#[local] Set Warnings "-register-all,-inexact-float".

Local Open Scope string_scope.
Local Open Scope Z_scope.

(* ================================================================== *)
(** * Part I - definitions *)
(* ================================================================== *)

(** ** The JavaScript runtime, as far as the sources use it *)

Module JS.

(** Exceptions: the constructor is the error class, the argument its
    [message]. *)
Inductive exn : Type :=
| Error (msg : string)
| TypeError (msg : string)
| SyntaxError (msg : string)
| RangeError (msg : string).

Definition message (e : exn) : string :=
  match e with
  | Error m | TypeError m | SyntaxError m | RangeError m => m
  end.

(** The result of running code that may throw. *)
Inductive outcome (A : Type) : Type :=
| Returned (a : A)
| Thrown (e : exn).
Arguments Returned {A} a.
Arguments Thrown {A} e.

Definition bind {A B : Type} (o : outcome A) (k : A -> outcome B) : outcome B :=
  match o with
  | Returned a => k a
  | Thrown e => Thrown e
  end.

Declare Scope js_scope.
Delimit Scope js_scope with js.
Notation "x <- c ;; k" := (bind c (fun x => k))
  (at level 61, c at next level, right associativity) : js_scope.


(** *** Strings *)

Definition lowerAscii (c : ascii) : ascii :=
  let n := nat_of_ascii c in
  if ((65 <=? n) && (n <=? 90))%nat then ascii_of_nat (n + 32) else c.

(** What [String.prototype.toLowerCase] does on ASCII text. *)
Fixpoint asciiLowerCase (s : string) : string :=
  match s with
  | EmptyString => EmptyString
  | String c r => String (lowerAscii c) (asciiLowerCase r)
  end.

(** [String.prototype.includes]. *)
Fixpoint includes (s sub : string) : bool :=
  String.prefix sub s ||
  match s with
  | EmptyString => false
  | String _ r => includes r sub
  end.

(** [s.slice(0, n)]. *)
Definition slice0 (n : nat) (s : string) : string := String.substring 0 n s.

Fixpoint repeatChar (c : ascii) (n : nat) : string :=
  match n with
  | O => EmptyString
  | S k => String c (repeatChar c k)
  end.

(** [s.padEnd(n, "0")] and [s.padStart(n, "0")]. *)
Definition padEnd0 (n : nat) (s : string) : string :=
  s ++ repeatChar "0" (n - String.length s).
Definition padStart0 (n : nat) (s : string) : string :=
  repeatChar "0" (n - String.length s) ++ s.

(** [parts.join(sep)]. *)
Fixpoint join (sep : string) (parts : list string) : string :=
  match parts with
  | [] => ""
  | [p] => p
  | p :: rest => p ++ sep ++ join sep rest
  end.

(** White space and line terminators of [StrWhiteSpaceChar] in ASCII. *)
Definition isWhite (c : ascii) : bool :=
  let n := nat_of_ascii c in
  ((9 <=? n) && (n <=? 13) || (n =? 32))%nat.

Fixpoint trimStart (s : string) : string :=
  match s with
  | String c r => if isWhite c then trimStart r else s
  | EmptyString => EmptyString
  end.

Fixpoint revString (s acc : string) : string :=
  match s with
  | EmptyString => acc
  | String c r => revString r (String c acc)
  end.

Definition trimEnd (s : string) : string :=
  revString (trimStart (revString s "")) "".

Definition trim (s : string) : string := trimEnd (trimStart s).

(** *** Integers written in a radix *)

(** The value of a digit character in [radix], if it is one. *)
Definition digitVal (radix : Z) (c : ascii) : option Z :=
  let n := Z.of_nat (nat_of_ascii c) in
  let v := if (48 <=? n) && (n <=? 57) then Some (n - 48)
           else if (97 <=? n) && (n <=? 122) then Some (n - 87)
           else if (65 <=? n) && (n <=? 90) then Some (n - 55)
           else None in
  match v with
  | Some d => if d <? radix then Some d else None
  | None => None
  end.

(** All of [s] read as digits of [radix], most significant first. *)
Fixpoint digitsValue (radix : Z) (s : string) (acc : Z) : option Z :=
  match s with
  | EmptyString => Some acc
  | String c r =>
      match digitVal radix c with
      | Some d => digitsValue radix r (acc * radix + d)
      | None => None
      end
  end.

(** The longest prefix of [s] made of digits of [radix]: its value and
    whether it is non-empty. *)
Fixpoint digitsPrefix (radix : Z) (s : string) (acc : Z) (seen : bool) : Z * bool :=
  match s with
  | EmptyString => (acc, seen)
  | String c r =>
      match digitVal radix c with
      | Some d => digitsPrefix radix r (acc * radix + d) true
      | None => (acc, seen)
      end
  end.

Definition nonEmptyDigits (radix : Z) (s : string) : option Z :=
  match s with
  | EmptyString => None
  | _ => digitsValue radix s 0
  end.

(** [StringToBigInt]: white space is trimmed, the empty string is [0n], a
    decimal literal may carry a sign, a [0x]/[0o]/[0b] literal may not. *)
Definition StringToBigInt (s : string) : option Z :=
  match trim s with
  | EmptyString => Some 0
  | String "0" (String "x" r) | String "0" (String "X" r) => nonEmptyDigits 16 r
  | String "0" (String "o" r) | String "0" (String "O" r) => nonEmptyDigits 8 r
  | String "0" (String "b" r) | String "0" (String "B" r) => nonEmptyDigits 2 r
  | String "-" r => option_map Z.opp (nonEmptyDigits 10 r)
  | String "+" r => nonEmptyDigits 10 r
  | t => nonEmptyDigits 10 t
  end.

(** [parseInt(s)] with no radix argument: leading white space and a sign are
    skipped, a [0x] prefix selects radix 16, the longest digit prefix is
    read; [None] is [NaN].  The integer is kept exact (the sources compare it
    with clock readings, which are far below 2^53). *)
Definition parseIntString (s : string) : option Z :=
  let t := trimStart s in
  let '(neg, t) :=
    match t with
    | String "-" r => (true, r)
    | String "+" r => (false, r)
    | _ => (false, t)
    end in
  let '(radix, t) :=
    match t with
    | String "0" (String "x" r) | String "0" (String "X" r) => (16, r)
    | _ => (10, t)
    end in
  match digitsPrefix radix t 0 false with
  | (v, true) => Some (if neg then - v else v)
  | (_, false) => None
  end.

(** Decimal digits of a non-negative integer, most significant first. *)
Definition digitChar (d : Z) : ascii := ascii_of_nat (Z.to_nat (48 + d)).

Fixpoint decimalDigits (fuel : nat) (n : Z) (acc : string) : string :=
  match fuel with
  | O => acc
  | S f =>
      let acc' := String (digitChar (n mod 10)) acc in
      if n / 10 =? 0 then acc' else decimalDigits f (n / 10) acc'
  end.

Definition natToString (n : Z) : string :=
  decimalDigits (S (Z.to_nat (Z.log2 n))) n "".

(** [BigInt.prototype.toString()]. *)
Definition BigInt_toString (z : Z) : string :=
  if z <? 0 then String "-" (natToString (- z)) else natToString z.

(** *** Numbers *)

Definition number := float.

(** [Number(z)] for a bigint (and the Number value of an integer literal):
    the nearest binary64 value, ties to even. *)
Definition Z2float (z : Z) : number :=
  SF2Prim (binary_normalize prec emax z 0 false).

Definition isNaN (x : number) : bool := PrimFloat.is_nan x.

(** [Math.round(x)]: the integer nearest to [x], ties towards +infinity;
    NaN, the infinities and the integers are returned as they are. *)
Definition Math_round (x : number) : number :=
  match Prim2SF x with
  | S754_finite s m e =>
      if 0 <=? e then x
      else
        let d := 2 ^ (- e) in
        let n := if s then - Zpos m else Zpos m in
        let r := (2 * n + d) / (2 * d) in
        if r =? 0 then (if s then (-0)%float else 0%float) else Z2float r
  | _ => x
  end.

(** [BigInt(x)] for a number: the integer it denotes, a [RangeError] when it
    is not an integer (NaN and the infinities included). *)
Definition BigInt_of_number (render : number -> string) (x : number) : outcome Z :=
  match Prim2SF x with
  | S754_zero _ => Returned 0
  | S754_finite s m e =>
      let sign := fun v : Z => if s then - v else v in
      if 0 <=? e then Returned (sign (Zpos m * 2 ^ e))
      else if Zpos m mod 2 ^ (- e) =? 0 then Returned (sign (Zpos m / 2 ^ (- e)))
      else Thrown (RangeError ("The number " ++ render x ++
             " cannot be converted to a BigInt because it is not an integer"))
  | _ => Thrown (RangeError ("The number " ++ render x ++
             " cannot be converted to a BigInt because it is not an integer"))
  end.

(** **** [Number::toString]: the shortest decimal that reads back *)

(** [s * 10^p] compared with [b * 2^g]. *)
Definition cmpDecBin (s p b g : Z) : comparison :=
  (s * 10 ^ Z.max p 0 * 2 ^ Z.max (- g) 0 ?= b * 2 ^ Z.max g 0 * 10 ^ Z.max (- p) 0).

(** The least [n] from [n0] on with [m * 2^e < 10^n]. *)
Fixpoint leastPow10Above (fuel : nat) (m e n : Z) : Z :=
  match fuel with
  | O => n
  | S f =>
      match cmpDecBin 1 n m e with
      | Gt => n
      | _ => leastPow10Above f m e (n + 1)
      end
  end.

Definition decimalExponent (m e : Z) : Z :=
  let l := Z.log2 m + e in
  leastPow10Above 8 m e (l * 30102 / 100000 - 1).

(** Is [s * 10^p] in the rounding interval of [m * 2^e]?  The interval is
    closed when [m] is even. *)
Definition inRoundingInterval (m e s p : Z) : bool :=
  let narrow := (m =? 2 ^ 52) && (- 1074 <? e) in
  let lo := if narrow then 4 * m - 1 else 4 * m - 2 in
  let hi := 4 * m + 2 in
  let even := Z.even m in
  let above := match cmpDecBin s p lo (e - 2) with
               | Gt => true | Eq => even | Lt => false end in
  let below := match cmpDecBin s p hi (e - 2) with
               | Lt => true | Eq => even | Gt => false end in
  above && below.

(** The [k]-digit candidates for exponent [n]: [floor (v / 10^(n-k))] and
    its successor; the one in the interval that is closest to [v]. *)
Definition candidate (m e k n : Z) : option Z :=
  let p := n - k in
  let num := m * 2 ^ Z.max e 0 * 10 ^ Z.max (- p) 0 in
  let den := 2 ^ Z.max (- e) 0 * 10 ^ Z.max p 0 in
  let lo := num / den in
  let hi := lo + 1 in
  let ok := fun s => (10 ^ (k - 1) <=? s) && (s <? 10 ^ k) && inRoundingInterval m e s p in
  match ok lo, ok hi with
  | true, false => Some lo
  | false, true => Some hi
  | false, false => None
  | true, true =>
      (* distances to v, both scaled by den *)
      let dlo := num - lo * den in
      let dhi := hi * den - num in
      if dlo <? dhi then Some lo
      else if dhi <? dlo then Some hi
      else if Z.even lo then Some lo else Some hi
  end.

(** Of the [k]-digit candidates [s0] at exponent [n] and [s1] at exponent
    [n + 1], the one closest to [m * 2^e]; the even one when they are as
    close. *)
Definition closest (m e k n s0 s1 : Z) : Z * Z * Z :=
  let p := n - k in
  let num := m * 2 ^ Z.max e 0 * 10 ^ Z.max (- p) 0 in
  let den := 2 ^ Z.max (- e) 0 * 10 ^ Z.max p 0 in
  let d0 := Z.abs (s0 * den - num) in
  let d1 := Z.abs (10 * s1 * den - num) in
  if d0 <? d1 then (s0, k, n)
  else if d1 <? d0 then (s1, k, n + 1)
  else if Z.even s0 then (s0, k, n) else (s1, k, n + 1).

(** The shortest digits [s] (of [k] digits) and exponent [n] with
    [s * 10^(n-k)] reading back as [m * 2^e]; among the shortest, the
    closest to [m * 2^e].  [n0] is the exponent of the decade of [m * 2^e];
    the only candidate of the next decade is its lower end. *)
Fixpoint shortest (fuel : nat) (m e n0 k : Z) : Z * Z * Z :=
  match fuel with
  | O => (m, 0, 0)
  | S f =>
      match candidate m e k n0, candidate m e k (n0 + 1) with
      | Some s0, Some s1 => closest m e k n0 s0 s1
      | Some s, None => (s, k, n0)
      | None, Some s => (s, k, n0 + 1)
      | None, None => shortest f m e n0 (k + 1)
      end
  end.

Definition insertPoint (n : nat) (digits : string) : string :=
  String.substring 0 n digits ++ "." ++
  String.substring n (String.length digits - n) digits.

(** The layout rules of [Number::toString] for digits [s], their count [k]
    and the exponent [n]. *)
Definition layoutNumber (s k n : Z) : string :=
  let digits := natToString s in
  if (k <=? n) && (n <=? 21) then digits ++ repeatChar "0" (Z.to_nat (n - k))
  else if (0 <? n) && (n <=? 21) then insertPoint (Z.to_nat n) digits
  else if (- 6 <? n) && (n <=? 0) then "0." ++ repeatChar "0" (Z.to_nat (- n)) ++ digits
  else
    let ex := n - 1 in
    let exs := (if ex <? 0 then "-" else "+") ++ natToString (Z.abs ex) in
    if k =? 1 then digits ++ "e" ++ exs
    else insertPoint 1 digits ++ "e" ++ exs.

(** [String(x)] for a number. *)
Definition numberToString (x : number) : string :=
  match Prim2SF x with
  | S754_nan => "NaN"
  | S754_zero _ => "0"
  | S754_infinity s => if s then "-Infinity" else "Infinity"
  | S754_finite sg m e =>
      let '(s, k, n) := shortest 17 (Zpos m) e (decimalExponent (Zpos m) e) 1 in
      (if sg then "-" else "") ++ layoutNumber s k n
  end.

(** **** Dates *)

(** The largest time value (milliseconds from the epoch) of a [Date]. *)
Definition maxTimeValue : Z := 8640000000000000.

Definition validTime (t : Z) : bool := (- maxTimeValue <=? t) && (t <=? maxTimeValue).

(** The civil date of a day number counted from 1970-01-01. *)
Definition civilFromDays (day : Z) : Z * Z * Z :=
  let z := day + 719468 in
  let era := z / 146097 in
  let doe := z - era * 146097 in
  let yoe := (doe - doe / 1460 + doe / 36524 - doe / 146096) / 365 in
  let doy := doe - (365 * yoe + yoe / 4 - yoe / 100) in
  let mp := (5 * doy + 2) / 153 in
  let d := doy - (153 * mp + 2) / 5 + 1 in
  let mo := if mp <? 10 then mp + 3 else mp - 9 in
  let y := yoe + era * 400 + (if mo <=? 2 then 1 else 0) in
  (y, mo, d).

Definition pad (n : nat) (z : Z) : string := padStart0 n (natToString z).

Definition isoFormat (t : Z) : string :=
  let day := t / 86400000 in
  let ms := t mod 86400000 in
  let '(y, mo, d) := civilFromDays day in
  let year := if (0 <=? y) && (y <=? 9999) then pad 4 y
              else (if y <? 0 then "-" else "+") ++ pad 6 (Z.abs y) in
  year ++ "-" ++ pad 2 mo ++ "-" ++ pad 2 d ++ "T" ++
  pad 2 (ms / 3600000) ++ ":" ++ pad 2 (ms / 60000 mod 60) ++ ":" ++
  pad 2 (ms / 1000 mod 60) ++ "." ++ pad 3 (ms mod 1000) ++ "Z".

(** [new Date(t).toISOString()] for a numeric time [t] given as an exact
    integer, [None] for NaN: a [RangeError] when [t] is not a time value. *)
Definition Date_toISOString (t : option Z) : outcome string :=
  match t with
  | Some ms => if validTime ms then Returned (isoFormat ms)
               else Thrown (RangeError "Invalid time value")
  | None => Thrown (RangeError "Invalid time value")
  end.

(** *** Values decoded from JSON *)

Inductive json : Type :=
| JNull
| JBool (b : bool)
| JNum (n : number)
| JStr (s : string)
| JArr (items : list json)
| JObj (fields : list (string * json)).

(** A JavaScript value as the sources meet them: [None] is [undefined]. *)
Definition value := option json.

Fixpoint lookupField (k : string) (fields : list (string * json)) : value :=
  match fields with
  | [] => None
  | (k', v) :: rest => if String.eqb k k' then Some v else lookupField k rest
  end.

(** [k in v] for an object or array [v] and the property names the sources
    test, none of which lives on a prototype. *)
Definition hasProperty (k : string) (v : json) : bool :=
  match v with
  | JObj fields => match lookupField k fields with Some _ => true | None => false end
  | _ => false
  end.

(** [typeof v === "object"]. *)
Definition typeofObject (v : value) : bool :=
  match v with
  | Some JNull | Some (JArr _) | Some (JObj _) => true
  | _ => false
  end.

(** [v.k]: reading a property of [undefined] or [null] is a [TypeError];
    primitives and arrays have none of the property names the sources read. *)
Definition getProp (v : value) (k : string) : outcome value :=
  match v with
  | None =>
      Thrown (TypeError ("Cannot read properties of undefined (reading '" ++ k ++ "')"))
  | Some JNull =>
      Thrown (TypeError ("Cannot read properties of null (reading '" ++ k ++ "')"))
  | Some (JObj fields) => Returned (lookupField k fields)
  | Some _ => Returned None
  end.

(** [v ?? d]. *)
Definition nullish (v : value) (d : json) : json :=
  match v with
  | None | Some JNull => d
  | Some x => x
  end.

(** [!v]. *)
Definition falsy (v : value) : bool :=
  match v with
  | None | Some JNull | Some (JBool false) | Some (JStr "") => true
  | Some (JNum n) => PrimFloat.eqb n 0 || isNaN n
  | _ => false
  end.

(** [String(v)].  An array joins its elements with commas, [null] elements
    being empty.  A plain object is [[object Object]], by the [toString] it
    inherits, unless it carries a [toString] entry of its own: that one is
    not callable, the [valueOf] tried next gives no primitive (the inherited
    one returns the object, an own one is not callable), and the conversion
    is a [TypeError]. *)
Fixpoint ToString (v : json) : outcome string :=
  match v with
  | JNull => Returned "null"
  | JBool b => Returned (if b then "true" else "false")
  | JNum n => Returned (numberToString n)
  | JStr s => Returned s
  | JArr items =>
      (fix joinItems (l : list json) : outcome string :=
         match l with
         | [] => Returned ""
         | x :: rest =>
             bind (match x with JNull => Returned "" | _ => ToString x end) (fun sx =>
             match rest with
             | [] => Returned sx
             | _ => bind (joinItems rest) (fun sr => Returned (sx ++ "," ++ sr))
             end)
         end) items
  | JObj fields =>
      match lookupField "toString" fields with
      | None => Returned "[object Object]"
      | Some _ => Thrown (TypeError "Cannot convert object to primitive value")
      end
  end.

(** [BigInt(v)]. *)
Definition BigInt (v : value) : outcome Z :=
  let ofString := fun s : string =>
    match StringToBigInt s with
    | Some z => Returned z
    | None => Thrown (SyntaxError ("Cannot convert " ++ s ++ " to a BigInt"))
    end in
  match v with
  | None => Thrown (TypeError "Cannot convert undefined to a BigInt")
  | Some JNull => Thrown (TypeError "Cannot convert null to a BigInt")
  | Some (JBool b) => Returned (if b then 1 else 0)
  | Some (JNum n) => BigInt_of_number numberToString n
  | Some (JStr s) => ofString s
  | Some x => bind (ToString x) ofString
  end.

(** [parseInt(v)]; [None] is [NaN]. *)
Definition parseInt (v : json) : outcome (option Z) :=
  bind (ToString v) (fun s => Returned (parseIntString s)).

(** [v.toLowerCase()]: only strings have the method; [lower] is the
    runtime's. *)
Definition callToLowerCase (lower : string -> string) (name : string) (v : json)
    : outcome string :=
  match v with
  | JStr s => Returned (lower s)
  | _ => Thrown (TypeError (name ++ ".toLowerCase is not a function"))
  end.

(** *** What a callback can throw

    The program's own code and the libraries throw [Error] objects ([exn]);
    a callback handed to the program (a workflow handler) can throw any
    value: [throw null], [throw "text"], [throw { code: 1 }]. *)
Inductive thrown : Type :=
| errorObject (e : exn)
| otherValue (v : value).

(** What awaiting a callback gives. *)
Inductive completion (A : Type) : Type :=
| completes (a : A)
| throws (t : thrown).
Arguments completes {A} a.
Arguments throws {A} t.

(** [(err as Error).message] for a caught value: the message of an [Error]
    object, the [message] property of another object, [undefined] for a
    primitive, and a [TypeError] for [null] and [undefined]. *)
Definition messageOf (t : thrown) : outcome value :=
  match t with
  | errorObject e => Returned (Some (JStr (message e)))
  | otherValue v => getProp v "message"
  end.

(** *** Asynchronous calls

    A call of an [async] function over the state [C]: it has settled, or it
    waits at an [await] and, when the event loop resumes it in some state,
    runs to its next [await] or to its end.  Calling the function runs it to
    its first [await]. *)
Inductive Async (C A : Type) : Type :=
| Done (o : outcome A)
| Wait (resume : C -> Async C A * C).
Arguments Done {C A} o.
Arguments Wait {C A} resume.

End JS.

(** ** x402-verifier.ts *)

Module Verifier.
Import JS.
Local Open Scope js_scope.

(** What the module takes from its environment: Node's [Buffer] and [JSON]
    codecs, the runtime's [String.prototype.toLowerCase] and viem's
    [verifyTypedData]. *)
Record TypedData : Type := {
  address : json;
  chainId : Z;
  msg_from : value;
  msg_to : value;
  msg_value : Z;
  msg_validAfter : Z;
  msg_validBefore : Z;
  msg_nonce : value;
  signature : value
}.

Record Host : Type := {
  (** [Buffer.from(s, "base64").toString("utf-8")] *)
  base64ToUtf8 : string -> string;
  (** [Buffer.from(s).toString("base64")] *)
  utf8ToBase64 : string -> string;
  (** [JSON.parse(s)]; [None] when it throws *)
  JSON_parse : string -> option json;
  JSON_stringify : json -> string;
  (** [s.toLowerCase()] *)
  toLowerCase : string -> string;
  (** viem's EIP-712 check: recovers the signer and compares it with
      [address] *)
  verifyTypedData : TypedData -> outcome bool
}.

Definition USDC_DOMAIN_BASE_chainId : Z := 8453.
Definition USDC_DOMAIN_BASE_SEPOLIA_chainId : Z := 84532.

Record X402VerifierConfig : Type := {
  recipientAddress : string;
  requiredAmountUSDC : number;
  simulationMode : option bool;
  rpcUrl : option string;
  network : option string
}.

(** [types.ts]: [X402PaymentVerification].  [payer] is whatever the proof
    carried in that place. *)
Record X402PaymentVerification : Type := {
  valid : bool;
  amount : Z;
  recipient : string;
  payer : json;
  txHash : option string;
  error : option string
}.

Definition decodePaymentProof (h : Host) (proof : string) : outcome json :=
  decoded <-
    match JSON_parse h (base64ToUtf8 h proof) with
    | Some v => Returned v
    | None =>
        match JSON_parse h proof with
        | Some v => Returned v
        | None => Thrown (Error ("Invalid x402 payment proof format: "
                                   ++ slice0 50 proof ++ "..."))
        end
    end ;;
  if falsy (Some decoded) || negb (typeofObject (Some decoded))
  then Thrown (Error "Payment proof is not a JSON object")
  else Returned decoded.

Definition isRealX402Proof (proof : json) : bool :=
  typeofObject (Some proof) &&
  match proof with JNull => false | _ => true end &&
  hasProperty "x402Version" proof &&
  hasProperty "payload" proof &&
  match getProp (Some proof) "payload" with
  | Returned p => typeofObject p
  | Thrown _ => false
  end.

Definition isMockProof (proof : json) : bool :=
  typeofObject (Some proof) &&
  match proof with JNull => false | _ => true end &&
  hasProperty "recipient" proof &&
  hasProperty "amount" proof &&
  hasProperty "payer" proof.

(** [BigInt(Math.round(amountUSDC * 1_000_000))] *)
Definition microUnits (amountUSDC : number) : outcome Z :=
  BigInt_of_number numberToString (Math_round (amountUSDC * 1000000)%float).

(** The wire formats, as the interfaces [X402Authorization],
    [X402RealProof] and [X402MockProof] declare them, and the objects they
    denote. *)
Record X402Authorization : Type := {
  auth_from : string;
  auth_to : string;
  auth_value : string;
  auth_validAfter : string;
  auth_validBefore : string;
  auth_nonce : string
}.

Record X402RealProof : Type := {
  x402Version : number;
  scheme : string;
  real_network : string;
  payload_signature : string;
  payload_authorization : X402Authorization
}.

Record X402MockProof : Type := {
  mock_txHash : string;
  mock_amount : string;
  mock_recipient : string;
  mock_payer : string;
  mock_signature : string;
  mock_timestamp : number;
  mock_network : string
}.

Definition jsonOfAuthorization (a : X402Authorization) : json :=
  JObj [ ("from", JStr (auth_from a));
         ("to", JStr (auth_to a));
         ("value", JStr (auth_value a));
         ("validAfter", JStr (auth_validAfter a));
         ("validBefore", JStr (auth_validBefore a));
         ("nonce", JStr (auth_nonce a)) ].

Definition jsonOfRealProof (p : X402RealProof) : json :=
  JObj [ ("x402Version", JNum (x402Version p));
         ("scheme", JStr (scheme p));
         ("network", JStr (real_network p));
         ("payload", JObj [
            ("signature", JStr (payload_signature p));
            ("authorization", jsonOfAuthorization (payload_authorization p)) ]) ].

Definition jsonOfMockProof (p : X402MockProof) : json :=
  JObj [ ("txHash", JStr (mock_txHash p));
         ("amount", JStr (mock_amount p));
         ("recipient", JStr (mock_recipient p));
         ("payer", JStr (mock_payer p));
         ("signature", JStr (mock_signature p));
         ("timestamp", JNum (mock_timestamp p));
         ("network", JStr (mock_network p)) ].

(** What [decodePaymentProof] promises: [X402RealProof | X402MockProof]. *)
Inductive PaymentProof : Type :=
| Simple (p : X402MockProof)
| Delegated (p : X402RealProof).

Definition jsonOfProof (p : PaymentProof) : json :=
  match p with
  | Simple m => jsonOfMockProof m
  | Delegated r => jsonOfRealProof r
  end.

(** The amount in micro-units as the proof writes it, its recipient and its
    payer. *)
Definition amountText (p : PaymentProof) : string :=
  match p with
  | Simple m => mock_amount m
  | Delegated r => auth_value (payload_authorization r)
  end.

Definition recipientOf (p : PaymentProof) : string :=
  match p with
  | Simple m => mock_recipient m
  | Delegated r => auth_to (payload_authorization r)
  end.

Definition payerOf (p : PaymentProof) : string :=
  match p with
  | Simple m => mock_payer m
  | Delegated r => auth_from (payload_authorization r)
  end.

(** The random hexadecimal tail [Math.random().toString(16).slice(2)] is an
    input of the constructors, as is the clock [Date.now()]. *)
Record Entropy : Type := {
  randomHex1 : string;
  randomHex2 : string;
  nowMs : Z
}.

Definition encodeProof (h : Host) (proof : json) : string :=
  utf8ToBase64 h (JSON_stringify h proof).

(** The proof object [createRealX402Proof] builds for [amount] micro-units. *)
Definition realProofFor (en : Entropy) (fromAddress toAddress : string) (amount : Z)
    (network : option string) (signature : option string) : X402RealProof :=
  let now := nowMs en / 1000 in
  let nonce := "0x" ++ padEnd0 64 (randomHex1 en) in
  {| x402Version := 1%float;
     scheme := "exact";
     real_network := match network with Some n => n | None => "base-sepolia" end;
     payload_signature := match signature with
                          | Some sg => sg
                          | None => "0x" ++ padEnd0 130 (randomHex2 en)
                          end;
     payload_authorization :=
       {| auth_from := fromAddress;
          auth_to := toAddress;
          auth_value := BigInt_toString amount;
          auth_validAfter := numberToString (Z2float (now - 60));
          auth_validBefore := numberToString (Z2float (now + 300));
          auth_nonce := nonce |} |}.

Definition createRealX402Proof (h : Host) (en : Entropy)
    (fromAddress toAddress : string) (amountUSDC : number)
    (network : option string) (signature : option string) : outcome string :=
  amount <- microUnits amountUSDC ;;
  Returned (encodeProof h
              (jsonOfRealProof (realProofFor en fromAddress toAddress amount
                                  network signature))).

(** The proof object [createMockPaymentProof] builds. *)
Definition mockProofFor (en : Entropy) (payer recipient : string) (amount : Z)
    : X402MockProof :=
  {| mock_txHash := "0x" ++ padEnd0 64 (randomHex1 en);
     mock_amount := BigInt_toString amount;
     mock_recipient := recipient;
     mock_payer := payer;
     mock_signature := "0x" ++ padEnd0 130 (randomHex2 en);
     mock_timestamp := Z2float (nowMs en);
     mock_network := "base-sepolia" |}.

Definition createMockPaymentProof (h : Host) (en : Entropy)
    (payer recipient : string) (amountUSDC : number) : outcome string :=
  amount <- microUnits amountUSDC ;;
  Returned (encodeProof h (jsonOfMockProof (mockProofFor en payer recipient amount))).

Definition invalid (amount : Z) (recipient : string) (payer : json)
    (txHash : option string) (error : string) : X402PaymentVerification :=
  {| valid := false; amount := amount; recipient := recipient; payer := payer;
     txHash := txHash; error := Some error |}.

Definition accepted (amount : Z) (recipient : string) (payer : json)
    (txHash : option string) : X402PaymentVerification :=
  {| valid := true; amount := amount; recipient := recipient; payer := payer;
     txHash := txHash; error := None |}.

Definition insufficientMessage (required : number) (amount : Z) : string :=
  "Insufficient payment: required " ++ numberToString required ++ " USDC, got "
    ++ numberToString (Z2float amount / 1000000)%float ++ " USDC".

Definition mismatchMessage (expected got : string) : string :=
  "Payment recipient mismatch: expected " ++ expected ++ ", got " ++ got.

(** [x < y] and [x >= y] where [y] may be NaN. *)
Definition ltNum (x : Z) (y : option Z) : bool :=
  match y with Some b => x <? b | None => false end.
Definition geNum (x : Z) (y : option Z) : bool :=
  match y with Some b => b <=? x | None => false end.

Definition truthy (b : option bool) : bool :=
  match b with Some true => true | _ => false end.

(** The EIP-712 step of [verifyRealX402Proof], the body of its [try]. *)
Definition checkSignature (h : Host) (proof : json) (payload auth : value)
    (payer : json) : outcome bool :=
  nw <- getProp (Some proof) "network" ;;
  let domain := match nw with
                | Some (JStr "base") => USDC_DOMAIN_BASE_chainId
                | _ => USDC_DOMAIN_BASE_SEPOLIA_chainId
                end in
  from <- getProp auth "from" ;;
  to <- getProp auth "to" ;;
  v <- getProp auth "value" ;;
  value <- BigInt v ;;
  va <- getProp auth "validAfter" ;;
  validAfter <- BigInt va ;;
  vb <- getProp auth "validBefore" ;;
  validBefore <- BigInt vb ;;
  nonce <- getProp auth "nonce" ;;
  sg <- getProp payload "signature" ;;
  verifyTypedData h
    {| address := payer; chainId := domain;
       msg_from := from; msg_to := to; msg_value := value;
       msg_validAfter := validAfter; msg_validBefore := validBefore;
       msg_nonce := nonce; signature := sg |}.

(** [now] is [Math.floor(Date.now() / 1000)]. *)
Definition verifyRealX402Proof (h : Host) (config : X402VerifierConfig) (now : Z)
    (proof : json) : outcome X402PaymentVerification :=
  payload <- getProp (Some proof) "payload" ;;
  auth <- getProp payload "authorization" ;;
  v <- getProp auth "value" ;;
  amount <- BigInt (Some (nullish v (JStr "0"))) ;;
  to <- getProp auth "to" ;;
  let recipient := nullish to (JStr "") in
  from <- getProp auth "from" ;;
  let payer := nullish from (JStr "") in
  (* Validate recipient *)
  lowered <- callToLowerCase (toLowerCase h) "recipient" recipient ;;
  let recipient := match recipient with JStr r => r | _ => "" end in
  if negb (String.eqb lowered (toLowerCase h (recipientAddress config))) then
    Returned (invalid amount recipient payer None
                (mismatchMessage (recipientAddress config) recipient))
  else
  (* Validate amount *)
  requiredAmount <- microUnits (requiredAmountUSDC config) ;;
  if amount <? requiredAmount then
    Returned (invalid amount recipient payer None
                (insufficientMessage (requiredAmountUSDC config) amount))
  else
  (* Validate validity window *)
  va <- getProp auth "validAfter" ;;
  validAfter <- parseInt (nullish va (JStr "0")) ;;
  vb <- getProp auth "validBefore" ;;
  validBefore <- parseInt (nullish vb (JStr "0")) ;;
  if ltNum now validAfter then
    iso <- Date_toISOString (option_map (fun a => a * 1000) validAfter) ;;
    Returned (invalid amount recipient payer None
                ("Payment not yet valid (validAfter: " ++ iso ++ ")"))
  else if geNum now validBefore then
    iso <- Date_toISOString (option_map (fun b => b * 1000) validBefore) ;;
    Returned (invalid amount recipient payer None
                ("Payment expired (validBefore: " ++ iso ++ ")"))
  else
  (* In simulation mode, skip EIP-712 signature verification *)
  if truthy (simulationMode config) then
    Returned (accepted amount recipient payer None)
  else
    match checkSignature h proof payload auth payer with
    | Returned true => Returned (accepted amount recipient payer None)
    | Returned false =>
        Returned (invalid amount recipient payer None
          "EIP-712 signature verification failed: signer does not match authorization.from")
    | Thrown err =>
        Returned (invalid amount recipient payer None
          ("EIP-712 verification error: " ++ message err))
    end.

Definition verifyMockProof (h : Host) (config : X402VerifierConfig) (proof : json)
    : outcome X402PaymentVerification :=
  a <- getProp (Some proof) "amount" ;;
  amountText <- ToString (nullish a (JStr "0")) ;;
  amount <- BigInt (Some (JStr amountText)) ;;
  r <- getProp (Some proof) "recipient" ;;
  recipient <- ToString (nullish r (JStr "")) ;;
  p <- getProp (Some proof) "payer" ;;
  payer <- ToString (nullish p (JStr "")) ;;
  t <- getProp (Some proof) "txHash" ;;
  txHash <- (if falsy t then Returned None
             else tx <- ToString (nullish t JNull) ;; Returned (Some tx)) ;;
  if negb (String.eqb (toLowerCase h recipient)
             (toLowerCase h (recipientAddress config))) then
    Returned (invalid amount recipient (JStr payer) txHash
                (mismatchMessage (recipientAddress config) recipient))
  else
  requiredAmount <- microUnits (requiredAmountUSDC config) ;;
  if amount <? requiredAmount then
    Returned (invalid amount recipient (JStr payer) txHash
                (insufficientMessage (requiredAmountUSDC config) amount))
  else
    Returned (accepted amount recipient (JStr payer) txHash).

Definition verify (h : Host) (config : X402VerifierConfig) (now : Z)
    (paymentProof : string) : outcome X402PaymentVerification :=
  if String.eqb paymentProof "" then
    Returned (invalid 0 "" (JStr "") None
                "Missing x402 payment proof (x-payment header required)")
  else
    match decodePaymentProof h paymentProof with
    | Thrown err =>
        Returned (invalid 0 "" (JStr "") None
                    ("Failed to decode payment proof: " ++ message err))
    | Returned decoded =>
        if isRealX402Proof decoded then verifyRealX402Proof h config now decoded
        else if isMockProof decoded then verifyMockProof h config decoded
        else Returned (invalid 0 "" (JStr "") None "Unrecognized payment proof format")
    end.

End Verifier.

(** ** types.ts and cre-registry.ts *)

Module Registry.
Import JS.

Inductive Trigger : Type := http | cron | evm_log.
Inductive Status : Type := success | failed | pending.

Record WorkflowRequest : Type := {
  requestId : string;
  workflowName : string;
  payload : json;
  paymentProof : option string;
  createdAt : string
}.

Record WorkflowResult : Type := {
  res_requestId : string;
  res_workflowName : string;
  status : Status;
  result : value;
  (** declared a string; it holds whatever the [message] of a caught value
      is *)
  error : value;
  executionMs : option Z;
  paymentBlock : option Z
}.

Section WithStore.

(** The world the handlers act on, and the clock [Date.now()] reads off it. *)
Variable S : Type.
Variable clock : S -> Z.

Record CREWorkflowDefinition : Type := {
  name : string;
  description : string;
  priceUSDC : number;
  trigger : Trigger;
  live : bool;
  handler : json -> S -> completion value * S
}.

(** The running system: the handlers' store and a log of the handler calls
    made so far (kept by the model, invisible to the program). *)
Record World : Type := {
  store : S;
  invoked : list (string * json)
}.

(** A [Map<string, CREWorkflowDefinition>]: keys in insertion order. *)
Definition Workflows := list (string * CREWorkflowDefinition).

Fixpoint mapGet (k : string) (m : Workflows) : option CREWorkflowDefinition :=
  match m with
  | [] => None
  | (k', v) :: rest => if String.eqb k k' then Some v else mapGet k rest
  end.

Fixpoint mapSet (k : string) (v : CREWorkflowDefinition) (m : Workflows) : Workflows :=
  match m with
  | [] => [(k, v)]
  | (k', v') :: rest =>
      if String.eqb k k' then (k, v) :: rest else (k', v') :: mapSet k v rest
  end.

Definition mapKeys (m : Workflows) : list string := map fst m.

(** [new CREWorkflowRegistry(workflows)], [builtIn] being
    [BUILT_IN_WORKFLOWS]. *)
Definition newRegistry (builtIn extra : list CREWorkflowDefinition) : Workflows :=
  fold_left (fun m wf => mapSet (name wf) wf m) (builtIn ++ extra) [].

Definition getWorkflow (reg : Workflows) (n : string) : option CREWorkflowDefinition :=
  mapGet n reg.

Definition listWorkflows (reg : Workflows) : list CREWorkflowDefinition := map snd reg.

Definition registerWorkflow (reg : Workflows) (wf : CREWorkflowDefinition) : Workflows :=
  mapSet (name wf) wf reg.

(** [execute(request)].  The [catch] reads [(err as Error).message] of
    whatever the handler threw: on [null] and [undefined] that read is itself
    a [TypeError], which nothing catches. *)
Definition execute (reg : Workflows) (request : WorkflowRequest) (w : World)
    : outcome WorkflowResult * World :=
  let start := clock (store w) in
  match mapGet (workflowName request) reg with
  | None =>
      (Returned
         {| res_requestId := requestId request;
            res_workflowName := workflowName request;
            status := failed;
            result := None;
            error := Some (JStr ("Workflow not found: " ++ workflowName request
                                   ++ ". Available: " ++ join ", " (mapKeys reg)));
            executionMs := Some (clock (store w) - start);
            paymentBlock := None |}, w)
  | Some workflow =>
      let '(r, st) := handler workflow (payload request) (store w) in
      let w' := {| store := st;
                   invoked := (invoked w ++ [(workflowName request, payload request)])%list |} in
      match r with
      | completes v =>
          (Returned
             {| res_requestId := requestId request;
                res_workflowName := workflowName request;
                status := success;
                result := v;
                error := None;
                executionMs := Some (clock st - start);
                paymentBlock := None |}, w')
      | throws err =>
          match messageOf err with
          | Thrown e => (Thrown e, w')
          | Returned m =>
              (Returned
                 {| res_requestId := requestId request;
                    res_workflowName := workflowName request;
                    status := failed;
                    result := None;
                    error := m;
                    executionMs := Some (clock st - start);
                    paymentBlock := None |}, w')
          end
      end
  end.

End WithStore.

Arguments name {S}.
Arguments description {S}.
Arguments priceUSDC {S}.
Arguments trigger {S}.
Arguments live {S}.
Arguments handler {S}.
Arguments store {S}.
Arguments invoked {S}.
Arguments mapGet {S}.
Arguments mapSet {S}.
Arguments mapKeys {S}.
Arguments newRegistry {S}.
Arguments getWorkflow {S}.
Arguments listWorkflows {S}.
Arguments registerWorkflow {S}.
Arguments execute {S}.

End Registry.

(** ** payment-gateway.ts *)

Module Gateway.
Import JS.
Import Registry.

Record PaymentGatewayConfig : Type := {
  recipientAddress : string;
  defaultPriceUSDC : option number;
  simulationMode : option bool;
  debug : option bool
}.

Record GatewayInvokeResult : Type := {
  allowed : bool;
  payment : Verifier.X402PaymentVerification;
  workflowResult : option WorkflowResult;
  pricePaid : option number;
  error : option string
}.

(** [types.ts] *)
Record AgentTaskRequest : Type := {
  task : string;
  params : option json;
  maxBudgetUSDC : option number
}.

Record AgentOrchestrationResult : Type := {
  taskId : string;
  res_task : string;
  workflowsInvoked : list string;
  totalSpentUSDC : number;
  res_result : value;
  paymentGated : bool
}.

Section WithStore.

Variable S : Type.
Variable clock : S -> Z.
Variable host : Verifier.Host.

Record X402CREPaymentGateway : Type := {
  registry : Workflows S;
  config : PaymentGatewayConfig
}.

(** The constructor: [{ defaultPriceUSDC: 0.001, simulationMode: true,
    ...config }]; [registry] is [new CREWorkflowRegistry()] when absent. *)
Definition newGateway (cfg : PaymentGatewayConfig) (reg : Workflows S)
    : X402CREPaymentGateway :=
  {| registry := reg;
     config := {| recipientAddress := recipientAddress cfg;
                  defaultPriceUSDC :=
                    Some (match defaultPriceUSDC cfg with
                          | Some p => p | None => 0.001%float end);
                  simulationMode :=
                    Some (match simulationMode cfg with
                          | Some b => b | None => true end);
                  debug := debug cfg |} |}.

Definition requiredPriceOf (gw : X402CREPaymentGateway) (workflowName : string)
    : number :=
  match getWorkflow (registry gw) workflowName with
  | Some workflow => priceUSDC workflow
  | None => match defaultPriceUSDC (config gw) with
            | Some p => p
            | None => 0.001%float
            end
  end.

Definition verifierConfig (gw : X402CREPaymentGateway) (requiredPrice : number)
    : Verifier.X402VerifierConfig :=
  {| Verifier.recipientAddress := recipientAddress (config gw);
     Verifier.requiredAmountUSDC := requiredPrice;
     Verifier.simulationMode := simulationMode (config gw);
     Verifier.rpcUrl := None;
     Verifier.network := None |}.

(** [invoke]; [uuid] is the identifier [uuidv4()] would draw.  Debug logging
    is not modelled. *)
Definition invoke (gw : X402CREPaymentGateway) (uuid : string)
    (workflowName : string) (payload : json) (paymentProof : string)
    (w : World S) : outcome GatewayInvokeResult * World S :=
  (* 1. Get workflow to determine required price *)
  let requiredPrice := requiredPriceOf gw workflowName in
  (* 2. Verify x402 payment *)
  match Verifier.verify host (verifierConfig gw requiredPrice)
          (clock (store w) / 1000) paymentProof with
  | Thrown err => (Thrown err, w)
  | Returned payment =>
      if negb (Verifier.valid payment) then
        (Returned {| allowed := false;
                     payment := payment;
                     workflowResult := None;
                     pricePaid := None;
                     error := Some (match Verifier.error payment with
                                    | Some e => e
                                    | None => "Payment verification failed"
                                    end) |}, w)
      else
        (* 3. Execute CRE workflow *)
        let request :=
          {| requestId := uuid;
             Registry.workflowName := workflowName;
             payload := payload;
             paymentProof := Some paymentProof;
             createdAt := isoFormat (clock (store w)) |} in
        match execute clock (registry gw) request w with
        | (Thrown err, w') => (Thrown err, w')
        | (Returned wr, w') =>
            (Returned {| allowed := true;
                         payment := payment;
                         workflowResult := Some wr;
                         pricePaid := Some requiredPrice;
                         error := None |}, w')
        end
  end.

(** The keyword routing of [orchestrateAgentTask]. *)
Definition routeTask (task : string) : string :=
  let t := Verifier.toLowerCase host task in
  if includes t "price" || includes t "token" then "price-feed"
  else if includes t "weather" then "weather-oracle"
  else if includes t "compute" || includes t "calculate" then "compute-task"
  else "agent-task-dispatch".

Definition orchestrateAgentTask (gw : X402CREPaymentGateway)
    (taskUuid requestUuid : string) (t : AgentTaskRequest) (paymentProof : string)
    (w : World S) : outcome AgentOrchestrationResult * World S :=
  let workflowName := routeTask (task t) in
  let payload := match params t with
                 | Some p => p
                 | None => JObj [("task", JStr (task t))]
                 end in
  match invoke gw requestUuid workflowName payload paymentProof w with
  | (Thrown err, w') => (Thrown err, w')
  | (Returned r, w') =>
      match allowed r, workflowResult r with
      | true, Some wr =>
          (Returned {| taskId := taskUuid;
                       res_task := task t;
                       workflowsInvoked := [workflowName];
                       totalSpentUSDC :=
                         (0 + match pricePaid r with Some p => p | None => 0 end)%float;
                       res_result := result wr;
                       paymentGated := true |}, w')
      | _, _ =>
          (Thrown (Error (match error r with
                          | Some e => e
                          | None => "Gateway denied request"
                          end)), w')
      end
  end.

End WithStore.

Arguments registry {S}.
Arguments config {S}.
Arguments newGateway {S}.
Arguments requiredPriceOf {S}.
Arguments verifierConfig {S}.
Arguments invoke {S}.
Arguments orchestrateAgentTask {S}.

End Gateway.

(** ** agent-client.ts: results of [invoke], and [batchInvoke] *)

Module AgentClient.
Import JS.

Record InvokeMeta : Type := {
  meta_requestId : option string;
  meta_workflowName : option string;
  meta_executionMs : option number;
  pricePaid : option number;
  paymentTx : option string
}.

Record AgentInvokeResult : Type := {
  success : bool;
  result : value;
  meta : option InvokeMeta;
  error : option string;
  paymentUsed : option string
}.

Record BatchRequest : Type := {
  workflowName : string;
  payload : json
}.

Inductive ItemStatus : Type := item_success | item_failed.

Record BatchItemResult : Type := {
  item_workflowName : string;
  index : nat;
  status : ItemStatus;
  item_result : option AgentInvokeResult;
  item_error : option string
}.

Record BatchResult : Type := {
  totalRequested : nat;
  succeeded : nat;
  failed : nat;
  results : list BatchItemResult;
  totalExecutionMs : Z
}.

(** What [Promise.allSettled] reports for one promise; the reason of a
    rejection is kept as its [message], if it has one. *)
Inductive Settled : Type :=
| fulfilled (v : AgentInvokeResult)
| rejected (reasonMessage : option string).

Definition isSuccess (r : BatchItemResult) : bool :=
  match status r with item_success => true | item_failed => false end.

(** The callback of [settled.map((outcome, index) => ...)]; reading
    [batch[index].workflowName] past the end of [batch] is a [TypeError]. *)
Definition itemOf (batch : list BatchRequest) (outcome : Settled) (index : nat)
    : JS.outcome BatchItemResult :=
  match nth_error batch index with
  | None => Thrown (TypeError "Cannot read properties of undefined (reading 'workflowName')")
  | Some req =>
      let workflowName := workflowName req in
      match outcome with
      | fulfilled invokeResult =>
          if success invokeResult then
            Returned {| item_workflowName := workflowName;
                        index := index;
                        status := item_success;
                        item_result := Some invokeResult;
                        item_error := None |}
          else
            Returned {| item_workflowName := workflowName;
                        index := index;
                        status := item_failed;
                        item_result := Some invokeResult;
                        item_error := Some (match error invokeResult with
                                            | Some e => e
                                            | None => "Workflow returned failure"
                                            end) |}
      | rejected reason =>
          Returned {| item_workflowName := workflowName;
                      index := index;
                      status := item_failed;
                      item_result := None;
                      item_error := Some (match reason with
                                          | Some m => m
                                          | None => "Unknown error"
                                          end) |}
      end
  end.

Fixpoint mapSettled (batch : list BatchRequest) (settled : list Settled) (index : nat)
    : JS.outcome (list BatchItemResult) :=
  match settled with
  | [] => Returned []
  | o :: rest =>
      bind (itemOf batch o index) (fun r =>
      bind (mapSettled batch rest (S index)) (fun rs => Returned (r :: rs)))
  end.

(** The part of [batchInvoke] after [await Promise.allSettled(...)]:
    [elapsed] is [Date.now() - batchStart]. *)
Definition collect (batch : list BatchRequest) (settled : list Settled) (elapsed : Z)
    : JS.outcome BatchResult :=
  bind (mapSettled batch settled 0) (fun results =>
  let succeeded := List.length (filter isSuccess results) in
  Returned {| totalRequested := List.length batch;
              succeeded := succeeded;
              failed := List.length batch - succeeded;
              results := results;
              totalExecutionMs := elapsed |}).

(** What [Promise.allSettled] reports for a promise that has settled with
    [o]: [{ status: "fulfilled", value }] or [{ status: "rejected", reason }]. *)
Definition settlement (o : JS.outcome AgentInvokeResult) : Settled :=
  match o with
  | Returned v => fulfilled v
  | Thrown e => rejected (Some (message e))
  end.

(** [tasks[index] = task] *)
Fixpoint replaceAt {A : Type} (index : nat) (task : A) (tasks : list A) : list A :=
  match tasks, index with
  | [], _ => []
  | _ :: rest, O => task :: rest
  | t :: rest, S i => t :: replaceAt i task rest
  end.

Section WithClient.

(** The state of the client and of what it talks to, the clock read off it,
    and [this.invoke], an [async] method. *)
Variable C : Type.
Variable clock : C -> Z.
Variable invoke : string -> json -> C -> Async C AgentInvokeResult * C.

(** [batch.map(({ workflowName, payload }) => this.invoke(workflowName, payload))]:
    every invocation is started, in the order of the requests, and runs to
    its first [await] before the next one is started. *)
Fixpoint startAll (batch : list BatchRequest) (c : C)
    : list (Async C AgentInvokeResult) * C :=
  match batch with
  | [] => ([], c)
  | req :: rest =>
      let '(task, c1) := invoke (workflowName req) (payload req) c in
      let '(tasks, c2) := startAll rest c1 in
      (task :: tasks, c2)
  end.

(** One turn of the event loop: the invocation at [index] is resumed, if
    there is one and it still waits. *)
Definition resumeAt (index : nat) (tasks : list (Async C AgentInvokeResult)) (c : C)
    : list (Async C AgentInvokeResult) * C :=
  match nth_error tasks index with
  | Some (Wait resume) =>
      let '(task, c') := resume c in
      (replaceAt index task tasks, c')
  | Some (Done _) | None => (tasks, c)
  end.

(** The turns of the event loop, in the order of [schedule]. *)
Fixpoint run (schedule : list nat) (tasks : list (Async C AgentInvokeResult)) (c : C)
    : list (Async C AgentInvokeResult) * C :=
  match schedule with
  | [] => (tasks, c)
  | index :: later =>
      let '(tasks', c') := resumeAt index tasks c in
      run later tasks' c'
  end.

(** What the promise of [Promise.allSettled] is fulfilled with: one outcome
    per promise, in the order of the promises, once all of them have
    settled; [None] while one of them still waits. *)
Fixpoint outcomes (tasks : list (Async C AgentInvokeResult)) : option (list Settled) :=
  match tasks with
  | [] => Some []
  | Done o :: rest =>
      match outcomes rest with
      | Some os => Some (settlement o :: os)
      | None => None
      end
  | Wait _ :: _ => None
  end.

(** [await Promise.allSettled(batch.map(... => this.invoke(...)))] under the
    turns of [schedule]. *)
Definition allSettled (schedule : list nat) (batch : list BatchRequest) (c : C)
    : option (list Settled) * C :=
  let '(tasks, c1) := startAll batch c in
  let '(tasks', c2) := run schedule tasks c1 in
  (outcomes tasks', c2).

(** [batchInvoke(batch)]: [None] while its promise is pending. *)
Definition batchInvoke (schedule : list nat) (batch : list BatchRequest) (c : C)
    : option (JS.outcome BatchResult) * C :=
  let batchStart := clock c in
  match allSettled schedule batch c with
  | (Some settled, c') => (Some (collect batch settled (clock c' - batchStart)), c')
  | (None, c') => (None, c')
  end.

End WithClient.

Arguments startAll {C}.
Arguments resumeAt {C}.
Arguments run {C}.
Arguments outcomes {C}.
Arguments allSettled {C}.
Arguments batchInvoke {C}.

End AgentClient.

(** ** workflow-orchestrator.ts *)

Module Orchestrator.
Import JS.
Import AgentClient.

Record OrchestrationStep : Type := {
  step_workflowName : string;
  step_payload : option json
}.

(** An element of a [WorkflowChain]. *)
Inductive ChainItem : Type :=
| byName (workflowName : string)
| byStep (step : OrchestrationStep).

Definition Transformer := value -> string -> nat -> outcome json.

Record OrchestrationConfig : Type := {
  continueOnFailure : option bool;
  initialPayload : option json;
  payloadTransformer : option Transformer
}.

Inductive StepStatus : Type := step_success | step_failed | step_skipped.

Record StepResult : Type := {
  sr_workflowName : string;
  stepIndex : nat;
  sr_status : StepStatus;
  sr_result : value;
  sr_error : option string;
  sr_paymentProof : option string;
  sr_executionMs : option Z;
  spentUSDC : option number
}.

Inductive RunStatus : Type := completed | partial | run_failed.

Record OrchestrationResult : Type := {
  orchestrationId : string;
  workflowChain : list string;
  steps : list StepResult;
  finalResult : value;
  totalSpentUSDC : number;
  stepsCompleted : nat;
  run_status : RunStatus;
  startedAt : string;
  completedAt : string
}.

Definition normalizeChain (chain : list ChainItem) : list OrchestrationStep :=
  map (fun item =>
         match item with
         | byName n => {| step_workflowName := n; step_payload := None |}
         | byStep st => st
         end) chain.

Fixpoint setField (k : string) (v : json) (fields : list (string * json))
    : list (string * json) :=
  match fields with
  | [] => [(k, v)]
  | (k', v') :: rest =>
      if String.eqb k k' then (k, v) :: rest else (k', v') :: setField k v rest
  end.

(** [{ ...stepResult, previousResult: stepResult }] for a record, else
    [{ previousResult: stepResult }]; a property holding [undefined] is left
    out, as it is when the payload is serialized. *)
Definition defaultTransformer : Transformer :=
  fun stepResult _nextWorkflow _stepIndex =>
    match stepResult with
    | Some (JObj fields) => Returned (JObj (setField "previousResult" (JObj fields) fields))
    | Some v => Returned (JObj [("previousResult", v)])
    | None => Returned (JObj [])
    end.

Definition isStatus (st : StepStatus) (s : StepResult) : bool :=
  match sr_status s, st with
  | step_success, step_success | step_failed, step_failed
  | step_skipped, step_skipped => true
  | _, _ => false
  end.

(** [stepResults.push(s)] *)
Definition push (l : list StepResult) (s : StepResult) : list StepResult :=
  (l ++ [s])%list.

(** [stepResults[stepResults.length - 1] = f(stepResults[stepResults.length - 1])] *)
Fixpoint updateLast (f : StepResult -> StepResult) (l : list StepResult)
    : list StepResult :=
  match l with
  | [] => []
  | [x] => [f x]
  | x :: rest => x :: updateLast f rest
  end.

(** The local variables of [orchestrate] that the loop updates. *)
Record Locals : Type := {
  stepResults : list StepResult;
  currentPayload : json;
  total : number;
  lastSuccessResult : value;
  hasFailure : bool
}.

Section WithClient.

Variable C : Type.
Variable clock : C -> Z.
Variable invoke : string -> json -> C -> outcome AgentInvokeResult * C.

Section Loop.

Variable continueOnFailureFlag : bool.
Variable transformer : Transformer.

(** One turn of [for (let i = 0; i < steps.length; i++)]: [step] is
    [steps[i]] and [next] is [steps[i + 1]], present when
    [i < steps.length - 1]. *)
Definition iteration (step : OrchestrationStep) (next : option OrchestrationStep)
    (i : nat) (v : Locals) (c : C) : Locals * C :=
  let stepStart := clock c in
  (* If chain stopped due to failure and continueOnFailure=false, mark as skipped *)
  if hasFailure v && negb continueOnFailureFlag then
    ({| stepResults :=
          push (stepResults v)
            {| sr_workflowName := step_workflowName step;
               stepIndex := i;
               sr_status := step_skipped;
               sr_result := None; sr_error := None; sr_paymentProof := None;
               sr_executionMs := None; spentUSDC := None |};
        currentPayload := currentPayload v;
        total := total v;
        lastSuccessResult := lastSuccessResult v;
        hasFailure := hasFailure v |}, c)
  else
    (* Use step-level payload override if provided, otherwise use chained payload *)
    let stepPayload := match step_payload step with
                       | Some p => p
                       | None => currentPayload v
                       end in
    match invoke (step_workflowName step) stepPayload c with
    | (Thrown err, c') =>
        (* Network-level error *)
        ({| stepResults :=
              push (stepResults v)
                {| sr_workflowName := step_workflowName step;
                   stepIndex := i;
                   sr_status := step_failed;
                   sr_result := None;
                   sr_error := Some (message err);
                   sr_paymentProof := None;
                   sr_executionMs := Some (clock c' - stepStart);
                   spentUSDC := None |};
            currentPayload := currentPayload v;
            total := total v;
            lastSuccessResult := lastSuccessResult v;
            hasFailure := true |}, c')
    | (Returned invokeResult, c') =>
        let executionMs := clock c' - stepStart in
        if negb (success invokeResult) then
          ({| stepResults :=
                push (stepResults v)
                  {| sr_workflowName := step_workflowName step;
                     stepIndex := i;
                     sr_status := step_failed;
                     sr_result := None;
                     sr_error := Some (match error invokeResult with
                                       | Some e => e
                                       | None => "Workflow invocation failed"
                                       end);
                     sr_paymentProof := paymentUsed invokeResult;
                     sr_executionMs := Some executionMs;
                     spentUSDC := None |};
              currentPayload := currentPayload v;
              total := total v;
              lastSuccessResult := lastSuccessResult v;
              hasFailure := true |}, c')
        else
          (* Step succeeded - extract USDC spent from meta *)
          let pricePaid :=
            match meta invokeResult with
            | Some m => match pricePaid m with Some p => p | None => 0%float end
            | None => 0%float
            end in
          let recorded :=
            push (stepResults v)
              {| sr_workflowName := step_workflowName step;
                 stepIndex := i;
                 sr_status := step_success;
                 sr_result := result invokeResult;
                 sr_error := None;
                 sr_paymentProof := paymentUsed invokeResult;
                 sr_executionMs := Some executionMs;
                 spentUSDC := Some pricePaid |} in
          (* Prepare payload for next step (unless it's the last step) *)
          match next with
          | None =>
              ({| stepResults := recorded;
                  currentPayload := currentPayload v;
                  total := (total v + pricePaid)%float;
                  lastSuccessResult := result invokeResult;
                  hasFailure := hasFailure v |}, c')
          | Some nextStep =>
              match transformer (result invokeResult) (step_workflowName nextStep) i with
              | Returned p =>
                  ({| stepResults := recorded;
                      currentPayload := p;
                      total := (total v + pricePaid)%float;
                      lastSuccessResult := result invokeResult;
                      hasFailure := hasFailure v |}, c')
              | Thrown transformErr =>
                  (* Transformer threw - fail gracefully *)
                  ({| stepResults :=
                        updateLast
                          (fun s =>
                             {| sr_workflowName := sr_workflowName s;
                                stepIndex := stepIndex s;
                                sr_status := step_failed;
                                sr_result := sr_result s;
                                sr_error := Some ("Payload transformer error: "
                                                    ++ message transformErr);
                                sr_paymentProof := sr_paymentProof s;
                                sr_executionMs := sr_executionMs s;
                                spentUSDC := spentUSDC s |})
                          recorded;
                      currentPayload := currentPayload v;
                      total := (total v + pricePaid)%float;
                      lastSuccessResult := result invokeResult;
                      hasFailure := true |}, c')
              end
          end
    end.

(** The loop over the steps from index [i] on. *)
Fixpoint loop (steps : list OrchestrationStep) (i : nat) (v : Locals) (c : C)
    : Locals * C :=
  match steps with
  | [] => (v, c)
  | step :: rest =>
      let '(v', c') := iteration step (List.hd_error rest) i v c in
      loop rest (S i) v' c'
  end.

End Loop.

Definition countStatus (st : StepStatus) (l : list StepResult) : nat :=
  List.length (filter (isStatus st) l).

(** [orchestrate]; [uuid] is the identifier [uuidv4()] would draw. *)
Definition orchestrate (uuid : string) (chain : list ChainItem)
    (config : OrchestrationConfig) (c : C) : OrchestrationResult * C :=
  let startedAt := isoFormat (clock c) in
  let steps := normalizeChain chain in
  let workflowNames := map step_workflowName steps in
  let continueOnFailure := match continueOnFailure config with
                           | Some b => b | None => false end in
  let transformer := match payloadTransformer config with
                     | Some f => f | None => defaultTransformer end in
  let '(v, c') :=
    loop continueOnFailure transformer steps 0
      {| stepResults := [];
         currentPayload := match initialPayload config with
                           | Some p => p | None => JObj [] end;
         total := 0%float;
         lastSuccessResult := None;
         hasFailure := false |} c in
  (* Compute final status *)
  let successCount := countStatus step_success (stepResults v) in
  let failedCount := countStatus step_failed (stepResults v) in
  let status :=
    if Nat.eqb failedCount 0 then completed
    else if continueOnFailure && Nat.ltb 0 successCount then partial
    else run_failed in
  ({| orchestrationId := uuid;
      workflowChain := workflowNames;
      steps := stepResults v;
      finalResult := lastSuccessResult v;
      totalSpentUSDC := total v;
      stepsCompleted :=
        List.length (filter (fun s => negb (isStatus step_skipped s)) (stepResults v));
      run_status := status;
      startedAt := startedAt;
      completedAt := isoFormat (clock c') |}, c').

End WithClient.

Arguments iteration {C}.
Arguments loop {C}.
Arguments orchestrate {C}.

End Orchestrator.

(** ** payment-middleware.ts *)

Module Middleware.
Import JS.

(** USDC contract addresses, for the payment instructions. *)
Definition USDC_BASE_SEPOLIA : string := "0x036CbD53842c5426634e7929541eC2318f3dCF7e".
Definition USDC_BASE : string := "0x833589fCD6eDb6E08f4c7C32D4f71b54bdA02913".

Record X402MiddlewareConfig : Type := {
  recipientAddress : string;
  requiredAmountUSDC : number;
  simulationMode : option bool;
  network : option string;
  description : option string
}.

(** [res.locals.x402Payment] *)
Record X402PaymentContext : Type := {
  valid : bool;
  amount : Z;
  recipient : string;
  payer : json;
  txHash : option string
}.

(** What the middleware reads of the request: [req.headers["x-payment"]] and
    [req.originalUrl]. *)
Record Request : Type := {
  x_payment : option string;
  originalUrl : string
}.

(** What the middleware does: [res.status(status).json(body)], or
    [res.locals.x402Payment = context; next()]. *)
Inductive Reply : Type :=
| respond (status : Z) (body : json)
| next (x402Payment : X402PaymentContext).

Definition networkOf (config : X402MiddlewareConfig) : string :=
  match network config with
  | Some n => n
  | None => "base-sepolia"
  end.

Definition verifierConfig (config : X402MiddlewareConfig) : Verifier.X402VerifierConfig :=
  {| Verifier.recipientAddress := recipientAddress config;
     Verifier.requiredAmountUSDC := requiredAmountUSDC config;
     Verifier.simulationMode := Some (match simulationMode config with
                                      | Some b => b
                                      | None => true
                                      end);
     Verifier.rpcUrl := None;
     Verifier.network := Some (networkOf config) |}.

(** The body of the 402 response. *)
Definition paymentRequired (config : X402MiddlewareConfig) (req : Request)
    (verification : Verifier.X402PaymentVerification) : json :=
  let network := networkOf config in
  let usdcAddress := if String.eqb network "base" then USDC_BASE else USDC_BASE_SEPOLIA in
  let maxAmountRequired :=
    numberToString (Math_round (requiredAmountUSDC config * 1000000)%float) in
  JObj [ ("error", JStr "Payment Required");
         ("message", JStr (match Verifier.error verification with
                           | Some e => e
                           | None => "Valid x402 payment proof required"
                           end));
         ("x402Version", JNum 1%float);
         ("accepts", JArr [
            JObj [ ("scheme", JStr "exact");
                   ("network", JStr network);
                   ("maxAmountRequired", JStr maxAmountRequired);
                   ("resource", JStr (originalUrl req));
                   ("description", JStr (match description config with
                                         | Some d => d
                                         | None => "CRE Workflow Execution"
                                         end));
                   ("mimeType", JStr "application/json");
                   ("payTo", JStr (recipientAddress config));
                   ("maxTimeoutSeconds", JNum 300%float);
                   ("asset", JStr usdcAddress);
                   ("extra", JObj [ ("name", JStr "USD Coin");
                                    ("version", JStr "2") ]) ] ]) ].

(** [requireX402Payment(config)], the middleware it returns applied to a
    request; [now] is the second the verifier reads off the clock. *)
Definition requireX402Payment (h : Verifier.Host) (config : X402MiddlewareConfig)
    (now : Z) (req : Request) : outcome Reply :=
  let paymentProof := match x_payment req with
                      | Some p => p
                      | None => ""
                      end in
  bind (Verifier.verify h (verifierConfig config) now paymentProof) (fun verification =>
  if negb (Verifier.valid verification) then
    Returned (respond 402 (paymentRequired config req verification))
  else
    (* Attach verified payment context for downstream handlers *)
    Returned (next {| valid := true;
                      amount := Verifier.amount verification;
                      recipient := Verifier.recipient verification;
                      payer := Verifier.payer verification;
                      txHash := Verifier.txHash verification |})).

End Middleware.

(** ** gateway.ts: the routes of the HTTP server

    [GET /health] reports the status of [cre-handler.js], which is not among
    the sources; it is left out. *)

Module Server.
Import JS.
Import Registry.

Record Response : Type := {
  statusCode : Z;
  body : json
}.

(** [res.json(body)] answers with status 200. *)
Definition ok (body : json) : Response := {| statusCode := 200; body := body |}.

(** A property whose value may be [undefined]: it is then left out of the
    JSON text. *)
Definition optional (k : string) (v : value) : list (string * json) :=
  match v with
  | Some x => [(k, x)]
  | None => []
  end.

(** The error handler: [res.status(500).json({ error, message })]. *)
Definition errorHandler (err : exn) : Response :=
  {| statusCode := 500;
     body := JObj [ ("error", JStr "Internal server error");
                    ("message", JStr (message err)) ] |}.

(** What the routes read of a request: the [:workflow] parameter, the
    [x-payment] header and the body as [express.json()] parsed it. *)
Record Request : Type := {
  param_workflow : string;
  x_payment : option string;
  req_body : json
}.

Definition triggerName (t : Trigger) : string :=
  match t with
  | http => "http"
  | cron => "cron"
  | evm_log => "evm-log"
  end.

Section WithStore.

Variable S : Type.
Variable clock : S -> Z.
Variable host : Verifier.Host.

(** [process.env.RECIPIENT_ADDRESS ?? "0x7483..."],
    [process.env.SIMULATION_MODE !== "false"] and
    [process.env.DEBUG === "true"]. *)
Variable RECIPIENT_ADDRESS : string.
Variable SIMULATION_MODE : bool.
Variable DEBUG : bool.

(** The gateway over the registry [reg] the module holds. *)
Definition gateway (reg : Workflows S) : Gateway.X402CREPaymentGateway S :=
  Gateway.newGateway
    {| Gateway.recipientAddress := RECIPIENT_ADDRESS;
       Gateway.defaultPriceUSDC := None;
       Gateway.simulationMode := Some SIMULATION_MODE;
       Gateway.debug := Some DEBUG |}
    reg.

(** [GET /workflows] *)
Definition workflowInfo (wf : CREWorkflowDefinition S) : json :=
  JObj [ ("name", JStr (name wf));
         ("description", JStr (description wf));
         ("priceUSDC", JNum (priceUSDC wf));
         ("trigger", JStr (triggerName (trigger wf)));
         ("live", JBool (live wf));
         ("payment", JObj [ ("recipient", JStr RECIPIENT_ADDRESS);
                            ("amount", JNum (priceUSDC wf));
                            ("currency", JStr "USDC");
                            ("network", JStr "base-sepolia");
                            ("header", JStr "x-payment") ]) ].

Definition getWorkflows (reg : Workflows S) : Response :=
  let workflows := map workflowInfo (listWorkflows reg) in
  ok (JObj [ ("workflows", JArr workflows);
             ("count", JNum (Z2float (Z.of_nat (List.length workflows))));
             ("simulationMode", JBool SIMULATION_MODE);
             ("message",
              JStr (if SIMULATION_MODE
                    then "Running in simulation mode. x402 payment proofs are validated structurally."
                    else "Running in production mode. x402 payments verified on-chain.")) ]).

(** [POST /invoke/:workflow]; [uuid] is the identifier the gateway draws
    for the request. *)
Definition postInvoke (reg : Workflows S) (uuid : string) (req : Request)
    (w : World S) : Response * World S :=
  let workflowName := param_workflow req in
  let paymentProof := match x_payment req with
                      | Some p => p
                      | None => ""
                      end in
  let payload := req_body req in
  match Gateway.invoke clock host (gateway reg) uuid workflowName payload paymentProof w with
  | (Thrown err, w') => (errorHandler err, w')
  | (Returned result, w') =>
      if negb (Gateway.allowed result) then
        ({| statusCode := 402;
            body :=
              JObj ([ ("error", JStr "Payment Required") ]
                    ++ optional "message" (option_map JStr (Gateway.error result))
                    ++ [ ("required",
                          JObj [ ("header", JStr "x-payment");
                                 ("amount",
                                  JNum (match getWorkflow reg workflowName with
                                        | Some wf => priceUSDC wf
                                        | None => 0.001%float
                                        end));
                                 ("currency", JStr "USDC");
                                 ("recipient", JStr RECIPIENT_ADDRESS);
                                 ("network", JStr "base-sepolia") ]) ]) |}, w')
      else
        let wr := Gateway.workflowResult result in
        (ok (JObj ([ ("success", JBool true) ]
                   ++ optional "result" (match wr with
                                         | Some r => Registry.result r
                                         | None => None
                                         end)
                   ++ [ ("meta",
                         JObj (optional "requestId"
                                 (option_map (fun r => JStr (res_requestId r)) wr)
                               ++ [ ("workflowName", JStr workflowName) ]
                               ++ optional "executionMs"
                                    (match wr with
                                     | Some r =>
                                         option_map (fun ms => JNum (Z2float ms))
                                           (executionMs r)
                                     | None => None
                                     end)
                               ++ optional "pricePaid"
                                    (option_map JNum (Gateway.pricePaid result))
                               ++ optional "paymentTx"
                                    (option_map JStr
                                       (Verifier.txHash (Gateway.payment result)))) ) ])),
         w')
  end.

(** [POST /agent/task]; the body is read as an [AgentTaskRequest]. *)
Definition postAgentTask (reg : Workflows S) (taskUuid requestUuid : string)
    (req : Request) (w : World S) : Response * World S :=
  let paymentProof := match x_payment req with
                      | Some p => p
                      | None => ""
                      end in
  match getProp (Some (req_body req)) "task" with
  | Thrown err => (errorHandler err, w)
  | Returned t =>
      if falsy t then
        ({| statusCode := 400;
            body := JObj [ ("error", JStr "Missing 'task' field in request body") ] |}, w)
      else
        match t with
        | Some (JStr text) =>
            let params := match getProp (Some (req_body req)) "params" with
                          | Returned (Some JNull) | Returned None | Thrown _ => None
                          | Returned (Some p) => Some p
                          end in
            match Gateway.orchestrateAgentTask clock host (gateway reg)
                    taskUuid requestUuid
                    {| Gateway.task := text; Gateway.params := params;
                       Gateway.maxBudgetUSDC := None |}
                    paymentProof w with
            | (Thrown err, w') => (errorHandler err, w')
            | (Returned result, w') =>
                (ok (JObj ([ ("success", JBool true);
                             ("taskId", JStr (Gateway.taskId result));
                             ("task", JStr (Gateway.res_task result)) ]
                           ++ optional "result" (Gateway.res_result result)
                           ++ [ ("meta",
                                 JObj [ ("workflowsInvoked",
                                         JArr (map JStr (Gateway.workflowsInvoked result)));
                                        ("totalSpentUSDC",
                                         JNum (Gateway.totalSpentUSDC result));
                                        ("paymentGated",
                                         JBool (Gateway.paymentGated result)) ]) ])),
                 w')
            end
        | _ =>
            (* [task.task.toLowerCase()] on a value that is not a string *)
            (errorHandler (TypeError "task.task.toLowerCase is not a function"), w)
        end
  end.

End WithStore.

Arguments gateway {S}.
Arguments workflowInfo {S}.
Arguments getWorkflows {S}.
Arguments postInvoke {S}.
Arguments postAgentTask {S}.

End Server.

(** ** wallet-signer.ts *)

Module WalletSigner.
Import JS.
Import Verifier.

(** USDC contract addresses. *)
Definition USDC_ADDRESS_base : string := "0x833589fCD6eDb6E08f4c7C32D4f71b54bdA02913".
Definition USDC_ADDRESS_base_sepolia : string := "0x036CbD53842c5426634e7929541eC2318f3dCF7e".

(** An EIP-712 domain. *)
Record Domain : Type := {
  domain_name : string;
  domain_version : string;
  domain_chainId : Z;
  verifyingContract : string
}.

(** [USDC_EIP712_DOMAIN[network]]: [undefined] for a network that is not a
    key of the table. *)
Definition USDC_EIP712_DOMAIN (network : string) : option Domain :=
  if String.eqb network "base" then
    Some {| domain_name := "USD Coin"; domain_version := "2"; domain_chainId := 8453;
            verifyingContract := USDC_ADDRESS_base |}
  else if String.eqb network "base-sepolia" then
    Some {| domain_name := "USD Coin"; domain_version := "2"; domain_chainId := 84532;
            verifyingContract := USDC_ADDRESS_base_sepolia |}
  else None.

(** The message of a [TransferWithAuthorization]. *)
Record Authorization : Type := {
  from : string;
  to : string;
  value : Z;
  validAfter : Z;
  validBefore : Z;
  nonce : string
}.

(** What the module takes from viem: the account of a private key (its
    address is all that is read of it) and the signing of typed data; [chain]
    is the chain of the wallet client, [base] or [baseSepolia]. *)
Record Account : Type := {
  address : string;
  source : string
}.

Record Viem : Type := {
  privateKeyToAccount : string -> outcome Account;
  signTypedData : Account -> string -> option Domain -> Authorization -> outcome string
}.

Record WalletSignerConfig : Type := {
  privateKey : string;
  config_network : option string
}.

Record CreateProofOptions : Type := {
  recipient : string;
  amountUSDC : number;
  options_network : option string;
  validForSeconds : option number
}.

Record WalletSigner : Type := {
  account : Account;
  network : string
}.

Definition startsWith0x (s : string) : bool := String.prefix "0x" s.

(** [new WalletSigner(config)] *)
Definition newWalletSigner (viem : Viem) (config : WalletSignerConfig)
    : outcome WalletSigner :=
  let pk := if startsWith0x (privateKey config) then privateKey config
            else "0x" ++ privateKey config in
  bind (privateKeyToAccount viem pk) (fun account =>
  Returned {| account := account;
              network := match config_network config with
                         | Some n => n
                         | None => "base-sepolia"
                         end |}).

(** [b.toString(16)] for an element of a [Uint8Array]. *)
Definition hexDigit (v : Z) : ascii :=
  ascii_of_nat (Z.to_nat (if v <? 10 then 48 + v else 87 + v)).

Definition byteToString16 (b : byte) : string :=
  let n := Z.of_N (Byte.to_N b) in
  if n <? 16 then String (hexDigit n) EmptyString
  else String (hexDigit (n / 16)) (String (hexDigit (n mod 16)) EmptyString).

(** [generateNonce()]; [bytes] are the 32 bytes [crypto.getRandomValues]
    wrote. *)
Definition generateNonce (bytes : list byte) : string :=
  "0x" ++ join "" (map (fun b => padStart0 2 (byteToString16 b)) bytes).

(** The randomness and the clock a signing reads. *)
Record Entropy : Type := {
  randomBytes : list byte;
  nowMs : Z
}.

(** [createPaymentProof(options)] *)
Definition createPaymentProof (h : Host) (viem : Viem) (signer : WalletSigner)
    (en : Entropy) (options : CreateProofOptions) : outcome string :=
  let network := match options_network options with
                 | Some n => n
                 | None => network signer
                 end in
  let validForSeconds := match validForSeconds options with
                         | Some v => v
                         | None => 300%float
                         end in
  let now := nowMs en / 1000 in
  (* Convert USDC amount to micro-units (6 decimals) *)
  bind (microUnits (amountUSDC options)) (fun valueInMicroUnits =>
  (* Random 32-byte nonce (prevents replay attacks) *)
  let nonce := generateNonce (randomBytes en) in
  bind (BigInt_of_number numberToString (Z2float now + validForSeconds)%float)
    (fun expiry =>
  let authorization :=
    {| from := address (account signer);
       to := recipient options;
       value := valueInMicroUnits;
       validAfter := now - 30;
       validBefore := expiry;
       nonce := nonce |} in
  let domain := USDC_EIP712_DOMAIN network in
  let chain := if String.eqb network "base" then "base" else "baseSepolia" in
  (* Sign EIP-712 typed data *)
  bind (signTypedData viem (account signer) chain domain authorization) (fun signature =>
  let proof :=
    {| x402Version := 1%float;
       scheme := "exact";
       real_network := network;
       payload_signature := signature;
       payload_authorization :=
         {| auth_from := from authorization;
            auth_to := to authorization;
            auth_value := BigInt_toString (value authorization);
            auth_validAfter := BigInt_toString (validAfter authorization);
            auth_validBefore := BigInt_toString (validBefore authorization);
            auth_nonce := nonce |} |} in
  Returned (encodeProof h (jsonOfRealProof proof))))).

(** [WalletSigner.fromEnv(network)]; [env] is [process.env.PAYER_PRIVATE_KEY]. *)
Definition fromEnv (viem : Viem) (env : option string) (network : option string)
    : outcome (option WalletSigner) :=
  match env with
  | None | Some EmptyString => Returned None
  | Some privateKey =>
      bind (newWalletSigner viem {| privateKey := privateKey; config_network := network |})
        (fun s => Returned (Some s))
  end.




End WalletSigner.

(** ** agent-client.ts: the client and its requests *)

Module Client.
Import JS.

Record AgentClientConfig : Type := {
  gatewayUrl : string;
  payerAddress : string;
  recipientAddress : option string;
  simulationMode : option bool;
  network : option string;
  privateKey : option string
}.

Record PaymentInfo : Type := {
  pay_recipient : string;
  pay_amount : number;
  pay_currency : string;
  pay_network : string;
  pay_header : string
}.

Record WorkflowInfo : Type := {
  name : string;
  description : string;
  priceUSDC : number;
  trigger : string;
  live : bool;
  payment : PaymentInfo
}.

Record WorkflowDiscoveryResult : Type := {
  workflows : list WorkflowInfo;
  count : number;
  discovered_simulationMode : bool
}.

Record AgentTaskResult : Type := {
  task_success : bool;
  task_taskId : option string;
  task_task : option string;
  task_result : value;
  task_error : option string;
  task_paymentUsed : option string
}.

(** A response of [fetch], its body read by [response.json()] at the type
    [T] the client casts it to. *)
Record Response (T : Type) : Type := {
  ok : bool;
  status : Z;
  statusText : string;
  jsonBody : outcome T
}.
Arguments ok {T}.
Arguments status {T}.
Arguments statusText {T}.
Arguments jsonBody {T}.

(** The body of a reply to a POST, a [Record<string, unknown>], by the
    properties the client reads: [message], [error], [result],
    [meta as AgentInvokeResult["meta"]], [taskId] and [task]. *)
Record ReplyBody : Type := {
  body_message : value;
  body_error : value;
  body_result : value;
  body_meta : option AgentClient.InvokeMeta;
  body_taskId : option string;
  body_task : option string
}.

(** The client: its configuration, its cache and its signer. *)
Record AgentClient : Type := {
  config : AgentClientConfig;
  cachedWorkflows : option (list WorkflowInfo);
  walletSigner : option WalletSigner.WalletSigner
}.

Definition isSimulation (c : AgentClientConfig) : bool :=
  match simulationMode c with Some true => true | _ => false end.

(** [new AgentClient(config)]; [env] is [process.env.PAYER_PRIVATE_KEY].
    A [None] in the configuration is a property that is left out (one that
    is written out as [undefined] would override the default). *)
Definition newAgentClient (viem : WalletSigner.Viem) (env : option string)
    (config : AgentClientConfig) : outcome AgentClient :=
  let config :=
    {| gatewayUrl := gatewayUrl config;
       payerAddress := payerAddress config;
       recipientAddress := recipientAddress config;
       simulationMode := Some (match simulationMode config with
                               | Some b => b
                               | None => true
                               end);
       network := Some (match network config with
                        | Some n => n
                        | None => "base-sepolia"
                        end);
       privateKey := privateKey config |} in
  (* Wire up real wallet signer for production mode *)
  if negb (isSimulation config) then
    let pk := match privateKey config with
              | Some k => Some k
              | None => env
              end in
    match pk with
    | None | Some EmptyString =>
        Returned {| config := config; cachedWorkflows := None; walletSigner := None |}
    | Some k =>
        bind (WalletSigner.newWalletSigner viem
                {| WalletSigner.privateKey := k;
                   WalletSigner.config_network := network config |})
          (fun signer =>
        Returned {| config := config; cachedWorkflows := None;
                    walletSigner := Some signer |})
    end
  else
    Returned {| config := config; cachedWorkflows := None; walletSigner := None |}.

(** [clearCache()] *)
Definition clearCache (c : AgentClient) : AgentClient :=
  {| config := config c; cachedWorkflows := None; walletSigner := walletSigner c |}.

Definition networkOf (c : AgentClient) : string :=
  match network (config c) with
  | Some n => n
  | None => "base-sepolia"
  end.

(** The getters [hasRealSigner] and [signerAddress]. *)
Definition hasRealSigner (c : AgentClient) : bool :=
  match walletSigner c with Some _ => true | None => false end.

Definition signerAddress (c : AgentClient) : string :=
  match walletSigner c with
  | Some s => WalletSigner.address (WalletSigner.account s)
  | None => payerAddress (config c)
  end.

(** [!s] for a string that may be absent. *)
Definition missing (s : option string) : bool :=
  match s with
  | None | Some EmptyString => true
  | Some _ => false
  end.

(** [`HTTP ${response.status}`] and the like: a status code in a template. *)
Definition statusText10 (status : Z) : string := numberToString (Z2float status).

Section WithNetwork.

(** The network and what is behind it; the randomness and the clock are
    read off it. *)
Variable N : Type.
Variable h : Verifier.Host.
Variable viem : WalletSigner.Viem.
(** [fetch(url)] and [fetch(url, { method: "POST", headers: { "Content-Type":
    "application/json", "x-payment": proof }, body })]. *)
Variable fetchGet : string -> N -> outcome (Response WorkflowDiscoveryResult) * N.
Variable fetchPost : string -> string -> string -> N -> outcome (Response ReplyBody) * N.
Variable entropy : N -> Verifier.Entropy.
Variable signerEntropy : N -> WalletSigner.Entropy.

Definition State : Type := (AgentClient * N)%type.

(** [discoverWorkflows()] *)
Definition discoverWorkflows (st : State) : outcome (list WorkflowInfo) * State :=
  let '(c, n) := st in
  match fetchGet (gatewayUrl (config c) ++ "/workflows") n with
  | (Thrown err, n') => (Thrown err, (c, n'))
  | (Returned response, n') =>
      if negb (ok response) then
        (Thrown (Error ("Failed to discover workflows: " ++ statusText10 (status response)
                          ++ " " ++ statusText response)), (c, n'))
      else
        match jsonBody response with
        | Thrown err => (Thrown err, (c, n'))
        | Returned data =>
            (* Auto-set recipient from first workflow if not configured *)
            let recipient :=
              match workflows data with
              | first :: _ =>
                  if missing (recipientAddress (config c))
                  then Some (pay_recipient (payment first))
                  else recipientAddress (config c)
              | [] => recipientAddress (config c)
              end in
            (Returned (workflows data),
             ({| config := {| gatewayUrl := gatewayUrl (config c);
                              payerAddress := payerAddress (config c);
                              recipientAddress := recipient;
                              simulationMode := simulationMode (config c);
                              network := network (config c);
                              privateKey := privateKey (config c) |};
                 cachedWorkflows := Some (workflows data);
                 walletSigner := walletSigner c |}, n'))
        end
  end.

(** [constructPaymentProofAsync(recipient, amountUSDC)] *)
Definition constructPaymentProofAsync (c : AgentClient) (n : N)
    (recipient : string) (amountUSDC : number) : outcome string :=
  if isSimulation (config c) then
    Verifier.createMockPaymentProof h (entropy n) (payerAddress (config c))
      recipient amountUSDC
  else
    (* Production: real EIP-3009 signing with wallet private key *)
    match walletSigner c with
    | Some signer =>
        WalletSigner.createPaymentProof h viem signer (signerEntropy n)
          {| WalletSigner.recipient := recipient;
             WalletSigner.amountUSDC := amountUSDC;
             WalletSigner.options_network := network (config c);
             WalletSigner.validForSeconds := None |}
    | None =>
        (* Fallback: structurally valid proof with mock signature *)
        Verifier.createRealX402Proof h (entropy n) (payerAddress (config c))
          recipient amountUSDC (Some (networkOf c)) None
    end.

(** [constructPaymentProof(recipient, amountUSDC)], the synchronous one. *)
Definition constructPaymentProof (c : AgentClient) (n : N)
    (recipient : string) (amountUSDC : number) : outcome string :=
  if isSimulation (config c) then
    Verifier.createMockPaymentProof h (entropy n) (payerAddress (config c))
      recipient amountUSDC
  else
    Verifier.createRealX402Proof h (entropy n) (payerAddress (config c))
      recipient amountUSDC (Some (networkOf c)) None.

(** [if (!this.cachedWorkflows) await this.discoverWorkflows()] *)
Definition ensureDiscovered (st : State) : outcome unit * State :=
  match cachedWorkflows (fst st) with
  | Some _ => (Returned tt, st)
  | None =>
      match discoverWorkflows st with
      | (Thrown err, st') => (Thrown err, st')
      | (Returned _, st') => (Returned tt, st')
      end
  end.

(** [this.cachedWorkflows?.find((w) => w.name === workflowName)] *)
Definition findWorkflow (c : AgentClient) (workflowName : string) : option WorkflowInfo :=
  match cachedWorkflows c with
  | Some ws => List.find (fun w => String.eqb (name w) workflowName) ws
  | None => None
  end.

(** [workflow?.payment.recipient ?? this.config.recipientAddress ?? ""] *)
Definition recipientFor (c : AgentClient) (workflow : option WorkflowInfo) : string :=
  match workflow with
  | Some w => pay_recipient (payment w)
  | None => match recipientAddress (config c) with
            | Some r => r
            | None => ""
            end
  end.

(** [String(data.message ?? data.error ?? `HTTP ${response.status}`)] *)
Definition errorText (data : ReplyBody) (status : Z) : outcome string :=
  ToString (nullish (body_message data)
              (nullish (body_error data) (JStr ("HTTP " ++ statusText10 status)))).

(** [invoke(workflowName, payload)] *)
Definition invoke (workflowName : string) (payload : json) (st : State)
    : outcome AgentClient.AgentInvokeResult * State :=
  match ensureDiscovered st with
  | (Thrown err, st') => (Thrown err, st')
  | (Returned _, (c, n)) =>
      let workflow := findWorkflow c workflowName in
      let priceUSDC := match workflow with
                       | Some w => priceUSDC w
                       | None => 0.001%float
                       end in
      let recipient := recipientFor c workflow in
      if String.eqb recipient "" then
        (Thrown (Error "No recipient address available. Call discoverWorkflows() first or set recipientAddress in config."),
         (c, n))
      else
        match constructPaymentProofAsync c n recipient priceUSDC with
        | Thrown err => (Thrown err, (c, n))
        | Returned paymentProof =>
            match fetchPost (gatewayUrl (config c) ++ "/invoke/" ++ workflowName)
                    paymentProof (Verifier.JSON_stringify h payload) n with
            | (Thrown err, n') => (Thrown err, (c, n'))
            | (Returned response, n') =>
                match jsonBody response with
                | Thrown err => (Thrown err, (c, n'))
                | Returned data =>
                    if negb (ok response) then
                      match errorText data (status response) with
                      | Thrown err => (Thrown err, (c, n'))
                      | Returned text =>
                          (Returned {| AgentClient.success := false;
                                       AgentClient.result := None;
                                       AgentClient.meta := None;
                                       AgentClient.error := Some text;
                                       AgentClient.paymentUsed := Some paymentProof |},
                           (c, n'))
                      end
                    else
                      (Returned {| AgentClient.success := true;
                                   AgentClient.result := body_result data;
                                   AgentClient.meta := body_meta data;
                                   AgentClient.error := None;
                                   AgentClient.paymentUsed := Some paymentProof |},
                       (c, n'))
                end
            end
        end
  end.

(** [submitTask(task, params)] *)
Definition submitTask (task : string) (params : value) (st : State)
    : outcome AgentTaskResult * State :=
  match ensureDiscovered st with
  | (Thrown err, st') => (Thrown err, st')
  | (Returned _, (c, n)) =>
      let dispatchWorkflow := findWorkflow c "agent-task-dispatch" in
      let priceUSDC := match dispatchWorkflow with
                       | Some w => priceUSDC w
                       | None => 0.01%float
                       end in
      let recipient := recipientFor c dispatchWorkflow in
      if String.eqb recipient "" then
        (Thrown (Error "No recipient address available."), (c, n))
      else
        match constructPaymentProofAsync c n recipient priceUSDC with
        | Thrown err => (Thrown err, (c, n))
        | Returned paymentProof =>
            let body :=
              Verifier.JSON_stringify h
                (JObj (("task", JStr task)
                       :: match params with
                          | Some p => [("params", p)]
                          | None => []
                          end)) in
            match fetchPost (gatewayUrl (config c) ++ "/agent/task") paymentProof body n with
            | (Thrown err, n') => (Thrown err, (c, n'))
            | (Returned response, n') =>
                match jsonBody response with
                | Thrown err => (Thrown err, (c, n'))
                | Returned data =>
                    if negb (ok response) then
                      match errorText data (status response) with
                      | Thrown err => (Thrown err, (c, n'))
                      | Returned text =>
                          (Returned {| task_success := false;
                                       task_taskId := None;
                                       task_task := None;
                                       task_result := None;
                                       task_error := Some text;
                                       task_paymentUsed := Some paymentProof |},
                           (c, n'))
                      end
                    else
                      (Returned {| task_success := true;
                                   task_taskId := body_taskId data;
                                   task_task := body_task data;
                                   task_result := body_result data;
                                   task_error := None;
                                   task_paymentUsed := Some paymentProof |},
                       (c, n'))
                end
            end
        end
  end.

End WithNetwork.

Arguments State N : clear implicits.
Arguments discoverWorkflows {N}.
Arguments constructPaymentProofAsync {N}.
Arguments constructPaymentProof {N}.
Arguments ensureDiscovered {N}.
Arguments invoke {N}.
Arguments submitTask {N}.

End Client.

(** ** A reference host: Node's base64 and JSON codecs

    Used to run the embedding on concrete wire strings.  Text is ASCII: bytes
    above 127 are carried as they are. *)

Module NodeHost.
Import JS.

(** *** base64 *)

(** The value of a character of the base64 alphabet; Node's decoder also
    takes the URL-safe [-] and [_]. *)
Definition unbase64 (c : ascii) : option Z :=
  let n := Z.of_nat (nat_of_ascii c) in
  if (65 <=? n) && (n <=? 90) then Some (n - 65)
  else if (97 <=? n) && (n <=? 122) then Some (n - 71)
  else if (48 <=? n) && (n <=? 57) then Some (n + 4)
  else if (n =? 43) || (n =? 45) then Some 62
  else if (n =? 47) || (n =? 95) then Some 63
  else None.

(** The legal characters up to the first [=]: illegal ones are skipped. *)
Fixpoint sextets (s : string) : list Z :=
  match s with
  | EmptyString => []
  | String "=" _ => []
  | String c r =>
      match unbase64 c with
      | Some v => v :: sextets r
      | None => sextets r
      end
  end.

Definition byteChar (b : Z) : ascii := ascii_of_nat (Z.to_nat (b mod 256)).

Fixpoint decodeGroups (l : list Z) : string :=
  match l with
  | a :: b :: c :: d :: rest =>
      let n := a * 262144 + b * 4096 + c * 64 + d in
      String (byteChar (n / 65536))
        (String (byteChar (n / 256)) (String (byteChar n) (decodeGroups rest)))
  | [a; b; c] =>
      let n := a * 262144 + b * 4096 + c * 64 in
      String (byteChar (n / 65536)) (String (byteChar (n / 256)) EmptyString)
  | [a; b] =>
      String (byteChar ((a * 262144 + b * 4096) / 65536)) EmptyString
  | _ => EmptyString
  end.

Definition base64ToUtf8 (s : string) : string := decodeGroups (sextets s).

Definition base64Char (v : Z) : ascii :=
  let v := v mod 64 in
  ascii_of_nat (Z.to_nat
    (if v <? 26 then v + 65
     else if v <? 52 then v + 71
     else if v <? 62 then v - 4
     else if v =? 62 then 43 else 47)).

Definition code (c : ascii) : Z := Z.of_nat (nat_of_ascii c).

Fixpoint utf8ToBase64 (s : string) : string :=
  match s with
  | String a (String b (String c rest)) =>
      let n := code a * 65536 + code b * 256 + code c in
      String (base64Char (n / 262144)) (String (base64Char (n / 4096))
        (String (base64Char (n / 64)) (String (base64Char n) (utf8ToBase64 rest))))
  | String a (String b EmptyString) =>
      let n := code a * 65536 + code b * 256 in
      String (base64Char (n / 262144)) (String (base64Char (n / 4096))
        (String (base64Char (n / 64)) "="))
  | String a EmptyString =>
      let n := code a * 65536 in
      String (base64Char (n / 262144)) (String (base64Char (n / 4096)) "==")
  | EmptyString => EmptyString
  end.

(** *** Decimal literals as numbers *)

(** The binary64 value nearest to [m * 10^e], for [0 <= m]. *)
Definition decimalToNumber (m e : Z) : number :=
  if m =? 0 then 0%float
  else if 0 <=? e then Z2float (m * 10 ^ e)
  else
    let den := 10 ^ (- e) in
    let shift := Z.max 0 (Z.log2 den - Z.log2 m + 66) in
    let q := m * 2 ^ shift / den in
    let sticky := if m * 2 ^ shift mod den =? 0 then 0 else 1 in
    SF2Prim (binary_normalize prec emax (2 * q + sticky) (- shift - 1) false).

(** *** JSON.parse *)

Definition isJsonWs (c : ascii) : bool :=
  let n := nat_of_ascii c in
  ((n =? 32) || (n =? 9) || (n =? 10) || (n =? 13))%nat.

Fixpoint skipWs (s : string) : string :=
  match s with
  | String c r => if isJsonWs c then skipWs r else s
  | EmptyString => EmptyString
  end.

Definition isDigit (c : ascii) : bool :=
  let n := nat_of_ascii c in ((48 <=? n) && (n <=? 57))%nat.

(** The leading decimal digits of [s] and what follows them. *)
Fixpoint spanDigits (s : string) : string * string :=
  match s with
  | String c r =>
      if isDigit c then let '(d, t) := spanDigits r in (String c d, t)
      else (EmptyString, s)
  | EmptyString => (EmptyString, EmptyString)
  end.

Definition digitsZ (d : string) : Z :=
  match digitsValue 10 d 0 with Some v => v | None => 0 end.

Definition parseNumber (s : string) : option (number * string) :=
  let '(neg, s1) := match s with
                    | String "-" r => (true, r)
                    | _ => (false, s)
                    end in
  let '(ip, s2) := spanDigits s1 in
  match ip with
  | EmptyString => None
  | String c more =>
      if Ascii.eqb c "0" && negb (String.eqb more "") then None
      else
        let frac :=
          match s2 with
          | String "." r =>
              let '(fp, s3) := spanDigits r in
              match fp with
              | EmptyString => None
              | _ => Some (fp, s3)
              end
          | _ => Some (EmptyString, s2)
          end in
        match frac with
        | None => None
        | Some (fp, s3) =>
            let expo :=
              match s3 with
              | String "e" r | String "E" r =>
                  let '(eneg, r1) := match r with
                                     | String "-" t => (true, t)
                                     | String "+" t => (false, t)
                                     | _ => (false, r)
                                     end in
                  let '(ep, s4) := spanDigits r1 in
                  match ep with
                  | EmptyString => None
                  | _ => Some (if eneg then - digitsZ ep else digitsZ ep, s4)
                  end
              | _ => Some (0, s3)
              end in
            match expo with
            | None => None
            | Some (ex, s4) =>
                let m := digitsZ (ip ++ fp) in
                let x := decimalToNumber m (ex - Z.of_nat (String.length fp)) in
                Some (if neg then (- x)%float else x, s4)
            end
        end
  end.

(** The UTF-8 bytes of a code point below 0x10000. *)
Definition utf8 (cp : Z) : string :=
  if cp <? 128 then String (byteChar cp) EmptyString
  else if cp <? 2048 then
    String (byteChar (192 + cp / 64)) (String (byteChar (128 + cp mod 64)) EmptyString)
  else
    String (byteChar (224 + cp / 4096))
      (String (byteChar (128 + cp / 64 mod 64))
         (String (byteChar (128 + cp mod 64)) EmptyString)).

(** The double quote character. *)
Definition dquote : ascii := Ascii false true false false false true false false.

(** The characters of a string literal after its opening quote, up to the
    closing one. *)
Fixpoint parseChars (s : string) : option (string * string) :=
  match s with
  | EmptyString => None
  | String c r =>
      if Ascii.eqb c dquote then Some (EmptyString, r)
      else if Ascii.eqb c "\" then
        match r with
        | EmptyString => None
        | String e r1 =>
            let plain := fun (x : ascii) =>
              match parseChars r1 with
              | Some (t, rest) => Some (String x t, rest)
              | None => None
              end in
            if Ascii.eqb e dquote then plain dquote
            else if Ascii.eqb e "\" then plain "\"%char
            else if Ascii.eqb e "/" then plain "/"%char
            else if Ascii.eqb e "b" then plain (ascii_of_nat 8)
            else if Ascii.eqb e "f" then plain (ascii_of_nat 12)
            else if Ascii.eqb e "n" then plain (ascii_of_nat 10)
            else if Ascii.eqb e "r" then plain (ascii_of_nat 13)
            else if Ascii.eqb e "t" then plain (ascii_of_nat 9)
            else if Ascii.eqb e "u" then
              match r1 with
              | String h1 (String h2 (String h3 (String h4 r2))) =>
                  match digitsValue 16
                          (String h1 (String h2 (String h3 (String h4 EmptyString)))) 0,
                        parseChars r2 with
                  | Some cp, Some (t, rest) => Some (utf8 cp ++ t, rest)
                  | _, _ => None
                  end
              | _ => None
              end
            else None
        end
      else if (nat_of_ascii c <? 32)%nat then None
      else match parseChars r with
           | Some (t, rest) => Some (String c t, rest)
           | None => None
           end
  end.

(** A later member with the same key replaces the earlier value. *)
Fixpoint putField (k : string) (v : json) (fields : list (string * json))
    : list (string * json) :=
  match fields with
  | [] => [(k, v)]
  | (k', v') :: rest =>
      if String.eqb k k' then (k, v) :: rest else (k', v') :: putField k v rest
  end.

Fixpoint parseValue (fuel : nat) (s : string) : option (json * string) :=
  match fuel with
  | O => None
  | S f =>
      match skipWs s with
      | String "n" (String "u" (String "l" (String "l" r))) => Some (JNull, r)
      | String "t" (String "r" (String "u" (String "e" r))) => Some (JBool true, r)
      | String "f" (String "a" (String "l" (String "s" (String "e" r)))) =>
          Some (JBool false, r)
      | String (Ascii false true false false false true false false) r =>
          match parseChars r with
          | Some (t, rest) => Some (JStr t, rest)
          | None => None
          end
      | String "[" r =>
          match skipWs r with
          | String "]" rest => Some (JArr [], rest)
          | _ => match parseElements f r with
                 | Some (items, rest) => Some (JArr items, rest)
                 | None => None
                 end
          end
      | String "{" r =>
          match skipWs r with
          | String "}" rest => Some (JObj [], rest)
          | _ => match parseMembers f r [] with
                 | Some (fields, rest) => Some (JObj fields, rest)
                 | None => None
                 end
          end
      | t => match parseNumber t with
             | Some (x, rest) => Some (JNum x, rest)
             | None => None
             end
      end
  end
with parseElements (fuel : nat) (s : string) : option (list json * string) :=
  match fuel with
  | O => None
  | S f =>
      match parseValue f s with
      | None => None
      | Some (v, r) =>
          match skipWs r with
          | String "," r' =>
              match parseElements f r' with
              | Some (vs, rest) => Some (v :: vs, rest)
              | None => None
              end
          | String "]" rest => Some ([v], rest)
          | _ => None
          end
      end
  end
with parseMembers (fuel : nat) (s : string) (acc : list (string * json))
    : option (list (string * json) * string) :=
  match fuel with
  | O => None
  | S f =>
      match skipWs s with
      | String (Ascii false true false false false true false false) r =>
          match parseChars r with
          | None => None
          | Some (k, r1) =>
              match skipWs r1 with
              | String ":" r2 =>
                  match parseValue f r2 with
                  | None => None
                  | Some (v, r3) =>
                      let acc' := putField k v acc in
                      match skipWs r3 with
                      | String "," r4 => parseMembers f r4 acc'
                      | String "}" rest => Some (acc', rest)
                      | _ => None
                      end
                  end
              | _ => None
              end
          end
      | _ => None
      end
  end.

Definition JSON_parse (s : string) : option json :=
  match parseValue (2 * String.length s + 2) s with
  | Some (v, rest) =>
      match skipWs rest with
      | EmptyString => Some v
      | _ => None
      end
  | None => None
  end.

(** *** JSON.stringify *)

Definition hexDigit (v : Z) : ascii :=
  ascii_of_nat (Z.to_nat (if v <? 10 then 48 + v else 87 + v)).

Fixpoint quoteChars (s : string) : string :=
  match s with
  | EmptyString => EmptyString
  | String c r =>
      let n := Z.of_nat (nat_of_ascii c) in
      (if n =? 34 then String "\" (String dquote EmptyString)
       else if n =? 92 then "\\"
       else if n =? 8 then "\b"
       else if n =? 12 then "\f"
       else if n =? 10 then "\n"
       else if n =? 13 then "\r"
       else if n =? 9 then "\t"
       else if n <? 32 then
         "\u00" ++ String (hexDigit (n / 16)) (String (hexDigit (n mod 16)) EmptyString)
       else String c EmptyString) ++ quoteChars r
  end.

Definition quote (s : string) : string :=
  String dquote (quoteChars s ++ String dquote EmptyString).

Definition isFinite (x : number) : bool :=
  match Prim2SF x with
  | S754_zero _ | S754_finite _ _ _ => true
  | _ => false
  end.

Fixpoint JSON_stringify (v : json) : string :=
  match v with
  | JNull => "null"
  | JBool b => if b then "true" else "false"
  | JNum n => if isFinite n then numberToString n else "null"
  | JStr s => quote s
  | JArr items => "[" ++ join "," (map JSON_stringify items) ++ "]"
  | JObj fields =>
      "{" ++ join "," (map (fun kv => quote (fst kv) ++ ":" ++ JSON_stringify (snd kv)) fields)
          ++ "}"
  end.

(** The host, given viem's signature check.  Its [toLowerCase] folds the
    ASCII letters only: it is the runtime's on ASCII text, and it is applied
    to no other text below.  What is stated of every host does not depend
    on it. *)
Definition host (verifyTypedData : Verifier.TypedData -> outcome bool) : Verifier.Host :=
  {| Verifier.base64ToUtf8 := base64ToUtf8;
     Verifier.utf8ToBase64 := utf8ToBase64;
     Verifier.JSON_parse := JSON_parse;
     Verifier.JSON_stringify := JSON_stringify;
     Verifier.toLowerCase := asciiLowerCase;
     Verifier.verifyTypedData := verifyTypedData |}.

End NodeHost.
(** ** cre-registry.ts: the built-in compute-task workflow

    The other three built-in workflows draw on [Math.random], on the clock
    and on a timer; they are left out. *)

Module BuiltIn.
Import JS.
Import Registry.
Local Open Scope js_scope.

(** *** Numbers read from text *)

(** A [StrDecimalLiteral]: an optional sign, then [Infinity] or decimal
    digits with an optional point and exponent; anything else is [NaN]. *)
Definition decimalLiteral (t : string) : number :=
  let '(neg, s1) := match t with
                    | String "-" r => (true, r)
                    | String "+" r => (false, r)
                    | _ => (false, t)
                    end in
  let signed := fun x : number => if neg then (- x)%float else x in
  if String.eqb s1 "Infinity" then signed infinity
  else
    let '(ip, s2) := NodeHost.spanDigits s1 in
    let '(fp, s3) := match s2 with
                     | String "." r => NodeHost.spanDigits r
                     | _ => (EmptyString, s2)
                     end in
    if String.eqb ip "" && String.eqb fp "" then nan
    else
      let expo :=
        match s3 with
        | EmptyString => Some 0
        | String "e" r | String "E" r =>
            let '(eneg, r1) := match r with
                               | String "-" u => (true, u)
                               | String "+" u => (false, u)
                               | _ => (false, r)
                               end in
            let '(ep, s4) := NodeHost.spanDigits r1 in
            match ep, s4 with
            | String _ _, EmptyString =>
                Some (if eneg then - NodeHost.digitsZ ep else NodeHost.digitsZ ep)
            | _, _ => None
            end
        | _ => None
        end in
      match expo with
      | None => nan
      | Some ex =>
          signed (NodeHost.decimalToNumber (NodeHost.digitsZ (ip ++ fp))
                    (ex - Z.of_nat (String.length fp)))
      end.

(** [StringToNumber]: white space is trimmed, the empty string is [0], a
    [0x]/[0o]/[0b] literal carries no sign. *)
Definition StringToNumber (s : string) : number :=
  let ofDigits := fun radix r =>
    match nonEmptyDigits radix r with
    | Some v => Z2float v
    | None => nan
    end in
  match trim s with
  | EmptyString => 0%float
  | String "0" (String "x" r) | String "0" (String "X" r) => ofDigits 16 r
  | String "0" (String "o" r) | String "0" (String "O" r) => ofDigits 8 r
  | String "0" (String "b" r) | String "0" (String "B" r) => ofDigits 2 r
  | t => decimalLiteral t
  end.

(** [ToNumber(v)]; an array or an object is read through its string. *)
Definition ToNumber (v : json) : outcome number :=
  match v with
  | JNull => Returned 0%float
  | JBool b => Returned (if b then 1%float else 0%float)
  | JNum n => Returned n
  | JStr s => Returned (StringToNumber s)
  | _ => s <- ToString v ;; Returned (StringToNumber s)
  end.

(** *** The operators of the handler *)

(** What [a + b] can be when it starts from a number: a number or a
    string. *)
Inductive Primitive : Type :=
| PNum (n : number)
| PStr (s : string).

Definition textOf (p : Primitive) : string :=
  match p with
  | PNum n => numberToString n
  | PStr s => s
  end.

Definition numberOf (p : Primitive) : number :=
  match p with
  | PNum n => n
  | PStr s => StringToNumber s
  end.

(** [a + b]: a concatenation as soon as one side is a string (an array or
    an object is one), else an addition of numbers. *)
Definition plus (a : Primitive) (b : json) : outcome Primitive :=
  match b with
  | JStr s => Returned (PStr (textOf a ++ s))
  | JArr _ | JObj _ => s <- ToString b ;; Returned (PStr (textOf a ++ s))
  | _ =>
      match a with
      | PStr s => t <- ToString b ;; Returned (PStr (s ++ t))
      | PNum x => y <- ToNumber b ;; Returned (PNum (x + y)%float)
      end
  end.

(** [data.reduce((a, b) => a + b, 0)] *)
Fixpoint reduce (acc : Primitive) (data : list json) : outcome Primitive :=
  match data with
  | [] => Returned acc
  | b :: rest => acc' <- plus acc b ;; reduce acc' rest
  end.

Fixpoint coerce (data : list json) : outcome (list number) :=
  match data with
  | [] => Returned []
  | v :: rest => x <- ToNumber v ;; xs <- coerce rest ;; Returned (x :: xs)
  end.

Definition isZero (negative : bool) (x : number) : bool :=
  match Prim2SF x with
  | S754_zero s => Bool.eqb s negative
  | _ => false
  end.

(** [Math.max(...data)] and [Math.min(...data)]: every argument is
    coerced first; one [NaN] makes the result [NaN]; [+0] is above [-0]. *)
Definition Math_max (data : list json) : outcome number :=
  xs <- coerce data ;;
  Returned
    (if existsb isNaN xs then nan
     else fold_left (fun highest x =>
                       if isZero false x && isZero true highest then x
                       else if (highest <? x)%float then x else highest)
            xs neg_infinity).

Definition Math_min (data : list json) : outcome number :=
  xs <- coerce data ;;
  Returned
    (if existsb isNaN xs then nan
     else fold_left (fun lowest x =>
                       if isZero true x && isZero false lowest then x
                       else if (x <? lowest)%float then x else lowest)
            xs infinity).

(** *** The handler of compute-task *)

Definition computeHandler (payload : json) : outcome value :=
  data <- getProp (Some payload) "data" ;;
  op <- getProp (Some payload) "operation" ;;
  operation <- ToString (nullish op (JStr "sum")) ;;
  match data with
  | Some (JArr items) =>
      result <-
        (if String.eqb operation "sum" then reduce (PNum 0%float) items
         else if String.eqb operation "mean" then
           s <- reduce (PNum 0%float) items ;;
           Returned (PNum (numberOf s / Z2float (Z.of_nat (List.length items)))%float)
         else if String.eqb operation "max" then
           x <- Math_max items ;; Returned (PNum x)
         else if String.eqb operation "min" then
           x <- Math_min items ;; Returned (PNum x)
         else Thrown (Error ("Unknown operation: " ++ operation))) ;;
      Returned (Some (JObj [ ("operation", JStr operation);
                             ("input", JArr items);
                             ("result",
                              JNum (Math_round (numberOf result * 1000) / 1000)%float);
                             ("verified", JBool true);
                             ("computedBy", JStr "CRE-verifiable-compute-simulation") ]))
  | _ => Thrown (Error "Payload must include 'data' array")
  end.

Definition computeTask {S : Type} : CREWorkflowDefinition S :=
  {| name := "compute-task";
     description :=
       "Run verifiable off-chain computation via CRE (e.g. scoring, ranking, ML inference)";
     priceUSDC := 0.002%float;
     trigger := http;
     live := false;
     handler := fun payload st =>
                  (match computeHandler payload with
                   | Returned v => completes v
                   | Thrown e => throws (errorObject e)
                   end, st) |}.

End BuiltIn.

(** ** Terms in which the theorems are stated *)

Module Terms.
Import JS.
Import Verifier.

Definition isDecDigit (c : ascii) : bool :=
  let n := nat_of_ascii c in ((48 <=? n) && (n <=? 57))%nat.

Fixpoint allDigits (s : string) : bool :=
  match s with
  | EmptyString => true
  | String c r => isDecDigit c && allDigits r
  end.

Fixpoint noWhite (s : string) : bool :=
  match s with
  | EmptyString => true
  | String c r => negb (isWhite c) && noWhite r
  end.

(** A verdict either accepts without an error or rejects with one. *)
Definition verdict (p : X402PaymentVerification) : Prop :=
  (valid p = true /\ error p = None) \/
  (valid p = false /\ exists e, error p = Some e).

(** Text of ASCII characters only. *)
Fixpoint asciiText (s : string) : bool :=
  match s with
  | EmptyString => true
  | String c r => (nat_of_ascii c <? 128)%nat && asciiText r
  end.

(** Two facts about the runtime's [toLowerCase] that the routing of tasks
    rests on: text in lower case stays as it is, and a word whose lower
    case is ASCII text has that lower case wherever it stands (the one
    mapping that looks at the neighbours, of the capital sigma, gives no
    ASCII letter). *)
Record Lowers (h : Host) : Prop := {
  lowers_once : forall s, toLowerCase h (toLowerCase h s) = toLowerCase h s;
  lowers_in_place : forall before word after,
    asciiText (toLowerCase h word) = true ->
    includes (toLowerCase h (before ++ word ++ after)) (toLowerCase h word) = true
}.

(** Two addresses that the verifier takes for the same: they are equal
    once in lower case. *)
Definition sameAddress (h : Host) (a b : string) : bool :=
  String.eqb (toLowerCase h a) (toLowerCase h b).

(** The [txHash] a Simple proof reports: [proof.txHash ? String(...) :
    undefined]. *)
Definition txHashOf (m : X402MockProof) : option string :=
  match mock_txHash m with
  | EmptyString => None
  | t => Some t
  end.

Definition txHashOfProof (p : PaymentProof) : option string :=
  match p with
  | Simple m => txHashOf m
  | Delegated _ => None
  end.

(** The checks of [verifyRealX402Proof] that follow the amount check, on a
    proof of the declared shape. *)
Definition windowStage (h : Host) (config : X402VerifierConfig) (now : Z)
    (r : X402RealProof) (amount : Z) : outcome X402PaymentVerification :=
  let a := payload_authorization r in
  let reject := invalid amount (auth_to a) (JStr (auth_from a)) None in
  let validAfter := parseIntString (auth_validAfter a) in
  let validBefore := parseIntString (auth_validBefore a) in
  if ltNum now validAfter then
    bind (Date_toISOString (option_map (fun v => v * 1000) validAfter)) (fun iso =>
    Returned (reject ("Payment not yet valid (validAfter: " ++ iso ++ ")")))
  else if geNum now validBefore then
    bind (Date_toISOString (option_map (fun v => v * 1000) validBefore)) (fun iso =>
    Returned (reject ("Payment expired (validBefore: " ++ iso ++ ")")))
  else if truthy (simulationMode config) then
    Returned (accepted amount (auth_to a) (JStr (auth_from a)) None)
  else
    match checkSignature h (jsonOfRealProof r)
            (Some (JObj [ ("signature", JStr (payload_signature r));
                          ("authorization", jsonOfAuthorization a) ]))
            (Some (jsonOfAuthorization a)) (JStr (auth_from a)) with
    | Returned true => Returned (accepted amount (auth_to a) (JStr (auth_from a)) None)
    | Returned false =>
        Returned (reject
          "EIP-712 signature verification failed: signer does not match authorization.from")
    | Thrown err => Returned (reject ("EIP-712 verification error: " ++ message err))
    end.

(** The outcome is a returned rejection whose message starts with [class]. *)
Definition rejectedAs (class : string) (o : outcome X402PaymentVerification) : bool :=
  match o with
  | Returned p =>
      negb (valid p) &&
      match error p with
      | Some e => String.prefix class e
      | None => false
      end
  | Thrown _ => false
  end.

(** The host [h] with another signature check in place of viem's. *)
Definition withSignatureCheck (h : Host) (check : TypedData -> outcome bool) : Host :=
  {| base64ToUtf8 := base64ToUtf8 h;
     utf8ToBase64 := utf8ToBase64 h;
     JSON_parse := JSON_parse h;
     JSON_stringify := JSON_stringify h;
     toLowerCase := toLowerCase h;
     verifyTypedData := check |}.

(** The host's codec gives back the proof object it encoded. *)
Definition roundTrips (h : Host) (proof : json) : Prop :=
  decodePaymentProof h (encodeProof h proof) = Returned proof.

(** The typed data [verifyRealX402Proof] hands to viem for a proof of the
    declared shape, its three numbers read by [BigInt]. *)
Definition typedDataOf (r : X402RealProof) (value validAfter validBefore : Z) : TypedData :=
  let a := payload_authorization r in
  {| address := JStr (auth_from a);
     chainId := if String.eqb (real_network r) "base"
                then USDC_DOMAIN_BASE_chainId else USDC_DOMAIN_BASE_SEPOLIA_chainId;
     msg_from := Some (JStr (auth_from a));
     msg_to := Some (JStr (auth_to a));
     msg_value := value;
     msg_validAfter := validAfter;
     msg_validBefore := validBefore;
     msg_nonce := Some (JStr (auth_nonce a));
     signature := Some (JStr (payload_signature r)) |}.


End Terms.

Module OrchestratorTerms.
Import JS.
Import AgentClient.
Import Orchestrator.

(** The amounts the recorded steps carry, added up from 0 in step order. *)
Definition addSpent (acc : number) (s : StepResult) : number :=
  match spentUSDC s with
  | Some p => (acc + p)%float
  | None => acc
  end.

Definition sumSpent (l : list StepResult) : number := fold_left addSpent l 0%float.

(** The same over the steps whose recorded status is [success] only. *)
Definition sumSuccessSpent (l : list StepResult) : number :=
  sumSpent (filter (isStatus step_success) l).

(** A step that was recorded as a success and then marked failed because
    the transformer threw on its result. *)
Definition flipped (s : StepResult) : Prop :=
  sr_status s = step_failed /\
  exists m, sr_error s = Some ("Payload transformer error: " ++ m).

Definition transformerOf (config : OrchestrationConfig) : Transformer :=
  match payloadTransformer config with
  | Some f => f
  | None => defaultTransformer
  end.

Definition continueOf (config : OrchestrationConfig) : bool :=
  match continueOnFailure config with
  | Some b => b
  | None => false
  end.

Definition initialOf (config : OrchestrationConfig) : json :=
  match initialPayload config with
  | Some p => p
  | None => JObj []
  end.

(** An invocation that did not succeed: it threw, or it returned
    [success = false]. *)
Definition failedOutcome (o : outcome AgentInvokeResult) : bool :=
  match o with
  | Thrown _ => true
  | Returned r => negb (success r)
  end.

(** A client that, besides what it does, logs every call of [invoke]. *)
Definition traced {C : Type}
    (invoke : string -> json -> C -> outcome AgentInvokeResult * C)
    : string -> json -> C * list (string * json) ->
      outcome AgentInvokeResult * (C * list (string * json)) :=
  fun workflowName payload st =>
    let '(o, c') := invoke workflowName payload (fst st) in
    (o, (c', (snd st ++ [(workflowName, payload)])%list)).

Definition notSkipped (s : StepResult) : bool := negb (isStatus step_skipped s).

Definition isFailed (s : StepResult) : Prop := sr_status s = step_failed.
Definition isSkipped (s : StepResult) : Prop := sr_status s = step_skipped.

(** What the theorems below keep track of, turn after turn. *)
Definition paidOK (s : StepResult) : Prop :=
  (sr_status s = step_success -> exists p, spentUSDC s = Some p) /\
  (spentUSDC s <> None -> sr_status s = step_success \/ flipped s).

Definition paidOnlyOnSuccess (s : StepResult) : Prop :=
  spentUSDC s <> None -> sr_status s = step_success.

Record Kept (stopOrContinue : bool) (transformer : Transformer)
    (i : nat) (v : Locals) : Prop := {
  kept_total : total v = sumSpent (stepResults v);
  kept_paid : Forall paidOK (stepResults v);
  kept_nothrow :
    (forall r n k e, transformer r n k <> Thrown e) ->
    Forall paidOnlyOnSuccess (stepResults v);
  kept_failure : hasFailure v = true <-> Exists isFailed (stepResults v);
  kept_length : List.length (stepResults v) = i;
  kept_index : forall k s, nth_error (stepResults v) k = Some s -> stepIndex s = k;
  kept_skipped :
    forall k s, nth_error (stepResults v) k = Some s -> isSkipped s ->
      stopOrContinue = false /\
      exists j sj, (j < k)%nat /\ nth_error (stepResults v) j = Some sj /\ isFailed sj;
  kept_stop :
    stopOrContinue = false ->
    forall j sj k sk,
      nth_error (stepResults v) j = Some sj -> isFailed sj -> (j < k)%nat ->
      nth_error (stepResults v) k = Some sk -> isSkipped sk
}.

(** The locals of [orchestrate] before the loop. *)
Definition startLocals (config : OrchestrationConfig) : Locals :=
  {| stepResults := [];
     currentPayload := initialOf config;
     total := 0%float;
     lastSuccessResult := None;
     hasFailure := false |}.

(** The payload a turn sends. *)
Definition payloadFor (step : OrchestrationStep) (v : Locals) : json :=
  match step_payload step with
  | Some p => p
  | None => currentPayload v
  end.

(** The clock of the logging client. *)
Definition tracedClock {C : Type} (clock : C -> Z)
    : C * list (string * json) -> Z :=
  fun st => clock (fst st).

(** The log names the recorded steps that were not skipped. *)
Definition logged (v : Locals) (log : list (string * json)) : Prop :=
  map fst log = map sr_workflowName (filter notSkipped (stepResults v)).


(** A step that carries an amount: its invocation succeeded. *)
Definition paid (s : StepResult) : bool :=
  match spentUSDC s with Some _ => true | None => false end.

(** The result of the last paid step, if there is one. *)
Definition lastPaidResult (l : list StepResult) : value :=
  match rev (filter paid l) with
  | [] => None
  | s :: _ => sr_result s
  end.

(** The chained payload after the recorded steps [recorded]: each step that
    is a [success] and has a successor replaces it by what the transformer
    makes of its result. *)
Definition chainStep (transformer : Transformer) (names : list string)
    (current : json) (s : StepResult) : json :=
  if isStatus step_success s then
    match nth_error names (S (stepIndex s)) with
    | Some nextWorkflow =>
        match transformer (sr_result s) nextWorkflow (stepIndex s) with
        | Returned p => p
        | Thrown _ => current
        end
    | None => current
    end
  else current.

Definition chainedPayload (transformer : Transformer) (names : list string)
    (initial : json) (recorded : list StepResult) : json :=
  fold_left (chainStep transformer names) recorded initial.

(** What the turns keep true of the chained payload and of the calls made:
    [done] are the steps already taken, [log] the calls of the logging
    client. *)
Record Chained (stopOrContinue : bool) (transformer : Transformer)
    (names : list string) (initial : json)
    (done : list OrchestrationStep) (v : Locals)
    (log : list (string * json)) : Prop := {
  chained_length : List.length (stepResults v) = List.length done;
  chained_index : forall k s, nth_error (stepResults v) k = Some s -> stepIndex s = k;
  chained_current :
    currentPayload v = chainedPayload transformer names initial (stepResults v);
  chained_calls : (List.length log <= List.length done)%nat;
  chained_all :
    hasFailure v && negb stopOrContinue = false -> List.length log = List.length done;
  chained_log :
    forall k nm pl, nth_error log k = Some (nm, pl) ->
      exists step,
        nth_error done k = Some step /\ nm = step_workflowName step /\
        pl = match step_payload step with
             | Some p => p
             | None => chainedPayload transformer names initial
                         (firstn k (stepResults v))
             end
}.


End OrchestratorTerms.

Module AgentClientTerms.
Import JS.
Import AgentClient.

(** What [itemOf] makes of the outcome [o] of request [req] at [index]. *)
Definition describes (req : BatchRequest) (i : nat) (o : Settled)
    (item : BatchItemResult) : Prop :=
  item_workflowName item = workflowName req /\
  index item = i /\
  match o with
  | fulfilled v =>
      item_result item = Some v /\
      (success v = true -> status item = item_success /\ item_error item = None) /\
      (success v = false ->
         status item = item_failed /\
         item_error item = Some (match error v with
                                 | Some e => e
                                 | None => "Workflow returned failure"
                                 end))
  | rejected reason =>
      status item = item_failed /\
      item_result item = None /\
      item_error item = Some (match reason with
                              | Some m => m
                              | None => "Unknown error"
                              end)
  end.

(** [o] is an outcome that the call [t] settles with, in some run of the
    event loop. *)
Inductive SettlesWith {C A : Type} : Async C A -> outcome A -> Prop :=
| settles_done o : SettlesWith (Done o) o
| settles_wait resume c o :
    SettlesWith (fst (resume c)) o -> SettlesWith (Wait resume) o.

(** The call [t] settles after [n] turns at most, whatever the states it is
    resumed in. *)
Fixpoint settlesWithin {C A : Type} (n : nat) (t : Async C A) {struct n} : Prop :=
  match t with
  | Done _ => True
  | Wait resume =>
      match n with
      | O => False
      | S m => forall c, settlesWithin m (fst (resume c))
      end
  end.

End AgentClientTerms.

Module WalletSignerTerms.
Import JS.

(** A lower-case hexadecimal digit. *)
Definition isHexDigit (c : ascii) : bool :=
  let n := nat_of_ascii c in
  ((48 <=? n) && (n <=? 57) || (97 <=? n) && (n <=? 102))%nat.

Fixpoint allHex (s : string) : bool :=
  match s with
  | EmptyString => true
  | String c r => isHexDigit c && allHex r
  end.

(** The bytes a string of hexadecimal digit pairs denotes. *)
Fixpoint unhex (s : string) : option (list byte) :=
  match s with
  | EmptyString => Some []
  | String a (String b r) =>
      match digitVal 16 a, digitVal 16 b, unhex r with
      | Some x, Some y, Some bs =>
          match Byte.of_N (Z.to_N (x * 16 + y)) with
          | Some v => Some (v :: bs)
          | None => None
          end
      | _, _, _ => None
      end
  | String _ EmptyString => None
  end.
End WalletSignerTerms.

Module ClientTerms.
Import JS.
Import Client.

(** A request of the client. *)
Inductive Call : Type :=
| GET (url : string)
| POST (url x_payment body : string).

(** A network that, besides what it does, logs the requests made. *)
Definition loggedGet {N T : Type} (fetchGet : string -> N -> outcome (Response T) * N)
    : string -> N * list Call -> outcome (Response T) * (N * list Call) :=
  fun url st =>
    let '(r, n') := fetchGet url (fst st) in
    (r, (n', (snd st ++ [GET url])%list)).

Definition loggedPost {N T : Type}
    (fetchPost : string -> string -> string -> N -> outcome (Response T) * N)
    : string -> string -> string -> N * list Call ->
      outcome (Response T) * (N * list Call) :=
  fun url x_payment body st =>
    let '(r, n') := fetchPost url x_payment body (fst st) in
    (r, (n', (snd st ++ [POST url x_payment body])%list)).

Definition unlogged {N A : Type} (read : N -> A) : N * list Call -> A :=
  fun st => read (fst st).

End ClientTerms.

Module BuiltInTerms.
Import JS.

(** The answer of compute-task: the operation, the data, the rounded
    result and the two marks of the simulation. *)
Definition computed (operation : string) (items : list json) (result : number)
    : outcome value :=
  Returned (Some (JObj [ ("operation", JStr operation);
                         ("input", JArr items);
                         ("result", JNum result);
                         ("verified", JBool true);
                         ("computedBy", JStr "CRE-verifiable-compute-simulation") ])).

End BuiltInTerms.

Module RegistryTerms.
Import Registry.

Section WithStore.
Variable S : Type.

(** The last definition registered under the name [n] in a sequence of
    registrations. *)
Definition latest (n : string) (registered : list (CREWorkflowDefinition S))
    : option (CREWorkflowDefinition S) :=
  find (fun wf => String.eqb n (name wf)) (rev registered).

(** A registry in which every definition is stored under its own name,
    once. *)
Definition keyed (m : Workflows S) : Prop :=
  NoDup (mapKeys m) /\ Forall (fun kv => fst kv = name (snd kv)) m.

End WithStore.

Arguments latest {S}.
Arguments keyed {S}.

End RegistryTerms.

Module EndToEndTerms.
Import JS.
Import Registry.

(** A [WorkflowInfo] as JSON. *)
Definition jsonOfWorkflowInfo (wf : Client.WorkflowInfo) : json :=
  JObj [ ("name", JStr (Client.name wf));
         ("description", JStr (Client.description wf));
         ("priceUSDC", JNum (Client.priceUSDC wf));
         ("trigger", JStr (Client.trigger wf));
         ("live", JBool (Client.live wf));
         ("payment",
          JObj [ ("recipient", JStr (Client.pay_recipient (Client.payment wf)));
                 ("amount", JNum (Client.pay_amount (Client.payment wf)));
                 ("currency", JStr (Client.pay_currency (Client.payment wf)));
                 ("network", JStr (Client.pay_network (Client.payment wf)));
                 ("header", JStr (Client.pay_header (Client.payment wf))) ]) ].

(** The entry of [GET /workflows] for a definition, as the client reads it
    ([data.workflows] cast to [WorkflowInfo[]]). *)
Definition listingOf {S : Type} (RECIPIENT_ADDRESS : string)
    (wf : CREWorkflowDefinition S) : Client.WorkflowInfo :=
  {| Client.name := name wf;
     Client.description := description wf;
     Client.priceUSDC := priceUSDC wf;
     Client.trigger := Server.triggerName (trigger wf);
     Client.live := live wf;
     Client.payment :=
       {| Client.pay_recipient := RECIPIENT_ADDRESS;
          Client.pay_amount := priceUSDC wf;
          Client.pay_currency := "USDC";
          Client.pay_network := "base-sepolia";
          Client.pay_header := "x-payment" |} |}.

End EndToEndTerms.

(** ** Concrete inputs *)

Module Examples.
Import JS.
Import Verifier.

Definition RECIPIENT : string := "0x7483a9F237cf8043704D6b17DA31c12BfFF860DD".
Definition PAYER : string := "0xAbCd1234567890AbCd1234567890AbCd12345678".

(** Node's codecs with a signature check that accepts nothing. *)
Definition host : Host := NodeHost.host (fun _ => Returned false).

(** A verifier asking for 0.001 USDC. *)
Definition config (simulation : bool) : X402VerifierConfig :=
  {| recipientAddress := RECIPIENT;
     requiredAmountUSDC := 0.001%float;
     simulationMode := Some simulation;
     rpcUrl := None;
     network := None |}.

Definition entropy : Entropy :=
  {| randomHex1 := "8a3f"; randomHex2 := "c41"; nowMs := 1730000000123 |}.

(** 2024-10-27T03:33:20Z *)
Definition now : Z := 1730000000.

Definition simpleProof (amount : string) : X402MockProof :=
  {| mock_txHash := "0x8a3f";
     mock_amount := amount;
     mock_recipient := RECIPIENT;
     mock_payer := PAYER;
     mock_signature := "0xc41";
     mock_timestamp := 1730000000123%float;
     mock_network := "base-sepolia" |}.

Definition delegatedProof (validAfter validBefore : string) : X402RealProof :=
  {| x402Version := 1%float;
     scheme := "exact";
     real_network := "base-sepolia";
     payload_signature := "0xc41";
     payload_authorization :=
       {| auth_from := PAYER;
          auth_to := RECIPIENT;
          auth_value := "5000";
          auth_validAfter := validAfter;
          auth_validBefore := validBefore;
          auth_nonce := "0x8a3f" |} |}.

(** The wire strings of these proofs: base64 of their JSON text. *)
Definition wireSimple (amount : string) : string :=
  encodeProof host (jsonOfMockProof (simpleProof amount)).

Definition wireDelegated (validAfter validBefore : string) : string :=
  encodeProof host (jsonOfRealProof (delegatedProof validAfter validBefore)).

(** A Simple proof paying exactly the 1000 micro-units required:
    [wireSimple "1000"]. *)
Definition wireExact : string :=
  "eyJ0eEhhc2giOiIweDhhM2YiLCJhbW91bnQiOiIxMDAwIiwicmVjaXBpZW50IjoiMHg3NDgzYTlGMjM3Y2Y4MDQzNzA0RDZiMTdEQTMxYzEyQmZGRjg2MEREIiwicGF5ZXIiOiIweEFiQ2QxMjM0NTY3ODkwQWJDZDEyMzQ1Njc4OTBBYkNkMTIzNDU2NzgiLCJzaWduYXR1cmUiOiIweGM0MSIsInRpbWVzdGFtcCI6MTczMDAwMDAwMDEyMywibmV0d29yayI6ImJhc2Utc2Vwb2xpYSJ9".

(** A Simple proof one micro-unit short: [wireSimple "999"]. *)
Definition wireShort : string :=
  "eyJ0eEhhc2giOiIweDhhM2YiLCJhbW91bnQiOiI5OTkiLCJyZWNpcGllbnQiOiIweDc0ODNhOUYyMzdjZjgwNDM3MDRENmIxN0RBMzFjMTJCZkZGODYwREQiLCJwYXllciI6IjB4QWJDZDEyMzQ1Njc4OTBBYkNkMTIzNDU2Nzg5MEFiQ2QxMjM0NTY3OCIsInNpZ25hdHVyZSI6IjB4YzQxIiwidGltZXN0YW1wIjoxNzMwMDAwMDAwMTIzLCJuZXR3b3JrIjoiYmFzZS1zZXBvbGlhIn0=".

(** A Simple proof whose amount is written in USDC, not in micro-units:
    [wireSimple "1.5"]. *)
Definition wireDecimalAmount : string :=
  "eyJ0eEhhc2giOiIweDhhM2YiLCJhbW91bnQiOiIxLjUiLCJyZWNpcGllbnQiOiIweDc0ODNhOUYyMzdjZjgwNDM3MDRENmIxN0RBMzFjMTJCZkZGODYwREQiLCJwYXllciI6IjB4QWJDZDEyMzQ1Njc4OTBBYkNkMTIzNDU2Nzg5MEFiQ2QxMjM0NTY3OCIsInNpZ25hdHVyZSI6IjB4YzQxIiwidGltZXN0YW1wIjoxNzMwMDAwMDAwMTIzLCJuZXR3b3JrIjoiYmFzZS1zZXBvbGlhIn0=".

(** A Delegated proof whose window opens after the last instant a [Date]
    can hold (8.64e12 seconds from the epoch):
    [wireDelegated "8640000000001" "8640000000002"]. *)
Definition wireFarFuture : string :=
  "eyJ4NDAyVmVyc2lvbiI6MSwic2NoZW1lIjoiZXhhY3QiLCJuZXR3b3JrIjoiYmFzZS1zZXBvbGlhIiwicGF5bG9hZCI6eyJzaWduYXR1cmUiOiIweGM0MSIsImF1dGhvcml6YXRpb24iOnsiZnJvbSI6IjB4QWJDZDEyMzQ1Njc4OTBBYkNkMTIzNDU2Nzg5MEFiQ2QxMjM0NTY3OCIsInRvIjoiMHg3NDgzYTlGMjM3Y2Y4MDQzNzA0RDZiMTdEQTMxYzEyQmZGRjg2MEREIiwidmFsdWUiOiI1MDAwIiwidmFsaWRBZnRlciI6Ijg2NDAwMDAwMDAwMDEiLCJ2YWxpZEJlZm9yZSI6Ijg2NDAwMDAwMDAwMDIiLCJub25jZSI6IjB4OGEzZiJ9fX0=".

(** A Delegated proof whose [validBefore] is not a number:
    [wireDelegated "0" "never"]. *)
Definition wireNoExpiry : string :=
  "eyJ4NDAyVmVyc2lvbiI6MSwic2NoZW1lIjoiZXhhY3QiLCJuZXR3b3JrIjoiYmFzZS1zZXBvbGlhIiwicGF5bG9hZCI6eyJzaWduYXR1cmUiOiIweGM0MSIsImF1dGhvcml6YXRpb24iOnsiZnJvbSI6IjB4QWJDZDEyMzQ1Njc4OTBBYkNkMTIzNDU2Nzg5MEFiQ2QxMjM0NTY3OCIsInRvIjoiMHg3NDgzYTlGMjM3Y2Y4MDQzNzA0RDZiMTdEQTMxYzEyQmZGRjg2MEREIiwidmFsdWUiOiI1MDAwIiwidmFsaWRBZnRlciI6IjAiLCJ2YWxpZEJlZm9yZSI6Im5ldmVyIiwibm9uY2UiOiIweDhhM2YifX19".

(** A Delegated proof valid from 60 seconds before [now] to 300 seconds
    after it: [wireDelegated "1729999940" "1730000300"]. *)
Definition wireCurrent : string := Eval vm_compute in wireDelegated "1729999940" "1730000300".

(** A Simple proof of 1 USDC made out to another address. *)
Definition wireWrongRecipient : string :=
  Eval vm_compute in
    encodeProof host
      (jsonOfMockProof
         {| mock_txHash := "0x8a3f";
            mock_amount := "1000000";
            mock_recipient := "0x1111111111111111111111111111111111111111";
            mock_payer := PAYER;
            mock_signature := "0xc41";
            mock_timestamp := 1730000000123%float;
            mock_network := "base-sepolia" |}).

(** The object with [x402Version] 1 and a [null] payload. *)
Definition wireNullPayload : string := "eyJ4NDAyVmVyc2lvbiI6MSwicGF5bG9hZCI6bnVsbH0=".

(** A gateway over a store that counts the handler calls: its one workflow
    echoes the payload and adds one to the counter. *)
Definition countingWorkflow : Registry.CREWorkflowDefinition nat :=
  {| Registry.name := "price-feed";
     Registry.description := "echoes its payload";
     Registry.priceUSDC := 0.001%float;
     Registry.trigger := Registry.http;
     Registry.live := false;
     Registry.handler := fun payload n => (completes (Some payload), S n) |}.

Definition countingGateway : Gateway.X402CREPaymentGateway nat :=
  Gateway.newGateway
    {| Gateway.recipientAddress := RECIPIENT;
       Gateway.defaultPriceUSDC := None;
       Gateway.simulationMode := None;
       Gateway.debug := None |}
    (Registry.newRegistry [] [countingWorkflow]).

(** The clock stands at [now], in milliseconds. *)
Definition fixedClock {S : Type} : S -> Z := fun _ => 1730000000000.

Definition freshWorld : Registry.World nat :=
  {| Registry.store := O; Registry.invoked := [] |}.

(** A client whose every invocation succeeds at a price of 0.001 USDC; its
    state counts the invocations. *)
Definition payingClient : string -> json -> nat -> outcome AgentClient.AgentInvokeResult * nat :=
  fun workflowName payload n =>
    (Returned {| AgentClient.success := true;
                 AgentClient.result := Some (JObj [("from", JStr workflowName)]);
                 AgentClient.meta :=
                   Some {| AgentClient.meta_requestId := None;
                           AgentClient.meta_workflowName := Some workflowName;
                           AgentClient.meta_executionMs := None;
                           AgentClient.pricePaid := Some 0.001%float;
                           AgentClient.paymentTx := None |};
                 AgentClient.error := None;
                 AgentClient.paymentUsed := Some wireExact |}, S n).

(** A client whose second invocation is denied by the gateway and whose
    fourth one is a network fault. *)
Definition flakyClient : string -> json -> nat -> outcome AgentClient.AgentInvokeResult * nat :=
  fun workflowName payload n =>
    match n with
    | 1%nat =>
        (Returned {| AgentClient.success := false;
                     AgentClient.result := None;
                     AgentClient.meta := None;
                     AgentClient.error := Some "Workflow unavailable";
                     AgentClient.paymentUsed := Some wireExact |}, S n)
    | 3%nat => (Thrown (Error "Connection refused"), S n)
    | _ => payingClient workflowName payload n
    end.

(** The invocation of a client that sends its request when it is called
    and settles at its next turn, on the response. *)
Definition onResponse {C : Type}
    (invoke : string -> json -> C -> outcome AgentClient.AgentInvokeResult * C)
    : string -> json -> C -> Async C AgentClient.AgentInvokeResult * C :=
  fun workflowName payload c =>
    (Wait (fun c' => let '(o, c'') := invoke workflowName payload c' in (Done o, c'')), c).

(** A client with a cache of the workflows; its state is whether the cache
    is filled and how many times the list was asked for.  An invocation that
    finds the cache empty asks for the list and fills the cache at its next
    turn; it then sends its request and settles on the response. *)
Definition discoveringClient
    : string -> json -> bool * nat
      -> Async (bool * nat) AgentClient.AgentInvokeResult * (bool * nat) :=
  fun workflowName payload st =>
    let post : bool * nat -> Async (bool * nat) AgentClient.AgentInvokeResult * (bool * nat) :=
      fun st' =>
        (Done (Returned {| AgentClient.success := true;
                           AgentClient.result := Some (JObj [("from", JStr workflowName)]);
                           AgentClient.meta := None;
                           AgentClient.error := None;
                           AgentClient.paymentUsed := Some wireExact |}), st') in
    if fst st then (Wait post, st)
    else (Wait (fun st' => (Wait post, (true, snd st'))), (fst st, S (snd st))).

(** A payload transformer that always throws. *)
Definition failingTransformer : Orchestrator.Transformer :=
  fun _ _ _ => Thrown (Error "cannot shape the payload").

(** A middleware asking for 0.001 USDC. *)
Definition middlewareConfig : Middleware.X402MiddlewareConfig :=
  {| Middleware.recipientAddress := RECIPIENT;
     Middleware.requiredAmountUSDC := 0.001%float;
     Middleware.simulationMode := None;
     Middleware.network := None;
     Middleware.description := None |}.

(** A wallet whose account has the payer's address and whose signatures are
    all the same text. *)
Definition viem : WalletSigner.Viem :=
  {| WalletSigner.privateKeyToAccount :=
       fun key => Returned {| WalletSigner.address := PAYER; WalletSigner.source := key |};
     WalletSigner.signTypedData := fun _ _ _ _ => Returned "0x5167" |}.

Definition signer : WalletSigner.WalletSigner :=
  {| WalletSigner.account :=
       {| WalletSigner.address := PAYER; WalletSigner.source := "0x00ff" |};
     WalletSigner.network := "base-sepolia" |}.

Definition signerEntropy : WalletSigner.Entropy :=
  {| WalletSigner.randomBytes := List.repeat Byte.x2a 32;
     WalletSigner.nowMs := 1730000000123 |}.

Definition signingOptions : WalletSigner.CreateProofOptions :=
  {| WalletSigner.recipient := RECIPIENT;
     WalletSigner.amountUSDC := 0.001%float;
     WalletSigner.options_network := None;
     WalletSigner.validForSeconds := None |}.


(** A client in simulation mode that has the price-feed workflow in its
    cache, listed at 0.001 USDC for the recipient of the examples, while it
    is itself configured with another recipient. *)
Definition listedPriceFeed : Client.WorkflowInfo :=
  {| Client.name := "price-feed";
     Client.description := "price data";
     Client.priceUSDC := 0.001%float;
     Client.trigger := "http";
     Client.live := false;
     Client.payment :=
       {| Client.pay_recipient := RECIPIENT;
          Client.pay_amount := 0.001%float;
          Client.pay_currency := "USDC";
          Client.pay_network := "base-sepolia";
          Client.pay_header := "x-payment" |} |}.

Definition OTHER_RECIPIENT : string := "0x2222222222222222222222222222222222222222".

Definition cachedClient : Client.AgentClient :=
  {| Client.config :=
       {| Client.gatewayUrl := "http://localhost:3100";
          Client.payerAddress := PAYER;
          Client.recipientAddress := Some OTHER_RECIPIENT;
          Client.simulationMode := Some true;
          Client.network := Some "base-sepolia";
          Client.privateKey := None |};
     Client.cachedWorkflows := Some [listedPriceFeed];
     Client.walletSigner := None |}.

(** A network, its state the number of requests made: no gateway answers
    a GET, every POST is answered 200 with an empty result. *)
Definition noGet
    : string -> nat -> outcome (Client.Response Client.WorkflowDiscoveryResult) * nat :=
  fun _ n => (Thrown (TypeError "fetch failed"), S n).

Definition okBody : Client.ReplyBody :=
  {| Client.body_message := None;
     Client.body_error := None;
     Client.body_result := Some (JObj []);
     Client.body_meta := None;
     Client.body_taskId := None;
     Client.body_task := None |}.

Definition okPost
    : string -> string -> string -> nat ->
      outcome (Client.Response Client.ReplyBody) * nat :=
  fun _ _ _ n =>
    (Returned {| Client.ok := true;
                 Client.status := 200;
                 Client.statusText := "OK";
                 Client.jsonBody := Returned okBody |},
     S n).

(** The registry of a server that serves [countingWorkflow], and a client
    that has discovered it: its cache is the listing of that server, its
    recipient the one of the server. *)
Definition servedRegistry : Registry.Workflows nat :=
  Registry.newRegistry [] [countingWorkflow].

Definition discoveredClient : Client.AgentClient :=
  {| Client.config :=
       {| Client.gatewayUrl := "http://localhost:3100";
          Client.payerAddress := PAYER;
          Client.recipientAddress := Some RECIPIENT;
          Client.simulationMode := Some true;
          Client.network := Some "base-sepolia";
          Client.privateKey := None |};
     Client.cachedWorkflows :=
       Some (map (EndToEndTerms.listingOf RECIPIENT)
               (Registry.listWorkflows servedRegistry));
     Client.walletSigner := None |}.

End Examples.

(* ================================================================== *)
(** * Part II - theorems *)
(* ================================================================== *)

(** ** Facts about the runtime model *)

Module JSFacts.
Import JS.
Import Terms.

Lemma digitVal_digitChar (d : Z) :
  0 <= d < 10 -> digitVal 10 (digitChar d) = Some d.
Proof.
  intros H.
  assert (d = 0 \/ d = 1 \/ d = 2 \/ d = 3 \/ d = 4 \/ d = 5 \/ d = 6 \/
          d = 7 \/ d = 8 \/ d = 9) as Hd by lia.
  repeat (destruct Hd as [-> | Hd]; [reflexivity |]).
  subst d; reflexivity.
Qed.

Lemma isDecDigit_digitChar (d : Z) :
  0 <= d < 10 -> isDecDigit (digitChar d) = true.
Proof.
  intros H.
  assert (d = 0 \/ d = 1 \/ d = 2 \/ d = 3 \/ d = 4 \/ d = 5 \/ d = 6 \/
          d = 7 \/ d = 8 \/ d = 9) as Hd by lia.
  repeat (destruct Hd as [-> | Hd]; [reflexivity |]).
  subst d; reflexivity.
Qed.

(** Reading back the digits that [decimalDigits] writes in front of [acc]. *)
Lemma digitsValue_decimalDigits (fuel : nat) :
  forall n acc, 0 <= n < 2 ^ Z.of_nat fuel ->
    exists L, 0 <= L /\ forall k,
      digitsValue 10 (decimalDigits fuel n acc) k
      = digitsValue 10 acc (k * 10 ^ L + n).
Proof.
  induction fuel as [| f IH]; intros n acc Hn.
  - change (2 ^ Z.of_nat 0) with 1 in Hn.
    exists 0. split; [lia |]. intros k. simpl.
    assert (n = 0) by lia. subst n. f_equal. lia.
  - cbn [decimalDigits].
    assert (0 <= n mod 10 < 10) as Hm by (apply Z.mod_pos_bound; lia).
    destruct (n / 10 =? 0) eqn:Hq.
    + apply Z.eqb_eq in Hq.
      exists 1. split; [lia |]. intros k.
      cbn [digitsValue]. rewrite digitVal_digitChar by exact Hm.
      f_equal. rewrite Z.pow_1_r.
      pose proof (Z.div_mod n 10 ltac:(lia)) as D. lia.
    + apply Z.eqb_neq in Hq.
      assert (0 <= n / 10 < 2 ^ Z.of_nat f) as Hn'.
      { split; [apply Z.div_pos; lia |].
        rewrite Nat2Z.inj_succ, Z.pow_succ_r in Hn by lia.
        apply Z.div_lt_upper_bound; lia. }
      destruct (IH (n / 10) (String (digitChar (n mod 10)) acc) Hn') as (L & HL & E).
      exists (L + 1). split; [lia |]. intros k.
      rewrite E. cbn [digitsValue]. rewrite digitVal_digitChar by exact Hm.
      f_equal. rewrite Z.pow_add_r, Z.pow_1_r by lia.
      pose proof (Z.div_mod n 10 ltac:(lia)) as D. lia.
Qed.

Lemma allDigits_decimalDigits (fuel : nat) :
  forall n acc, 0 <= n -> allDigits acc = true ->
    allDigits (decimalDigits fuel n acc) = true.
Proof.
  induction fuel as [| f IH]; intros n acc Hn Hacc; [exact Hacc |].
  cbn [decimalDigits].
  assert (0 <= n mod 10 < 10) as Hm by (apply Z.mod_pos_bound; lia).
  assert (allDigits (String (digitChar (n mod 10)) acc) = true) as Hacc'.
  { cbn [allDigits]. rewrite isDecDigit_digitChar by exact Hm. exact Hacc. }
  destruct (n / 10 =? 0); [exact Hacc' |].
  apply IH; [apply Z.div_pos; lia | exact Hacc'].
Qed.

Lemma decimalDigits_nonempty (fuel : nat) :
  forall n acc, decimalDigits (S fuel) n acc <> EmptyString.
Proof.
  induction fuel as [| f IH]; intros n acc.
  - cbn. destruct (n / 10 =? 0); discriminate.
  - cbn [decimalDigits]. destruct (n / 10 =? 0); [discriminate |].
    apply IH.
Qed.

Lemma natToString_value (n : Z) :
  0 <= n -> digitsValue 10 (natToString n) 0 = Some n.
Proof.
  intros Hn. unfold natToString.
  destruct (digitsValue_decimalDigits (S (Z.to_nat (Z.log2 n))) n "") as (L & _ & E).
  - split; [exact Hn |].
    rewrite Nat2Z.inj_succ, Z2Nat.id by apply Z.log2_nonneg.
    destruct (Z.eq_dec n 0) as [-> | Hz]; [reflexivity |].
    apply Z.log2_spec. lia.
  - rewrite E. cbn. f_equal.
Qed.

Lemma natToString_digits (n : Z) :
  0 <= n -> allDigits (natToString n) = true /\ natToString n <> EmptyString.
Proof.
  intros Hn. split.
  - apply allDigits_decimalDigits; [exact Hn | reflexivity].
  - apply decimalDigits_nonempty.
Qed.


Lemma revString_revString (s : string) :
  forall a b, revString (revString s a) b = revString a (s ++ b).
Proof.
  induction s as [| c r IH]; intros a b; [reflexivity |].
  cbn [revString]. rewrite IH. reflexivity.
Qed.

Lemma noWhite_revString (s : string) :
  forall acc, noWhite s = true -> noWhite acc = true ->
    noWhite (revString s acc) = true.
Proof.
  induction s as [| c r IH]; intros acc Hs Hacc; [exact Hacc |].
  cbn [noWhite] in Hs. apply andb_true_iff in Hs as [Hc Hr].
  cbn [revString]. apply IH; [exact Hr |].
  cbn [noWhite]. rewrite Hc, Hacc. reflexivity.
Qed.

Lemma trimStart_noWhite (s : string) : noWhite s = true -> trimStart s = s.
Proof.
  destruct s as [| c r]; [reflexivity |].
  cbn [noWhite trimStart]. intros H. apply andb_true_iff in H as [Hc _].
  apply negb_true_iff in Hc. rewrite Hc. reflexivity.
Qed.

Lemma append_empty_r (s : string) : s ++ "" = s.
Proof. induction s as [| c r IH]; [reflexivity |]. cbn. rewrite IH. reflexivity. Qed.

Lemma trim_noWhite (s : string) : noWhite s = true -> trim s = s.
Proof.
  intros H. unfold trim, trimEnd.
  rewrite (trimStart_noWhite s H).
  rewrite trimStart_noWhite by (apply noWhite_revString; [exact H | reflexivity]).
  rewrite revString_revString. cbn [revString]. apply append_empty_r.
Qed.

Lemma isDecDigit_not_white (c : ascii) : isDecDigit c = true -> isWhite c = false.
Proof.
  destruct c as [[] [] [] [] [] [] [] []]; intros H;
    solve [reflexivity | discriminate H].
Qed.

Lemma allDigits_noWhite (s : string) : allDigits s = true -> noWhite s = true.
Proof.
  induction s as [| c r IH]; [reflexivity |].
  cbn [allDigits noWhite]. intros H. apply andb_true_iff in H as [Hc Hr].
  rewrite (isDecDigit_not_white c Hc), (IH Hr). reflexivity.
Qed.

(** On a non-empty run of decimal digits [StringToBigInt] is the decimal
    value: no radix prefix and no sign applies. *)
Lemma StringToBigInt_digits (s : string) :
  allDigits s = true -> s <> EmptyString ->
  StringToBigInt s = digitsValue 10 s 0.
Proof.
  intros Hd Hne. unfold StringToBigInt.
  rewrite (trim_noWhite s (allDigits_noWhite s Hd)).
  destruct s as [| c r]; [contradiction |].
  cbn [allDigits] in Hd. apply andb_true_iff in Hd as [Hc Hr].
  destruct c as [[] [] [] [] [] [] [] []]; try discriminate Hc; try reflexivity.
  destruct r as [| c2 r2]; [reflexivity |].
  cbn [allDigits] in Hr. apply andb_true_iff in Hr as [Hc2 _].
  destruct c2 as [[] [] [] [] [] [] [] []]; try discriminate Hc2; reflexivity.
Qed.

Lemma StringToBigInt_minus_digits (s : string) :
  allDigits s = true -> s <> EmptyString ->
  StringToBigInt (String "-" s) = option_map Z.opp (digitsValue 10 s 0).
Proof.
  intros Hd Hne. unfold StringToBigInt.
  rewrite trim_noWhite.
  - destruct s as [| c r]; [contradiction | reflexivity].
  - cbn [noWhite]. rewrite (allDigits_noWhite s Hd). reflexivity.
Qed.

(** A bigint written by [toString] reads back through [BigInt(...)]. *)
Lemma StringToBigInt_toString (z : Z) : StringToBigInt (BigInt_toString z) = Some z.
Proof.
  unfold BigInt_toString. destruct (z <? 0) eqn:Hz.
  - apply Z.ltb_lt in Hz.
    destruct (natToString_digits (- z)) as [Hd Hne]; [lia |].
    rewrite StringToBigInt_minus_digits by assumption.
    rewrite natToString_value by lia. cbn. f_equal. lia.
  - apply Z.ltb_ge in Hz.
    destruct (natToString_digits z Hz) as [Hd Hne].
    rewrite StringToBigInt_digits by assumption.
    apply natToString_value. exact Hz.
Qed.


Lemma prefix_app (k b : string) : String.prefix k (k ++ b) = true.
Proof.
  induction k as [| c k IH]; [destruct b; reflexivity |].
  cbn [append String.prefix]. destruct (Ascii.ascii_dec c c); [exact IH | contradiction].
Qed.

Lemma includes_prefix (s sub : string) : String.prefix sub s = true -> includes s sub = true.
Proof. intros H. destruct s; cbn [includes]; rewrite H; reflexivity. Qed.

Lemma includes_app (a k b : string) : includes (a ++ k ++ b) k = true.
Proof.
  induction a as [| c a IH].
  - cbn [append]. apply includes_prefix. apply prefix_app.
  - cbn [append includes]. rewrite IH. apply orb_true_r.
Qed.

Lemma asciiLowerCase_app (a b : string) :
  asciiLowerCase (a ++ b) = asciiLowerCase a ++ asciiLowerCase b.
Proof.
  induction a as [| c a IH]; [reflexivity |].
  cbn [append asciiLowerCase]. rewrite IH. reflexivity.
Qed.

Lemma lowerAscii_idempotent (c : ascii) : lowerAscii (lowerAscii c) = lowerAscii c.
Proof. destruct c as [[] [] [] [] [] [] [] []]; reflexivity. Qed.

Lemma asciiLowerCase_idempotent (s : string) :
  asciiLowerCase (asciiLowerCase s) = asciiLowerCase s.
Proof.
  induction s as [| c s IH]; [reflexivity |].
  cbn [asciiLowerCase]. rewrite lowerAscii_idempotent, IH. reflexivity.
Qed.



Lemma digitVal_isDecDigit (c : ascii) :
  isDecDigit c = true -> exists d, digitVal 10 c = Some d.
Proof.
  destruct c as [[] [] [] [] [] [] [] []]; intros H;
    solve [discriminate H | eexists; reflexivity].
Qed.

Lemma digitsPrefix_allDigits (s : string) :
  allDigits s = true ->
  forall acc seen v,
    digitsValue 10 s acc = Some v ->
    digitsPrefix 10 s acc seen = (v, match s with EmptyString => seen | _ => true end).
Proof.
  induction s as [| c r IH]; intros Hd acc seen v Hv.
  - cbn in *. congruence.
  - cbn [allDigits] in Hd. apply andb_true_iff in Hd as [Hc Hr].
    destruct (digitVal_isDecDigit c Hc) as [d Hdv].
    cbn [digitsValue digitsPrefix] in *. rewrite Hdv in *.
    rewrite (IH Hr _ true v Hv). destruct r; reflexivity.
Qed.

(** A text of decimal digits is read by [parseInt] as the number it writes. *)
Lemma parseIntString_digits (s : string) (v : Z) :
  allDigits s = true -> s <> EmptyString -> digitsValue 10 s 0 = Some v ->
  parseIntString s = Some v /\ parseIntString (String "-" s) = Some (- v).
Proof.
  intros Hd Hne Hv. unfold parseIntString.
  assert (trimStart (String "-" s) = String "-" s) as -> by reflexivity.
  rewrite (trimStart_noWhite s (allDigits_noWhite s Hd)).
  destruct s as [| c r]; [contradiction |].
  pose proof (digitsPrefix_allDigits _ Hd 0 false v Hv) as P.
  cbn [allDigits] in Hd. apply andb_true_iff in Hd as [Hc Hr].
  assert (forall (neg : bool),
            (let '(radix, t) :=
               match String c r with
               | String "0" (String "x" q) | String "0" (String "X" q) => (16, q)
               | _ => (10, String c r)
               end in
             match digitsPrefix radix t 0 false with
             | (w, true) => Some (if neg then - w else w)
             | (_, false) => None
             end) = Some (if neg then - v else v)) as Hbody.
  { intros neg.
    assert (match String c r with
            | String "0" (String "x" q) | String "0" (String "X" q) => (16, q)
            | _ => (10, String c r)
            end = (10, String c r)) as ->.
    { destruct r as [| c2 r2]; [destruct c as [[] [] [] [] [] [] [] []]; reflexivity |].
      cbn [allDigits] in Hr. apply andb_true_iff in Hr as [Hc2 _].
      destruct c2 as [[] [] [] [] [] [] [] []]; try discriminate Hc2;
        destruct c as [[] [] [] [] [] [] [] []]; reflexivity. }
    rewrite P. reflexivity. }
  split.
  - destruct c as [[] [] [] [] [] [] [] []]; try discriminate Hc; exact (Hbody false).
  - exact (Hbody true).
Qed.

Lemma parseIntString_toString (z : Z) : parseIntString (BigInt_toString z) = Some z.
Proof.
  unfold BigInt_toString. destruct (z <? 0) eqn:Hz.
  - apply Z.ltb_lt in Hz.
    destruct (natToString_digits (- z)) as [Hd Hne]; [lia |].
    destruct (parseIntString_digits _ (- z) Hd Hne (natToString_value (- z) ltac:(lia)))
      as [_ H].
    rewrite H. f_equal. lia.
  - apply Z.ltb_ge in Hz.
    destruct (natToString_digits z Hz) as [Hd Hne].
    exact (proj1 (parseIntString_digits _ z Hd Hne (natToString_value z Hz))).
Qed.


Lemma substring_full (s : string) : String.substring 0 (String.length s) s = s.
Proof.
  induction s as [| c s IH]; [reflexivity |].
  cbn [String.length String.substring]. f_equal. exact IH.
Qed.

Lemma substring_app_split (s : string) :
  forall i n m, (i + n + m <= String.length s)%nat ->
    String.substring i (n + m) s =
    String.substring i n s ++ String.substring (i + n) m s.
Proof.
  induction s as [| c r IH]; intros i n m H.
  - cbn in H. assert (n = O) as -> by lia. assert (m = O) as -> by lia.
    destruct i; reflexivity.
  - cbn [String.length] in H. destruct i as [| i].
    + destruct n as [| n]; [reflexivity |].
      cbn [Nat.add String.substring append]. f_equal.
      apply (IH O n m). cbn. lia.
    + cbn [Nat.add String.substring]. apply IH. lia.
Qed.

Lemma length_substring (s : string) :
  forall i n, (i + n <= String.length s)%nat ->
    String.length (String.substring i n s) = n.
Proof.
  induction s as [| c r IH]; intros i n H.
  - cbn in H. assert (n = O) as -> by lia. destruct i; reflexivity.
  - cbn [String.length] in H. destruct i as [| i].
    + destruct n as [| n]; [reflexivity |]. cbn [String.substring String.length].
      f_equal. apply (IH O). cbn. lia.
    + cbn [String.substring]. apply IH. lia.
Qed.

Lemma length_append (a b : string) :
  String.length (a ++ b) = (String.length a + String.length b)%nat.
Proof. induction a as [| c a IH]; [reflexivity |]. cbn. rewrite IH. reflexivity. Qed.


End JSFacts.

(** ** Node's codecs: what is encoded is read back *)

Module NodeHostFacts.
Import JS.
Import Terms.
Import Verifier.
Import NodeHost.

(** *** base64: decoding what was encoded *)

Lemma code_range (c : ascii) : 0 <= code c < 256.
Proof.
  unfold code. pose proof (nat_ascii_bounded c). lia.
Qed.

Lemma byteChar_code (c : ascii) (n : Z) : n mod 256 = code c -> byteChar n = c.
Proof.
  intros H. unfold byteChar. rewrite H. unfold code.
  rewrite Nat2Z.id. apply ascii_nat_embedding.
Qed.

Lemma sextets_base64Char (v : Z) (r : string) :
  sextets (String (base64Char v) r) = v mod 64 :: sextets r.
Proof.
  unfold base64Char. cbv zeta.
  assert (0 <= v mod 64 < 64) as H by (apply Z.mod_pos_bound; lia).
  remember (v mod 64) as w eqn:E. clear E v.
  rewrite <- (Z2Nat.id w) by lia.
  assert (Z.to_nat w < 64)%nat as Hk by lia.
  remember (Z.to_nat w) as k eqn:E. clear E H w.
  do 64 (destruct k as [| k]; [reflexivity |]). lia.
Qed.

Lemma string_ind3 (P : string -> Prop) :
  P "" ->
  (forall a, P (String a "")) ->
  (forall a b, P (String a (String b ""))) ->
  (forall a b c r, P r -> P (String a (String b (String c r)))) ->
  forall s, P s.
Proof.
  intros H0 H1 H2 H3.
  assert (forall s, P s /\ (forall a, P (String a s))
                    /\ (forall a b, P (String a (String b s)))) as H.
  { induction s as [| c r (IH0 & IH1 & IH2)].
    - split; [exact H0 |]. split; [exact H1 | exact H2].
    - split; [apply IH1 |]. split; [intros a; apply IH2 |].
      intros a b. apply H3. exact IH0. }
  intros s. apply H.
Qed.

(** [Buffer.from(Buffer.from(s).toString("base64"), "base64")] is [s]. *)
Lemma base64_round_trip (s : string) : base64ToUtf8 (utf8ToBase64 s) = s.
Proof.
  unfold base64ToUtf8. induction s as [| a | a b | a b c r IH] using string_ind3.
  - reflexivity.
  - cbn [utf8ToBase64]. cbv zeta. rewrite !sextets_base64Char.
    change (sextets "==") with (@nil Z). cbn [decodeGroups].
    pose proof (code_range a). f_equal.
    apply byteChar_code. Z.div_mod_to_equations. lia.
  - cbn [utf8ToBase64]. cbv zeta. rewrite !sextets_base64Char.
    change (sextets "=") with (@nil Z). cbn [decodeGroups]. cbv zeta.
    pose proof (code_range a). pose proof (code_range b).
    f_equal; [| f_equal]; apply byteChar_code; Z.div_mod_to_equations; lia.
  - cbn [utf8ToBase64]. cbv zeta. rewrite !sextets_base64Char.
    cbn [decodeGroups]. cbv zeta. rewrite IH.
    pose proof (code_range a). pose proof (code_range b). pose proof (code_range c).
    f_equal; [| f_equal; [| f_equal]]; apply byteChar_code;
      Z.div_mod_to_equations; lia.
Qed.

(** *** JSON: reading back a string literal *)

Lemma parseChars_quoteChars (s : string) :
  forall rest,
    parseChars (quoteChars s ++ String dquote rest) = Some (s, rest).
Proof.
  induction s as [| c r IH]; intros rest.
  - reflexivity.
  - destruct c as [[] [] [] [] [] [] [] []];
      simpl; rewrite IH; reflexivity.
Qed.

(** *** JSON: reading back a number *)

Lemma spanDigits_app (d rest : string) :
  allDigits d = true ->
  match rest with String c _ => isDigit c = false | EmptyString => True end ->
  spanDigits (d ++ rest) = (d, rest).
Proof.
  intros Hd Hr. induction d as [| c d IH].
  - destruct rest as [| c r]; [reflexivity |]. cbn [append spanDigits]. rewrite Hr.
    reflexivity.
  - cbn [allDigits] in Hd. apply andb_true_iff in Hd. destruct Hd as [Hc Hd].
    cbn [append spanDigits]. change (isDigit c) with (isDecDigit c). rewrite Hc.
    rewrite (IH Hd). reflexivity.
Qed.

Lemma allDigits_app (a b : string) :
  allDigits (a ++ b) = allDigits a && allDigits b.
Proof.
  induction a as [| c a IH]; [reflexivity |].
  cbn [append allDigits]. rewrite IH. apply andb_assoc.
Qed.

Lemma sign_of_digit (c : ascii) (Y : string) :
  isDecDigit c = true ->
  match String c Y with
  | String "-" r => (true, r)
  | _ => (false, String c Y)
  end = (false, String c Y).
Proof.
  intros H. destruct c as [[] [] [] [] [] [] [] []]; try discriminate H; reflexivity.
Qed.

Lemma parseNumber_literal (neg : bool) (ip fpart epart r : string) :
  allDigits ip = true -> ip <> "" ->
  (forall more, ip = String "0" more -> more = "") ->
  (fpart = "" \/ exists fp, fpart = "." ++ fp /\ allDigits fp = true /\ fp <> "") ->
  (epart = "" \/
   exists sg ep, epart = "e" ++ sg ++ ep /\ (sg = "-" \/ sg = "+") /\
                 allDigits ep = true /\ ep <> "") ->
  exists y,
    parseNumber ((if neg then "-" else "") ++ ip ++ fpart ++ epart ++ String "," r)
    = Some (y, String "," r).
Proof.
  intros Hip Hne Hzero Hf He.
  destruct ip as [| c more]; [contradiction |].
  assert (Ascii.eqb c "0" && negb (String.eqb more "") = false) as Hlead.
  { destruct (Ascii.eqb c "0") eqn:E; [| reflexivity].
    apply Ascii.eqb_eq in E. subst c. rewrite (Hzero more eq_refl). reflexivity. }
  pose proof Hip as Hc. cbn [allDigits] in Hc. apply andb_true_iff in Hc.
  destruct Hc as [Hc _].
  set (tail := fpart ++ epart ++ String "," r).
  assert (spanDigits (String c more ++ tail) = (String c more, tail)) as Hspan.
  { apply spanDigits_app; [exact Hip |]. subst tail.
    destruct Hf as [-> | (fp & -> & _)]; [| reflexivity].
    destruct He as [-> | (sg & ep & -> & _)]; reflexivity. }
  unfold parseNumber.
  assert (match (if neg then "-" else "") ++ String c more ++ tail with
          | String "-" r0 => (true, r0)
          | _ => (false, (if neg then "-" else "") ++ String c more ++ tail)
          end = (neg, String c more ++ tail)) as Hsign.
  { destruct neg; [reflexivity |]. apply sign_of_digit. exact Hc. }
  rewrite Hsign, Hspan, Hlead. clear Hsign Hspan. subst tail.
  assert (forall ep, allDigits ep = true ->
            spanDigits (ep ++ String "," r) = (ep, String "," r)) as Hend
    by (intros ep H; apply spanDigits_app; [exact H | reflexivity]).
  destruct Hf as [-> | (fp & -> & Hfp & Hfne)].
  - destruct He as [-> | (sg & ep & -> & Hsg & Hep & Hene)].
    + cbn. eexists. reflexivity.
    + destruct Hsg as [-> | ->]; cbn [append]; rewrite (Hend _ Hep);
        (destruct ep as [| e ep]; [contradiction |]); eexists; reflexivity.
  - cbn [append].
    assert (spanDigits (fp ++ epart ++ String "," r) = (fp, epart ++ String "," r))
      as Hfrac.
    { apply spanDigits_app; [exact Hfp |].
      destruct He as [-> | (sg & ep & -> & _)]; reflexivity. }
    rewrite Hfrac. destruct fp as [| f fp]; [contradiction |].
    destruct He as [-> | (sg & ep & -> & Hsg & Hep & Hene)].
    + cbn. eexists. reflexivity.
    + destruct Hsg as [-> | ->]; cbn [append]; rewrite (Hend _ Hep);
        (destruct ep as [| e ep]; [contradiction |]); eexists; reflexivity.
Qed.

Lemma digitChar_not_zero (d : Z) : 1 <= d < 10 -> digitChar d <> "0"%char.
Proof.
  intros H.
  assert (d = 1 \/ d = 2 \/ d = 3 \/ d = 4 \/ d = 5 \/ d = 6 \/
          d = 7 \/ d = 8 \/ d = 9) as Hd by lia.
  repeat (destruct Hd as [-> | Hd]; [discriminate |]).
  subst d; discriminate.
Qed.

(** A positive integer is written without a leading zero. *)
Lemma decimalDigits_head (fuel : nat) :
  forall n acc, 1 <= n < 2 ^ Z.of_nat fuel ->
    exists c r, decimalDigits fuel n acc = String c r /\ c <> "0"%char.
Proof.
  induction fuel as [| f IH]; intros n acc Hn.
  - change (2 ^ Z.of_nat 0) with 1 in Hn. lia.
  - cbn [decimalDigits]. destruct (n / 10 =? 0) eqn:Hq.
    + apply Z.eqb_eq in Hq. eexists _, _. split; [reflexivity |].
      apply digitChar_not_zero.
      pose proof (Z.div_mod n 10 ltac:(lia)) as D.
      pose proof (Z.mod_pos_bound n 10 ltac:(lia)). lia.
    + apply Z.eqb_neq in Hq. apply IH.
      rewrite Nat2Z.inj_succ, Z.pow_succ_r in Hn by lia.
      split; [| apply Z.div_lt_upper_bound; lia].
      assert (0 <= n / 10) by (apply Z.div_pos; lia). lia.
Qed.

Lemma natToString_head (n : Z) :
  1 <= n -> exists c r, natToString n = String c r /\ c <> "0"%char.
Proof.
  intros Hn. unfold natToString. apply decimalDigits_head.
  split; [exact Hn |].
  rewrite Nat2Z.inj_succ, Z2Nat.id by apply Z.log2_nonneg.
  apply Z.log2_spec. lia.
Qed.

(** An integer of more than [j] digits is written with more than [j]
    characters. *)
Lemma decimalDigits_length (fuel : nat) :
  forall n acc j, 0 <= j -> 10 ^ j <= n < 2 ^ Z.of_nat fuel ->
    (Z.to_nat j + 1 + String.length acc
     <= String.length (decimalDigits fuel n acc))%nat.
Proof.
  induction fuel as [| f IH]; intros n acc j Hj Hn.
  - change (2 ^ Z.of_nat 0) with 1 in Hn.
    pose proof (Z.pow_pos_nonneg 10 j ltac:(lia) Hj). lia.
  - cbn [decimalDigits].
    pose proof (Z.pow_pos_nonneg 10 j ltac:(lia) Hj) as Hp.
    destruct (n / 10 =? 0) eqn:Hq.
    + apply Z.eqb_eq in Hq.
      assert (n < 10) as Hlt.
      { pose proof (Z.div_mod n 10 ltac:(lia)) as D.
        pose proof (Z.mod_pos_bound n 10 ltac:(lia)). lia. }
      assert (j = 0) as ->.
      { destruct (Z.eq_dec j 0) as [E | E]; [exact E |].
        assert (10 ^ 1 <= 10 ^ j) by (apply Z.pow_le_mono_r; lia).
        change (10 ^ 1) with 10 in *. lia. }
      cbn [String.length]. lia.
    + apply Z.eqb_neq in Hq.
      assert (n / 10 < 2 ^ Z.of_nat f) as Hup.
      { rewrite Nat2Z.inj_succ, Z.pow_succ_r in Hn by lia.
        apply Z.div_lt_upper_bound; lia. }
      assert (0 <= n / 10) as Hnn by (apply Z.div_pos; lia).
      destruct (Z.eq_dec j 0) as [-> | E].
      * specialize (IH (n / 10) (String (digitChar (n mod 10)) acc) 0 ltac:(lia)).
        change (10 ^ 0) with 1 in IH. specialize (IH ltac:(lia)).
        cbn [String.length] in IH. lia.
      * assert (10 ^ (j - 1) <= n / 10) as Hlow.
        { apply Z.div_le_lower_bound; [lia |].
          replace (10 * 10 ^ (j - 1)) with (10 ^ j); [lia |].
          replace j with (Z.succ (j - 1)) at 1 by lia.
          apply Z.pow_succ_r. lia. }
        specialize (IH (n / 10) (String (digitChar (n mod 10)) acc) (j - 1)
                      ltac:(lia) ltac:(lia)).
        cbn [String.length] in IH. lia.
Qed.

Lemma natToString_length (n j : Z) :
  0 <= j -> 10 ^ j <= n -> (Z.to_nat j < String.length (natToString n))%nat.
Proof.
  intros Hj Hn. unfold natToString.
  pose proof (Z.pow_pos_nonneg 10 j ltac:(lia) Hj) as Hp.
  pose proof (decimalDigits_length (S (Z.to_nat (Z.log2 n))) n "" j Hj) as H.
  cbn [String.length] in H.
  assert (n < 2 ^ Z.of_nat (S (Z.to_nat (Z.log2 n)))) as Hup.
  { rewrite Nat2Z.inj_succ, Z2Nat.id by apply Z.log2_nonneg.
    apply Z.log2_spec. lia. }
  specialize (H ltac:(lia)). lia.
Qed.

Lemma allDigits_repeatChar (n : nat) : allDigits (repeatChar "0" n) = true.
Proof. induction n as [| n IH]; [reflexivity |]. cbn. exact IH. Qed.

Lemma append_assoc (a b c : string) : (a ++ b) ++ c = a ++ b ++ c.
Proof. induction a as [| x a IH]; [reflexivity |]. cbn. rewrite IH. reflexivity. Qed.

(** A decimal point put inside a digit string. *)
Lemma insertPoint_literal (n : nat) (D : string) :
  allDigits D = true -> (0 < n < String.length D)%nat ->
  (forall more, D <> String "0" more) ->
  exists A B,
    insertPoint n D = A ++ "." ++ B /\
    allDigits A = true /\ A <> "" /\ (forall more, A <> String "0" more) /\
    allDigits B = true /\ B <> "".
Proof.
  intros HD Hn Hz. unfold insertPoint.
  exists (String.substring 0 n D), (String.substring n (String.length D - n) D).
  split; [reflexivity |].
  assert (D = String.substring 0 n D ++ String.substring n (String.length D - n) D)
    as Hsplit.
  { pose proof (JSFacts.substring_app_split D 0 n (String.length D - n) ltac:(lia)) as E.
    cbn [Nat.add] in E. rewrite <- E.
    replace (n + (String.length D - n))%nat with (String.length D) by lia.
    symmetry. apply JSFacts.substring_full. }
  rewrite Hsplit, allDigits_app in HD. apply andb_true_iff in HD.
  destruct HD as [HA HB].
  pose proof (JSFacts.length_substring D 0 n ltac:(lia)) as LA.
  pose proof (JSFacts.length_substring D n (String.length D - n) ltac:(lia)) as LB.
  split; [exact HA |]. split; [| split; [| split; [exact HB |]]].
  - intros E. rewrite E in LA. cbn in LA. lia.
  - intros more E. destruct D as [| c D']; [cbn in Hn; lia |].
    destruct n as [| n']; [lia |]. cbn [String.substring] in E.
    injection E as -> _. apply (Hz D'). reflexivity.
  - intros E. rewrite E in LB. cbn in LB. lia.
Qed.

Lemma candidate_range (m e k n s : Z) :
  candidate m e k n = Some s -> 10 ^ (k - 1) <= s.
Proof.
  unfold candidate. cbv zeta.
  match goal with
  | |- context [(?a <=? ?lo) && (?lo <? ?b) && inRoundingInterval m e ?lo ?p] =>
      set (x := lo)
  end.
  destruct ((10 ^ (k - 1) <=? x) && (x <? 10 ^ k) && inRoundingInterval m e x (n - k))
    eqn:Hlo;
  destruct ((10 ^ (k - 1) <=? x + 1) && (x + 1 <? 10 ^ k)
            && inRoundingInterval m e (x + 1) (n - k)) eqn:Hhi;
    try discriminate.
  - apply andb_true_iff in Hlo, Hhi. destruct Hlo as [Hlo _], Hhi as [Hhi _].
    apply andb_true_iff in Hlo, Hhi. destruct Hlo as [Hlo _], Hhi as [Hhi _].
    apply Z.leb_le in Hlo, Hhi.
    repeat match goal with
           | |- context [if ?b then _ else _] => destruct b
           end; intros H; injection H as <-; assumption.
  - apply andb_true_iff in Hlo. destruct Hlo as [Hlo _].
    apply andb_true_iff in Hlo. destruct Hlo as [Hlo _]. apply Z.leb_le in Hlo.
    intros H; injection H as <-; assumption.
  - apply andb_true_iff in Hhi. destruct Hhi as [Hhi _].
    apply andb_true_iff in Hhi. destruct Hhi as [Hhi _]. apply Z.leb_le in Hhi.
    intros H; injection H as <-; assumption.
Qed.

(** The digits that [shortest] returns: [k] counts them, unless the search
    gave up. *)
Lemma shortest_range (fuel : nat) :
  forall m e n0 k s k' n,
    1 <= k -> shortest fuel m e n0 k = (s, k', n) ->
    (s = m /\ k' = 0 /\ n = 0) \/ (1 <= k' /\ 10 ^ (k' - 1) <= s).
Proof.
  induction fuel as [| f IH]; intros m e n0 k s k' n Hk H.
  - cbn in H. injection H as <- <- <-. left. repeat split.
  - cbn [shortest] in H.
    destruct (candidate m e k n0) as [s0 |] eqn:C0;
      destruct (candidate m e k (n0 + 1)) as [s1 |] eqn:C1.
    + apply candidate_range in C0, C1. unfold closest in H. cbv zeta in H.
      repeat match type of H with
             | context [if ?b then _ else _] => destruct b
             end; injection H as <- <- <-; right; split; assumption.
    + apply candidate_range in C0. injection H as <- <- <-. right. split; assumption.
    + apply candidate_range in C1. injection H as <- <- <-. right. split; assumption.
    + apply (IH m e n0 (k + 1) s k' n); [lia | exact H].
Qed.

(** What [layoutNumber] writes is a JSON number: integer digits with no
    leading zero, then maybe a fraction, then maybe an exponent. *)
Lemma layoutNumber_literal (s k n : Z) :
  1 <= s ->
  (k = 0 /\ n = 0) \/ (1 <= k /\ 10 ^ (k - 1) <= s) ->
  exists ip fpart epart,
    layoutNumber s k n = ip ++ fpart ++ epart /\
    allDigits ip = true /\ ip <> "" /\
    (forall more, ip = String "0" more -> more = "") /\
    (fpart = "" \/ exists fp, fpart = "." ++ fp /\ allDigits fp = true /\ fp <> "") /\
    (epart = "" \/
     exists sg ep, epart = "e" ++ sg ++ ep /\ (sg = "-" \/ sg = "+") /\
                   allDigits ep = true /\ ep <> "").
Proof.
  intros Hs Hk.
  destruct (JSFacts.natToString_digits s ltac:(lia)) as [HD HDne].
  destruct (natToString_head s Hs) as (c & D' & ED & Hc).
  assert (forall more, natToString s <> String "0" more) as Hnz
    by (intros more E; rewrite ED in E; injection E as E _; contradiction).
  assert (forall j, 0 <= j -> j < k -> (Z.to_nat j < String.length (natToString s))%nat)
    as Hlen.
  { intros j Hj Hjk. apply natToString_length; [exact Hj |].
    destruct Hk as [[-> _] | [Hk1 Hk2]]; [lia |].
    assert (10 ^ j <= 10 ^ (k - 1)) by (apply Z.pow_le_mono_r; lia). lia. }
  assert (exists sg ep, ("e" ++ (if n - 1 <? 0 then "-" else "+")
                             ++ natToString (Z.abs (n - 1)))
                        = "e" ++ sg ++ ep /\ (sg = "-" \/ sg = "+") /\
                        allDigits ep = true /\ ep <> "") as Hexp.
  { destruct (JSFacts.natToString_digits (Z.abs (n - 1)) ltac:(lia)) as [H1 H2].
    exists (if n - 1 <? 0 then "-" else "+"), (natToString (Z.abs (n - 1))).
    split; [reflexivity |]. split; [destruct (n - 1 <? 0); auto |].
    split; assumption. }
  unfold layoutNumber. cbv zeta.
  destruct ((k <=? n) && (n <=? 21)) eqn:B1.
  { exists (natToString s ++ repeatChar "0" (Z.to_nat (n - k))), "", "".
    split; [rewrite !JSFacts.append_empty_r; reflexivity |].
    split; [rewrite allDigits_app, HD, allDigits_repeatChar; reflexivity |].
    split; [rewrite ED; discriminate |].
    split; [intros more E; rewrite ED in E; injection E as E _; contradiction |].
    split; left; reflexivity. }
  destruct ((0 <? n) && (n <=? 21)) eqn:B2.
  { apply andb_true_iff in B2. destruct B2 as [B2 B2'].
    apply Z.ltb_lt in B2. apply Z.leb_le in B2'.
    assert (n < k) as Hnk.
    { apply andb_false_iff in B1. destruct B1 as [B1 | B1];
        [apply Z.leb_gt in B1; lia | apply Z.leb_gt in B1; lia]. }
    destruct (insertPoint_literal (Z.to_nat n) (natToString s) HD) as
      (A & B & E & HA & HAne & HAz & HB & HBne).
    - pose proof (Hlen n ltac:(lia) Hnk). lia.
    - exact Hnz.
    - exists A, ("." ++ B), "". rewrite E.
      split; [rewrite JSFacts.append_empty_r; reflexivity |].
      split; [exact HA |]. split; [exact HAne |].
      split; [intros more E'; destruct (HAz more E') |].
      split; [right; exists B; repeat split; assumption | left; reflexivity]. }
  destruct ((- 6 <? n) && (n <=? 0)) eqn:B3.
  { exists "0", ("." ++ repeatChar "0" (Z.to_nat (- n)) ++ natToString s), "".
    split; [rewrite JSFacts.append_empty_r; reflexivity |].
    split; [reflexivity |]. split; [discriminate |].
    split; [intros more E; injection E as <-; reflexivity |].
    split; [| left; reflexivity].
    right. eexists. split; [reflexivity |].
    split; [rewrite allDigits_app, allDigits_repeatChar, HD; reflexivity |].
    intros E. destruct (repeatChar "0" (Z.to_nat (- n))); [| discriminate E].
    cbn in E. contradiction. }
  destruct (k =? 1) eqn:K1.
  { exists (natToString s), "",
      ("e" ++ (if n - 1 <? 0 then "-" else "+") ++ natToString (Z.abs (n - 1))).
    split; [reflexivity |]. split; [exact HD |]. split; [exact HDne |].
    split; [intros more E; destruct (Hnz more E) |].
    split; [left; reflexivity | right; exact Hexp]. }
  apply Z.eqb_neq in K1.
  assert (2 <= k) as Hk2.
  { destruct Hk as [[-> ->] | [Hk1 _]]; [discriminate B1 | lia]. }
  destruct (insertPoint_literal 1 (natToString s) HD) as
    (A & B & E & HA & HAne & HAz & HB & HBne).
  - pose proof (Hlen 1 ltac:(lia) ltac:(lia)).
    change (Z.to_nat 1) with 1%nat in *. lia.
  - exact Hnz.
  - exists A, ("." ++ B),
      ("e" ++ (if n - 1 <? 0 then "-" else "+") ++ natToString (Z.abs (n - 1))).
    rewrite E.
    split; [rewrite !append_assoc; reflexivity |].
    split; [exact HA |]. split; [exact HAne |].
    split; [intros more E'; destruct (HAz more E') |].
    split; [right; exists B; repeat split; assumption | right; exact Hexp].
Qed.

(** [JSON.parse] reads what [JSON.stringify] writes for a finite number as
    a number, up to the comma that follows. *)
Lemma parseNumber_numberToString (x : number) (r : string) :
  isFinite x = true ->
  exists y, parseNumber (numberToString x ++ String "," r) = Some (y, String "," r).
Proof.
  unfold isFinite, numberToString. intros Hx.
  destruct (Prim2SF x) as [sg | sg | | sg m e]; try discriminate Hx.
  - eexists. reflexivity.
  - destruct (shortest 17 (Zpos m) e (decimalExponent (Zpos m) e) 1)
      as [[s k] n] eqn:E.
    assert (1 <= s /\ ((k = 0 /\ n = 0) \/ (1 <= k /\ 10 ^ (k - 1) <= s))) as [Hs Hk].
    { destruct (shortest_range 17 (Zpos m) e _ 1 s k n ltac:(lia) E)
        as [(-> & -> & ->) | [H1 H2]].
      - split; [lia | left; split; reflexivity].
      - split; [| right; split; assumption].
        pose proof (Z.pow_pos_nonneg 10 (k - 1) ltac:(lia) ltac:(lia)). lia. }
    destruct (layoutNumber_literal s k n Hs Hk)
      as (ip & fpart & epart & EL & H1 & H2 & H3 & H4 & H5).
    rewrite EL.
    destruct (parseNumber_literal sg ip fpart epart r H1 H2 H3 H4 H5) as [y Hy].
    exists y. rewrite <- Hy. rewrite !append_assoc. reflexivity.
Qed.

(** *** JSON: reading back an object *)

Lemma quote_app (k Y : string) :
  quote k ++ Y = String dquote (quoteChars k ++ String dquote Y).
Proof. unfold quote. cbn [append]. rewrite append_assoc. reflexivity. Qed.

Lemma parseValue_string (f : nat) (s rest : string) :
  parseValue (S f) (quote s ++ rest) = Some (JStr s, rest).
Proof.
  rewrite quote_app. unfold dquote at 1. simpl.
  rewrite parseChars_quoteChars. reflexivity.
Qed.

Lemma parseValue_object (f : nat) (members : string) fields rest :
  parseMembers f (String dquote members) [] = Some (fields, rest) ->
  parseValue (S f) (String "{" (String dquote members)) = Some (JObj fields, rest).
Proof.
  intros H. unfold dquote in *. simpl. simpl in H. rewrite H. reflexivity.
Qed.

Lemma parseValue_number (f : nat) (s : string) y rest :
  parseNumber s = Some (y, rest) ->
  parseValue (S f) s = Some (JNum y, rest).
Proof.
  intros H. destruct s as [| c X]; [discriminate H |].
  destruct c as [[] [] [] [] [] [] [] []];
    try discriminate H; simpl; rewrite H; reflexivity.
Qed.

Lemma parseMembers_step (f : nat) (k text rest : string) v acc :
  parseValue f (text ++ String "," rest) = Some (v, String "," rest) ->
  parseMembers (S f) (quote k ++ String ":" (text ++ String "," rest)) acc
  = parseMembers f rest (putField k v acc).
Proof.
  intros H. rewrite quote_app. unfold dquote at 1. simpl.
  rewrite parseChars_quoteChars. simpl. rewrite H. reflexivity.
Qed.

Lemma parseMembers_last (f : nat) (k text rest : string) v acc :
  parseValue f (text ++ String "}" rest) = Some (v, String "}" rest) ->
  parseMembers (S f) (quote k ++ String ":" (text ++ String "}" rest)) acc
  = Some (putField k v acc, rest).
Proof.
  intros H. rewrite quote_app. unfold dquote at 1. simpl.
  rewrite parseChars_quoteChars. simpl. rewrite H. reflexivity.
Qed.

Lemma parseValue_number_text (f : nat) (x : number) (rest : string) :
  exists v,
    parseValue (S f) (JSON_stringify (JNum x) ++ String "," rest)
    = Some (v, String "," rest).
Proof.
  cbn [JSON_stringify]. destruct (isFinite x) eqn:Hx.
  - destruct (parseNumber_numberToString x rest Hx) as [y Hy].
    exists (JNum y). apply parseValue_number. exact Hy.
  - exists JNull. reflexivity.
Qed.

(** What [JSON.parse] makes of the text of a Simple proof: the proof, but
    for the time stamp, which is read as some number (or as [null] when it
    was not finite). *)
Lemma stringify_mock_reads_back (m : X402MockProof) :
  exists timestamp,
    JSON_parse (JSON_stringify (jsonOfMockProof m))
    = Some (JObj [ ("txHash", JStr (mock_txHash m));
                   ("amount", JStr (mock_amount m));
                   ("recipient", JStr (mock_recipient m));
                   ("payer", JStr (mock_payer m));
                   ("signature", JStr (mock_signature m));
                   ("timestamp", timestamp);
                   ("network", JStr (mock_network m)) ]).
Proof.
  unfold JSON_parse.
  set (text := JSON_stringify (jsonOfMockProof m)).
  assert (exists f, (2 * String.length text + 2 = 9 + f)%nat) as [f Hf].
  { exists (2 * String.length text + 2 - 9)%nat.
    assert (4 <= String.length text)%nat; [| lia].
    subst text. cbn [JSON_stringify jsonOfMockProof map join fst snd].
    rewrite !JSFacts.length_append. cbn [String.length]. lia. }
  rewrite Hf. clear Hf. subst text.
  cbn [JSON_stringify jsonOfMockProof map join fst snd Nat.add].
  destruct (parseValue_number_text (S f) (mock_timestamp m)
              (quote "network" ++ String ":" (quote (mock_network m) ++ "}")))
    as [ts Hts].
  cbn [JSON_stringify] in Hts. exists ts.
  rewrite !append_assoc. cbn [append]. rewrite (quote_app "txHash").
  erewrite parseValue_object; cycle 1.
  rewrite <- quote_app.
  rewrite (parseMembers_step _ _ _ _ (JStr (mock_txHash m)))
    by apply parseValue_string.
  rewrite (parseMembers_step _ _ _ _ (JStr (mock_amount m)))
    by apply parseValue_string.
  rewrite (parseMembers_step _ _ _ _ (JStr (mock_recipient m)))
    by apply parseValue_string.
  rewrite (parseMembers_step _ _ _ _ (JStr (mock_payer m)))
    by apply parseValue_string.
  rewrite (parseMembers_step _ _ _ _ (JStr (mock_signature m)))
    by apply parseValue_string.
  rewrite (parseMembers_step _ _ _ _ ts) by exact Hts.
  rewrite (parseMembers_last _ _ _ _ (JStr (mock_network m)))
    by apply parseValue_string.
  reflexivity.
  reflexivity.
Qed.

Lemma parseValue_one (f : nat) (rest : string) :
  parseValue (S f) (JSON_stringify (JNum 1%float) ++ String "," rest)
  = Some (JNum 1%float, String "," rest).
Proof. apply parseValue_number. reflexivity. Qed.

Lemma parseValue_authorization (f : nat) (a : X402Authorization) (rest : string) :
  parseValue (8 + f) (JSON_stringify (jsonOfAuthorization a) ++ rest)
  = Some (jsonOfAuthorization a, rest).
Proof.
  cbn [JSON_stringify jsonOfAuthorization map join fst snd Nat.add].
  rewrite !append_assoc. cbn [append]. rewrite (quote_app "from").
  erewrite parseValue_object; cycle 1.
  rewrite <- quote_app.
  rewrite (parseMembers_step _ _ _ _ (JStr (auth_from a)))
    by apply parseValue_string.
  rewrite (parseMembers_step _ _ _ _ (JStr (auth_to a)))
    by apply parseValue_string.
  rewrite (parseMembers_step _ _ _ _ (JStr (auth_value a)))
    by apply parseValue_string.
  rewrite (parseMembers_step _ _ _ _ (JStr (auth_validAfter a)))
    by apply parseValue_string.
  rewrite (parseMembers_step _ _ _ _ (JStr (auth_validBefore a)))
    by apply parseValue_string.
  rewrite (parseMembers_last _ _ _ _ (JStr (auth_nonce a)))
    by apply parseValue_string.
  reflexivity.
  reflexivity.
Qed.

(** [JSON.parse] gives back a Delegated proof of version 1 from its text. *)
Lemma stringify_real_reads_back (r : X402RealProof) :
  x402Version r = 1%float ->
  JSON_parse (JSON_stringify (jsonOfRealProof r)) = Some (jsonOfRealProof r).
Proof.
  intros Hv. unfold JSON_parse.
  set (text := JSON_stringify (jsonOfRealProof r)).
  assert (exists f, (2 * String.length text + 2 = 16 + f)%nat) as [f Hf].
  { exists (2 * String.length text + 2 - 16)%nat.
    assert (7 <= String.length text)%nat; [| lia].
    subst text. cbn [JSON_stringify jsonOfRealProof map join fst snd].
    rewrite !JSFacts.length_append. cbn [String.length]. lia. }
  rewrite Hf. clear Hf. subst text.
  pose proof (parseValue_authorization f (payload_authorization r)) as Ha.
  unfold jsonOfRealProof. rewrite Hv.
  set (authorization := jsonOfAuthorization (payload_authorization r)) in *.
  assert (forall rest,
            parseValue (11 + f)
              (JSON_stringify (JObj [ ("signature", JStr (payload_signature r));
                                      ("authorization", authorization) ]) ++ rest)
            = Some (JObj [ ("signature", JStr (payload_signature r));
                           ("authorization", authorization) ], rest)) as Hp.
  { intros rest.
    cbn [JSON_stringify map join fst snd Nat.add].
    rewrite !append_assoc. cbn [append]. rewrite (quote_app "signature").
    erewrite parseValue_object; cycle 1.
    rewrite <- quote_app.
    rewrite (parseMembers_step _ _ _ _ (JStr (payload_signature r)))
      by apply parseValue_string.
    rewrite (parseMembers_last _ _ _ _ authorization) by apply Ha.
    reflexivity.
    reflexivity. }
  set (payload := JObj [ ("signature", JStr (payload_signature r));
                         ("authorization", authorization) ]) in *.
  pose proof (parseValue_one (13 + f)) as H1.
  set (one := JSON_stringify (JNum 1%float)) in *.
  cbn [JSON_stringify map join fst snd Nat.add].
  change (if isFinite 1%float then numberToString 1%float else "null") with one.
  rewrite !append_assoc. cbn [append]. rewrite (quote_app "x402Version").
  erewrite parseValue_object; cycle 1.
  rewrite <- quote_app.
  rewrite (parseMembers_step _ _ _ _ (JNum 1%float)) by apply H1.
  rewrite (parseMembers_step _ _ _ _ (JStr (scheme r)))
    by apply parseValue_string.
  rewrite (parseMembers_step _ _ _ _ (JStr (real_network r)))
    by apply parseValue_string.
  rewrite (parseMembers_last _ _ _ _ payload) by apply Hp.
  reflexivity.
  reflexivity.
Qed.

(** *** The codec of the host on payment proofs *)

(** A Delegated proof of version 1 comes back from the wire as it went. *)
Lemma real_proof_round_trips check (r : X402RealProof) :
  x402Version r = 1%float ->
  roundTrips (NodeHost.host check) (jsonOfRealProof r).
Proof.
  intros Hv. unfold roundTrips, decodePaymentProof, encodeProof.
  cbn [NodeHost.host Verifier.base64ToUtf8 Verifier.utf8ToBase64
       Verifier.JSON_parse Verifier.JSON_stringify].
  rewrite base64_round_trip, (stringify_real_reads_back r Hv). reflexivity.
Qed.

(** A Simple proof comes back from the wire with every text it held; its
    time stamp comes back as some number, or as [null]. *)
Lemma mock_proof_decodes check (m : X402MockProof) :
  exists timestamp,
    decodePaymentProof (NodeHost.host check)
      (encodeProof (NodeHost.host check) (jsonOfMockProof m))
    = Returned (JObj [ ("txHash", JStr (mock_txHash m));
                       ("amount", JStr (mock_amount m));
                       ("recipient", JStr (mock_recipient m));
                       ("payer", JStr (mock_payer m));
                       ("signature", JStr (mock_signature m));
                       ("timestamp", timestamp);
                       ("network", JStr (mock_network m)) ]).
Proof.
  destruct (stringify_mock_reads_back m) as [ts H]. exists ts.
  unfold decodePaymentProof, encodeProof.
  cbn [NodeHost.host Verifier.base64ToUtf8 Verifier.utf8ToBase64
       Verifier.JSON_parse Verifier.JSON_stringify].
  rewrite base64_round_trip, H. reflexivity.
Qed.

End NodeHostFacts.


(** ** x402-verifier.ts: facts *)

Module VerifierFacts.
Import JS.
Import Verifier.
Import Terms.

(** Peels the binds, conditionals and matches of a computation known to
    return. *)
Ltac peel H :=
  repeat match type of H with
  | bind ?o _ = Returned _ =>
      let E := fresh "E" in
      destruct o eqn:E; cbn [bind] in H; [| discriminate H]
  | (if ?b then _ else _) = Returned _ =>
      let E := fresh "E" in destruct b eqn:E
  | match ?o with _ => _ end = Returned _ =>
      let E := fresh "E" in destruct o eqn:E; try discriminate H
  end.

Create HintDb verdicts.

Lemma verdict_invalid a r p t e : verdict (invalid a r p t e).
Proof. right. split; [reflexivity | exists e; reflexivity]. Qed.

Lemma verdict_accepted a r p t : verdict (accepted a r p t).
Proof. left. split; reflexivity. Qed.

#[local] Hint Resolve verdict_invalid verdict_accepted : verdicts.

Lemma verifyMockProof_verdict h config proof p :
  verifyMockProof h config proof = Returned p -> verdict p.
Proof.
  unfold verifyMockProof. intros H. peel H;
    injection H as <-; auto with verdicts.
Qed.

Lemma verifyRealX402Proof_verdict h config now proof p :
  verifyRealX402Proof h config now proof = Returned p -> verdict p.
Proof.
  unfold verifyRealX402Proof. intros H. peel H;
    injection H as <-; auto with verdicts.
Qed.

Lemma verify_verdict h config now proof p :
  verify h config now proof = Returned p -> verdict p.
Proof.
  unfold verify. intros H.
  destruct (String.eqb proof ""); [injection H as <-; auto with verdicts |].
  destruct (decodePaymentProof h proof) as [decoded | err];
    [| injection H as <-; auto with verdicts].
  destruct (isRealX402Proof decoded);
    [exact (verifyRealX402Proof_verdict _ _ _ _ _ H) |].
  destruct (isMockProof decoded);
    [exact (verifyMockProof_verdict _ _ _ _ H) |].
  injection H as <-; auto with verdicts.
Qed.

(** Every rejection that [verify] returns carries an error message. *)
Lemma verify_invalid_error h config now proof p :
  verify h config now proof = Returned p -> valid p = false ->
  exists e, error p = Some e.
Proof.
  intros H Hv. destruct (verify_verdict _ _ _ _ _ H) as [[Ht _] | [_ He]];
    [congruence | exact He].
Qed.

(** *** The verifier on proofs of the declared shapes *)

Lemma verifyMockProof_typed h config m :
  verifyMockProof h config (jsonOfMockProof m) =
  match StringToBigInt (mock_amount m) with
  | None => Thrown (SyntaxError ("Cannot convert " ++ mock_amount m ++ " to a BigInt"))
  | Some a =>
      if negb (sameAddress h (mock_recipient m) (recipientAddress config))
      then Returned (invalid a (mock_recipient m) (JStr (mock_payer m)) (txHashOf m)
                       (mismatchMessage (recipientAddress config) (mock_recipient m)))
      else
        bind (microUnits (requiredAmountUSDC config)) (fun req =>
          if a <? req
          then Returned (invalid a (mock_recipient m) (JStr (mock_payer m)) (txHashOf m)
                           (insufficientMessage (requiredAmountUSDC config) a))
          else Returned (accepted a (mock_recipient m) (JStr (mock_payer m)) (txHashOf m)))
  end.
Proof.
  unfold verifyMockProof, jsonOfMockProof, txHashOf, sameAddress.
  cbn [getProp lookupField String.eqb Ascii.eqb Bool.eqb bind nullish ToString BigInt].
  destruct (StringToBigInt (mock_amount m)); cbn [bind]; [| reflexivity].
  destruct (mock_txHash m); reflexivity.
Qed.

Lemma verifyRealX402Proof_typed h config now r :
  verifyRealX402Proof h config now (jsonOfRealProof r) =
  let a := payload_authorization r in
  match StringToBigInt (auth_value a) with
  | None => Thrown (SyntaxError ("Cannot convert " ++ auth_value a ++ " to a BigInt"))
  | Some amount =>
      if negb (sameAddress h (auth_to a) (recipientAddress config))
      then Returned (invalid amount (auth_to a) (JStr (auth_from a)) None
                       (mismatchMessage (recipientAddress config) (auth_to a)))
      else
        bind (microUnits (requiredAmountUSDC config)) (fun req =>
          if amount <? req
          then Returned (invalid amount (auth_to a) (JStr (auth_from a)) None
                           (insufficientMessage (requiredAmountUSDC config) amount))
          else windowStage h config now r amount)
  end.
Proof.
  unfold verifyRealX402Proof, windowStage, jsonOfRealProof, jsonOfAuthorization,
    sameAddress.
  cbn [getProp lookupField String.eqb Ascii.eqb Bool.eqb bind nullish ToString BigInt
       callToLowerCase parseInt].
  destruct (StringToBigInt (auth_value (payload_authorization r))); reflexivity.
Qed.

Lemma isRealX402Proof_real r : isRealX402Proof (jsonOfRealProof r) = true.
Proof. reflexivity. Qed.

Lemma isRealX402Proof_mock m : isRealX402Proof (jsonOfMockProof m) = false.
Proof. reflexivity. Qed.

Lemma isMockProof_mock m : isMockProof (jsonOfMockProof m) = true.
Proof. reflexivity. Qed.

(** [verify] on a wire string that decodes to a proof of a declared shape. *)
Lemma verify_decoded h config now wire p :
  wire <> "" ->
  decodePaymentProof h wire = Returned (jsonOfProof p) ->
  verify h config now wire =
  match p with
  | Simple m => verifyMockProof h config (jsonOfMockProof m)
  | Delegated r => verifyRealX402Proof h config now (jsonOfRealProof r)
  end.
Proof.
  intros Hne Hd. unfold verify.
  destruct (String.eqb wire "") eqn:E; [apply String.eqb_eq in E; contradiction |].
  rewrite Hd. destruct p as [m | r]; reflexivity.
Qed.

(** *** The claims about the verifier *)

Lemma rejectedAs_windowStage_amount h config now r amount :
  rejectedAs "Insufficient payment" (windowStage h config now r amount) = false.
Proof.
  unfold windowStage.
  destruct (ltNum now _).
  { destruct (Date_toISOString _); reflexivity. }
  destruct (geNum now _).
  { destruct (Date_toISOString _); reflexivity. }
  destruct (truthy _); [reflexivity |].
  destruct (checkSignature _ _ _ _ _) as [[] | err]; reflexivity.
Qed.

(** C4.  A proof of either shape that names the configured recipient and
    whose amount text reads as the integer [a] is checked against the
    threshold [BigInt(Math.round(requiredAmountUSDC * 1_000_000))].  When
    that threshold is an integer [req], the proof is rejected for its amount
    exactly when [a] is below [req]; the rejection carries the message
    "Insufficient payment: required <requiredAmountUSDC> USDC, got <a / 1e6> USDC",
    both numbers written by [Number::toString]; and a Simple proof with
    [req <= a], equality included, is valid.  When the threshold is not an
    integer (the required amount is NaN or infinite), [verify] throws the
    [RangeError] of [BigInt]. *)
Theorem amount_check h config now wire p a :
  wire <> "" ->
  decodePaymentProof h wire = Returned (jsonOfProof p) ->
  StringToBigInt (amountText p) = Some a ->
  sameAddress h (recipientOf p) (recipientAddress config) = true ->
  match BigInt_of_number numberToString
          (Math_round (requiredAmountUSDC config * 1000000)%float) with
  | Returned req =>
      rejectedAs "Insufficient payment" (verify h config now wire) = (a <? req)
      /\ (a < req ->
          verify h config now wire =
          Returned {| valid := false; amount := a; recipient := recipientOf p;
                      payer := JStr (payerOf p); txHash := txHashOfProof p;
                      error := Some ("Insufficient payment: required "
                        ++ numberToString (requiredAmountUSDC config) ++ " USDC, got "
                        ++ numberToString (Z2float a / 1000000)%float ++ " USDC") |})
      /\ (req <= a -> forall m, p = Simple m ->
          verify h config now wire =
          Returned {| valid := true; amount := a; recipient := recipientOf p;
                      payer := JStr (payerOf p); txHash := txHashOfProof p;
                      error := None |})
  | Thrown e => verify h config now wire = Thrown e
  end.
Proof.
  intros Hne Hd Ha Hr.
  rewrite (verify_decoded h config now wire p Hne Hd).
  change (BigInt_of_number numberToString
            (Math_round (requiredAmountUSDC config * 1000000)%float))
    with (microUnits (requiredAmountUSDC config)).
  destruct p as [m | r]; cbn [amountText recipientOf payerOf txHashOfProof] in *.
  - rewrite verifyMockProof_typed, Ha, Hr. cbn [negb].
    destruct (microUnits (requiredAmountUSDC config)) as [req | e];
      cbn [bind]; [| reflexivity].
    destruct (a <? req) eqn:E.
    + apply Z.ltb_lt in E. split; [reflexivity |]. split; [reflexivity |].
      intros; lia.
    + apply Z.ltb_ge in E. split; [reflexivity |]. split; [intros; lia |].
      reflexivity.
  - rewrite verifyRealX402Proof_typed. cbv zeta. rewrite Ha, Hr.
    cbn [negb].
    destruct (microUnits (requiredAmountUSDC config)) as [req | e];
      cbn [bind]; [| reflexivity].
    destruct (a <? req) eqn:E.
    + apply Z.ltb_lt in E. split; [reflexivity |]. split; [reflexivity |].
      intros; lia.
    + apply Z.ltb_ge in E.
      split; [apply rejectedAs_windowStage_amount |].
      split; [intros; lia |]. intros _ m Hm. discriminate Hm.
Qed.

(** [BigInt(Math.round(x * 1_000_000))] rounds to the nearest integer, a
    half going up; it has no value for NaN and the infinities. *)
Lemma microUnits_examples :
  map microUnits
    [0.001; 0.0000014; 0.0000015; 0.0000025; 0.0000004; 1e-323; 0;
     (-0.0000005); (-0.0000015); (-0.0000016); 1000000]%float
  = map Returned [1000; 1; 2; 3; 0; 0; 0; 0; -1; -2; 1000000000000]
  /\ microUnits nan
     = Thrown (RangeError
         "The number NaN cannot be converted to a BigInt because it is not an integer").
Proof. vm_compute. split; reflexivity. Qed.

Lemma wireExact_decodes :
  decodePaymentProof Examples.host Examples.wireExact
  = Returned (jsonOfProof (Simple (Examples.simpleProof "1000"))).
Proof. vm_compute. reflexivity. Qed.

(** The exact payment of the required 1000 micro-units passes the amount
    check. *)
Lemma amount_check_witness :
  rejectedAs "Insufficient payment"
    (verify Examples.host (Examples.config true) Examples.now Examples.wireExact)
  = (1000 <? 1000).
Proof.
  refine (proj1 (amount_check Examples.host (Examples.config true) Examples.now
                   Examples.wireExact (Simple (Examples.simpleProof "1000"))
                   1000 _ _ _ _)).
  - discriminate.
  - vm_compute. reflexivity.
  - reflexivity.
  - reflexivity.
Defined.

(** C10.  In strict mode (simulationMode not true) a Simple proof that names
    the configured recipient and pays at least the required micro-units is
    valid, at any clock reading and whatever the signature check of the host
    would answer: neither is consulted. *)
Theorem strict_mode_accepts_simple h config wire m a req :
  truthy (simulationMode config) = false ->
  wire <> "" ->
  decodePaymentProof h wire = Returned (jsonOfMockProof m) ->
  StringToBigInt (mock_amount m) = Some a ->
  sameAddress h (mock_recipient m) (recipientAddress config) = true ->
  microUnits (requiredAmountUSDC config) = Returned req ->
  req <= a ->
  forall now check,
    verify (withSignatureCheck h check) config now wire =
    Returned {| valid := true; amount := a; recipient := mock_recipient m;
                payer := JStr (mock_payer m); txHash := txHashOf m;
                error := None |}.
Proof.
  intros _ Hne Hd Ha Hr Hq Hle now check.
  rewrite (verify_decoded (withSignatureCheck h check) config now wire (Simple m) Hne Hd).
  rewrite verifyMockProof_typed.
  change (sameAddress (withSignatureCheck h check)) with (sameAddress h).
  rewrite Ha, Hr, Hq. cbn [negb bind].
  destruct (a <? req) eqn:E; [apply Z.ltb_lt in E; lia | reflexivity].
Qed.

(** A strict verifier accepts the unsigned Simple proof of 1000 micro-units
    even with a signature check that accepts nothing. *)
Lemma strict_mode_accepts_simple_witness :
  verify (withSignatureCheck Examples.host (fun _ => Returned false))
    (Examples.config false) 0 Examples.wireExact =
  Returned {| valid := true; amount := 1000; recipient := Examples.RECIPIENT;
              payer := JStr Examples.PAYER; txHash := Some "0x8a3f";
              error := None |}.
Proof.
  refine (strict_mode_accepts_simple Examples.host (Examples.config false)
            Examples.wireExact (Examples.simpleProof "1000") 1000 1000
            _ _ _ _ _ _ _ 0 (fun _ => Returned false)).
  - reflexivity.
  - discriminate.
  - vm_compute. reflexivity.
  - reflexivity.
  - reflexivity.
  - vm_compute. reflexivity.
  - lia.
Defined.

(** C9.  With Node's codecs, for every amount [a], payer, recipient, clock
    and random tail.  When [BigInt(Math.round(a * 1_000_000))] is an integer
    [z], both constructors return a wire string, [decodePaymentProof] decodes
    it, and the decoded object holds an amount text ([amount] in a Simple
    proof, [payload.authorization.value] in a Delegated one) that reads back,
    through [BigInt], as exactly [z].  When it is not (the amount is NaN or
    infinite) there is no proof to decode: both constructors throw the
    [RangeError] of [BigInt]. *)
Theorem amount_round_trip check en payer recipient network signature a :
  let h := NodeHost.host check in
  match BigInt_of_number numberToString (Math_round (a * 1000000)%float) with
  | Returned z =>
      (exists wire decoded text,
         createMockPaymentProof h en payer recipient a = Returned wire /\
         decodePaymentProof h wire = Returned decoded /\
         getProp (Some decoded) "amount" = Returned (Some (JStr text)) /\
         BigInt (Some (JStr text)) = Returned z)
      /\
      (exists wire decoded payload authorization text,
         createRealX402Proof h en payer recipient a network signature = Returned wire /\
         decodePaymentProof h wire = Returned decoded /\
         getProp (Some decoded) "payload" = Returned payload /\
         getProp payload "authorization" = Returned authorization /\
         getProp authorization "value" = Returned (Some (JStr text)) /\
         BigInt (Some (JStr text)) = Returned z)
  | Thrown e =>
      createMockPaymentProof h en payer recipient a = Thrown e /\
      createRealX402Proof h en payer recipient a network signature = Thrown e
  end.
Proof.
  cbv zeta. unfold createMockPaymentProof, createRealX402Proof.
  change (BigInt_of_number numberToString (Math_round (a * 1000000)%float))
    with (microUnits a).
  destruct (microUnits a) as [z | e]; cbn [bind]; [| split; reflexivity].
  split.
  - destruct (NodeHostFacts.mock_proof_decodes check
                (mockProofFor en payer recipient z)) as [ts Hd].
    eexists _, _, (BigInt_toString z).
    split; [reflexivity |]. split; [exact Hd |]. split; [reflexivity |].
    cbn [BigInt]. rewrite JSFacts.StringToBigInt_toString. reflexivity.
  - eexists _, _, _, _, (BigInt_toString z).
    split; [reflexivity |].
    split; [apply (NodeHostFacts.real_proof_round_trips check); reflexivity |].
    split; [reflexivity |]. split; [reflexivity |]. split; [reflexivity |].
    cbn [BigInt]. rewrite JSFacts.StringToBigInt_toString. reflexivity.
Qed.

(** 0.001 USDC is 1000 micro-units on both wire formats. *)
Lemma amount_round_trip_witness :
  (exists wire decoded text,
     createMockPaymentProof Examples.host Examples.entropy Examples.PAYER
       Examples.RECIPIENT 0.001%float = Returned wire /\
     decodePaymentProof Examples.host wire = Returned decoded /\
     getProp (Some decoded) "amount" = Returned (Some (JStr text)) /\
     BigInt (Some (JStr text)) = Returned 1000)
  /\
  (exists wire decoded payload authorization text,
     createRealX402Proof Examples.host Examples.entropy Examples.PAYER
       Examples.RECIPIENT 0.001%float None None = Returned wire /\
     decodePaymentProof Examples.host wire = Returned decoded /\
     getProp (Some decoded) "payload" = Returned payload /\
     getProp payload "authorization" = Returned authorization /\
     getProp authorization "value" = Returned (Some (JStr text)) /\
     BigInt (Some (JStr text)) = Returned 1000).
Proof.
  exact (amount_round_trip (fun _ => Returned false) Examples.entropy Examples.PAYER
           Examples.RECIPIENT None None 0.001%float).
Defined.

(** When [a * 1_000_000] is not finite there is no proof to decode: the
    constructors throw. *)
Lemma create_throws_without_micro_units h en payer recipient network signature a e :
  microUnits a = Thrown e ->
  createMockPaymentProof h en payer recipient a = Thrown e /\
  createRealX402Proof h en payer recipient a network signature = Thrown e.
Proof.
  intros H. unfold createMockPaymentProof, createRealX402Proof.
  rewrite H. split; reflexivity.
Qed.

(** An amount of infinitely many USDC has no micro-units. *)
Lemma create_throws_without_micro_units_witness :
  createMockPaymentProof Examples.host Examples.entropy Examples.PAYER
    Examples.RECIPIENT infinity
  = Thrown (RangeError
      "The number Infinity cannot be converted to a BigInt because it is not an integer")
  /\ createRealX402Proof Examples.host Examples.entropy Examples.PAYER
       Examples.RECIPIENT infinity None None
  = Thrown (RangeError
      "The number Infinity cannot be converted to a BigInt because it is not an integer").
Proof.
  refine (create_throws_without_micro_units Examples.host Examples.entropy
            Examples.PAYER Examples.RECIPIENT None None infinity _ _).
  vm_compute. reflexivity.
Defined.

(** C2 (the code at three inputs on which [verify] throws).  With Node's
    codecs, whatever the configuration, the clock and the signature check:
    a Simple proof whose amount is the text 1.5 makes [BigInt] throw a
    [SyntaxError]; an object with [x402Version] and a [null] payload makes
    the read of [payload.authorization] throw a [TypeError]; and, for the
    verifier of the examples, a Delegated proof whose [validAfter] is beyond
    the range of [Date] makes [toISOString] throw a [RangeError] while the
    rejection message is built. *)
Theorem verify_throws check config now :
  verify (NodeHost.host check) config now Examples.wireDecimalAmount
    = Thrown (SyntaxError "Cannot convert 1.5 to a BigInt")
  /\ verify (NodeHost.host check) config now Examples.wireNullPayload
    = Thrown (TypeError "Cannot read properties of null (reading 'authorization')")
  /\ verify (NodeHost.host check) (Examples.config true) Examples.now
       Examples.wireFarFuture
    = Thrown (RangeError "Invalid time value").
Proof.
  split; [vm_compute; reflexivity |]. split; vm_compute; reflexivity.
Qed.

(** Where [verify] cannot throw: on the empty string, on a string that does
    not decode, and on a decoded value of neither shape. *)
Lemma verify_returns_before_the_checks h config now wire :
  wire = "" \/
  (exists e, decodePaymentProof h wire = Thrown e) \/
  (exists d, decodePaymentProof h wire = Returned d /\
             isRealX402Proof d = false /\ isMockProof d = false) ->
  exists p, verify h config now wire = Returned p /\ valid p = false.
Proof.
  unfold verify. intros [-> | [[e He] | (d & Hd & Hr & Hm)]].
  - eexists; split; reflexivity.
  - destruct (String.eqb wire ""); [eexists; split; reflexivity |].
    rewrite He. eexists; split; reflexivity.
  - destruct (String.eqb wire ""); [eexists; split; reflexivity |].
    rewrite Hd, Hr, Hm. eexists; split; reflexivity.
Qed.

Lemma wireNoExpiry_decodes check :
  decodePaymentProof (NodeHost.host check) Examples.wireNoExpiry
  = Returned (jsonOfProof (Delegated (Examples.delegatedProof "0" "never"))).
Proof. vm_compute. reflexivity. Qed.

(** C5 (the code at two inputs that miss the window check).  With Node's
    codecs and the simulation-mode verifier of the examples, both proofs
    having passed the recipient and amount checks: a proof whose
    [validAfter] is 8640000000001 is not yet valid at the clock reading
    1730000000, yet [verify] throws instead of returning a rejection; and a
    proof whose [validBefore] is the text never is accepted at every clock
    reading from 0 on, though no reading is before it. *)
Theorem window_check_misses check :
  verify (NodeHost.host check) (Examples.config true) Examples.now
    Examples.wireFarFuture
    = Thrown (RangeError "Invalid time value")
  /\ forall now, 0 <= now ->
       verify (NodeHost.host check) (Examples.config true) now Examples.wireNoExpiry
       = Returned {| valid := true; amount := 5000; recipient := Examples.RECIPIENT;
                     payer := JStr Examples.PAYER; txHash := None; error := None |}.
Proof.
  split; [vm_compute; reflexivity |].
  intros now Hnow.
  rewrite (verify_decoded _ _ now _ (Delegated (Examples.delegatedProof "0" "never")));
    [| discriminate | apply wireNoExpiry_decodes].
  rewrite verifyRealX402Proof_typed. cbv zeta.
  change (StringToBigInt _) with (Some 5000).
  change (negb (sameAddress _ _ _)) with false. cbv iota.
  replace (microUnits (requiredAmountUSDC (Examples.config true)))
    with (@Returned Z 1000) by (vm_compute; reflexivity).
  cbn [bind]. change (5000 <? 1000) with false. cbv iota.
  unfold windowStage. cbv zeta.
  change (parseIntString (auth_validAfter _)) with (Some 0).
  change (parseIntString (auth_validBefore _)) with (@None Z).
  cbn [ltNum geNum].
  destruct (now <? 0) eqn:E; [apply Z.ltb_lt in E; lia |].
  reflexivity.
Qed.

(** The window check on a Delegated proof whose bounds are integers that a
    [Date] can hold: having passed the recipient and amount checks, the
    proof is rejected as not yet valid when [now < validAfter], as expired
    when [validAfter <= now] and [validBefore <= now], and passes otherwise
    (in simulation mode it is then valid). *)
Lemma window_check h config now wire r a req va vb :
  wire <> "" ->
  decodePaymentProof h wire = Returned (jsonOfRealProof r) ->
  StringToBigInt (auth_value (payload_authorization r)) = Some a ->
  sameAddress h (auth_to (payload_authorization r)) (recipientAddress config) = true ->
  microUnits (requiredAmountUSDC config) = Returned req ->
  req <= a ->
  parseIntString (auth_validAfter (payload_authorization r)) = Some va ->
  parseIntString (auth_validBefore (payload_authorization r)) = Some vb ->
  validTime (va * 1000) = true ->
  validTime (vb * 1000) = true ->
  let reject := invalid a (auth_to (payload_authorization r))
                  (JStr (auth_from (payload_authorization r))) None in
  (now < va ->
     verify h config now wire =
     Returned (reject ("Payment not yet valid (validAfter: "
                         ++ isoFormat (va * 1000) ++ ")")))
  /\ (va <= now -> vb <= now ->
     verify h config now wire =
     Returned (reject ("Payment expired (validBefore: "
                         ++ isoFormat (vb * 1000) ++ ")")))
  /\ (va <= now < vb ->
     rejectedAs "Payment not yet valid" (verify h config now wire) = false /\
     rejectedAs "Payment expired" (verify h config now wire) = false /\
     (truthy (simulationMode config) = true ->
        verify h config now wire =
        Returned (accepted a (auth_to (payload_authorization r))
                    (JStr (auth_from (payload_authorization r))) None))).
Proof.
  intros Hne Hd Ha Hr Hq Hle Hva Hvb Tva Tvb reject.
  rewrite (verify_decoded h config now wire (Delegated r) Hne Hd).
  rewrite verifyRealX402Proof_typed. cbv zeta. rewrite Ha, Hr, Hq.
  cbn [negb bind].
  destruct (a <? req) eqn:E; [apply Z.ltb_lt in E; lia |].
  unfold windowStage. cbv zeta. rewrite Hva, Hvb.
  cbn [ltNum geNum option_map Date_toISOString]. rewrite Tva, Tvb.
  split; [| split].
  - intros H. apply Z.ltb_lt in H. rewrite H. reflexivity.
  - intros H1 H2. apply Z.ltb_ge in H1. apply Z.leb_le in H2.
    rewrite H1, H2. reflexivity.
  - intros [H1 H2]. apply Z.ltb_ge in H1.
    assert ((vb <=? now) = false) as H3 by (apply Z.leb_gt; exact H2).
    rewrite H1, H3.
    destruct (truthy (simulationMode config)).
    + repeat split; reflexivity.
    + destruct (checkSignature _ _ _ _ _) as [[] | err];
        (split; [reflexivity |]; split; [reflexivity | discriminate]).
Qed.

Lemma window_check_witness :
  rejectedAs "Payment expired"
    (verify Examples.host (Examples.config true) Examples.now Examples.wireCurrent)
  = false.
Proof.
  refine (proj1 (proj2 (proj2 (proj2
    (window_check Examples.host (Examples.config true) Examples.now
       Examples.wireCurrent (Examples.delegatedProof "1729999940" "1730000300")
       5000 1000 1729999940 1730000300 _ _ _ _ _ _ _ _ _ _)) _))).
  - discriminate.
  - vm_compute. reflexivity.
  - reflexivity.
  - reflexivity.
  - vm_compute. reflexivity.
  - lia.
  - reflexivity.
  - reflexivity.
  - reflexivity.
  - reflexivity.
  - unfold Examples.now. lia.
Defined.

Lemma verify_returns_before_the_checks_witness :
  exists p, verify Examples.host (Examples.config true) Examples.now "" = Returned p
            /\ valid p = false.
Proof.
  exact (verify_returns_before_the_checks Examples.host (Examples.config true)
           Examples.now "" (or_introl eq_refl)).
Defined.

(** The wire strings of the examples are the encodings of their proofs. *)
Lemma wires_are_encodings :
  Examples.wireExact = Examples.wireSimple "1000"
  /\ Examples.wireShort = Examples.wireSimple "999"
  /\ Examples.wireDecimalAmount = Examples.wireSimple "1.5"
  /\ Examples.wireFarFuture = Examples.wireDelegated "8640000000001" "8640000000002"
  /\ Examples.wireNoExpiry = Examples.wireDelegated "0" "never"
  /\ Examples.wireNullPayload =
     encodeProof Examples.host (JObj [("x402Version", JNum 1%float); ("payload", JNull)]).
Proof. vm_compute. repeat split. Qed.

(** The pricing scenario: at a price of 0.001 USDC a proof of exactly 1000
    micro-units is valid; one of 999 is rejected with a message naming 0.001
    and 0.000999; one of 1000000 made out to another address is rejected for
    its recipient. *)
Lemma pricing_scenario :
  verify Examples.host (Examples.config true) Examples.now Examples.wireExact
    = Returned (accepted 1000 Examples.RECIPIENT (JStr Examples.PAYER) (Some "0x8a3f"))
  /\ verify Examples.host (Examples.config true) Examples.now Examples.wireShort
    = Returned (invalid 999 Examples.RECIPIENT (JStr Examples.PAYER) (Some "0x8a3f")
                  "Insufficient payment: required 0.001 USDC, got 0.000999 USDC")
  /\ verify Examples.host (Examples.config true) Examples.now Examples.wireWrongRecipient
    = Returned (invalid 1000000 "0x1111111111111111111111111111111111111111"
                  (JStr Examples.PAYER) (Some "0x8a3f")
                  "Payment recipient mismatch: expected 0x7483a9F237cf8043704D6b17DA31c12BfFF860DD, got 0x1111111111111111111111111111111111111111").
Proof. vm_compute. repeat split. Qed.


Lemma verifyMockProof_sound h config proof p :
  verifyMockProof h config proof = Returned p -> valid p = true ->
  sameAddress h (recipient p) (recipientAddress config) = true /\
  exists req, microUnits (requiredAmountUSDC config) = Returned req /\ req <= amount p.
Proof.
  unfold verifyMockProof. intros H Hv. peel H; injection H as <-; try discriminate Hv.
  cbn [recipient amount accepted]. split.
  - unfold sameAddress. apply negb_false_iff. assumption.
  - eexists. split; [reflexivity |]. apply Z.ltb_ge. assumption.
Qed.

Lemma verifyRealX402Proof_sound h config now proof p :
  verifyRealX402Proof h config now proof = Returned p -> valid p = true ->
  sameAddress h (recipient p) (recipientAddress config) = true /\
  exists req, microUnits (requiredAmountUSDC config) = Returned req /\ req <= amount p.
Proof.
  unfold verifyRealX402Proof. intros H Hv. peel H; injection H as <-; try discriminate Hv.
  all: cbn [recipient amount accepted]; split;
    [ unfold sameAddress | eexists; split; [reflexivity | apply Z.ltb_ge; assumption] ].
  all: match goal with
       | E : callToLowerCase _ _ ?r = Returned ?l |- _ =>
           destruct r; try discriminate E; cbn in E; injection E as <-
       end.
  all: apply negb_false_iff; assumption.
Qed.

Lemma verify_accepts_only h config now wire p :
  verify h config now wire = Returned p -> valid p = true ->
  wire <> ""
  /\ sameAddress h (recipient p) (recipientAddress config) = true
  /\ exists req, microUnits (requiredAmountUSDC config) = Returned req /\ req <= amount p.
Proof.
  intros H Hv. unfold verify in H.
  destruct (String.eqb wire "") eqn:E; [injection H as <-; discriminate Hv |].
  split; [intros ->; discriminate E |].
  destruct (decodePaymentProof h wire) as [decoded | err];
    [| injection H as <-; discriminate Hv].
  destruct (isRealX402Proof decoded);
    [exact (verifyRealX402Proof_sound _ _ _ _ _ H Hv) |].
  destruct (isMockProof decoded);
    [exact (verifyMockProof_sound _ _ _ _ H Hv) |].
  injection H as <-; discriminate Hv.
Qed.

(** An accepted payment is made out to the configured recipient (the two
    addresses are equal once the runtime has lower-cased them) and is of at
    least [BigInt(Math.round(requiredAmountUSDC * 1_000_000))] micro-units,
    whatever the wire string and the host: [verify] never accepts anything
    else. *)
Theorem accepted_payment_is_sufficient h config now wire p :
  verify h config now wire = Returned p -> valid p = true ->
  wire <> ""
  /\ toLowerCase h (recipient p) = toLowerCase h (recipientAddress config)
  /\ (exists req,
        BigInt_of_number numberToString
          (Math_round (requiredAmountUSDC config * 1000000)%float) = Returned req
        /\ req <= amount p)
  /\ error p = None.
Proof.
  intros H Hv.
  destruct (verify_accepts_only _ _ _ _ _ H Hv) as (H1 & H2 & H3).
  split; [exact H1 |]. split; [apply String.eqb_eq; exact H2 |]. split; [exact H3 |].
  destruct (verify_verdict _ _ _ _ _ H) as [[_ He] | [Hf _]]; [exact He | congruence].
Qed.

(** The exact payment of the examples is accepted, so it names the
    recipient. *)
Lemma accepted_payment_is_sufficient_witness :
  toLowerCase Examples.host Examples.RECIPIENT
  = toLowerCase Examples.host (recipientAddress (Examples.config true)).
Proof.
  exact (proj1 (proj2
    (accepted_payment_is_sufficient Examples.host (Examples.config true) Examples.now
       Examples.wireExact
       (accepted 1000 Examples.RECIPIENT (JStr Examples.PAYER) (Some "0x8a3f"))
       ltac:(vm_compute; reflexivity) eq_refl))).
Defined.

(** The recipient check comes first.  A proof of either shape whose amount
    text reads as an integer and whose recipient, lower-cased by the
    runtime, is not the configured one, lower-cased, is rejected with
    "Payment recipient mismatch: expected <configured>, got <recipient>",
    whatever its amount, its validity window and the required price. *)
Lemma recipient_check h config now wire p a :
  wire <> "" ->
  decodePaymentProof h wire = Returned (jsonOfProof p) ->
  StringToBigInt (amountText p) = Some a ->
  toLowerCase h (recipientOf p) <> toLowerCase h (recipientAddress config) ->
  verify h config now wire =
  Returned {| valid := false; amount := a; recipient := recipientOf p;
              payer := JStr (payerOf p); txHash := txHashOfProof p;
              error := Some ("Payment recipient mismatch: expected "
                               ++ recipientAddress config ++ ", got " ++ recipientOf p) |}.
Proof.
  intros Hne Hd Ha Hr. apply String.eqb_neq in Hr.
  change (sameAddress h (recipientOf p) (recipientAddress config) = false) in Hr.
  rewrite (verify_decoded h config now wire p Hne Hd).
  destruct p as [m | r]; cbn [amountText recipientOf payerOf txHashOfProof] in *.
  - rewrite verifyMockProof_typed, Ha, Hr. reflexivity.
  - rewrite verifyRealX402Proof_typed. cbv zeta. rewrite Ha, Hr. reflexivity.
Qed.

(** A proof of 1 USDC made out to another address is rejected for its
    recipient. *)
Lemma recipient_check_witness :
  verify Examples.host (Examples.config true) Examples.now Examples.wireWrongRecipient =
  Returned {| valid := false; amount := 1000000;
              recipient := "0x1111111111111111111111111111111111111111";
              payer := JStr Examples.PAYER; txHash := Some "0x8a3f";
              error := Some ("Payment recipient mismatch: expected "
                               ++ Examples.RECIPIENT
                               ++ ", got 0x1111111111111111111111111111111111111111") |}.
Proof.
  refine (recipient_check Examples.host (Examples.config true) Examples.now
            Examples.wireWrongRecipient
            (Simple {| mock_txHash := "0x8a3f";
                       mock_amount := "1000000";
                       mock_recipient := "0x1111111111111111111111111111111111111111";
                       mock_payer := Examples.PAYER;
                       mock_signature := "0xc41";
                       mock_timestamp := 1730000000123%float;
                       mock_network := "base-sepolia" |})
            1000000 _ _ _ _).
  - discriminate.
  - vm_compute. reflexivity.
  - reflexivity.
  - vm_compute. discriminate.
Defined.

Lemma domain_of_network (s : string) (A : Type) (x y : A) :
  match Some (JStr s) with
  | Some (JStr "base") => x
  | _ => y
  end = if String.eqb s "base" then x else y.
Proof.
  destruct s as [| [[] [] [] [] [] [] [] []] s]; try reflexivity.
  destruct s as [| [[] [] [] [] [] [] [] []] s]; try reflexivity.
  destruct s as [| [[] [] [] [] [] [] [] []] s]; try reflexivity.
  destruct s as [| [[] [] [] [] [] [] [] []] s]; try reflexivity.
  destruct s as [| c s]; reflexivity.
Qed.

Lemma checkSignature_typed h r :
  let a := payload_authorization r in
  checkSignature h (jsonOfRealProof r)
    (Some (JObj [ ("signature", JStr (payload_signature r));
                  ("authorization", jsonOfAuthorization a) ]))
    (Some (jsonOfAuthorization a)) (JStr (auth_from a)) =
  match StringToBigInt (auth_value a) with
  | None => Thrown (SyntaxError ("Cannot convert " ++ auth_value a ++ " to a BigInt"))
  | Some v =>
      match StringToBigInt (auth_validAfter a) with
      | None => Thrown (SyntaxError ("Cannot convert " ++ auth_validAfter a ++ " to a BigInt"))
      | Some va =>
          match StringToBigInt (auth_validBefore a) with
          | None => Thrown (SyntaxError ("Cannot convert " ++ auth_validBefore a
                                           ++ " to a BigInt"))
          | Some vb => verifyTypedData h (typedDataOf r v va vb)
          end
      end
  end.
Proof.
  cbv zeta. unfold checkSignature, jsonOfRealProof, jsonOfAuthorization, typedDataOf.
  cbn [getProp lookupField String.eqb Ascii.eqb Bool.eqb bind BigInt].
  rewrite domain_of_network.
  destruct (StringToBigInt (auth_value _)); cbn [bind]; [| reflexivity].
  destruct (StringToBigInt (auth_validAfter _)); cbn [bind]; [| reflexivity].
  destruct (StringToBigInt (auth_validBefore _)); cbn [bind]; reflexivity.
Qed.



(** [verify] on a Delegated proof that passes the recipient, amount and
    window checks. *)
Lemma verify_in_window h config now wire r a req va vb :
  let au := payload_authorization r in
  let reject := invalid a (auth_to au) (JStr (auth_from au)) None in
  wire <> "" ->
  decodePaymentProof h wire = Returned (jsonOfRealProof r) ->
  StringToBigInt (auth_value au) = Some a ->
  sameAddress h (auth_to au) (recipientAddress config) = true ->
  microUnits (requiredAmountUSDC config) = Returned req ->
  req <= a ->
  parseIntString (auth_validAfter au) = Some va ->
  parseIntString (auth_validBefore au) = Some vb ->
  va <= now < vb ->
  verify h config now wire =
  if truthy (simulationMode config) then
    Returned (accepted a (auth_to au) (JStr (auth_from au)) None)
  else
    match StringToBigInt (auth_validAfter au), StringToBigInt (auth_validBefore au) with
    | Some after, Some before =>
        match verifyTypedData h (typedDataOf r a after before) with
        | Returned true => Returned (accepted a (auth_to au) (JStr (auth_from au)) None)
        | Returned false =>
            Returned (reject
              "EIP-712 signature verification failed: signer does not match authorization.from")
        | Thrown e => Returned (reject ("EIP-712 verification error: " ++ message e))
        end
    | None, _ =>
        Returned (reject ("EIP-712 verification error: Cannot convert "
                            ++ auth_validAfter au ++ " to a BigInt"))
    | Some _, None =>
        Returned (reject ("EIP-712 verification error: Cannot convert "
                            ++ auth_validBefore au ++ " to a BigInt"))
    end.
Proof.
  intros au reject Hne Hd Ha Hr Hq Hle Hva Hvb [H1 H2].
  rewrite (verify_decoded h config now wire (Delegated r) Hne Hd).
  rewrite verifyRealX402Proof_typed. cbv zeta. fold au. rewrite Ha, Hr, Hq.
  cbn [negb bind].
  destruct (a <? req) eqn:E; [apply Z.ltb_lt in E; lia |].
  unfold windowStage. cbv zeta. fold au. rewrite Hva, Hvb.
  cbn [ltNum geNum].
  apply Z.ltb_ge in H1. rewrite H1.
  assert ((vb <=? now) = false) as H3 by (apply Z.leb_gt; exact H2).
  rewrite H3.
  destruct (truthy (simulationMode config)); [reflexivity |].
  pose proof (checkSignature_typed h r) as C. cbv zeta in C. fold au in C.
  rewrite C, Ha.
  destruct (StringToBigInt (auth_validAfter au)); [| reflexivity].
  destruct (StringToBigInt (auth_validBefore au)); reflexivity.
Qed.



(** What [decodePaymentProof] makes of a wire string.  The base64 reading is
    tried first and the raw text only when that reading is not JSON.  A
    returned value is an object or an array, never [null] or a primitive; the
    two faults are "Invalid x402 payment proof format: <first 50
    characters>..." when neither reading is JSON, and "Payment proof is not a
    JSON object" when the reading that parsed is [null] or a primitive. *)
Lemma decode_outcomes h wire :
  match decodePaymentProof h wire with
  | Returned v =>
      ((exists fields, v = JObj fields) \/ (exists items, v = JArr items)) /\
      (JSON_parse h (base64ToUtf8 h wire) = Some v \/
       (JSON_parse h (base64ToUtf8 h wire) = None /\ JSON_parse h wire = Some v))
  | Thrown e =>
      (JSON_parse h (base64ToUtf8 h wire) = None /\ JSON_parse h wire = None /\
       e = Error ("Invalid x402 payment proof format: " ++ slice0 50 wire ++ "..."))
      \/
      (e = Error "Payment proof is not a JSON object" /\
       exists v, (JSON_parse h (base64ToUtf8 h wire) = Some v \/
                  (JSON_parse h (base64ToUtf8 h wire) = None /\ JSON_parse h wire = Some v))
                 /\ match v with JObj _ | JArr _ => False | _ => True end)
  end.
Proof.
  unfold decodePaymentProof.
  destruct (JSON_parse h (base64ToUtf8 h wire)) as [v |] eqn:E1.
  - cbn [bind]. destruct v as [| b | n | s | items | fields]; cbn [falsy typeofObject orb negb];
      try (right; split; [reflexivity |]; eexists; split; [left; reflexivity | exact I]).
    + destruct b; right; (split; [reflexivity |]); eexists; (split; [left; reflexivity | exact I]).
    + destruct (PrimFloat.eqb n 0 || isNaN n);
        right; (split; [reflexivity |]); eexists; (split; [left; reflexivity | exact I]).
    + destruct s as [| c s]; right; (split; [reflexivity |]); eexists;
        (split; [left; reflexivity | exact I]).
    + split; [right; eexists; reflexivity | left; reflexivity].
    + split; [left; eexists; reflexivity | left; reflexivity].
  - destruct (JSON_parse h wire) as [v |] eqn:E2.
    + cbn [bind]. destruct v as [| b | n | s | items | fields]; cbn [falsy typeofObject orb negb];
        try (right; split; [reflexivity |]; eexists; split; [right; split; reflexivity | exact I]).
      * destruct b; right; (split; [reflexivity |]); eexists;
          (split; [right; split; reflexivity | exact I]).
      * destruct (PrimFloat.eqb n 0 || isNaN n);
          right; (split; [reflexivity |]); eexists; (split; [right; split; reflexivity | exact I]).
      * destruct s as [| c s]; right; (split; [reflexivity |]); eexists;
          (split; [right; split; reflexivity | exact I]).
      * split; [right; eexists; reflexivity | right; split; reflexivity].
      * split; [left; eexists; reflexivity | right; split; reflexivity].
    + cbn [bind]. left. repeat split.
Qed.



(** What [createMockPaymentProof] returns, and [verify] on it. *)
Lemma mock_proof_is_accepted h en payer recipient a z config req now :
  let m := mockProofFor en payer recipient z in
  microUnits a = Returned z ->
  sameAddress h recipient (recipientAddress config) = true ->
  microUnits (requiredAmountUSDC config) = Returned req ->
  req <= z ->
  roundTrips h (jsonOfMockProof m) ->
  encodeProof h (jsonOfMockProof m) <> "" ->
  createMockPaymentProof h en payer recipient a
    = Returned (encodeProof h (jsonOfMockProof m))
  /\ verify h config now (encodeProof h (jsonOfMockProof m)) =
     Returned (accepted z recipient (JStr payer)
                 (Some ("0x" ++ padEnd0 64 (randomHex1 en)))).
Proof.
  intros m Hz Hr Hq Hle Hrt Hne. split.
  - unfold createMockPaymentProof. rewrite Hz. reflexivity.
  - rewrite (verify_decoded h config now _ (Simple m) Hne Hrt).
    rewrite verifyMockProof_typed. subst m.
    cbn [mockProofFor mock_amount mock_recipient mock_payer].
    rewrite JSFacts.StringToBigInt_toString, Hr, Hq. cbn [negb bind].
    destruct (z <? req) eqn:E; [apply Z.ltb_lt in E; lia | reflexivity].
Qed.

(** [verify] on the Simple proof of [z] micro-units made by
    [createMockPaymentProof], for a verifier of the same recipient. *)
Lemma mock_proof_verdict h en payer recipient z config req now :
  let m := mockProofFor en payer recipient z in
  sameAddress h recipient (recipientAddress config) = true ->
  microUnits (requiredAmountUSDC config) = Returned req ->
  roundTrips h (jsonOfMockProof m) ->
  encodeProof h (jsonOfMockProof m) <> "" ->
  verify h config now (encodeProof h (jsonOfMockProof m)) =
  Returned (if z <? req
            then invalid z recipient (JStr payer)
                   (Some ("0x" ++ padEnd0 64 (randomHex1 en)))
                   (insufficientMessage (requiredAmountUSDC config) z)
            else accepted z recipient (JStr payer)
                   (Some ("0x" ++ padEnd0 64 (randomHex1 en)))).
Proof.
  intros m Hr Hq Hrt Hne.
  rewrite (verify_decoded h config now _ (Simple m) Hne Hrt).
  rewrite verifyMockProof_typed. subst m.
  cbn [mockProofFor mock_amount mock_recipient mock_payer].
  rewrite JSFacts.StringToBigInt_toString, Hr, Hq. cbn [negb bind].
  destruct (z <? req); reflexivity.
Qed.

(** A proof made by a constructor is accepted.  Let [z] be the micro-units
    of the amount asked for.  Given a codec that gives back the proof object
    it encoded, as a non-empty text, a verifier for the same recipient
    (letter case apart) that requires at most [z] micro-units accepts what
    [createMockPaymentProof] returns, at any clock reading, with the amount
    [z], the payer and the transaction hash of the proof; in simulation mode
    it accepts what [createRealX402Proof] returns from 60 seconds before the
    second of its creation to 300 seconds after it, provided these two
    bounds are written with all their digits. *)
Theorem created_proof_is_accepted h en payer recipient a z config req :
  let m := mockProofFor en payer recipient z in
  let r := realProofFor en payer recipient z (network config) None in
  let created := nowMs en / 1000 in
  microUnits a = Returned z ->
  sameAddress h recipient (recipientAddress config) = true ->
  microUnits (requiredAmountUSDC config) = Returned req ->
  req <= z ->
  (roundTrips h (jsonOfMockProof m) ->
   encodeProof h (jsonOfMockProof m) <> "" ->
   exists wire,
     createMockPaymentProof h en payer recipient a = Returned wire /\
     forall now,
       verify h config now wire =
       Returned (accepted z recipient (JStr payer)
                   (Some ("0x" ++ padEnd0 64 (randomHex1 en)))))
  /\
  (roundTrips h (jsonOfRealProof r) ->
   encodeProof h (jsonOfRealProof r) <> "" ->
   truthy (simulationMode config) = true ->
   parseIntString (numberToString (Z2float (created - 60))) = Some (created - 60) ->
   parseIntString (numberToString (Z2float (created + 300))) = Some (created + 300) ->
   exists wire,
     createRealX402Proof h en payer recipient a (network config) None = Returned wire /\
     forall now, created - 60 <= now < created + 300 ->
       verify h config now wire = Returned (accepted z recipient (JStr payer) None)).
Proof.
  intros m r created Hz Hr Hq Hle. split.
  - intros Hrt Hne. exists (encodeProof h (jsonOfMockProof m)).
    unfold createMockPaymentProof. rewrite Hz. cbn [bind]. split; [reflexivity |].
    intros now.
    rewrite (verify_decoded h config now _ (Simple m) Hne Hrt).
    rewrite verifyMockProof_typed. subst m. cbn [mockProofFor mock_amount mock_recipient
      mock_payer].
    rewrite JSFacts.StringToBigInt_toString, Hr, Hq. cbn [negb bind].
    destruct (z <? req) eqn:E; [apply Z.ltb_lt in E; lia | reflexivity].
  - intros Hrt Hne Hs Hva Hvb. exists (encodeProof h (jsonOfRealProof r)).
    unfold createRealX402Proof. rewrite Hz. cbn [bind]. split; [reflexivity |].
    intros now [H1 H2].
    rewrite (verify_decoded h config now _ (Delegated r) Hne Hrt).
    rewrite verifyRealX402Proof_typed. cbv zeta. subst r.
    cbn [realProofFor payload_authorization auth_value auth_to auth_from].
    rewrite JSFacts.StringToBigInt_toString, Hr, Hq. cbn [negb bind].
    destruct (z <? req) eqn:E; [apply Z.ltb_lt in E; lia |].
    unfold windowStage. cbv zeta.
    cbn [realProofFor payload_authorization auth_validAfter auth_validBefore auth_to
         auth_from].
    fold created. rewrite Hva, Hvb, Hs. cbn [ltNum geNum].
    apply Z.ltb_ge in H1. rewrite H1.
    assert ((created + 300 <=? now) = false) as -> by (apply Z.leb_gt; exact H2).
    reflexivity.
Qed.


(** 0.001 USDC paid to a verifier that asks for 0.001 USDC. *)
Lemma created_proof_is_accepted_witness :
  exists wire,
    createMockPaymentProof Examples.host Examples.entropy Examples.PAYER
      Examples.RECIPIENT 0.001%float = Returned wire /\
    forall now,
      verify Examples.host (Examples.config true) now wire =
      Returned (accepted 1000 Examples.RECIPIENT (JStr Examples.PAYER)
                  (Some ("0x" ++ padEnd0 64 (randomHex1 Examples.entropy)))).
Proof.
  refine (proj1 (created_proof_is_accepted Examples.host Examples.entropy Examples.PAYER
                   Examples.RECIPIENT 0.001%float 1000 (Examples.config true) 1000
                   _ _ _ _) _ _).
  - vm_compute. reflexivity.
  - reflexivity.
  - vm_compute. reflexivity.
  - lia.
  - vm_compute. reflexivity.
  - vm_compute. discriminate.
Defined.

End VerifierFacts.

(** ** cre-registry.ts: facts *)

Module RegistryFacts.
Import JS.
Import Registry.
Import RegistryTerms.

Section Registries.

Variable S : Type.
Variable clock : S -> Z.

Lemma mapGet_mapSet_same (reg : Workflows S) k v : mapGet k (mapSet k v reg) = Some v.
Proof.
  induction reg as [| [k' v'] rest IH]; cbn [mapSet mapGet].
  - rewrite String.eqb_refl. reflexivity.
  - destruct (String.eqb k k') eqn:E; cbn [mapGet].
    + rewrite String.eqb_refl. reflexivity.
    + rewrite E. exact IH.
Qed.

Lemma mapGet_mapSet_other (reg : Workflows S) k k' v :
  k' <> k -> mapGet k' (mapSet k v reg) = mapGet k' reg.
Proof.
  intros Hne. induction reg as [| [k0 v0] rest IH]; cbn [mapSet mapGet].
  - destruct (String.eqb k' k) eqn:E; [apply String.eqb_eq in E; contradiction |].
    reflexivity.
  - destruct (String.eqb k k0) eqn:E; cbn [mapGet].
    + apply String.eqb_eq in E. subst k0.
      destruct (String.eqb k' k) eqn:E'; [apply String.eqb_eq in E'; contradiction |].
      reflexivity.
    + destruct (String.eqb k' k0); [reflexivity | exact IH].
Qed.

(** [registerWorkflow] inserts or replaces by name: the last registration
    for a name is the one [getWorkflow] finds, and other names are left as
    they were. *)
Lemma register_overwrites (reg : Workflows S) wf :
  getWorkflow (registerWorkflow reg wf) (name wf) = Some wf
  /\ forall n, n <> name wf ->
       getWorkflow (registerWorkflow reg wf) n = getWorkflow reg n.
Proof.
  unfold getWorkflow, registerWorkflow. split.
  - apply mapGet_mapSet_same.
  - intros n Hn. apply mapGet_mapSet_other. exact Hn.
Qed.

(** What [execute] makes of a request.  On a name that is not registered
    it returns [failed] with the message "Workflow not found: <name>.
    Available: <names>", runs no handler and leaves the world as it was.
    Otherwise the handler is called once, with the payload of the request: a
    value it returns is a [success]; an [Error] it throws is [failed] with
    the message of the error; another object it throws is [failed] with that
    object's [message] property as error, and a primitive it throws is
    [failed] with no error at all.  When the handler throws [null] or
    [undefined], [execute] does not return: reading the message in the
    [catch] is a [TypeError], which [execute] throws. *)
Lemma execute_outcomes (reg : Workflows S) request w :
  let run := execute clock reg request w in
  match getWorkflow reg (workflowName request) with
  | None =>
      snd run = w /\
      exists wr,
        fst run = Returned wr /\ status wr = failed /\ result wr = None /\
        error wr = Some (JStr ("Workflow not found: " ++ workflowName request
                                 ++ ". Available: " ++ join ", " (map fst reg)))
  | Some wf =>
      invoked (snd run) = (invoked w ++ [(workflowName request, payload request)])%list /\
      store (snd run) = snd (handler wf (payload request) (store w)) /\
      match fst (handler wf (payload request) (store w)) with
      | completes v =>
          exists wr,
            fst run = Returned wr /\ status wr = success /\ result wr = v /\
            error wr = None
      | throws (errorObject e) =>
          exists wr,
            fst run = Returned wr /\ status wr = failed /\ result wr = None /\
            error wr = Some (JStr (message e))
      | throws (otherValue None) =>
          fst run = Thrown (TypeError
                              "Cannot read properties of undefined (reading 'message')")
      | throws (otherValue (Some JNull)) =>
          fst run = Thrown (TypeError
                              "Cannot read properties of null (reading 'message')")
      | throws (otherValue (Some v)) =>
          exists wr,
            fst run = Returned wr /\ status wr = failed /\ result wr = None /\
            error wr = match v with
                       | JObj fields => lookupField "message" fields
                       | _ => None
                       end
      end
  end.
Proof.
  cbv zeta. unfold getWorkflow, execute.
  destruct (mapGet (workflowName request) reg) as [wf |].
  - destruct (handler wf (payload request) (store w)) as [[v | [e | [v |]]] st];
      cbn [fst snd messageOf getProp invoked store].
    + split; [reflexivity |]. split; [reflexivity |]. eexists. repeat split.
    + split; [reflexivity |]. split; [reflexivity |]. eexists. repeat split.
    + destruct v; (split; [reflexivity |]); (split; [reflexivity |]);
        cbn [fst]; try reflexivity; eexists; repeat split.
    + repeat split.
  - cbn [fst snd]. split; [reflexivity |]. eexists. repeat split.
Qed.


Let put := fun (m : Workflows S) (wf : CREWorkflowDefinition S) => mapSet (name wf) wf m.

Lemma find_app_last {A : Type} (p : A -> bool) l x :
  find p (l ++ [x]) = match find p l with
                      | Some y => Some y
                      | None => if p x then Some x else None
                      end.
Proof.
  induction l as [| a l IH]; cbn [app find]; [reflexivity |].
  destruct (p a); [reflexivity | exact IH].
Qed.

Lemma mapGet_fold l :
  forall (m : Workflows S) n,
    mapGet n (fold_left put l m) =
    match latest n l with
    | Some wf => Some wf
    | None => mapGet n m
    end.
Proof.
  induction l as [| a l IH]; intros m n; [reflexivity |].
  cbn [fold_left]. rewrite IH. unfold latest. cbn [rev]. rewrite find_app_last.
  destruct (find _ (rev l)); [reflexivity |].
  unfold put. destruct (String.eqb n (name a)) eqn:E.
  - apply String.eqb_eq in E. subst n. apply mapGet_mapSet_same.
  - apply mapGet_mapSet_other. intros ->. rewrite String.eqb_refl in E. discriminate E.
Qed.

Lemma mapKeys_mapSet (m : Workflows S) k v :
  mapKeys (mapSet k v m) =
  if existsb (String.eqb k) (mapKeys m) then mapKeys m else (mapKeys m ++ [k])%list.
Proof.
  unfold mapKeys. induction m as [| [k' v'] rest IH]; cbn [mapSet map existsb app fst].
  - reflexivity.
  - destruct (String.eqb k k') eqn:E; cbn [map fst orb].
    + apply String.eqb_eq in E. subst k'. reflexivity.
    + rewrite IH. destruct (existsb (String.eqb k) (map fst rest)); reflexivity.
Qed.

Lemma keyed_put (m : Workflows S) wf : keyed m -> keyed (put m wf).
Proof.
  intros [Hn Hk]. unfold put. split.
  - rewrite mapKeys_mapSet.
    destruct (existsb (String.eqb (name wf)) (mapKeys m)) eqn:E; [exact Hn |].
    apply NoDup_app; [exact Hn | constructor; [intros [] | constructor] |].
    intros x Hx [<- | []].
    assert (existsb (String.eqb (name wf)) (mapKeys m) = true) as H.
    { apply existsb_exists. exists (name wf). split; [exact Hx | apply String.eqb_refl]. }
    congruence.
  - clear Hn. induction m as [| [k' v'] rest IH]; cbn [mapSet].
    + constructor; [reflexivity | constructor].
    + inversion Hk as [| ? ? H1 H2]; subst.
      destruct (String.eqb (name wf) k'); constructor; auto.
Qed.

Lemma keyed_fold l : forall m : Workflows S, keyed m -> keyed (fold_left put l m).
Proof.
  induction l as [| a l IH]; intros m H; [exact H |].
  cbn [fold_left]. apply IH. apply keyed_put. exact H.
Qed.

Lemma mapGet_In (m : Workflows S) k v : mapGet k m = Some v -> In (k, v) m.
Proof.
  induction m as [| [k' v'] rest IH]; cbn [mapGet]; [discriminate |].
  destruct (String.eqb k k') eqn:E.
  - apply String.eqb_eq in E. subst k'. intros H. injection H as ->. left. reflexivity.
  - intros H. right. exact (IH H).
Qed.

Lemma In_mapGet (m : Workflows S) k v :
  NoDup (mapKeys m) -> In (k, v) m -> mapGet k m = Some v.
Proof.
  unfold mapKeys. induction m as [| [k' v'] rest IH]; intros Hn Hin; [destruct Hin |].
  cbn [map fst] in Hn. inversion Hn as [| ? ? Hnot Hrest]; subst.
  cbn [mapGet]. destruct Hin as [H | H].
  - injection H as -> ->. rewrite String.eqb_refl. reflexivity.
  - destruct (String.eqb k k') eqn:E; [| exact (IH Hrest H)].
    apply String.eqb_eq in E. subst k'. exfalso. apply Hnot.
    change k with (fst (k, v)). apply in_map. exact H.
Qed.

Lemma keyed_names (m : Workflows S) : keyed m -> map name (listWorkflows m) = mapKeys m.
Proof.
  intros [_ Hk]. unfold listWorkflows, mapKeys. rewrite map_map.
  induction Hk as [| kv rest H _ IH]; [reflexivity |].
  cbn [map]. rewrite IH, H. reflexivity.
Qed.

Lemma latest_some n (l : list (CREWorkflowDefinition S)) :
  (exists wf, latest n l = Some wf) <-> In n (map name l).
Proof.
  unfold latest. split.
  - intros (wf & H). apply find_some in H as [Hin E].
    apply String.eqb_eq in E. subst n. apply in_map. apply in_rev. exact Hin.
  - intros H. apply in_map_iff in H as (wf & <- & Hin).
    destruct (find (fun x => String.eqb (name wf) (name x)) (rev l)) as [y |] eqn:E;
      [exists y; reflexivity |].
    pose proof (find_none _ _ E wf (proj1 (in_rev _ _) Hin)) as H.
    cbn in H. rewrite String.eqb_refl in H. discriminate H.
Qed.

(** A registry built by the constructor and by calls of [registerWorkflow]
    stores every definition under its own name, once. *)
Lemma built_registry_is_keyed (builtIn extra news : list (CREWorkflowDefinition S)) :
  keyed (fold_left registerWorkflow news (newRegistry builtIn extra)).
Proof.
  assert (fold_left registerWorkflow news (newRegistry builtIn extra)
          = fold_left put (builtIn ++ extra ++ news) []) as ->.
  { unfold newRegistry. change (@registerWorkflow S) with put.
    fold put. rewrite <- fold_left_app, <- app_assoc. reflexivity. }
  apply keyed_fold. split; constructor.
Qed.

(** A registry built by the constructor from the built-in workflows and the
    extra ones, and then extended by calls of [registerWorkflow], holds for
    every name the last definition registered under it: an extra workflow
    replaces a built-in one of the same name.  No name is listed twice, the
    listed workflows are those [getWorkflow] finds under their own names, the
    listed names are the registered ones, and a registration under a name
    already there keeps the order of the listing while a new name goes
    last. *)
Theorem registry_keeps_the_latest (builtIn extra news : list (CREWorkflowDefinition S)) :
  let reg := fold_left registerWorkflow news (newRegistry builtIn extra) in
  let registered := (builtIn ++ extra ++ news)%list in
  (forall n, getWorkflow reg n = latest n registered)
  /\ NoDup (map name (listWorkflows reg))
  /\ (forall wf, In wf (listWorkflows reg) <-> getWorkflow reg (name wf) = Some wf)
  /\ (forall n, In n (map name (listWorkflows reg)) <-> In n (map name registered))
  /\ (forall wf,
        map name (listWorkflows (registerWorkflow reg wf)) =
        if existsb (String.eqb (name wf)) (map name (listWorkflows reg))
        then map name (listWorkflows reg)
        else (map name (listWorkflows reg) ++ [name wf])%list).
Proof.
  cbv zeta.
  assert (fold_left registerWorkflow news (newRegistry builtIn extra)
          = fold_left put (builtIn ++ extra ++ news) []) as ->.
  { unfold newRegistry. change (@registerWorkflow S) with put.
    fold put. rewrite <- fold_left_app, <- app_assoc. reflexivity. }
  set (all := (builtIn ++ extra ++ news)%list).
  assert (keyed (fold_left put all [])) as K.
  { apply keyed_fold. split; constructor. }
  assert (forall n, getWorkflow (fold_left put all []) n = latest n all) as G.
  { intros n. unfold getWorkflow. rewrite mapGet_fold.
    destruct (latest n all); reflexivity. }
  split; [exact G |]. split; [| split; [| split]].
  - rewrite (keyed_names _ K). exact (proj1 K).
  - intros wf. unfold getWorkflow, listWorkflows. split.
    + intros H. apply in_map_iff in H as ([k v] & <- & Hin). cbn [snd].
      pose proof (proj1 (Forall_forall _ _) (proj2 K) _ Hin) as Hk. cbn in Hk.
      subst k. apply In_mapGet; [exact (proj1 K) | exact Hin].
    + intros H. apply mapGet_In in H. change wf with (snd (name wf, wf)).
      apply in_map. exact H.
  - intros n. rewrite (keyed_names _ K). unfold mapKeys. split.
    + intros H. apply in_map_iff in H as ([k v] & <- & Hin).
      apply latest_some. exists v. rewrite <- G.
      apply In_mapGet; [exact (proj1 K) | exact Hin].
    + intros H. apply latest_some in H as (wf & H). rewrite <- G in H.
      apply mapGet_In in H. change n with (fst (n, wf)).
      apply in_map. exact H.
  - intros wf. rewrite (keyed_names _ K).
    change (registerWorkflow (fold_left put all []) wf) with (put (fold_left put all []) wf).
    rewrite (keyed_names _ (keyed_put _ wf K)).
    unfold put. apply mapKeys_mapSet.
Qed.


End Registries.

End RegistryFacts.

(** ** cre-registry.ts: facts about the built-in compute-task workflow *)

Module BuiltInFacts.
Import JS.
Import Registry.
Import BuiltIn.
Import BuiltInTerms.

(** The handler of compute-task at the edges.  A [null] payload is a
    [TypeError], and an operation that [String] cannot convert (an object
    with a [toString] property of its own, which is not callable) is the
    fault of that conversion; otherwise a payload without a [data] array (no such
    property, or one that is not an array) throws "Payload must include
    'data' array" whatever the operation, and with a [data] array an
    operation other than sum, mean, max and min throws "Unknown operation:
    <operation>", the operation being sum when none is given.  On the empty
    array nothing is thrown: the sum is 0, the mean is [NaN], the max is
    [-Infinity] and the min is [Infinity]. *)
Theorem compute_task_edges payload :
  let noData := Thrown (Error "Payload must include 'data' array") in
  match payload with
  | JNull =>
      computeHandler payload =
      Thrown (TypeError "Cannot read properties of null (reading 'data')")
  | JObj fields =>
      match ToString (nullish (lookupField "operation" fields) (JStr "sum")) with
      | Thrown e => computeHandler payload = Thrown e
      | Returned operation =>
          match lookupField "data" fields with
          | Some (JArr items) =>
              (operation <> "sum" -> operation <> "mean" ->
               operation <> "max" -> operation <> "min" ->
               computeHandler payload = Thrown (Error ("Unknown operation: " ++ operation)))
              /\ (items = [] ->
                  (operation = "sum" -> computeHandler payload = computed "sum" [] 0%float)
                  /\ (operation = "mean" -> computeHandler payload = computed "mean" [] nan)
                  /\ (operation = "max" ->
                      computeHandler payload = computed "max" [] neg_infinity)
                  /\ (operation = "min" ->
                      computeHandler payload = computed "min" [] infinity))
          | _ => computeHandler payload = noData
          end
      end
  | _ => computeHandler payload = noData
  end.
Proof.
  cbv zeta. destruct payload as [| b | n | s | items | fields]; try reflexivity.
  unfold computeHandler. cbn [getProp bind].
  destruct (ToString (nullish (lookupField "operation" fields) (JStr "sum")))
    as [operation | e]; cbn [bind]; [| reflexivity].
  destruct (lookupField "data" fields) as [[| b | n | s | items | fs] |]; try reflexivity.
  split.
  - intros H1 H2 H3 H4.
    apply String.eqb_neq in H1, H2, H3, H4. rewrite H1, H2, H3, H4. reflexivity.
  - intros ->. repeat split; intros ->; vm_compute; reflexivity.
Qed.

(** An operation that is an object: [String] gives "[object Object]"
    unless the object has a [toString] of its own. *)
Lemma compute_task_on_object_operations :
  computeHandler (JObj [("operation", JObj [("valueOf", JNum 1%float)])])
  = Thrown (Error "Payload must include 'data' array")
  /\ computeHandler (JObj [("operation", JObj [("valueOf", JNum 1%float)]); ("data", JArr [])])
     = Thrown (Error "Unknown operation: [object Object]")
  /\ computeHandler (JObj [("operation", JObj [("toString", JNum 1%float)]); ("data", JArr [])])
     = Thrown (TypeError "Cannot convert object to primitive value").
Proof. repeat split. Qed.

End BuiltInFacts.

(** ** payment-gateway.ts: facts *)

Module GatewayFacts.
Import JS.
Import Registry.
Import Gateway.

Section Gate.

Variable S : Type.
Variable clock : S -> Z.
Variable host : Verifier.Host.
Variable gw : X402CREPaymentGateway S.

(** The verification [invoke] performs. *)
Let verification (workflowName proof : string) (w : World S) :=
  Verifier.verify host (verifierConfig gw (requiredPriceOf gw workflowName))
    (clock (store w) / 1000) proof.

(** The request [invoke] hands to the registry. *)
Let requestOf (uuid workflowName : string) (payload : json) (proof : string)
    (w : World S) : WorkflowRequest :=
  {| requestId := uuid;
     Registry.workflowName := workflowName;
     Registry.payload := payload;
     paymentProof := Some proof;
     createdAt := isoFormat (clock (store w)) |}.

Lemma invoke_denied uuid workflowName payload proof w p :
  verification workflowName proof w = Returned p ->
  Verifier.valid p = false ->
  exists e, Verifier.error p = Some e /\
    invoke clock host gw uuid workflowName payload proof w =
    (Returned {| allowed := false; payment := p; workflowResult := None;
                 pricePaid := None; error := Some e |}, w).
Proof.
  intros Hv Hp.
  destruct (VerifierFacts.verify_invalid_error _ _ _ _ _ Hv Hp) as [e He].
  exists e. split; [exact He |].
  unfold invoke. fold (verification workflowName proof w).
  rewrite Hv, Hp, He. reflexivity.
Qed.

Lemma invoke_allowed uuid workflowName payload proof w p :
  verification workflowName proof w = Returned p ->
  Verifier.valid p = true ->
  invoke clock host gw uuid workflowName payload proof w =
  match execute clock (registry gw) (requestOf uuid workflowName payload proof w) w with
  | (Returned wr, w') =>
      (Returned {| allowed := true; payment := p; workflowResult := Some wr;
                   pricePaid := Some (requiredPriceOf gw workflowName);
                   error := None |}, w')
  | (Thrown e, w') => (Thrown e, w')
  end.
Proof.
  intros Hv Hp.
  unfold invoke. fold (verification workflowName proof w).
  rewrite Hv, Hp. cbn [negb].
  fold (requestOf uuid workflowName payload proof w).
  destruct (execute clock (registry gw) _ w) as [[wr | e] w']; reflexivity.
Qed.

Lemma invoke_rethrows uuid workflowName payload proof w e :
  verification workflowName proof w = Thrown e ->
  invoke clock host gw uuid workflowName payload proof w = (Thrown e, w).
Proof.
  intros Hv. unfold invoke. fold (verification workflowName proof w).
  rewrite Hv. reflexivity.
Qed.

(** C1.  Let [p] be what [PaymentVerifier] returns for the proof.  If [p] is
    a rejection, [invoke] returns [allowed = false] with [p] and its error
    message, no [workflowResult] and no [pricePaid], and the world is as it
    was: no handler ran (the log of handler calls and the handlers' store are
    unchanged).  If [p] is valid, [invoke] hands the request to
    [registry.execute]: it returns [allowed = true] with what [execute]
    returned and the price charged, in the world [execute] left, and it
    throws what [execute] threw.  So an [allowed] result, and any change to
    the log of handler calls, occur only when [p] is valid. *)
Theorem invoke_gate uuid workflowName payload proof w p :
  verification workflowName proof w = Returned p ->
  (Verifier.valid p = false ->
     exists e, Verifier.error p = Some e /\
       invoke clock host gw uuid workflowName payload proof w =
       (Returned {| allowed := false; payment := p; workflowResult := None;
                    pricePaid := None; error := Some e |}, w))
  /\ (Verifier.valid p = true ->
       invoke clock host gw uuid workflowName payload proof w =
       match execute clock (registry gw)
               (requestOf uuid workflowName payload proof w) w with
       | (Returned wr, w') =>
           (Returned {| allowed := true; payment := p;
                        workflowResult := Some wr;
                        pricePaid := Some (requiredPriceOf gw workflowName);
                        error := None |}, w')
       | (Thrown e, w') => (Thrown e, w')
       end)
  /\ (forall r w',
        invoke clock host gw uuid workflowName payload proof w = (Returned r, w') ->
        allowed r = true \/ invoked w' <> invoked w \/ store w' <> store w ->
        Verifier.valid p = true).
Proof.
  intros Hv. split; [| split].
  - apply invoke_denied. exact Hv.
  - apply invoke_allowed. exact Hv.
  - intros r w' Hi Hobs.
    destruct (Verifier.valid p) eqn:Hp; [reflexivity |].
    destruct (invoke_denied uuid workflowName payload proof w p Hv Hp) as (e & _ & Hd).
    rewrite Hd in Hi. injection Hi as <- <-.
    destruct Hobs as [H | [H | H]]; [discriminate H | contradiction | contradiction].
Qed.


(** The price asked for a workflow that is not registered is the
    configured default, so verification never fails for want of a price. *)
Lemma price_of_unknown_workflow workflowName :
  getWorkflow (registry gw) workflowName = None ->
  requiredPriceOf gw workflowName =
  match defaultPriceUSDC (config gw) with
  | Some p => p
  | None => 0.001%float
  end.
Proof. intros H. unfold requiredPriceOf. rewrite H. reflexivity. Qed.


(** A valid payment is charged whatever becomes of the workflow, short of a
    handler that throws [null] or [undefined].  [invoke] returns
    [allowed = true] with the price and the result of the registry.  When no
    workflow has the name, the result is [failed] with "Workflow not found",
    no handler has run and the price is the default one; when the handler
    returns, the result is a [success] with its value; when it throws, the
    result is [failed] with the message read off what it threw.  Only when
    that read faults, on [null] and [undefined], does [invoke] throw instead:
    the handler has run and the caller gets a [TypeError]. *)
Lemma valid_payment_is_charged uuid workflowName payload proof w p :
  verification workflowName proof w = Returned p ->
  Verifier.valid p = true ->
  let run := invoke clock host gw uuid workflowName payload proof w in
  let charged := fun wr =>
    Returned {| allowed := true; payment := p; workflowResult := Some wr;
                pricePaid := Some (requiredPriceOf gw workflowName);
                error := None |} in
  match getWorkflow (registry gw) workflowName with
  | None =>
      snd run = w /\
      requiredPriceOf gw workflowName =
        match defaultPriceUSDC (config gw) with
        | Some d => d
        | None => 0.001%float
        end /\
      exists wr,
        fst run = charged wr /\
        res_requestId wr = uuid /\ res_workflowName wr = workflowName /\
        status wr = failed /\ result wr = None /\
        Registry.error wr =
          Some (JStr ("Workflow not found: " ++ workflowName ++ ". Available: "
                        ++ join ", " (map fst (registry gw))))
  | Some wf =>
      requiredPriceOf gw workflowName = priceUSDC wf /\
      invoked (snd run) = (invoked w ++ [(workflowName, payload)])%list /\
      store (snd run) = snd (handler wf payload (store w)) /\
      match fst (handler wf payload (store w)) with
      | completes v =>
          exists wr,
            fst run = charged wr /\
            res_requestId wr = uuid /\ res_workflowName wr = workflowName /\
            status wr = success /\ result wr = v
      | throws (otherValue None) =>
          fst run = Thrown (TypeError
                              "Cannot read properties of undefined (reading 'message')")
      | throws (otherValue (Some JNull)) =>
          fst run = Thrown (TypeError
                              "Cannot read properties of null (reading 'message')")
      | throws t =>
          exists wr,
            fst run = charged wr /\
            res_requestId wr = uuid /\ res_workflowName wr = workflowName /\
            status wr = failed /\ result wr = None /\
            Returned (Registry.error wr) = messageOf t
      end
  end.
Proof.
  intros Hv Hp run charged. subst run charged. cbv beta.
  rewrite (invoke_allowed uuid workflowName payload proof w p Hv Hp).
  unfold requiredPriceOf, getWorkflow, execute, requestOf.
  cbn [Registry.workflowName Registry.payload requestId].
  destruct (mapGet workflowName (registry gw)) as [wf |].
  - destruct (handler wf payload (store w)) as [[v | [e | [v |]]] st];
      cbn [fst snd messageOf getProp invoked store];
      [| | destruct v; cbn [fst snd invoked store] |];
      (split; [reflexivity |]); (split; [reflexivity |]); (split; [reflexivity |]);
      try reflexivity; eexists; repeat split.
  - cbn [fst snd]. split; [reflexivity |]. split; [reflexivity |].
    eexists. repeat split.
Qed.

End Gate.

(** Without a proof the counting gateway denies and its counter stays 0. *)
Lemma invoke_gate_witness :
  snd (invoke Examples.fixedClock Examples.host Examples.countingGateway
         "req-1" "price-feed" (JObj []) "" Examples.freshWorld)
  = {| store := O; invoked := [] |}.
Proof.
  destruct (proj1 (invoke_gate nat Examples.fixedClock Examples.host
                     Examples.countingGateway "req-1" "price-feed" (JObj []) ""
                     Examples.freshWorld _ eq_refl) eq_refl) as (e & _ & H).
  rewrite H. reflexivity.
Defined.

(** With the exact payment the handler runs once. *)
Lemma counting_gateway_runs_once :
  snd (invoke Examples.fixedClock Examples.host Examples.countingGateway
         "req-1" "price-feed" (JObj []) Examples.wireExact Examples.freshWorld)
  = {| store := 1%nat; invoked := [("price-feed", JObj [])] |}.
Proof. vm_compute. reflexivity. Qed.

(** The exact payment for a workflow that the counting gateway does not have
    is charged at the default price. *)
Lemma valid_payment_is_charged_witness :
  exists wr,
    fst (invoke Examples.fixedClock Examples.host Examples.countingGateway
           "req-1" "no-such-workflow" (JObj []) Examples.wireExact Examples.freshWorld) =
    Returned {| allowed := true;
                payment := Verifier.accepted 1000 Examples.RECIPIENT
                             (JStr Examples.PAYER) (Some "0x8a3f");
                workflowResult := Some wr;
                pricePaid := Some 0.001%float;
                error := None |} /\
    status wr = failed.
Proof.
  destruct (valid_payment_is_charged nat Examples.fixedClock Examples.host
              Examples.countingGateway "req-1" "no-such-workflow" (JObj [])
              Examples.wireExact Examples.freshWorld
              (Verifier.accepted 1000 Examples.RECIPIENT (JStr Examples.PAYER)
                 (Some "0x8a3f"))
              ltac:(vm_compute; reflexivity) eq_refl)
    as (_ & _ & wr & Hi & _ & _ & Hs & _).
  exists wr. split; [exact Hi | exact Hs].
Defined.


(** The keyword routing: the first rule that matches wins, and a task that
    matches none goes to the default workflow. *)
Lemma routing_examples :
  routeTask Examples.host "get current ETH price" = "price-feed"
  /\ routeTask Examples.host "check weather conditions" = "weather-oracle"
  /\ routeTask Examples.host "calculate sum of values" = "compute-task"
  /\ routeTask Examples.host "Compute the WEATHER Token" = "price-feed"
  /\ routeTask Examples.host "summarize this document" = "agent-task-dispatch".
Proof. vm_compute. repeat split. Qed.


(** The routing of a task looks for its keywords anywhere in the text and
    in any letter case: a task that holds the word price or token goes to
    price-feed whatever else it holds; one that holds weather goes to
    weather-oracle or to price-feed; one that holds compute or calculate is
    never left to the default workflow; a task and its lower-case form have
    the same route; and the route is always one of the four workflow
    names. *)
Theorem routing_ignores_case_and_place h before word after :
  Terms.Lowers h ->
  let task := before ++ word ++ after in
  let toLowerCase := Verifier.toLowerCase h in
  let routeTask := routeTask h in
  (toLowerCase word = "price" \/ toLowerCase word = "token" ->
   routeTask task = "price-feed")
  /\ (toLowerCase word = "weather" ->
      routeTask task = "price-feed" \/ routeTask task = "weather-oracle")
  /\ (toLowerCase word = "compute" \/ toLowerCase word = "calculate" ->
      routeTask task <> "agent-task-dispatch")
  /\ routeTask (toLowerCase task) = routeTask task
  /\ In (routeTask task) ["price-feed"; "weather-oracle"; "compute-task"; "agent-task-dispatch"].
Proof.
  intros [Honce Hplace]. cbv zeta.
  assert (forall k, Verifier.toLowerCase h word = k -> Terms.asciiText k = true ->
            includes (Verifier.toLowerCase h (before ++ word ++ after)) k = true) as Hk.
  { intros k <- Hascii. apply Hplace. exact Hascii. }
  unfold routeTask. rewrite Honce.
  set (t := Verifier.toLowerCase h (before ++ word ++ after)) in *.
  split; [| split; [| split; [| split]]].
  - intros [H | H]; rewrite (Hk _ H eq_refl);
      [reflexivity | rewrite orb_true_r; reflexivity].
  - intros H. rewrite (Hk _ H eq_refl).
    destruct (includes t "price" || includes t "token"); [left | right]; reflexivity.
  - intros H.
    assert (includes t "compute" || includes t "calculate" = true) as ->.
    { destruct H as [H | H]; rewrite (Hk _ H eq_refl);
        [reflexivity | apply orb_true_r]. }
    destruct (includes t "price" || includes t "token"); [discriminate |].
    destruct (includes t "weather"); discriminate.
  - reflexivity.
  - destruct (includes t "price" || includes t "token"); [left; reflexivity |].
    destruct (includes t "weather"); [right; left; reflexivity |].
    destruct (includes t "compute" || includes t "calculate");
      [right; right; left; reflexivity | right; right; right; left; reflexivity].
Qed.

(** On ASCII text the runtime's [toLowerCase] is [asciiLowerCase], which has
    the two properties. *)
Lemma asciiLowerCase_lowers h :
  (forall s, Verifier.toLowerCase h s = asciiLowerCase s) -> Terms.Lowers h.
Proof.
  intros H. split.
  - intros s. rewrite !H. apply JSFacts.asciiLowerCase_idempotent.
  - intros before word after _. rewrite !H, !JSFacts.asciiLowerCase_app.
    apply JSFacts.includes_app.
Qed.

Lemma routing_ignores_case_and_place_witness :
  routeTask Examples.host "What is the PRICE of ETH?" = "price-feed".
Proof.
  refine (proj1 (routing_ignores_case_and_place Examples.host "What is the " "PRICE"
                   " of ETH?" _) _).
  - apply asciiLowerCase_lowers. intros s. reflexivity.
  - left. reflexivity.
Defined.


End GatewayFacts.

(** ** workflow-orchestrator.ts: facts *)

Module OrchestratorFacts.
Import JS.
Import AgentClient.
Import Orchestrator.
Import OrchestratorTerms.

Lemma updateLast_push f l s : updateLast f (push l s) = push l (f s).
Proof.
  unfold push. induction l as [| x r IH]; [reflexivity |].
  cbn [app updateLast]. rewrite IH.
  destruct (r ++ [s])%list eqn:E; [destruct r; discriminate E | reflexivity].
Qed.

Lemma sumSpent_push l s : sumSpent (push l s) = addSpent (sumSpent l) s.
Proof. unfold sumSpent, push. rewrite fold_left_app. reflexivity. Qed.

Lemma fold_addSpent_filter (keep : StepResult -> bool) l :
  Forall (fun s => keep s = false -> spentUSDC s = None) l ->
  forall acc, fold_left addSpent (filter keep l) acc = fold_left addSpent l acc.
Proof.
  induction 1 as [| s l Hs _ IH]; intros acc; [reflexivity |].
  cbn [filter fold_left]. destruct (keep s) eqn:K.
  - cbn [fold_left]. apply IH.
  - rewrite IH. unfold addSpent at 3. rewrite (Hs eq_refl). reflexivity.
Qed.

Lemma nth_error_push l s k x :
  nth_error (push l s) k = Some x ->
  (k < List.length l /\ nth_error l k = Some x)%nat \/ (k = List.length l /\ x = s).
Proof.
  unfold push. intros H.
  destruct (Nat.lt_ge_cases k (List.length l)) as [Hlt | Hge].
  - left. split; [exact Hlt |]. rewrite nth_error_app1 in H by exact Hlt. exact H.
  - right. rewrite nth_error_app2 in H by exact Hge.
    destruct (k - List.length l)%nat as [| d] eqn:E.
    + cbn in H. injection H as <-. split; [lia | reflexivity].
    + cbn in H. destruct d; discriminate H.
Qed.

Lemma nth_error_push_old l s k x :
  nth_error l k = Some x -> nth_error (push l s) k = Some x.
Proof.
  intros H. unfold push. rewrite nth_error_app1; [exact H |].
  apply nth_error_Some. congruence.
Qed.

Lemma Exists_nth_error (P : StepResult -> Prop) l :
  Exists P l <-> exists j sj, nth_error l j = Some sj /\ P sj.
Proof.
  rewrite Exists_exists. split.
  - intros (x & Hin & Hx). destruct (In_nth_error _ _ Hin) as [j Hj].
    exists j, x. split; assumption.
  - intros (j & x & Hj & Hx). exists x. split; [| exact Hx].
    eapply nth_error_In. exact Hj.
Qed.


Lemma lookupField_setField_same k v fields : lookupField k (setField k v fields) = Some v.
Proof.
  induction fields as [| [k' v'] rest IH]; cbn [setField lookupField].
  - rewrite String.eqb_refl. reflexivity.
  - destruct (String.eqb k k') eqn:E; cbn [lookupField].
    + rewrite String.eqb_refl. reflexivity.
    + rewrite E. exact IH.
Qed.

Lemma lookupField_setField_other k k' v fields :
  k' <> k -> lookupField k' (setField k v fields) = lookupField k' fields.
Proof.
  intros Hne. induction fields as [| [k0 v0] rest IH]; cbn [setField lookupField].
  - destruct (String.eqb k' k) eqn:E; [apply String.eqb_eq in E; contradiction |].
    reflexivity.
  - destruct (String.eqb k k0) eqn:E; cbn [lookupField].
    + apply String.eqb_eq in E. subst k0.
      destruct (String.eqb k' k) eqn:E'; [apply String.eqb_eq in E'; contradiction |].
      reflexivity.
    + destruct (String.eqb k' k0); [reflexivity | exact IH].
Qed.

(** The default transformer never throws.  Its output holds the whole
    result of the step under [previousResult]; when the result is an object
    every other field of it is there too, a field of its own named
    [previousResult] being replaced; for any other result there is no other
    field. *)
Theorem default_transformer_keeps_the_result stepResult nextWorkflow i :
  exists fields,
    defaultTransformer stepResult nextWorkflow i = Returned (JObj fields)
    /\ lookupField "previousResult" fields = stepResult
    /\ forall k, k <> "previousResult" ->
         lookupField k fields =
         match stepResult with
         | Some (JObj own) => lookupField k own
         | _ => None
         end.
Proof.
  unfold defaultTransformer.
  destruct stepResult as [[| b | n | s | items | own] |];
    try (eexists; split; [reflexivity |]; split; [reflexivity |];
         intros k Hk; cbn [lookupField];
         destruct (String.eqb k "previousResult") eqn:E;
           [apply String.eqb_eq in E; contradiction | reflexivity]).
  eexists. split; [reflexivity |]. split; [apply lookupField_setField_same |].
  intros k Hk. apply lookupField_setField_other. exact Hk.
Qed.


Section Runs.

Variable C : Type.
Variable clock : C -> Z.
Variable invoke : string -> json -> C -> outcome AgentInvokeResult * C.
Variable stopOrContinue : bool.
Variable transformer : Transformer.

Let turn := iteration clock invoke stopOrContinue transformer.
Let run := loop clock invoke stopOrContinue transformer.

(** What one turn of the loop does: it records exactly one step [s], and
    either skips (no invocation, the client untouched), or invokes once and
    records the invocation as failed, as a paid success, or as a paid success
    flipped to failed by a throwing transformer. *)
Lemma iteration_spec step next i v c :
  exists s,
    stepResults (fst (turn step next i v c)) = push (stepResults v) s /\
    sr_workflowName s = step_workflowName step /\
    stepIndex s = i /\
    ( (sr_status s = step_skipped /\ spentUSDC s = None /\
       hasFailure v = true /\ stopOrContinue = false /\
       snd (turn step next i v c) = c /\
       total (fst (turn step next i v c)) = total v /\
       hasFailure (fst (turn step next i v c)) = true)
      \/
      (hasFailure v && negb stopOrContinue = false /\
       exists payload o,
         invoke (step_workflowName step) payload c = (o, snd (turn step next i v c)) /\
         ( (sr_status s = step_failed /\ spentUSDC s = None /\
            failedOutcome o = true /\
            total (fst (turn step next i v c)) = total v /\
            hasFailure (fst (turn step next i v c)) = true)
           \/
           (exists p, spentUSDC s = Some p /\ failedOutcome o = false /\
              total (fst (turn step next i v c)) = (total v + p)%float /\
              ( (sr_status s = step_success /\
                 hasFailure (fst (turn step next i v c)) = hasFailure v)
                \/
                (flipped s /\ hasFailure (fst (turn step next i v c)) = true /\
                 exists r n e, transformer r n i = Thrown e) )) )) ).
Proof.
  unfold turn, iteration.
  destruct (hasFailure v && negb stopOrContinue) eqn:G.
  - apply andb_true_iff in G as [Hf Hc]. apply negb_true_iff in Hc.
    eexists. split; [reflexivity |]. split; [reflexivity |]. split; [reflexivity |].
    left. repeat split; assumption.
  - destruct (invoke (step_workflowName step) _ c) as [[r | e] c'] eqn:I.
    + destruct (success r) eqn:Hs; cbn [negb].
      * destruct next as [nx |].
        -- destruct (transformer (result r) (step_workflowName nx) i) as [q | e] eqn:T.
           ++ eexists. split; [reflexivity |]. split; [reflexivity |].
              split; [reflexivity |]. right. split; [reflexivity |].
              eexists _, _. split; [exact I |]. right.
              eexists. split; [reflexivity |]. cbn [failedOutcome]. rewrite Hs.
              split; [reflexivity |]. split; [reflexivity |]. left.
              split; reflexivity.
           ++ cbn [fst snd stepResults total hasFailure]. rewrite updateLast_push.
              eexists. split; [reflexivity |]. split; [reflexivity |].
              split; [reflexivity |]. right. split; [reflexivity |].
              eexists _, _. split; [exact I |]. right.
              eexists. split; [reflexivity |]. cbn [failedOutcome]. rewrite Hs.
              split; [reflexivity |]. split; [reflexivity |]. right.
              split; [split; [reflexivity | eexists; reflexivity] |].
              split; [reflexivity |]. eexists _, _, _. exact T.
        -- eexists. split; [reflexivity |]. split; [reflexivity |].
           split; [reflexivity |]. right. split; [reflexivity |].
           eexists _, _. split; [exact I |]. right.
           eexists. split; [reflexivity |]. cbn [failedOutcome]. rewrite Hs.
           split; [reflexivity |]. split; [reflexivity |]. left. split; reflexivity.
      * eexists. split; [reflexivity |]. split; [reflexivity |].
        split; [reflexivity |]. right. split; [reflexivity |].
        eexists _, _. split; [exact I |]. left.
        cbn [failedOutcome]. rewrite Hs. repeat split.
    + eexists. split; [reflexivity |]. split; [reflexivity |].
      split; [reflexivity |]. right. split; [reflexivity |].
      eexists _, _. split; [exact I |]. left. repeat split.
Qed.

(** An invariant of the turns is an invariant of the loop. *)
Lemma loop_invariant (Inv : nat -> Locals -> C -> Prop) :
  (forall step next i v c,
     Inv i v c -> Inv (S i) (fst (turn step next i v c)) (snd (turn step next i v c))) ->
  forall todo i v c,
    Inv i v c ->
    Inv (i + List.length todo)%nat (fst (run todo i v c)) (snd (run todo i v c)).
Proof.
  intros Hstep todo. induction todo as [| step rest IH]; intros i v c H.
  - cbn. rewrite Nat.add_0_r. exact H.
  - unfold run. cbn [loop List.length]. fold run.
    specialize (Hstep step (List.hd_error rest) i v c H). unfold turn in Hstep.
    destruct (iteration clock invoke stopOrContinue transformer step
                (List.hd_error rest) i v c) as [v' c'].
    cbn [fst snd] in Hstep.
    rewrite <- Nat.add_succ_comm. apply IH. exact Hstep.
Qed.

Lemma turn_keeps step next i v c :
  Kept stopOrContinue transformer i v ->
  Kept stopOrContinue transformer (S i) (fst (turn step next i v c)).
Proof.
  intros K.
  destruct (iteration_spec step next i v c) as (s & Hpush & Hname & Hidx & Hcase).
  assert (sr_status s = step_skipped \/ sr_status s = step_failed \/
          sr_status s = step_success) as Hstatus.
  { destruct Hcase as [(H & _) | (_ & q & o & _ & [(H & _) | (p & _ & _ & _ & [(H & _) | ((H & _) & _)])])];
      auto. }
  assert (hasFailure v = true -> stopOrContinue = false -> isSkipped s) as Hmust.
  { intros Hf Hc.
    destruct Hcase as [(H & _) | (G & _)]; [exact H |].
    rewrite Hf, Hc in G. discriminate G. }
  assert (isSkipped s -> stopOrContinue = false /\ hasFailure v = true) as Hwhy.
  { intros Hs. unfold isSkipped in Hs.
    destruct Hcase as [(_ & _ & Hf & Hc & _) | (_ & q & o & _ & [(H & _) | (p & _ & _ & _ & [(H & _) | ((H & _) & _)])])];
      [split; assumption | congruence | congruence | congruence]. }
  assert (hasFailure (fst (turn step next i v c)) = true <->
          hasFailure v = true \/ isFailed s) as Hfail.
  { unfold isFailed.
    destruct Hcase as [(Hs & _ & Hf & _ & _ & _ & Hf') | (_ & q & o & _ & [(Hs & _ & _ & _ & Hf') | (p & _ & _ & _ & [(Hs & Hf') | ((Hs & _) & Hf' & _)])])];
      rewrite Hf'; try rewrite Hs; intuition congruence. }
  assert (total (fst (turn step next i v c)) = addSpent (total v) s) as Htotal.
  { unfold addSpent.
    destruct Hcase as [(_ & Hn & _ & _ & _ & Ht & _) | (_ & q & o & _ & [(_ & Hn & _ & Ht & _) | (p & Hp & _ & Ht & _)])];
      rewrite Ht; [rewrite Hn | rewrite Hn | rewrite Hp]; reflexivity. }
  assert (paidOK s) as Hpaid.
  { unfold paidOK.
    destruct Hcase as [(Hs & Hn & _) | (_ & q & o & _ & [(Hs & Hn & _) | (p & Hp & _ & _ & [(Hs & _) | (Hfl & _)])])].
    - rewrite Hs, Hn. split; [discriminate | congruence].
    - rewrite Hs, Hn. split; [discriminate | congruence].
    - rewrite Hp. split; [intros _; exists p; reflexivity | intros _; left; exact Hs].
    - rewrite Hp. split; [intros _; exists p; reflexivity | intros _; right; exact Hfl]. }
  assert ((forall r n k e, transformer r n k <> Thrown e) -> paidOnlyOnSuccess s)
    as Hnothrow.
  { intros NT. unfold paidOnlyOnSuccess.
    destruct Hcase as [(_ & Hn & _) | (_ & q & o & _ & [(_ & Hn & _) | (p & _ & _ & _ & [(Hs & _) | (_ & _ & r & n & e & T)])])].
    - congruence.
    - congruence.
    - intros _. exact Hs.
    - exfalso. exact (NT r n i e T). }
  destruct K as [Kt Kp Kn Kf Kl Ki Ks Kst].
  constructor; rewrite Hpush.
  - rewrite sumSpent_push, <- Kt. exact Htotal.
  - unfold push. apply Forall_app. split; [exact Kp | constructor; [exact Hpaid | constructor]].
  - intros NT. unfold push. apply Forall_app.
    split; [exact (Kn NT) | constructor; [exact (Hnothrow NT) | constructor]].
  - rewrite Hfail, Kf. unfold push. rewrite Exists_app.
    split; (intros [H | H]; [left; exact H | right]).
    + constructor. exact H.
    + inversion H as [? ? H0 | ? ? H0]; [exact H0 | inversion H0].
  - unfold push. rewrite length_app. cbn. lia.
  - intros k x Hk. destruct (nth_error_push _ _ _ _ Hk) as [[_ Hold] | [-> ->]].
    + exact (Ki k x Hold).
    + rewrite Hidx. symmetry. exact Kl.
  - intros k x Hk Hx. destruct (nth_error_push _ _ _ _ Hk) as [[_ Hold] | [-> ->]].
    + destruct (Ks k x Hold Hx) as (Hc & j & sj & Hj & Hsj & Hfj).
      split; [exact Hc |]. exists j, sj.
      split; [exact Hj |]. split; [apply nth_error_push_old; exact Hsj | exact Hfj].
    + destruct (Hwhy Hx) as [Hc Hf]. split; [exact Hc |].
      apply Kf in Hf. apply Exists_nth_error in Hf as (j & sj & Hsj & Hfj).
      exists j, sj. split; [apply nth_error_Some; congruence |].
      split; [apply nth_error_push_old; exact Hsj | exact Hfj].
  - intros Hc j sj k sk Hj Hfj Hjk Hk.
    destruct (nth_error_push _ _ _ _ Hk) as [[Hklt Hkold] | [-> ->]].
    + destruct (nth_error_push _ _ _ _ Hj) as [[_ Hjold] | [-> _]]; [| lia].
      exact (Kst Hc j sj k sk Hjold Hfj Hjk Hkold).
    + destruct (nth_error_push _ _ _ _ Hj) as [[_ Hjold] | [-> _]]; [| lia].
      apply Hmust; [| exact Hc]. apply Kf. apply Exists_nth_error.
      exists j, sj. split; assumption.
Qed.

Lemma run_keeps todo i v c :
  Kept stopOrContinue transformer i v ->
  Kept stopOrContinue transformer (i + List.length todo) (fst (run todo i v c)).
Proof.
  intros K.
  apply (loop_invariant (fun k w _ => Kept stopOrContinue transformer k w)); [| exact K].
  intros step next k w d Hw. apply turn_keeps. exact Hw.
Qed.

(** The recorded steps name the steps of the chain, one each, in order. *)
Lemma run_names todo :
  forall i v c,
    map sr_workflowName (stepResults (fst (run todo i v c))) =
    (map sr_workflowName (stepResults v) ++ map step_workflowName todo)%list.
Proof.
  induction todo as [| step rest IH]; intros i v c.
  - cbn. rewrite app_nil_r. reflexivity.
  - unfold run. cbn [loop]. fold run.
    destruct (iteration_spec step (List.hd_error rest) i v c)
      as (s & Hpush & Hname & _).
    unfold turn in Hpush.
    destruct (iteration clock invoke stopOrContinue transformer step
                (List.hd_error rest) i v c) as [v' c'].
    cbn [fst] in Hpush. rewrite IH, Hpush. unfold push.
    rewrite map_app, <- app_assoc. cbn [map app]. rewrite Hname. reflexivity.
Qed.

End Runs.

Section Orchestrations.

Variable C : Type.
Variable clock : C -> Z.
Variable invoke : string -> json -> C -> outcome AgentInvokeResult * C.

Lemma start_kept config :
  Kept (continueOf config) (transformerOf config) 0 (startLocals config).
Proof.
  constructor; cbn [startLocals stepResults total hasFailure].
  - reflexivity.
  - constructor.
  - intros _. constructor.
  - split; [discriminate | intros H; inversion H].
  - reflexivity.
  - intros [| k] s H; discriminate H.
  - intros [| k] s H; discriminate H.
  - intros _ [| j] sj k sk H; discriminate H.
Qed.

(** The fields of the result in terms of the loop. *)
Lemma orchestrate_steps uuid chain config c :
  steps (fst (orchestrate clock invoke uuid chain config c)) =
  stepResults (fst (loop clock invoke (continueOf config) (transformerOf config)
                      (normalizeChain chain) 0 (startLocals config) c)).
Proof.
  unfold orchestrate. fold (continueOf config). fold (transformerOf config).
  fold (initialOf config). fold (startLocals config).
  destruct (loop clock invoke _ _ _ 0 _ c) as [v c']. reflexivity.
Qed.

Lemma orchestrate_total uuid chain config c :
  totalSpentUSDC (fst (orchestrate clock invoke uuid chain config c)) =
  total (fst (loop clock invoke (continueOf config) (transformerOf config)
                (normalizeChain chain) 0 (startLocals config) c)).
Proof.
  unfold orchestrate. fold (continueOf config). fold (transformerOf config).
  fold (initialOf config). fold (startLocals config).
  destruct (loop clock invoke _ _ _ 0 _ c) as [v c']. reflexivity.
Qed.

Lemma orchestrate_status uuid chain config c :
  let r := fst (orchestrate clock invoke uuid chain config c) in
  run_status r =
  if Nat.eqb (countStatus step_failed (steps r)) 0 then completed
  else if continueOf config && Nat.ltb 0 (countStatus step_success (steps r))
       then partial else run_failed.
Proof.
  unfold orchestrate. fold (continueOf config). fold (transformerOf config).
  fold (initialOf config). fold (startLocals config).
  destruct (loop clock invoke _ _ _ 0 _ c) as [v c']. reflexivity.
Qed.

Lemma orchestrate_chain uuid chain config c :
  workflowChain (fst (orchestrate clock invoke uuid chain config c)) =
  map step_workflowName (normalizeChain chain).
Proof.
  unfold orchestrate. fold (continueOf config). fold (transformerOf config).
  fold (initialOf config). fold (startLocals config).
  destruct (loop clock invoke _ _ _ 0 _ c) as [v c']. reflexivity.
Qed.

Lemma orchestrate_kept chain config c :
  Kept (continueOf config) (transformerOf config)
    (List.length (normalizeChain chain))
    (fst (loop clock invoke (continueOf config) (transformerOf config)
            (normalizeChain chain) 0 (startLocals config) c)).
Proof.
  exact (run_keeps C clock invoke _ _ (normalizeChain chain) 0 (startLocals config) c
           (start_kept config)).
Qed.

Lemma countStatus_failed_positive l :
  Exists isFailed l -> Nat.eqb (countStatus step_failed l) 0 = false.
Proof.
  intros H. apply Nat.eqb_neq. unfold countStatus.
  apply Exists_exists in H as (s & Hin & Hs).
  assert (In s (filter (isStatus step_failed) l)) as Hf.
  { apply filter_In. split; [exact Hin |]. unfold isStatus.
    unfold isFailed in Hs. rewrite Hs. reflexivity. }
  destruct (filter (isStatus step_failed) l); [destruct Hf | discriminate].
Qed.

(** C3, as the code has it.  [totalSpentUSDC] is the sum, from 0 and in step
    order, of the [spentUSDC] of all recorded steps.  A step carries a
    [spentUSDC] exactly when its invocation succeeded: every step whose
    final status is [success] does, and a step that carries one is either
    [success] or was flipped to [failed] by a throwing transformer (it keeps
    its amount, and the amount stays in the total).  When the transformer
    never throws, the total is the sum over the [success] steps. *)
Theorem total_spent_is_what_was_paid uuid chain config c :
  let r := fst (orchestrate clock invoke uuid chain config c) in
  totalSpentUSDC r = sumSpent (steps r)
  /\ (forall s, In s (steps r) ->
        (sr_status s = step_success -> exists p, spentUSDC s = Some p) /\
        (spentUSDC s <> None -> sr_status s = step_success \/ flipped s))
  /\ ((forall v n k e, transformerOf config v n k <> Thrown e) ->
      totalSpentUSDC r = sumSuccessSpent (steps r)).
Proof.
  cbv zeta. rewrite orchestrate_steps, orchestrate_total.
  destruct (orchestrate_kept chain config c) as [Kt Kp Kn _ _ _ _ _].
  split; [exact Kt |]. split.
  - intros s Hin. exact (proj1 (Forall_forall _ _) Kp s Hin).
  - intros NT. rewrite Kt. unfold sumSuccessSpent, sumSpent. symmetry.
    apply fold_addSpent_filter.
    apply (Forall_impl _ (P := paidOnlyOnSuccess)); [| exact (Kn NT)].
    intros s Hs Hkeep. unfold paidOnlyOnSuccess in Hs.
    destruct (spentUSDC s) eqn:E; [| reflexivity].
    assert (sr_status s = step_success) as Hok by (apply Hs; discriminate).
    unfold isStatus in Hkeep. rewrite Hok in Hkeep. discriminate Hkeep.
Qed.

(** *** The calls a run makes *)

(** A turn with the logging client is the same turn, and the log grows by
    the call made, if one was. *)
Lemma iteration_traced stop tr step next i v c log :
  iteration (tracedClock clock) (traced invoke) stop tr step next i v (c, log) =
  (fst (iteration clock invoke stop tr step next i v c),
   (snd (iteration clock invoke stop tr step next i v c),
    if hasFailure v && negb stop then log
    else (log ++ [(step_workflowName step, payloadFor step v)])%list)).
Proof.
  unfold iteration, traced, tracedClock, payloadFor. cbn [fst snd].
  destruct (hasFailure v && negb stop); [reflexivity |].
  destruct (invoke (step_workflowName step) _ c) as [[r | e] c']; [| reflexivity].
  destruct (success r); cbn [negb]; [| reflexivity].
  destruct next as [nx |]; [| reflexivity].
  destruct (tr (result r) (step_workflowName nx) i); reflexivity.
Qed.

Lemma turn_logged stop tr step next i v c log :
  logged v log ->
  logged (fst (iteration clock invoke stop tr step next i v c))
    (if hasFailure v && negb stop then log
     else (log ++ [(step_workflowName step, payloadFor step v)])%list).
Proof.
  unfold logged. intros H.
  destruct (iteration_spec C clock invoke stop tr step next i v c)
    as (s & Hpush & Hname & _ & Hcase).
  rewrite Hpush. unfold push. rewrite filter_app, map_app. cbn [filter].
  destruct Hcase as [(Hs & _ & Hf & Hc & _) | (G & q & o & _ & Hcase)].
  - rewrite Hf, Hc. cbn [andb negb]. unfold notSkipped, isStatus. rewrite Hs.
    cbn. rewrite app_nil_r. exact H.
  - rewrite G.
    assert (notSkipped s = true) as Hn.
    { unfold notSkipped, isStatus.
      destruct Hcase as [(Hs & _) | (p & _ & _ & _ & [(Hs & _) | ((Hs & _) & _)])];
        rewrite Hs; reflexivity. }
    rewrite Hn, map_app, H. cbn. rewrite Hname. reflexivity.
Qed.

Lemma loop_traced stop tr todo :
  forall i v c log,
    logged v log ->
    exists log',
      loop (tracedClock clock) (traced invoke) stop tr todo i v (c, log) =
      (fst (loop clock invoke stop tr todo i v c),
       (snd (loop clock invoke stop tr todo i v c), log')) /\
      logged (fst (loop clock invoke stop tr todo i v c)) log'.
Proof.
  induction todo as [| step rest IH]; intros i v c log H.
  - exists log. split; [reflexivity | exact H].
  - cbn [loop]. rewrite iteration_traced.
    pose proof (turn_logged stop tr step (List.hd_error rest) i v c log H) as H'.
    destruct (iteration clock invoke stop tr step (List.hd_error rest) i v c)
      as [v' c'].
    cbn [fst snd] in *. apply IH. exact H'.
Qed.

(** The run with the logging client is the run itself, and its log names
    the steps that were not skipped, in order. *)
Lemma orchestrate_traced uuid chain config c :
  exists log,
    orchestrate (tracedClock clock) (traced invoke) uuid chain config (c, []) =
    (fst (orchestrate clock invoke uuid chain config c),
     (snd (orchestrate clock invoke uuid chain config c), log)) /\
    map fst log =
    map sr_workflowName
      (filter notSkipped (steps (fst (orchestrate clock invoke uuid chain config c)))).
Proof.
  unfold orchestrate.
  destruct (loop_traced
              (match continueOnFailure config with Some b => b | None => false end)
              (match payloadTransformer config with
               | Some f => f | None => defaultTransformer end)
              (normalizeChain chain) 0
              {| stepResults := [];
                 currentPayload := match initialPayload config with
                                   | Some p => p | None => JObj [] end;
                 total := 0%float; lastSuccessResult := None; hasFailure := false |}
              c [] eq_refl) as (log & E & L).
  exists log. rewrite E.
  destruct (loop clock invoke _ _ _ 0 _ c) as [v c'].
  split; [reflexivity | exact L].
Qed.

(** C6.  In every run the recorded steps name the steps of the chain, one
    each and in order, and:
    - a step is [skipped] only if [continueOnFailure] is false and an earlier
      step is [failed];
    - under stop-on-failure every step after a [failed] one is [skipped];
    - a skipped step is not invoked: the calls of [client.invoke] the run
      makes are, in order, those of the steps that are not skipped;
    - under stop-on-failure a run with a [failed] step has status [failed];
    - in particular a chain [A, B, C] in which the invocation of [A]
      succeeds (and its result is transformed) and that of [B] fails yields
      the statuses [success, failed, skipped] and the status [failed]. *)
Theorem skipped_only_after_failure uuid chain config c :
  let r := fst (orchestrate clock invoke uuid chain config c) in
  map sr_workflowName (steps r) = workflowChain r
  /\ (forall k s,
        nth_error (steps r) k = Some s -> sr_status s = step_skipped ->
        continueOf config = false /\
        exists j sj, (j < k)%nat /\ nth_error (steps r) j = Some sj /\
                     sr_status sj = step_failed)
  /\ (continueOf config = false ->
      forall j sj k sk,
        nth_error (steps r) j = Some sj -> sr_status sj = step_failed ->
        (j < k)%nat -> nth_error (steps r) k = Some sk ->
        sr_status sk = step_skipped)
  /\ (exists log,
        orchestrate (tracedClock clock) (traced invoke) uuid chain config (c, []) =
        (r, (snd (orchestrate clock invoke uuid chain config c), log)) /\
        map fst log = map sr_workflowName (filter notSkipped (steps r)))
  /\ (continueOf config = false ->
      (exists s, In s (steps r) /\ sr_status s = step_failed) ->
      run_status r = run_failed)
  /\ (forall A B D rA c1 p1 oB c2,
        chain = [byName A; byName B; byName D] ->
        continueOf config = false ->
        invoke A (initialOf config) c = (Returned rA, c1) ->
        success rA = true ->
        transformerOf config (result rA) B O = Returned p1 ->
        invoke B p1 c1 = (oB, c2) ->
        failedOutcome oB = true ->
        map sr_status (steps r) = [step_success; step_failed; step_skipped] /\
        run_status r = run_failed).
Proof.
  cbv zeta.
  assert (continueOf config = false ->
          (exists s, In s (steps (fst (orchestrate clock invoke uuid chain config c)))
                     /\ sr_status s = step_failed) ->
          run_status (fst (orchestrate clock invoke uuid chain config c)) = run_failed)
    as Hstatus.
  { intros Hc (s & Hin & Hs).
    rewrite (orchestrate_status uuid chain config c).
    rewrite countStatus_failed_positive, Hc; [reflexivity |].
    apply Exists_exists. exists s. split; assumption. }
  split; [| split; [| split; [| split; [| split]]]].
  - rewrite orchestrate_steps, orchestrate_chain.
    exact (run_names C clock invoke _ _ (normalizeChain chain) 0 (startLocals config) c).
  - rewrite orchestrate_steps.
    destruct (orchestrate_kept chain config c) as [_ _ _ _ _ _ Ks _]. exact Ks.
  - rewrite orchestrate_steps.
    destruct (orchestrate_kept chain config c) as [_ _ _ _ _ _ _ Kst]. exact Kst.
  - apply orchestrate_traced.
  - exact Hstatus.
  - intros A B D rA c1 p1 oB c2 -> Hc HA HsA HT HB HoB.
    assert (map sr_status (steps (fst (orchestrate clock invoke uuid
                                         [byName A; byName B; byName D] config c)))
            = [step_success; step_failed; step_skipped]) as Hsteps.
    { rewrite orchestrate_steps. rewrite Hc.
      cbn [normalizeChain map loop List.hd_error].
      unfold iteration at 1.
      cbn [startLocals hasFailure andb step_payload step_workflowName currentPayload].
      rewrite HA, HsA. cbn [negb]. rewrite HT.
      unfold iteration at 1.
      cbn [hasFailure andb step_payload step_workflowName currentPayload].
      rewrite HB.
      destruct oB as [rB | e]; cbn [failedOutcome] in HoB.
      - rewrite HoB. reflexivity.
      - reflexivity. }
    split; [exact Hsteps |].
    apply Hstatus; [exact Hc |].
    destruct (steps (fst (orchestrate clock invoke uuid
                            [byName A; byName B; byName D] config c)))
      as [| s0 [| s1 rest]]; try discriminate Hsteps.
    exists s1. split; [right; left; reflexivity |].
    cbn in Hsteps. congruence.
Qed.

(** The status of a run and its count of completed steps: [completed]
    when no step is [failed]; otherwise [partial] when [continueOnFailure]
    is set and some step is [success], and [failed] in every other case;
    [stepsCompleted] counts the steps that are not [skipped]. *)
Lemma final_status uuid chain config c :
  let r := fst (orchestrate clock invoke uuid chain config c) in
  let failures := countStatus step_failed (steps r) in
  let successes := countStatus step_success (steps r) in
  (failures = O -> run_status r = completed)
  /\ (failures <> O -> continueOf config = true -> successes <> O ->
      run_status r = partial)
  /\ (failures <> O -> continueOf config = false \/ successes = O ->
      run_status r = run_failed)
  /\ stepsCompleted r = List.length (filter notSkipped (steps r)).
Proof.
  cbv zeta. rewrite (orchestrate_status uuid chain config c).
  split; [| split; [| split]].
  - intros ->. reflexivity.
  - intros Hf Hc Hs. apply Nat.eqb_neq in Hf. rewrite Hf, Hc.
    destruct (countStatus step_success _); [contradiction | reflexivity].
  - intros Hf H. apply Nat.eqb_neq in Hf. rewrite Hf.
    destruct H as [-> | ->]; [reflexivity |].
    destruct (continueOf config); reflexivity.
  - unfold orchestrate. destruct (loop clock invoke _ _ _ 0 _ c) as [v c'].
    reflexivity.
Qed.

End Orchestrations.

(** *** What a run carries from step to step *)

Section Carried.

Variable C : Type.
Variable clock : C -> Z.
Variable invoke : string -> json -> C -> outcome AgentInvokeResult * C.
Variable stopOrContinue : bool.
Variable transformer : Transformer.

(** What a turn does to the locals that carry results forward. *)
Lemma iteration_carries step next i v c :
  let v' := fst (iteration clock invoke stopOrContinue transformer step next i v c) in
  exists s,
    stepResults v' = push (stepResults v) s /\
    stepIndex s = i /\
    lastSuccessResult v' = (if paid s then sr_result s else lastSuccessResult v) /\
    currentPayload v' =
      (if isStatus step_success s then
         match next with
         | Some nx =>
             match transformer (sr_result s) (step_workflowName nx) i with
             | Returned p => p
             | Thrown _ => currentPayload v
             end
         | None => currentPayload v
         end
       else currentPayload v) /\
    (hasFailure v && negb stopOrContinue = true ->
     hasFailure v' && negb stopOrContinue = true).
Proof.
  cbv zeta. unfold iteration.
  destruct (hasFailure v && negb stopOrContinue) eqn:G.
  - eexists. cbn [fst stepResults lastSuccessResult currentPayload hasFailure].
    split; [reflexivity |]. split; [reflexivity |]. split; [reflexivity |].
    split; [reflexivity |]. intros _. exact G.
  - destruct (invoke (step_workflowName step) _ c) as [[r | e] c'] eqn:I.
    + destruct (success r) eqn:Hs; cbn [negb].
      * destruct next as [nx |].
        -- destruct (transformer (result r) (step_workflowName nx) i) as [q | e] eqn:T.
           ++ eexists. cbn [fst stepResults lastSuccessResult currentPayload hasFailure].
              split; [reflexivity |]. split; [reflexivity |].
              cbn [paid spentUSDC sr_result isStatus sr_status stepIndex].
              rewrite T.
              split; [reflexivity |]. split; [reflexivity |]. discriminate.
           ++ cbn [fst stepResults lastSuccessResult currentPayload hasFailure].
              rewrite updateLast_push.
              eexists. split; [reflexivity |]. split; [reflexivity |].
              cbn [paid spentUSDC sr_result isStatus sr_status stepIndex].
              split; [reflexivity |]. split; [reflexivity |]. discriminate.
        -- eexists. cbn [fst stepResults lastSuccessResult currentPayload hasFailure].
           split; [reflexivity |]. split; [reflexivity |].
           cbn [paid spentUSDC sr_result isStatus sr_status stepIndex].
           split; [reflexivity |]. split; [reflexivity |]. discriminate.
      * eexists. cbn [fst stepResults lastSuccessResult currentPayload hasFailure].
        split; [reflexivity |]. split; [reflexivity |].
        cbn [paid spentUSDC sr_result isStatus sr_status stepIndex].
        split; [reflexivity |]. split; [reflexivity |]. discriminate.
    + eexists. cbn [fst stepResults lastSuccessResult currentPayload hasFailure].
      split; [reflexivity |]. split; [reflexivity |].
      cbn [paid spentUSDC sr_result isStatus sr_status stepIndex].
      split; [reflexivity |]. split; [reflexivity |]. discriminate.
Qed.

Lemma lastPaidResult_push l s :
  lastPaidResult (push l s) = if paid s then sr_result s else lastPaidResult l.
Proof.
  unfold lastPaidResult, push. rewrite filter_app. cbn [filter].
  destruct (paid s).
  - rewrite rev_app_distr. reflexivity.
  - rewrite app_nil_r. reflexivity.
Qed.

Lemma lastPaidResult_none l :
  (forall s, In s l -> spentUSDC s = None) -> lastPaidResult l = None.
Proof.
  intros H. unfold lastPaidResult.
  replace (filter paid l) with (@nil StepResult); [reflexivity |].
  symmetry. induction l as [| s l IH]; [reflexivity |].
  cbn [filter]. unfold paid at 1. rewrite (H s (or_introl eq_refl)).
  apply IH. intros x Hx. apply H. right. exact Hx.
Qed.

Lemma run_last todo :
  forall i v c,
    lastSuccessResult v = lastPaidResult (stepResults v) ->
    let v' := fst (loop clock invoke stopOrContinue transformer todo i v c) in
    lastSuccessResult v' = lastPaidResult (stepResults v').
Proof.
  induction todo as [| step rest IH]; intros i v c H; [exact H |].
  cbn [loop].
  destruct (iteration_carries step (List.hd_error rest) i v c) as (s & Hp & _ & Hl & _).
  destruct (iteration clock invoke stopOrContinue transformer step
              (List.hd_error rest) i v c) as [v' c'].
  cbn [fst] in *. apply IH. rewrite Hl, Hp, lastPaidResult_push, H. reflexivity.
Qed.


(** *** The payloads a run sends *)

Variable names : list string.
Variable initial : json.

Lemma firstn_push l s k :
  (k <= List.length l)%nat -> firstn k (push l s) = firstn k l.
Proof.
  intros H. unfold push. rewrite firstn_app.
  replace (k - List.length l)%nat with O by lia. cbn [firstn]. apply app_nil_r.
Qed.

Lemma turn_chained done step rest v c log :
  names = map step_workflowName (done ++ step :: rest) ->
  Chained stopOrContinue transformer names initial done v log ->
  let t := iteration (tracedClock clock) (traced invoke) stopOrContinue transformer
             step (List.hd_error rest) (List.length done) v (c, log) in
  Chained stopOrContinue transformer names initial (done ++ [step]) (fst t) (snd (snd t)).
Proof.
  intros Hnames K. cbv zeta. rewrite iteration_traced. cbn [fst snd].
  destruct (iteration_carries step (List.hd_error rest) (List.length done) v c)
    as (s & Hpush & Hidx & _ & Hcur & Hguard).
  destruct K as [Kl Ki Kc Kn Ka Kg].
  assert (nth_error names (S (stepIndex s)) =
          option_map step_workflowName (List.hd_error rest)) as Hnext.
  { rewrite Hidx, Hnames, map_app. rewrite nth_error_app2; rewrite length_map; [| lia].
    replace (S (List.length done) - List.length done)%nat with 1%nat by lia.
    destruct rest; reflexivity. }
  constructor.
  - rewrite Hpush. unfold push. rewrite !length_app, Kl. reflexivity.
  - rewrite Hpush. intros k x Hk.
    destruct (nth_error_push _ _ _ _ Hk) as [[_ Hold] | [-> ->]];
      [exact (Ki k x Hold) | congruence].
  - rewrite Hcur, Hpush. unfold chainedPayload, push. rewrite fold_left_app.
    cbn [fold_left]. fold (chainedPayload transformer names initial (stepResults v)).
    rewrite <- Kc. unfold chainStep. rewrite Hnext, Hidx.
    destruct (isStatus step_success s); [| reflexivity].
    destruct (List.hd_error rest); reflexivity.
  - rewrite length_app. cbn [List.length].
    destruct (hasFailure v && negb stopOrContinue); [lia |].
    rewrite length_app. cbn [List.length]. lia.
  - intros G'. rewrite length_app. cbn [List.length].
    destruct (hasFailure v && negb stopOrContinue) eqn:G.
    + rewrite (Hguard eq_refl) in G'. discriminate G'.
    + rewrite length_app, (Ka eq_refl). reflexivity.
  - intros k nm pl Hk.
    assert (forall k', (k' < List.length log)%nat ->
              nth_error log k' = Some (nm, pl) ->
              exists step0,
                nth_error (done ++ [step]) k' = Some step0 /\
                nm = step_workflowName step0 /\
                pl = match step_payload step0 with
                     | Some p => p
                     | None => chainedPayload transformer names initial
                                 (firstn k' (stepResults
                                    (fst (iteration clock invoke stopOrContinue transformer
                                            step (List.hd_error rest) (List.length done) v c))))
                     end) as Hold.
    { intros k' Hlt Hk'. destruct (Kg k' nm pl Hk') as (st & H1 & H2 & H3).
      exists st. split; [rewrite nth_error_app1; [exact H1 | lia] |].
      split; [exact H2 |]. rewrite Hpush, firstn_push by lia. exact H3. }
    destruct (hasFailure v && negb stopOrContinue) eqn:G.
    + apply Hold; [| exact Hk]. apply nth_error_Some. congruence.
    + destruct (Nat.lt_ge_cases k (List.length log)) as [Hlt | Hge].
      * apply Hold; [exact Hlt |]. rewrite nth_error_app1 in Hk by exact Hlt. exact Hk.
      * rewrite nth_error_app2 in Hk by exact Hge.
        destruct (k - List.length log)%nat as [| d] eqn:E;
          [| cbn in Hk; destruct d; discriminate Hk].
        cbn in Hk. injection Hk as <- <-.
        assert (k = List.length done) as -> by (rewrite <- (Ka eq_refl); lia).
        exists step. split; [rewrite nth_error_app2, Nat.sub_diag; [reflexivity | lia] |].
        split; [reflexivity |]. unfold payloadFor.
        destruct (step_payload step); [reflexivity |].
        rewrite Hpush, firstn_push, <- Kl, firstn_all by lia. exact Kc.
Qed.

Lemma run_chained todo :
  forall done v c log,
    names = map step_workflowName (done ++ todo) ->
    Chained stopOrContinue transformer names initial done v log ->
    let t := loop (tracedClock clock) (traced invoke) stopOrContinue transformer
               todo (List.length done) v (c, log) in
    Chained stopOrContinue transformer names initial (done ++ todo) (fst t) (snd (snd t)).
Proof.
  induction todo as [| step rest IH]; intros done v c log Hnames K.
  - cbn [loop fst snd]. rewrite app_nil_r. exact K.
  - cbv zeta. cbn [loop].
    pose proof (turn_chained done step rest v c log Hnames K) as K'. cbv zeta in K'.
    destruct (iteration (tracedClock clock) (traced invoke) stopOrContinue transformer
                step (List.hd_error rest) (List.length done) v (c, log))
      as [v' [c' log']].
    cbn [fst snd] in K'.
    replace (S (List.length done)) with (List.length (done ++ [step]))
      by (rewrite length_app; cbn; lia).
    replace (done ++ step :: rest)%list with ((done ++ [step]) ++ rest)%list
      by (rewrite <- app_assoc; reflexivity).
    apply IH; [rewrite <- app_assoc; exact Hnames | exact K'].
Qed.


End Carried.

Section Results.

Variable C : Type.
Variable clock : C -> Z.
Variable invoke : string -> json -> C -> outcome AgentInvokeResult * C.

Lemma orchestrate_final uuid chain config c :
  finalResult (fst (orchestrate clock invoke uuid chain config c)) =
  lastSuccessResult (fst (loop clock invoke (continueOf config) (transformerOf config)
                            (normalizeChain chain) 0 (startLocals config) c)).
Proof.
  unfold orchestrate. fold (continueOf config). fold (transformerOf config).
  fold (initialOf config). fold (startLocals config).
  destruct (loop clock invoke _ _ _ 0 _ c) as [v c']. reflexivity.
Qed.

Lemma orchestrate_completed uuid chain config c :
  stepsCompleted (fst (orchestrate clock invoke uuid chain config c)) =
  List.length (filter notSkipped
                 (steps (fst (orchestrate clock invoke uuid chain config c)))).
Proof.
  unfold orchestrate. destruct (loop clock invoke _ _ _ 0 _ c) as [v c']. reflexivity.
Qed.

(** [finalResult] is the result of the last step whose invocation succeeded
    (the last step that carries a [spentUSDC]), be it recorded as [success]
    or flipped to [failed] by the transformer; it is absent when no
    invocation succeeded. *)
Theorem final_result_is_last_paid uuid chain config c :
  let r := fst (orchestrate clock invoke uuid chain config c) in
  finalResult r = lastPaidResult (steps r)
  /\ ((forall s, In s (steps r) -> spentUSDC s = None) -> finalResult r = None).
Proof.
  cbv zeta. rewrite orchestrate_final, orchestrate_steps.
  assert (lastSuccessResult (fst (loop clock invoke (continueOf config)
            (transformerOf config) (normalizeChain chain) 0 (startLocals config) c))
          = lastPaidResult (stepResults (fst (loop clock invoke (continueOf config)
            (transformerOf config) (normalizeChain chain) 0 (startLocals config) c))))
    as H by (apply run_last; reflexivity).
  split; [exact H |].
  intros Hnone. rewrite H. apply lastPaidResult_none. exact Hnone.
Qed.

Lemma start_chained config names :
  Chained (continueOf config) (transformerOf config) names (initialOf config) []
    (startLocals config) [].
Proof.
  constructor; cbn [startLocals stepResults currentPayload hasFailure List.length].
  - reflexivity.
  - intros [| k] s H; discriminate H.
  - reflexivity.
  - lia.
  - reflexivity.
  - intros [| k] nm pl H; discriminate H.
Qed.

(** The payloads a run sends.  The calls of [client.invoke] are those of
    the first steps of the chain, in order (one per step until the run stops
    invoking).  Call [k] carries the payload of step [k] if the step has one
    of its own, and otherwise the chained payload: the initial payload,
    replaced after every earlier step that is recorded as [success] and has
    a successor by what the transformer made of that step's result; a failed
    step, a flipped one included, leaves it as it was. *)
Theorem payload_chaining uuid chain config c :
  let r := fst (orchestrate clock invoke uuid chain config c) in
  exists log,
    orchestrate (tracedClock clock) (traced invoke) uuid chain config (c, []) =
    (r, (snd (orchestrate clock invoke uuid chain config c), log))
    /\ (List.length log <= List.length chain)%nat
    /\ forall k nm pl,
         nth_error log k = Some (nm, pl) ->
         exists step,
           nth_error (normalizeChain chain) k = Some step /\
           nm = step_workflowName step /\
           pl = match step_payload step with
                | Some p => p
                | None => chainedPayload (transformerOf config) (workflowChain r)
                            (initialOf config) (firstn k (steps r))
                end.
Proof.
  cbv zeta.
  destruct (orchestrate_traced C clock invoke uuid chain config c) as (log & E & _).
  exists log. split; [exact E |].
  rewrite orchestrate_chain.
  pose proof (run_chained C clock invoke (continueOf config) (transformerOf config)
                (map step_workflowName (normalizeChain chain)) (initialOf config)
                (normalizeChain chain) [] (startLocals config) c [] eq_refl
                (start_chained config _)) as K.
  cbv zeta in K. cbn [List.length app] in K.
  assert (steps (fst (orchestrate clock invoke uuid chain config c)) =
          stepResults (fst (loop (tracedClock clock) (traced invoke) (continueOf config)
                              (transformerOf config) (normalizeChain chain) 0
                              (startLocals config) (c, [])))
          /\ log = snd (snd (loop (tracedClock clock) (traced invoke) (continueOf config)
                              (transformerOf config) (normalizeChain chain) 0
                              (startLocals config) (c, [])))) as [Hs Hl].
  { revert E. unfold orchestrate.
    fold (continueOf config). fold (transformerOf config).
    fold (initialOf config). fold (startLocals config).
    destruct (loop (tracedClock clock) (traced invoke) _ _ _ 0 _ (c, []))
      as [v1 [c1 log1]].
    destruct (loop clock invoke _ _ _ 0 _ c) as [v2 c2].
    cbn [fst snd]. intros E.
    pose proof (f_equal (fun x => steps (fst x)) E) as E1.
    pose proof (f_equal (fun x => snd (snd x)) E) as E2.
    cbn [fst snd steps] in E1, E2. cbn [steps]. split; congruence. }
  rewrite Hs, Hl.
  destruct K as [_ _ _ Kn _ Kg].
  split; [| exact Kg].
  unfold normalizeChain in Kn. rewrite length_map in Kn. exact Kn.
Qed.


Lemma countStatus_zero st l :
  countStatus st l = O <-> forall s, In s l -> isStatus st s = false.
Proof.
  unfold countStatus. induction l as [| x l IH]; cbn [filter].
  - split; [intros _ s [] | reflexivity].
  - destruct (isStatus st x) eqn:E; cbn [List.length].
    + split; [discriminate |]. intros H. specialize (H x (or_introl eq_refl)). congruence.
    + rewrite IH. split.
      * intros H s [<- | Hs]; [exact E | exact (H s Hs)].
      * intros H s Hs. apply H. right. exact Hs.
Qed.

Lemma isStatus_true st s : isStatus st s = true <-> sr_status s = st.
Proof. unfold isStatus. destruct (sr_status s), st; split; congruence. Qed.

Lemma countStatus_positive st l :
  countStatus st l <> O <-> exists s, In s l /\ sr_status s = st.
Proof.
  unfold countStatus. split.
  - intros H. destruct (filter (isStatus st) l) as [| x r] eqn:E; [contradiction |].
    exists x. assert (In x (filter (isStatus st) l)) as Hin by (rewrite E; left; reflexivity).
    apply filter_In in Hin as [H1 H2]. split; [exact H1 | apply isStatus_true; exact H2].
  - intros (s & Hin & Hs) H.
    assert (In s (filter (isStatus st) l)) as Hf.
    { apply filter_In. split; [exact Hin | apply isStatus_true; exact Hs]. }
    destruct (filter (isStatus st) l); [destruct Hf | discriminate H].
Qed.

(** What the status of a run says about its steps: [completed] exactly
    when every step is a [success]; [partial] exactly when
    [continueOnFailure] is set and there are both a [success] and a [failed]
    step; [failed] exactly when some step is [failed] and either
    [continueOnFailure] is off or no step is a [success].  With
    [continueOnFailure] no step is skipped and [stepsCompleted] is the length
    of the chain. *)
Theorem status_meaning uuid chain config c :
  let r := fst (orchestrate clock invoke uuid chain config c) in
  (run_status r = completed <-> forall s, In s (steps r) -> sr_status s = step_success)
  /\ (run_status r = partial <->
      continueOf config = true /\
      (exists s, In s (steps r) /\ sr_status s = step_success) /\
      (exists s, In s (steps r) /\ sr_status s = step_failed))
  /\ (run_status r = run_failed <->
      (exists s, In s (steps r) /\ sr_status s = step_failed) /\
      (continueOf config = false \/
       forall s, In s (steps r) -> sr_status s <> step_success))
  /\ (continueOf config = true ->
      (forall s, In s (steps r) -> sr_status s <> step_skipped) /\
      stepsCompleted r = List.length chain).
Proof.
  cbv zeta.
  pose proof (orchestrate_status C clock invoke uuid chain config c) as St. cbv zeta in St.
  destruct (orchestrate_kept C clock invoke chain config c) as [_ _ _ _ Kl _ Ks _].
  rewrite <- (orchestrate_steps C clock invoke uuid) in Kl, Ks.
  rewrite orchestrate_completed.
  set (r := fst (orchestrate clock invoke uuid chain config c)) in *.
  assert (forall s, In s (steps r) -> sr_status s = step_skipped ->
            continueOf config = false /\
            exists x, In x (steps r) /\ sr_status x = step_failed) as Hskip.
  { intros s Hin Hs. destruct (In_nth_error _ _ Hin) as [k Hk].
    destruct (Ks k s Hk Hs) as (Hc & j & sj & _ & Hj & Hf).
    split; [exact Hc |]. exists sj. split; [eapply nth_error_In; exact Hj | exact Hf]. }
  destruct (Nat.eqb (countStatus step_failed (steps r)) 0) eqn:F.
  - apply Nat.eqb_eq in F.
    assert (forall s, In s (steps r) -> sr_status s = step_success) as Hall.
    { intros s Hin. destruct (sr_status s) eqn:E; [reflexivity | |].
      - pose proof (proj1 (countStatus_zero _ _) F s Hin) as H.
        unfold isStatus in H. rewrite E in H. discriminate H.
      - destruct (Hskip s Hin E) as (_ & x & Hx & Hf).
        pose proof (proj1 (countStatus_zero _ _) F x Hx) as H.
        unfold isStatus in H. rewrite Hf in H. discriminate H. }
    assert (~ exists s, In s (steps r) /\ sr_status s = step_failed) as Hno.
    { intros (s & Hin & Hs). rewrite (Hall s Hin) in Hs. discriminate Hs. }
    rewrite St. split; [| split; [| split]].
    + split; [intros _; exact Hall | reflexivity].
    + split; [discriminate | intros (_ & _ & H); contradiction].
    + split; [discriminate | intros (H & _); contradiction].
    + intros _. split; [intros s Hin; rewrite (Hall s Hin); discriminate |].
      replace (filter notSkipped (steps r)) with (steps r).
      * rewrite Kl. unfold normalizeChain. apply length_map.
      * symmetry. apply forallb_filter_id. apply forallb_forall. intros s Hin.
        unfold notSkipped, isStatus. rewrite (Hall s Hin). reflexivity.
  - apply Nat.eqb_neq in F.
    pose proof (proj1 (countStatus_positive _ _) F) as Hfail.
    assert (~ (forall s, In s (steps r) -> sr_status s = step_success)) as Hnot.
    { intros Hall. destruct Hfail as (s & Hin & Hs). rewrite (Hall s Hin) in Hs.
      discriminate Hs. }
    assert (continueOf config = true ->
            forall s, In s (steps r) -> sr_status s <> step_skipped) as Hcont.
    { intros Hc s Hin Hs. destruct (Hskip s Hin Hs) as [H _]. congruence. }
    rewrite St. split; [| split; [| split]].
    + destruct (continueOf config && _); split; try discriminate; intros H; contradiction.
    + destruct (continueOf config) eqn:Hc; cbn [andb].
      * destruct (Nat.ltb 0 (countStatus step_success (steps r))) eqn:G.
        -- apply Nat.ltb_lt in G. split; [| reflexivity]. intros _.
           split; [reflexivity |]. split; [| exact Hfail].
           apply countStatus_positive. lia.
        -- apply Nat.ltb_ge in G. split; [discriminate |]. intros (_ & H & _).
           apply countStatus_positive in H. lia.
      * split; [discriminate | intros (H & _); discriminate H].
    + destruct (continueOf config) eqn:Hc; cbn [andb].
      * destruct (Nat.ltb 0 (countStatus step_success (steps r))) eqn:G.
        -- apply Nat.ltb_lt in G. split; [discriminate |].
           intros (_ & [H | H]); [discriminate H |].
           assert (countStatus step_success (steps r) <> O) as G' by lia.
           apply countStatus_positive in G' as (s & Hin & Hs).
           exfalso. exact (H s Hin Hs).
        -- apply Nat.ltb_ge in G. split; [| reflexivity]. intros _.
           split; [exact Hfail |]. right. intros s Hin Hs.
           assert (countStatus step_success (steps r) <> O) as G'
             by (apply countStatus_positive; exists s; split; assumption).
           lia.
      * split; [| reflexivity]. intros _. split; [exact Hfail | left; reflexivity].
    + intros Hc. split; [exact (Hcont Hc) |].
      replace (filter notSkipped (steps r)) with (steps r).
      * rewrite Kl. unfold normalizeChain. apply length_map.
      * symmetry. apply forallb_filter_id. apply forallb_forall. intros s Hin.
        unfold notSkipped. destruct (isStatus step_skipped s) eqn:E; [| reflexivity].
        apply isStatus_true in E. exfalso. exact (Hcont Hc s Hin E).
Qed.

(** The shape of the recorded steps: one per element of the chain; step
    [k] has [stepIndex] [k] and the name at place [k] of [workflowChain];
    [stepsCompleted] is the number of calls of [client.invoke] the run made,
    at most the length of the chain. *)
Theorem steps_follow_the_chain uuid chain config c :
  let r := fst (orchestrate clock invoke uuid chain config c) in
  List.length (steps r) = List.length chain
  /\ (forall k s, nth_error (steps r) k = Some s ->
        stepIndex s = k /\ nth_error (workflowChain r) k = Some (sr_workflowName s))
  /\ (stepsCompleted r <= List.length chain)%nat
  /\ exists log,
       orchestrate (tracedClock clock) (traced invoke) uuid chain config (c, []) =
       (r, (snd (orchestrate clock invoke uuid chain config c), log))
       /\ stepsCompleted r = List.length log.
Proof.
  cbv zeta.
  destruct (orchestrate_kept C clock invoke chain config c) as [_ _ _ _ Kl Ki _ _].
  rewrite <- (orchestrate_steps C clock invoke uuid) in Kl, Ki.
  assert (List.length (steps (fst (orchestrate clock invoke uuid chain config c)))
          = List.length chain) as Hlen.
  { rewrite Kl. unfold normalizeChain. apply length_map. }
  split; [exact Hlen |]. split; [| split].
  - intros k s Hk. split; [exact (Ki k s Hk) |].
    assert (map sr_workflowName (steps (fst (orchestrate clock invoke uuid chain config c)))
            = workflowChain (fst (orchestrate clock invoke uuid chain config c))) as Hn.
    { rewrite orchestrate_steps, orchestrate_chain.
      exact (run_names C clock invoke _ _ (normalizeChain chain) 0 (startLocals config) c). }
    rewrite <- Hn, nth_error_map, Hk. reflexivity.
  - rewrite orchestrate_completed, <- Hlen. apply filter_length_le.
  - destruct (orchestrate_traced C clock invoke uuid chain config c) as (log & E & L).
    exists log. split; [exact E |].
    rewrite orchestrate_completed.
    rewrite <- (length_map sr_workflowName), <- L, length_map. reflexivity.
Qed.


End Results.

(** C3, as the claim has it, fails: the first of two steps is paid 0.001 and
    then flipped to [failed] because the transformer throws; the second is
    skipped.  No step is [success], yet the total is 0.001. *)
Lemma total_counts_a_flipped_step :
  let r := fst (orchestrate Examples.fixedClock Examples.payingClient "run-1"
                  [byName "price-feed"; byName "risk-assessment"]
                  {| continueOnFailure := None; initialPayload := None;
                     payloadTransformer := Some Examples.failingTransformer |} O) in
  map sr_status (steps r) = [step_failed; step_skipped]
  /\ totalSpentUSDC r = 0.001%float
  /\ sumSuccessSpent (steps r) = 0%float
  /\ PrimFloat.eqb (totalSpentUSDC r) (sumSuccessSpent (steps r)) = false.
Proof. vm_compute. repeat split. Qed.

(** The chain [A, B, C] against a client whose second invocation is
    denied.  Under stop-on-failure: [success, failed, skipped], status
    [failed], two completed steps and two invocations (the client's counter).
    Under continue-on-failure: [success, failed, success], status [partial],
    three completed steps. *)
Lemma three_step_chain :
  let stopped := orchestrate Examples.fixedClock Examples.flakyClient "run-1"
                   [byName "A"; byName "B"; byName "C"]
                   {| continueOnFailure := None; initialPayload := None;
                      payloadTransformer := None |} O in
  let continued := orchestrate Examples.fixedClock Examples.flakyClient "run-2"
                     [byName "A"; byName "B"; byName "C"]
                     {| continueOnFailure := Some true; initialPayload := None;
                        payloadTransformer := None |} O in
  map sr_status (steps (fst stopped)) = [step_success; step_failed; step_skipped]
  /\ run_status (fst stopped) = run_failed
  /\ stepsCompleted (fst stopped) = 2%nat
  /\ snd stopped = 2%nat
  /\ map sr_status (steps (fst continued)) = [step_success; step_failed; step_success]
  /\ run_status (fst continued) = partial
  /\ stepsCompleted (fst continued) = 3%nat.
Proof. vm_compute. repeat split. Qed.

End OrchestratorFacts.

(** ** agent-client.ts: facts *)

Module AgentClientFacts.
Import JS.
Import AgentClient.
Import AgentClientTerms.

Lemma itemOf_describes batch o i req :
  nth_error batch i = Some req ->
  exists item, itemOf batch o i = Returned item /\ describes req i o item.
Proof.
  intros H. unfold itemOf. rewrite H. destruct o as [v | reason].
  - destruct (success v) eqn:Hs; eexists; (split; [reflexivity |]);
      unfold describes; cbn; repeat split; congruence.
  - eexists. split; [reflexivity |]. unfold describes; cbn. repeat split.
Qed.

Lemma mapSettled_spec batch :
  forall settled first,
    (first + List.length settled <= List.length batch)%nat ->
    exists rs,
      mapSettled batch settled first = Returned rs /\
      List.length rs = List.length settled /\
      forall k o, nth_error settled k = Some o ->
        exists req item,
          nth_error batch (first + k) = Some req /\
          nth_error rs k = Some item /\
          describes req (first + k) o item.
Proof.
  induction settled as [| o rest IH]; intros first Hlen.
  - exists []. split; [reflexivity |]. split; [reflexivity |].
    intros [| k] x H; discriminate H.
  - cbn [List.length] in Hlen.
    destruct (nth_error batch first) as [req |] eqn:Hreq;
      [| apply nth_error_None in Hreq; lia].
    destruct (itemOf_describes batch o first req Hreq) as (item & Hitem & Hd).
    destruct (IH (S first)) as (rs & Hrs & Hl & Hk); [lia |].
    exists (item :: rs). cbn [mapSettled]. rewrite Hitem. cbn [bind].
    rewrite Hrs. cbn [bind]. split; [reflexivity |].
    split; [cbn; rewrite Hl; reflexivity |].
    intros [| k] x Hx.
    + cbn in Hx. injection Hx as <-. exists req, item.
      rewrite Nat.add_0_r. split; [exact Hreq |]. split; [reflexivity | exact Hd].
    + cbn in Hx. destruct (Hk k x Hx) as (rq & it & H1 & H2 & H3).
      exists rq, it. rewrite <- Nat.add_succ_comm.
      split; [exact H1 |]. split; [exact H2 | exact H3].
Qed.

(** Whatever the order in which the invocations settle: given one outcome
    per request, [collect] returns the items in the order of the requests,
    each describing the outcome at its index. *)
Lemma collect_in_order batch settled elapsed :
  List.length settled = List.length batch ->
  exists r,
    collect batch settled elapsed = Returned r /\
    List.length (results r) = List.length batch /\
    (forall i req o,
       nth_error batch i = Some req -> nth_error settled i = Some o ->
       exists item, nth_error (results r) i = Some item /\ describes req i o item) /\
    (succeeded r + failed r = totalRequested r)%nat.
Proof.
  intros Hlen.
  destruct (mapSettled_spec batch settled 0) as (rs & Hrs & Hl & Hk); [lia |].
  unfold collect. rewrite Hrs. cbn [bind]. eexists. split; [reflexivity |].
  cbn [results succeeded failed totalRequested].
  split; [congruence |]. split.
  - intros i req o Hreq Ho.
    destruct (Hk i o Ho) as (rq & item & H1 & H2 & H3). cbn in H1.
    rewrite Hreq in H1. injection H1 as <-. exists item. split; [exact H2 | exact H3].
  - pose proof (filter_length_le isSuccess rs). lia.
Qed.

Lemma collect_in_order_witness :
  exists r,
    collect [ {| workflowName := "price-feed"; payload := JObj [] |} ]
            [ rejected (Some "Connection refused") ] 12 = Returned r /\
    List.length (results r) = 1%nat /\
    (forall i req o,
       nth_error [ {| workflowName := "price-feed"; payload := JObj [] |} ] i = Some req ->
       nth_error [ rejected (Some "Connection refused") ] i = Some o ->
       exists item, nth_error (results r) i = Some item /\ describes req i o item) /\
    (succeeded r + failed r = totalRequested r)%nat.
Proof.
  exact (collect_in_order [ {| workflowName := "price-feed"; payload := JObj [] |} ]
           [ rejected (Some "Connection refused") ] 12 eq_refl).
Defined.

Section Batches.

Variable C : Type.
Variable clock : C -> Z.
Variable invoke : string -> json -> C -> Async C AgentInvokeResult * C.

Lemma startAll_length batch :
  forall c, List.length (fst (startAll invoke batch c)) = List.length batch.
Proof.
  induction batch as [| req rest IH]; intros c; [reflexivity |].
  cbn [startAll]. destruct (invoke (workflowName req) (payload req) c) as [t c1].
  specialize (IH c1). destruct (startAll invoke rest c1) as [ts c2].
  cbn [fst List.length] in *. rewrite IH. reflexivity.
Qed.

(** The invocation of request [i] is started in the state that starting the
    requests before it has left. *)
Lemma startAll_nth batch :
  forall c i req,
    nth_error batch i = Some req ->
    nth_error (fst (startAll invoke batch c)) i
    = Some (fst (invoke (workflowName req) (payload req)
                   (snd (startAll invoke (firstn i batch) c)))).
Proof.
  induction batch as [| first rest IH]; intros c i req H.
  - destruct i; discriminate H.
  - cbn [startAll].
    destruct (invoke (workflowName first) (payload first) c) as [t c1] eqn:I.
    pose proof (IH c1) as IH'.
    destruct (startAll invoke rest c1) as [ts c2] eqn:E. destruct i as [| i].
    + cbn in H. injection H as <-. cbn. rewrite I. reflexivity.
    + cbn [nth_error] in H. cbn [fst nth_error firstn startAll]. rewrite I.
      cbn [fst] in IH'. rewrite (IH' i req H).
      destruct (startAll invoke (firstn i rest) c1) as [ts' c3]. reflexivity.
Qed.

Lemma replaceAt_length {A : Type} (t : A) tasks :
  forall i, List.length (replaceAt i t tasks) = List.length tasks.
Proof.
  induction tasks as [| x rest IH]; intros [| i]; cbn; try reflexivity.
  rewrite IH. reflexivity.
Qed.

Lemma replaceAt_nth {A : Type} (t : A) tasks :
  forall i j,
    nth_error (replaceAt i t tasks) j
    = if Nat.eqb i j
      then match nth_error tasks j with Some _ => Some t | None => None end
      else nth_error tasks j.
Proof.
  induction tasks as [| x rest IH]; intros [| i] [| j]; cbn; try reflexivity.
  - destruct (Nat.eqb _ _); reflexivity.
  - apply IH.
Qed.

(** A turn of the event loop takes the invocation it resumes one step
    further and leaves the others as they are. *)
Lemma resumeAt_nth i (tasks : list (Async C AgentInvokeResult)) c j :
  nth_error (fst (resumeAt i tasks c)) j
  = match nth_error tasks j return option (Async C AgentInvokeResult) with
    | Some (Wait resume) =>
        Some (if Nat.eqb i j then fst (resume c) else Wait resume)
    | Some (Done o) => Some (Done o)
    | None => None
    end.
Proof.
  unfold resumeAt. destruct (nth_error tasks i) as [[o | resume] |] eqn:Hi; cbn [fst].
  - destruct (nth_error tasks j) as [[o' | r'] |] eqn:Hj; try reflexivity.
    destruct (Nat.eqb_spec i j) as [-> |]; [congruence | reflexivity].
  - destruct (resume c) as [t c'] eqn:R. cbn [fst]. rewrite replaceAt_nth.
    destruct (Nat.eqb_spec i j) as [<- |].
    + rewrite Hi, R. reflexivity.
    + destruct (nth_error tasks j) as [[o' | r'] |]; reflexivity.
  - destruct (nth_error tasks j) as [[o' | r'] |] eqn:Hj; try reflexivity.
    destruct (Nat.eqb_spec i j) as [-> |]; [congruence | reflexivity].
Qed.

Lemma resumeAt_length i (tasks : list (Async C AgentInvokeResult)) (c : C) :
  List.length (fst (resumeAt i tasks c)) = List.length tasks.
Proof.
  unfold resumeAt. destruct (nth_error tasks i) as [[o | resume] |]; try reflexivity.
  destruct (resume c) as [t c']. apply replaceAt_length.
Qed.

Lemma run_length schedule :
  forall (tasks : list (Async C AgentInvokeResult)) (c : C),
    List.length (fst (run schedule tasks c)) = List.length tasks.
Proof.
  induction schedule as [| i later IH]; intros tasks c; [reflexivity |].
  cbn [run]. pose proof (resumeAt_length i tasks c) as H.
  destruct (resumeAt i tasks c) as [tasks' c']. cbn [fst] in H.
  rewrite IH. exact H.
Qed.

(** What an invocation has settled with after the turns of a schedule is an
    outcome of the invocation as it was started. *)
Lemma run_settles schedule :
  forall (tasks : list (Async C AgentInvokeResult)) (c : C) j o,
    nth_error (fst (run schedule tasks c)) j = Some (Done o) ->
    exists t, nth_error tasks j = Some t /\ SettlesWith t o.
Proof.
  induction schedule as [| i later IH]; intros tasks c j o H.
  - cbn in H. exists (Done o). split; [exact H | constructor].
  - cbn [run] in H. pose proof (resumeAt_nth i tasks c j) as Hr.
    destruct (resumeAt i tasks c) as [tasks' c']. cbn [fst] in Hr.
    destruct (IH tasks' c' j o H) as (t & Ht & Hs). rewrite Hr in Ht.
    destruct (nth_error tasks j) as [[o' | resume] |]; [| | discriminate Ht].
    + injection Ht as <-. eexists. split; [reflexivity | exact Hs].
    + exists (Wait resume). split; [reflexivity |].
      destruct (Nat.eqb i j).
      * injection Ht as <-. econstructor. exact Hs.
      * injection Ht as <-. exact Hs.
Qed.

Lemma settlesWithin_le {A : Type} n :
  forall m (t : Async C A), (n <= m)%nat -> settlesWithin n t -> settlesWithin m t.
Proof.
  induction n as [| n IH]; intros m t Hle H.
  - destruct t; [destruct m; exact I | destruct H].
  - destruct m as [| m]; [lia |]. destruct t as [o | resume]; [exact I |].
    cbn in *. intros c. apply IH; [lia | apply H].
Qed.

(** The turns still owed to each invocation: a turn of the event loop
    takes one off the invocation it resumes. *)
Lemma run_settlesWithin schedule :
  forall (tasks : list (Async C AgentInvokeResult)) (c : C) (owed : nat -> nat),
    (forall j t, nth_error tasks j = Some t -> settlesWithin (owed j) t) ->
    forall j t, nth_error (fst (run schedule tasks c)) j = Some t ->
      settlesWithin (owed j - count_occ Nat.eq_dec schedule j) t.
Proof.
  induction schedule as [| i later IH]; intros tasks c owed Inv j t H.
  - cbn in H. cbn [count_occ]. rewrite Nat.sub_0_r. apply Inv, H.
  - cbn [run] in H. pose proof (resumeAt_nth i tasks c) as Hr.
    destruct (resumeAt i tasks c) as [tasks' c']. cbn [fst] in Hr.
    pose proof (IH tasks' c' (fun k => owed k - (if Nat.eq_dec i k then 1 else 0))%nat)
      as IH'.
    cbn beta in IH'.
    assert (forall k u, nth_error tasks' k = Some u ->
              settlesWithin (owed k - (if Nat.eq_dec i k then 1 else 0)) u) as Inv'.
    { intros k u Hk. rewrite Hr in Hk.
      destruct (nth_error tasks k) as [[o' | resume] |] eqn:E; [| | discriminate Hk].
      - injection Hk as <-. destruct (owed k - _)%nat; exact I.
      - specialize (Inv k _ E).
        destruct (Nat.eqb_spec i k) as [-> |].
        + injection Hk as <-. destruct (Nat.eq_dec k k) as [_ | n]; [| congruence].
          cbn in Inv. destruct (owed k) as [| m]; [destruct Inv |].
          cbn. rewrite Nat.sub_0_r. apply Inv.
        + injection Hk as <-. destruct (Nat.eq_dec i k) as [-> | _]; [congruence |].
          rewrite Nat.sub_0_r. exact Inv. }
    specialize (IH' Inv' j t H). cbn [count_occ].
    destruct (Nat.eq_dec i j) as [_ | _];
      (eapply settlesWithin_le; [| exact IH']); lia.
Qed.

Lemma outcomes_spec (tasks : list (Async C AgentInvokeResult)) :
  match outcomes tasks with
  | Some settled =>
      List.length settled = List.length tasks /\
      forall j, exists2 o, nth_error tasks j = option_map Done o
                         & nth_error settled j = option_map settlement o
  | None => exists j resume, nth_error tasks j = Some (Wait resume)
  end.
Proof.
  induction tasks as [| [o | resume] rest IH]; cbn [outcomes].
  - split; [reflexivity |]. intros [| j]; exists None; reflexivity.
  - destruct (outcomes rest) as [os |].
    + destruct IH as [Hl Hn]. split; [cbn; rewrite Hl; reflexivity |].
      intros [| j]; [exists (Some o); reflexivity | apply Hn].
    + destruct IH as (j & resume & H). exists (S j), resume. exact H.
  - exists O, resume. reflexivity.
Qed.

(** C7.  [batchInvoke] starts every invocation, in the order of the
    requests, before any of them is resumed.  Whatever the turns of the
    event loop, its promise is pending as long as an invocation waits, and
    is fulfilled, never rejected, once all have settled: [results] has one
    entry per request, in the order of the requests, entry [i] carrying the
    [workflowName] of request [i] and the index [i] and describing what the
    invocation of request [i] has settled with; a fulfilled invocation is a
    [success] or a [failed] item according to its [success] flag, and a
    rejected one is a [failed] item carrying the fault's message, the rest
    of the batch being there all the same;
    [succeeded + failed = totalRequested], the number of requests.  When
    every invocation settles within [n] turns and the event loop gives each
    of them [n] turns, [batchInvoke] returns. *)
Theorem batch_results_in_order schedule batch c :
  let started := startAll invoke batch c in
  let ran := run schedule (fst started) (snd started) in
  match batchInvoke clock invoke schedule batch c with
  | (None, c') =>
      c' = snd ran /\
      exists i resume, nth_error (fst ran) i = Some (Wait resume)
  | (Some returned, c') =>
      c' = snd ran /\
      exists r,
        returned = Returned r /\
        totalRequested r = List.length batch /\
        List.length (results r) = List.length batch /\
        (forall i req, nth_error batch i = Some req ->
           let before := snd (startAll invoke (firstn i batch) c) in
           let invocation := fst (invoke (workflowName req) (payload req) before) in
           exists o item,
             nth_error (fst started) i = Some invocation /\
             nth_error (fst ran) i = Some (Done o) /\
             SettlesWith invocation o /\
             nth_error (results r) i = Some item /\
             describes req i (settlement o) item /\
             match o with
             | Returned v => item_result item = Some v
             | Thrown e =>
                 status item = item_failed /\ item_error item = Some (message e)
             end) /\
        succeeded r = List.length (filter isSuccess (results r)) /\
        failed r = List.length (filter (fun x => negb (isSuccess x)) (results r)) /\
        (succeeded r + failed r = totalRequested r)%nat /\
        totalExecutionMs r = clock c' - clock c
  end
  /\ (forall n,
        (forall req c0, In req batch ->
           settlesWithin n (fst (invoke (workflowName req) (payload req) c0))) ->
        (forall i, (i < List.length batch)%nat ->
           (n <= count_occ Nat.eq_dec schedule i)%nat) ->
        exists r, fst (batchInvoke clock invoke schedule batch c) = Some (Returned r)).
Proof.
  cbv zeta.
  unfold batchInvoke, allSettled.
  pose proof (startAll_length batch c) as Hlen.
  pose proof (startAll_nth batch c) as Hstart.
  destruct (startAll invoke batch c) as [tasks c1]. cbn [fst snd] in *.
  pose proof (run_length schedule tasks c1) as Hrun.
  pose proof (run_settles schedule tasks c1) as Hsettles.
  pose proof (run_settlesWithin schedule tasks c1) as Hwithin.
  destruct (run schedule tasks c1) as [tasks' c2]. cbn [fst snd] in *.
  pose proof (outcomes_spec tasks') as Hout.
  split.
  - destruct (outcomes tasks') as [settled |]; [| split; [reflexivity | exact Hout]].
    destruct Hout as [Hl Hn]. split; [reflexivity |].
    destruct (mapSettled_spec batch settled 0) as (rs & Hrs & Hlr & Hk); [lia |].
    unfold collect. rewrite Hrs. cbn [bind].
    eexists. split; [reflexivity |].
    cbn [totalRequested results succeeded failed totalExecutionMs].
    assert (List.length (filter isSuccess rs)
            + List.length (filter (fun x => negb (isSuccess x)) rs)
            = List.length rs)%nat as Hsplit.
    { clear. induction rs as [| x r IH]; [reflexivity |].
      cbn [filter]. destruct (isSuccess x); cbn [negb List.length]; lia. }
    split; [reflexivity |]. split; [congruence |].
    split; [| repeat split; lia].
    intros i req Hreq.
    destruct (Hn i) as [[o |] Ht Hs]; cbn [option_map] in Ht, Hs.
    + destruct (Hk i _ Hs) as (rq & item & H1 & H2 & H3). cbn in H1.
      rewrite Hreq in H1. injection H1 as <-.
      destruct (Hsettles i o Ht) as (t & Ht0 & Hsw).
      rewrite (Hstart i req Hreq) in Ht0. injection Ht0 as <-.
      exists o, item. split; [apply Hstart, Hreq |].
      split; [exact Ht |]. split; [exact Hsw |]. split; [exact H2 |].
      split; [exact H3 |].
      destruct H3 as (_ & _ & H3). destruct o as [v | e]; cbn [settlement] in H3.
      * apply H3.
      * split; apply H3.
    + apply nth_error_None in Ht.
      assert (i < List.length batch)%nat by (apply nth_error_Some; congruence). lia.
  - intros n Hn Hfair.
    destruct (outcomes tasks') as [settled |].
    + destruct (mapSettled_spec batch settled 0) as (rs & Hrs & _); [cbn; destruct Hout; lia |].
      unfold collect. rewrite Hrs. cbn [bind fst]. eexists. reflexivity.
    + exfalso. destruct Hout as (j & resume & Hj).
      assert (j < List.length batch)%nat as Hlt
        by (rewrite <- Hlen, <- Hrun; apply nth_error_Some; congruence).
      assert (forall k t, nth_error tasks k = Some t -> settlesWithin n t) as Inv.
      { intros k t Hk.
        destruct (nth_error batch k) as [req |] eqn:E.
        - rewrite (Hstart k req E) in Hk. injection Hk as <-.
          apply Hn. eapply nth_error_In, E.
        - apply nth_error_None in E.
          assert (k < List.length tasks)%nat by (apply nth_error_Some; congruence). lia. }
      pose proof (Hwithin (fun _ => n) Inv j _ Hj) as H.
      specialize (Hfair j Hlt).
      cbv beta in H.
      destruct (n - count_occ Nat.eq_dec schedule j)%nat eqn:E; [exact H | lia].
Qed.

End Batches.

(** Three requests, the second answer a denial: two succeed, one fails, and
    the items are in the order of the requests, not of the answers. *)
Lemma batch_of_three :
  let r := fst (batchInvoke Examples.fixedClock
                  (Examples.onResponse Examples.flakyClient) [2; 0; 1]%nat
                  [ {| workflowName := "price-feed"; payload := JObj [] |};
                    {| workflowName := "weather-oracle"; payload := JObj [] |};
                    {| workflowName := "compute-task"; payload := JObj [] |} ] O) in
  match r with
  | Some (Returned b) =>
      map item_workflowName (results b) = ["price-feed"; "weather-oracle"; "compute-task"]
      /\ map status (results b) = [item_failed; item_success; item_success]
      /\ (succeeded b, failed b, totalRequested b) = (2, 1, 3)%nat
  | _ => False
  end.
Proof. vm_compute. repeat split. Qed.

(** Two requests on an empty cache: both invocations are started before
    either has its list of workflows, so both ask for it; and the promise
    is pending until both have settled. *)
Lemma batch_starts_every_invocation :
  let batch := [ {| workflowName := "price-feed"; payload := JObj [] |};
                 {| workflowName := "weather-oracle"; payload := JObj [] |} ] in
  let run schedule := batchInvoke Examples.fixedClock Examples.discoveringClient
                        schedule batch (false, O) in
  snd (startAll Examples.discoveringClient batch (false, O)) = (false, 2%nat)
  /\ fst (run [0; 0; 1]%nat) = None
  /\ match run [0; 1; 1; 0]%nat with
     | (Some (Returned b), (cached, discoveries)) =>
         (succeeded b, failed b) = (2, 0)%nat /\ cached = true /\ discoveries = 2%nat
     | _ => False
     end.
Proof. vm_compute. repeat split. Qed.

End AgentClientFacts.

(** ** payment-middleware.ts and gateway.ts: facts *)

Module MiddlewareFacts.
Import JS.
Import Middleware.

(** The gate of the middleware.  It calls [next] only for a request that
    carries a proof, and then with a payment context that is valid, made out
    to the configured recipient (the two addresses are equal once the
    runtime has lower-cased them) and of at least
    [BigInt(Math.round(requiredAmountUSDC * 1_000_000))] micro-units; every
    other request on which the verifier returns is answered 402 with the
    payment instructions built from the verifier's rejection; and when the
    verifier throws, so does the middleware. *)
Theorem middleware_gate h config now req :
  match requireX402Payment h config now req with
  | Returned (next context) =>
      valid context = true
      /\ (exists proof, x_payment req = Some proof /\ proof <> "")
      /\ Verifier.toLowerCase h (recipient context)
         = Verifier.toLowerCase h (recipientAddress config)
      /\ exists required,
           BigInt_of_number numberToString
             (Math_round (requiredAmountUSDC config * 1000000)%float)
           = Returned required /\
           required <= amount context
  | Returned (respond status body) =>
      status = 402
      /\ exists verification,
           Verifier.verify h (verifierConfig config) now
             (match x_payment req with Some p => p | None => "" end)
           = Returned verification /\
           Verifier.valid verification = false /\
           body = paymentRequired config req verification
  | Thrown err =>
      Verifier.verify h (verifierConfig config) now
        (match x_payment req with Some p => p | None => "" end)
      = Thrown err
  end.
Proof.
  unfold requireX402Payment.
  destruct (Verifier.verify h (verifierConfig config) now _) as [p | e] eqn:V;
    [| reflexivity].
  cbn [bind]. destruct (Verifier.valid p) eqn:Hp; cbn [negb].
  - destruct (VerifierFacts.verify_accepts_only _ _ _ _ _ V Hp) as (Hne & Hr & Hq).
    cbn [valid recipient amount]. split; [reflexivity |]. split; [| split].
    + destruct (x_payment req) as [proof |]; [| contradiction].
      exists proof. split; [reflexivity | exact Hne].
    + apply String.eqb_eq. exact Hr.
    + exact Hq.
  - split; [reflexivity |]. exists p. repeat split. exact Hp.
Qed.

(** A request without the header, or with an empty one, is answered 402
    with the instructions to pay. *)
Theorem missing_proof_gets_instructions h config now url :
  let instructions :=
    JObj [ ("error", JStr "Payment Required");
           ("message", JStr "Missing x402 payment proof (x-payment header required)");
           ("x402Version", JNum 1%float);
           ("accepts", JArr [
              JObj [ ("scheme", JStr "exact");
                     ("network", JStr (networkOf config));
                     ("maxAmountRequired",
                      JStr (numberToString
                              (Math_round (requiredAmountUSDC config * 1000000)%float)));
                     ("resource", JStr url);
                     ("description", JStr (match description config with
                                           | Some d => d
                                           | None => "CRE Workflow Execution"
                                           end));
                     ("mimeType", JStr "application/json");
                     ("payTo", JStr (recipientAddress config));
                     ("maxTimeoutSeconds", JNum 300%float);
                     ("asset", JStr (if String.eqb (networkOf config) "base"
                                     then "0x833589fCD6eDb6E08f4c7C32D4f71b54bdA02913"
                                     else "0x036CbD53842c5426634e7929541eC2318f3dCF7e"));
                     ("extra", JObj [ ("name", JStr "USD Coin");
                                      ("version", JStr "2") ]) ] ]) ] in
  requireX402Payment h config now {| x_payment := None; originalUrl := url |}
    = Returned (respond 402 instructions)
  /\ requireX402Payment h config now {| x_payment := Some ""; originalUrl := url |}
    = Returned (respond 402 instructions).
Proof. split; reflexivity. Qed.

(** The exact payment of the examples passes the middleware. *)
Lemma middleware_gate_witness :
  let context := {| valid := true; amount := 1000; recipient := Examples.RECIPIENT;
                    payer := JStr Examples.PAYER; txHash := Some "0x8a3f" |} in
  valid context = true
  /\ (exists proof, Some Examples.wireExact = Some proof /\ proof <> "")
  /\ Verifier.toLowerCase Examples.host (recipient context)
     = Verifier.toLowerCase Examples.host Examples.RECIPIENT
  /\ exists required,
       BigInt_of_number numberToString (Math_round (0.001 * 1000000)%float)
       = Returned required /\
       required <= amount context.
Proof.
  exact (middleware_gate Examples.host Examples.middlewareConfig Examples.now
           {| x_payment := Some Examples.wireExact; originalUrl := "/invoke/price-feed" |}).
Defined.

End MiddlewareFacts.

Module ServerFacts.
Import JS.
Import Registry.
Import Server.

Section Routes.

Variable S : Type.
Variable clock : S -> Z.
Variable host : Verifier.Host.
Variable RECIPIENT_ADDRESS : string.
Variable SIMULATION_MODE : bool.
Variable DEBUG : bool.
Variable reg : Workflows S.

Let gw := gateway RECIPIENT_ADDRESS SIMULATION_MODE DEBUG reg.

Let proofOf (req : Request) : string :=
  match x_payment req with
  | Some p => p
  | None => ""
  end.

(** The verification the gateway performs for a request to [workflowName]. *)
Let verification (workflowName : string) (req : Request) (w : World S) :=
  Verifier.verify host
    (Gateway.verifierConfig gw (Gateway.requiredPriceOf gw workflowName))
    (clock (store w) / 1000) (proofOf req).

(** [POST /invoke/:workflow] by the verdict of the verifier.  A rejected
    payment is answered 402 with the verifier's message and the price of the
    workflow (0.001 when there is none of that name), and the world is as it
    was.  A valid payment is answered 200 with [success: true] whenever the
    registry returns, whatever the workflow did: the body carries the
    [result] of the registry when there is one, and when the workflow failed
    (unknown name, or a handler that threw) it carries neither a result nor
    the error.  A fault of the verifier, and a fault of the registry (its
    handler threw [null] or [undefined]), are answered 500 with the fault's
    message. *)
Theorem post_invoke_answers uuid req w :
  let workflowName := param_workflow req in
  let price := match getWorkflow reg workflowName with
               | Some wf => priceUSDC wf
               | None => 0.001%float
               end in
  let answer :=
    postInvoke clock host RECIPIENT_ADDRESS SIMULATION_MODE DEBUG reg uuid req w in
  let fault := fun err : exn =>
    {| statusCode := 500;
       body := JObj [ ("error", JStr "Internal server error");
                      ("message", JStr (message err)) ] |} in
  match verification workflowName req w with
  | Thrown err => answer = (fault err, w)
  | Returned p =>
      if Verifier.valid p then
        match execute clock reg
                {| requestId := uuid;
                   Registry.workflowName := workflowName;
                   payload := req_body req;
                   paymentProof := Some (proofOf req);
                   createdAt := isoFormat (clock (store w)) |} w with
        | (Thrown err, w') => answer = (fault err, w')
        | (Returned wr, w') =>
            answer =
            ({| statusCode := 200;
                body :=
                  JObj ([ ("success", JBool true) ]
                        ++ optional "result" (result wr)
                        ++ [ ("meta",
                              JObj ([ ("requestId", JStr uuid);
                                      ("workflowName", JStr workflowName) ]
                                    ++ optional "executionMs"
                                         (option_map (fun ms => JNum (Z2float ms))
                                            (executionMs wr))
                                    ++ [ ("pricePaid", JNum price) ]
                                    ++ optional "paymentTx"
                                         (option_map JStr (Verifier.txHash p)))) ]) |},
             w') /\
            (status wr = failed -> result wr = None)
        end
      else
        exists e,
          Verifier.error p = Some e /\
          answer =
          ({| statusCode := 402;
              body := JObj [ ("error", JStr "Payment Required");
                             ("message", JStr e);
                             ("required",
                              JObj [ ("header", JStr "x-payment");
                                     ("amount", JNum price);
                                     ("currency", JStr "USDC");
                                     ("recipient", JStr RECIPIENT_ADDRESS);
                                     ("network", JStr "base-sepolia") ]) ] |}, w)
  end.
Proof.
  cbv zeta. unfold postInvoke. fold gw. fold (proofOf req).
  destruct (verification (param_workflow req) req w) as [p | err] eqn:V.
  - destruct (Verifier.valid p) eqn:Hp.
    + rewrite (GatewayFacts.invoke_allowed S clock host gw uuid (param_workflow req)
                 (req_body req) (proofOf req) w p V Hp).
      change (Gateway.registry gw) with reg.
      destruct (execute clock reg _ w) as [[wr | err] w'] eqn:E; [| reflexivity].
      split.
      * cbn [fst snd Gateway.allowed negb Gateway.workflowResult Gateway.pricePaid
             Gateway.payment option_map].
        assert (res_requestId wr = uuid) as ->.
        { unfold execute in E. cbn [Registry.workflowName requestId payload] in E.
          destruct (mapGet (param_workflow req) reg) as [wf |].
          - destruct (handler wf (req_body req) (store w)) as [[v | t] st].
            + injection E as <- _; reflexivity.
            + destruct (messageOf t); [injection E as <- _; reflexivity | discriminate E].
          - injection E as <- _; reflexivity. }
        assert (Gateway.requiredPriceOf gw (param_workflow req) =
                match getWorkflow reg (param_workflow req) with
                | Some wf => priceUSDC wf
                | None => 0.001%float
                end) as ->.
        { unfold Gateway.requiredPriceOf, gw, gateway, Gateway.newGateway.
          cbn [Gateway.registry Gateway.config Gateway.defaultPriceUSDC].
          destruct (getWorkflow reg (param_workflow req)); reflexivity. }
        reflexivity.
      * unfold execute in E. cbn [Registry.workflowName requestId payload] in E.
        destruct (mapGet (param_workflow req) reg) as [wf |].
        -- destruct (handler wf (req_body req) (store w)) as [[v | t] st].
           ++ injection E as <- _. cbn [status]. discriminate.
           ++ destruct (messageOf t); [injection E as <- _; reflexivity | discriminate E].
        -- injection E as <- _. reflexivity.
    + destruct (GatewayFacts.invoke_denied S clock host gw uuid (param_workflow req)
                  (req_body req) (proofOf req) w p V Hp) as (e & He & Hi).
      exists e. split; [exact He |]. rewrite Hi. reflexivity.
  - rewrite (GatewayFacts.invoke_rethrows S clock host gw uuid (param_workflow req)
               (req_body req) (proofOf req) w err V).
    reflexivity.
Qed.


(** [POST /agent/task].  A body without a [task], or with one that is
    empty, zero, false or null, is answered 400 before the payment is looked
    at.  A task that is not a string is answered 500.  For a task text, the
    payment is verified at the price of the workflow the text is routed to: a
    rejected payment is answered 500 "Internal server error" with the
    verifier's message (not 402) and the world is as it was; a valid one is
    answered 200 with the route, the price spent and the result when the
    registry returns, and 500 with the fault's message when the registry
    throws. *)
Theorem post_agent_task_answers taskUuid requestUuid req w :
  let answer :=
    postAgentTask clock host RECIPIENT_ADDRESS SIMULATION_MODE DEBUG reg
      taskUuid requestUuid req w in
  match getProp (Some (req_body req)) "task" with
  | Thrown err => answer = (errorHandler err, w)
  | Returned t =>
      if falsy t then
        answer =
        ({| statusCode := 400;
            body := JObj [ ("error", JStr "Missing 'task' field in request body") ] |}, w)
      else
        match t with
        | Some (JStr text) =>
            let workflowName := Gateway.routeTask host text in
            let payload :=
              match getProp (Some (req_body req)) "params" with
              | Returned (Some JNull) | Returned None | Thrown _ =>
                  JObj [("task", JStr text)]
              | Returned (Some p) => p
              end in
            match verification workflowName req w with
            | Thrown err => answer = (errorHandler err, w)
            | Returned p =>
                if Verifier.valid p then
                  match execute clock reg
                          {| requestId := requestUuid;
                             Registry.workflowName := workflowName;
                             Registry.payload := payload;
                             paymentProof := Some (proofOf req);
                             createdAt := isoFormat (clock (store w)) |} w with
                  | (Thrown err, w') => answer = (errorHandler err, w')
                  | (Returned wr, w') =>
                      answer =
                      ({| statusCode := 200;
                          body :=
                            JObj ([ ("success", JBool true);
                                    ("taskId", JStr taskUuid);
                                    ("task", JStr text) ]
                                  ++ optional "result" (result wr)
                                  ++ [ ("meta",
                                        JObj [ ("workflowsInvoked",
                                                JArr [JStr workflowName]);
                                               ("totalSpentUSDC",
                                                JNum (0 + Gateway.requiredPriceOf gw
                                                            workflowName)%float);
                                               ("paymentGated", JBool true) ]) ]) |},
                       w')
                  end
                else
                  exists e,
                    Verifier.error p = Some e /\
                    answer =
                    ({| statusCode := 500;
                        body := JObj [ ("error", JStr "Internal server error");
                                       ("message", JStr e) ] |}, w)
            end
        | _ =>
            answer =
            (errorHandler (TypeError "task.task.toLowerCase is not a function"), w)
        end
  end.
Proof.
  cbv zeta. unfold postAgentTask. fold gw. fold (proofOf req).
  destruct (getProp (Some (req_body req)) "task") as [t | err]; [| reflexivity].
  destruct (falsy t) eqn:F; [reflexivity |].
  destruct t as [[| b | n | text | items | fields] |]; try reflexivity.
  unfold Gateway.orchestrateAgentTask. cbn [Gateway.task Gateway.params].
  set (payload := match (match getProp (Some (req_body req)) "params" with
                         | Returned (Some JNull) | Returned None | Thrown _ => None
                         | Returned (Some p) => Some p
                         end) with
                  | Some p => p
                  | None => JObj [("task", JStr text)]
                  end).
  assert (match getProp (Some (req_body req)) "params" with
          | Returned (Some JNull) | Returned None | Thrown _ => JObj [("task", JStr text)]
          | Returned (Some p) => p
          end = payload) as ->.
  { unfold payload. destruct (getProp (Some (req_body req)) "params") as [[[] |] |];
      reflexivity. }
  destruct (verification (Gateway.routeTask host text) req w) as [p | err] eqn:V.
  - destruct (Verifier.valid p) eqn:Hp.
    + rewrite (GatewayFacts.invoke_allowed S clock host gw requestUuid
                 (Gateway.routeTask host text) payload (proofOf req) w p V Hp).
      change (Gateway.registry gw) with reg.
      destruct (execute clock reg _ w) as [[wr | err] w'] eqn:E; reflexivity.
    + destruct (GatewayFacts.invoke_denied S clock host gw requestUuid
                  (Gateway.routeTask host text) payload (proofOf req) w p V Hp)
        as (e & He & Hi).
      exists e. split; [exact He |]. rewrite Hi. reflexivity.
  - rewrite (GatewayFacts.invoke_rethrows S clock host gw requestUuid
               (Gateway.routeTask host text) payload (proofOf req) w err V).
    reflexivity.
Qed.

(** [GET /workflows] lists the registry in its order, every entry with its
    price and the payment instructions: the recipient of the server, the
    price as amount, the [x-payment] header. *)
Theorem listing_names_the_price_and_the_recipient :
  let answer := getWorkflows RECIPIENT_ADDRESS SIMULATION_MODE reg in
  statusCode answer = 200
  /\ exists entries,
       getProp (Some (body answer)) "workflows" = Returned (Some (JArr entries)) /\
       getProp (Some (body answer)) "count"
         = Returned (Some (JNum (Z2float (Z.of_nat (List.length (listWorkflows reg)))))) /\
       List.length entries = List.length (listWorkflows reg) /\
       forall k wf, nth_error (listWorkflows reg) k = Some wf ->
         exists entry payment,
           nth_error entries k = Some entry /\
           getProp (Some entry) "name" = Returned (Some (JStr (name wf))) /\
           getProp (Some entry) "priceUSDC" = Returned (Some (JNum (priceUSDC wf))) /\
           getProp (Some entry) "payment" = Returned (Some payment) /\
           getProp (Some payment) "recipient" = Returned (Some (JStr RECIPIENT_ADDRESS)) /\
           getProp (Some payment) "amount" = Returned (Some (JNum (priceUSDC wf))) /\
           getProp (Some payment) "header" = Returned (Some (JStr "x-payment")).
Proof.
  cbv zeta. split; [reflexivity |].
  exists (map (workflowInfo RECIPIENT_ADDRESS) (listWorkflows reg)).
  split; [reflexivity |]. split; [cbn; rewrite length_map; reflexivity |].
  split; [apply length_map |].
  intros k wf Hk. eexists _, _. rewrite nth_error_map, Hk. cbn [option_map].
  split; [reflexivity |]. repeat split.
Qed.

End Routes.
End ServerFacts.

(** ** wallet-signer.ts: facts *)

Module WalletSignerFacts.
Import JS.
Import Verifier.
Import Terms.
Import WalletSigner.
Import WalletSignerTerms.


Lemma byte_hex_pair (b : byte) :
  exists x y,
    padStart0 2 (byteToString16 b) = String x (String y EmptyString) /\
    isHexDigit x = true /\ isHexDigit y = true /\
    unhex (String x (String y EmptyString)) = Some [b].
Proof. destruct b; eexists _, _; repeat split. Qed.

Lemma unhex_cons x y r b bs :
  unhex (String x (String y EmptyString)) = Some [b] -> unhex r = Some bs ->
  unhex (String x (String y r)) = Some (b :: bs).
Proof.
  cbn [unhex]. intros H Hr. rewrite Hr.
  destruct (digitVal 16 x); [| discriminate H].
  destruct (digitVal 16 y); [| discriminate H].
  destruct (Byte.of_N _); [| discriminate H].
  injection H as ->. reflexivity.
Qed.

Lemma nonce_body (bytes : list byte) :
  let body := join "" (map (fun b => padStart0 2 (byteToString16 b)) bytes) in
  String.length body = (2 * List.length bytes)%nat
  /\ allHex body = true
  /\ unhex body = Some bytes.
Proof.
  cbv zeta. induction bytes as [| b rest IH]; [repeat split |].
  destruct IH as (Hl & Hh & Hu).
  destruct (byte_hex_pair b) as (x & y & E & Hx & Hy & Hb).
  assert (join "" (map (fun b => padStart0 2 (byteToString16 b)) (b :: rest)) =
          String x (String y (join "" (map (fun b => padStart0 2 (byteToString16 b)) rest))))
    as ->.
  { cbn [map join]. rewrite E.
    destruct (map _ rest) as [| p ps]; reflexivity. }
  cbn [String.length allHex List.length]. rewrite Hl, Hx, Hy, Hh.
  split; [lia |]. split; [reflexivity |].
  apply unhex_cons; assumption.
Qed.

(** The nonce is [0x] and two lower-case hexadecimal digits for each byte:
    66 characters for the 32 bytes drawn, and two draws that differ give
    nonces that differ. *)
Theorem nonce_is_the_bytes_in_hex (bytes : list byte) :
  exists digits,
    generateNonce bytes = "0x" ++ digits
    /\ String.length digits = (2 * List.length bytes)%nat
    /\ allHex digits = true
    /\ unhex digits = Some bytes
    /\ (List.length bytes = 32%nat -> String.length (generateNonce bytes) = 66%nat)
    /\ forall others, generateNonce others = generateNonce bytes -> others = bytes.
Proof.
  destruct (nonce_body bytes) as (Hl & Hh & Hu).
  eexists. split; [reflexivity |]. split; [exact Hl |]. split; [exact Hh |].
  split; [exact Hu |]. split.
  - intros H32. unfold generateNonce. cbn [append String.length]. rewrite Hl, H32.
    reflexivity.
  - intros others E. unfold generateNonce in E. cbn [append] in E.
    injection E as E. destruct (nonce_body others) as (_ & _ & Ho).
    rewrite E, Hu in Ho. congruence.
Qed.

(** A proof signed by the wallet.  Let [z] be the micro-units of the amount,
    [created] the second of the signing and [expiry] what [BigInt] makes of
    [created + validForSeconds] (300 by default).  [createPaymentProof] signs
    the authorization [from] the account [to] the recipient for [z], valid
    after [created - 30] and before [expiry], and returns the Delegated proof
    that carries these very fields and the signature.  Given a codec that
    gives back what it encoded, a verifier for that recipient that requires at
    most [z] accepts the proof in simulation mode at every second from
    [created - 30] up to [expiry], and in strict mode hands viem these fields
    to decide. *)
Theorem signed_proof_is_accepted h viem signer en options config z expiry sig req :
  let network := match options_network options with
                 | Some n => n
                 | None => network signer
                 end in
  let created := nowMs en / 1000 in
  let authorization :=
    {| from := address (account signer);
       to := recipient options;
       value := z;
       validAfter := created - 30;
       validBefore := expiry;
       nonce := generateNonce (randomBytes en) |} in
  let proof :=
    {| x402Version := 1%float;
       scheme := "exact";
       real_network := network;
       payload_signature := sig;
       payload_authorization :=
         {| auth_from := address (account signer);
            auth_to := recipient options;
            auth_value := BigInt_toString z;
            auth_validAfter := BigInt_toString (created - 30);
            auth_validBefore := BigInt_toString expiry;
            auth_nonce := generateNonce (randomBytes en) |} |} in
  let wire := encodeProof h (jsonOfRealProof proof) in
  microUnits (amountUSDC options) = Returned z ->
  BigInt_of_number numberToString
    (Z2float created + match validForSeconds options with
                       | Some v => v
                       | None => 300
                       end)%float = Returned expiry ->
  signTypedData viem (account signer)
    (if String.eqb network "base" then "base" else "baseSepolia")
    (USDC_EIP712_DOMAIN network) authorization = Returned sig ->
  roundTrips h (jsonOfRealProof proof) ->
  wire <> "" ->
  sameAddress h (recipient options) (recipientAddress config) = true ->
  microUnits (requiredAmountUSDC config) = Returned req ->
  req <= z ->
  createPaymentProof h viem signer en options = Returned wire
  /\ forall now, created - 30 <= now < expiry ->
       verify h config now wire =
       if truthy (simulationMode config) then
         Returned (accepted z (recipient options) (JStr (address (account signer))) None)
       else
         match verifyTypedData h (typedDataOf proof z (created - 30) expiry) with
         | Returned true =>
             Returned (accepted z (recipient options)
                         (JStr (address (account signer))) None)
         | Returned false =>
             Returned (invalid z (recipient options)
                         (JStr (address (account signer))) None
               "EIP-712 signature verification failed: signer does not match authorization.from")
         | Thrown e =>
             Returned (invalid z (recipient options)
                         (JStr (address (account signer))) None
                         ("EIP-712 verification error: " ++ message e))
         end.
Proof.
  intros network created authorization proof wire Hz Hx Hs Hrt Hne Hr Hq Hle.
  split.
  - unfold createPaymentProof. cbv zeta. fold network. fold created. rewrite Hz.
    cbn [bind].
    destruct (validForSeconds options); rewrite Hx; cbn [bind]; fold authorization;
      rewrite Hs; reflexivity.
  - intros now Hnow.
    rewrite (VerifierFacts.verify_in_window h config now wire proof z req (created - 30) expiry
               Hne Hrt (JSFacts.StringToBigInt_toString z) Hr Hq Hle
               (JSFacts.parseIntString_toString _) (JSFacts.parseIntString_toString _) Hnow).
    cbn [proof payload_authorization auth_validAfter auth_validBefore auth_to auth_from].
    rewrite !JSFacts.StringToBigInt_toString. reflexivity.
Qed.

(** 0.001 USDC signed for the recipient of the examples. *)
Lemma signed_proof_is_accepted_witness :
  exists wire,
    createPaymentProof Examples.host Examples.viem Examples.signer
      Examples.signerEntropy Examples.signingOptions = Returned wire.
Proof.
  eexists.
  refine (proj1 (signed_proof_is_accepted Examples.host Examples.viem Examples.signer
                   Examples.signerEntropy Examples.signingOptions (Examples.config true)
                   1000 1730000300 "0x5167" 1000 _ _ _ _ _ _ _ _)).
  - vm_compute. reflexivity.
  - vm_compute. reflexivity.
  - reflexivity.
  - vm_compute. reflexivity.
  - vm_compute. discriminate.
  - reflexivity.
  - vm_compute. reflexivity.
  - lia.
Defined.

End WalletSignerFacts.

(** ** agent-client.ts: facts about the requests *)

Module ClientFacts.
Import JS.
Import Client.
Import ClientTerms.

Section Requests.

Variable N : Type.
Variable h : Verifier.Host.
Variable viem : WalletSigner.Viem.
Variable fetchGet : string -> N -> outcome (Response WorkflowDiscoveryResult) * N.
Variable fetchPost : string -> string -> string -> N -> outcome (Response ReplyBody) * N.
Variable entropy : N -> Verifier.Entropy.
Variable signerEntropy : N -> WalletSigner.Entropy.

Let plainInvoke := invoke h viem fetchGet fetchPost entropy signerEntropy.
Let loggedInvoke :=
  invoke h viem (loggedGet fetchGet) (loggedPost fetchPost)
    (unlogged entropy) (unlogged signerEntropy).

Lemma ensureDiscovered_logged c n log :
  ensureDiscovered (loggedGet fetchGet) (c, (n, log)) =
  (fst (ensureDiscovered fetchGet (c, n)),
   (fst (snd (ensureDiscovered fetchGet (c, n))),
    (snd (snd (ensureDiscovered fetchGet (c, n))),
     (log ++ match cachedWorkflows c with
             | None => [GET (gatewayUrl (config c) ++ "/workflows")]
             | Some _ => []
             end)%list)))
  /\ gatewayUrl (config (fst (snd (ensureDiscovered fetchGet (c, n)))))
     = gatewayUrl (config c).
Proof.
  unfold ensureDiscovered, discoverWorkflows, loggedGet. cbn [fst snd].
  destruct (cachedWorkflows c); [rewrite app_nil_r; split; reflexivity |].
  destruct (fetchGet (gatewayUrl (config c) ++ "/workflows") n) as [[response | err] n'];
    [| split; reflexivity].
  destruct (ok response); cbn [negb]; [| split; reflexivity].
  destruct (jsonBody response); split; reflexivity.
Qed.

(** The requests of an [invoke].  It makes a [GET /workflows] exactly when
    the cache is empty, and before anything else; then at most one POST, to
    [/invoke/<workflowName>] of the gateway, with the payload as body.  It
    makes no POST when the discovery fails, when it throws for want of a
    recipient or when no proof could be made, and it throws then; once it
    has a proof it makes the POST, with that proof in the [x-payment]
    header; and whenever it returns a result, a refusal of the gateway
    included, it has made the POST and the result names as [paymentUsed] the
    proof that went in the header. *)
Theorem invoke_requests workflowName payload c n log :
  let plain := plainInvoke workflowName payload (c, n) in
  let logged := loggedInvoke workflowName payload (c, (n, log)) in
  fst logged = fst plain
  /\ fst (snd logged) = fst (snd plain)
  /\ fst (snd (snd logged)) = snd (snd plain)
  /\ exists posts,
       snd (snd (snd logged)) =
         (log ++ match cachedWorkflows c with
                 | None => [GET (gatewayUrl (config c) ++ "/workflows")]
                 | Some _ => []
                 end ++ posts)%list
       /\ (posts = [] \/
           exists proof,
             posts = [POST (gatewayUrl (config c) ++ "/invoke/" ++ workflowName) proof
                        (Verifier.JSON_stringify h payload)])
       /\ (forall r, fst plain = Returned r ->
            exists proof,
              posts = [POST (gatewayUrl (config c) ++ "/invoke/" ++ workflowName) proof
                         (Verifier.JSON_stringify h payload)]
              /\ AgentClient.paymentUsed r = Some proof)
       /\ match ensureDiscovered fetchGet (c, n) with
          | (Thrown err, _) => posts = [] /\ fst plain = Thrown err
          | (Returned _, (c1, n1)) =>
              let workflow := findWorkflow c1 workflowName in
              let recipient := recipientFor c1 workflow in
              if String.eqb recipient "" then
                posts = [] /\
                fst plain = Thrown (Error "No recipient address available. Call discoverWorkflows() first or set recipientAddress in config.")
              else
                match constructPaymentProofAsync h viem entropy signerEntropy c1 n1
                        recipient
                        match workflow with
                        | Some w => priceUSDC w
                        | None => 0.001%float
                        end with
                | Thrown err => posts = [] /\ fst plain = Thrown err
                | Returned proof =>
                    posts = [POST (gatewayUrl (config c) ++ "/invoke/" ++ workflowName)
                               proof (Verifier.JSON_stringify h payload)]
                end
          end.
Proof.
  cbv zeta. unfold plainInvoke, loggedInvoke, invoke.
  destruct (ensureDiscovered_logged c n log) as [E Hurl]. rewrite E. clear E.
  destruct (ensureDiscovered fetchGet (c, n)) as [[[] | err] [c1 n1]]; cbn [fst snd] in *.
  2:{ repeat split. exists []. rewrite app_nil_r. split; [reflexivity |].
      split; [left; reflexivity |].
      split; [intros r H; discriminate H | split; reflexivity]. }
  rewrite Hurl.
  set (gets := match cachedWorkflows c with
               | None => [GET (gatewayUrl (config c) ++ "/workflows")]
               | Some _ => []
               end).
  destruct (String.eqb (recipientFor c1 (findWorkflow c1 workflowName)) "").
  { repeat split. exists []. rewrite app_nil_r. split; [reflexivity |].
    split; [left; reflexivity |].
    split; [intros r H; discriminate H | split; reflexivity]. }
  unfold constructPaymentProofAsync, unlogged. cbn [fst snd].
  fold (constructPaymentProofAsync h viem entropy signerEntropy c1 n1
          (recipientFor c1 (findWorkflow c1 workflowName))
          match findWorkflow c1 workflowName with
          | Some w => priceUSDC w
          | None => 0.001%float
          end).
  destruct (constructPaymentProofAsync h viem entropy signerEntropy c1 n1 _ _)
    as [proof | err].
  2:{ repeat split. exists []. rewrite app_nil_r. split; [reflexivity |].
      split; [left; reflexivity |].
      split; [intros r H; discriminate H | split; reflexivity]. }
  unfold loggedPost. cbn [fst snd].
  destruct (fetchPost _ proof _ n1) as [[response | err] n2].
  2:{ repeat split. eexists. rewrite <- app_assoc. split; [reflexivity |].
      split; [right; eexists; reflexivity |].
      split; [intros r H; discriminate H | reflexivity]. }
  destruct (jsonBody response) as [data | err].
  2:{ repeat split. eexists. rewrite <- app_assoc. split; [reflexivity |].
      split; [right; eexists; reflexivity |].
      split; [intros r H; discriminate H | reflexivity]. }
  destruct (ok response); cbn [negb].
  - repeat split. eexists. rewrite <- app_assoc. split; [reflexivity |].
    split; [right; eexists; reflexivity |]. split; [| reflexivity].
    intros r H. injection H as <-. eexists. split; reflexivity.
  - destruct (errorText data (status response)) as [text | err].
    + repeat split. eexists. rewrite <- app_assoc. split; [reflexivity |].
      split; [right; eexists; reflexivity |]. split; [| reflexivity].
      intros r H. injection H as <-. eexists. split; reflexivity.
    + repeat split. eexists. rewrite <- app_assoc. split; [reflexivity |].
      split; [right; eexists; reflexivity |].
      split; [intros r H; discriminate H | reflexivity].
Qed.


(** The payment of a listed workflow.  In simulation mode, for a workflow
    in the cache, the proof an [invoke] sends is the Simple proof of the
    listed price made out to the listed recipient by the configured payer,
    whatever recipient the client itself is configured with; and, given a
    codec that gives back what it encoded, a verifier for the listed
    recipient that requires the listed price accepts it at any clock
    reading. *)
Theorem client_payment_is_accepted workflowName payload c n ws wf z :
  let recipient := pay_recipient (payment wf) in
  let m := Verifier.mockProofFor (entropy n) (payerAddress (config c)) recipient z in
  let wire := Verifier.encodeProof h (Verifier.jsonOfMockProof m) in
  cachedWorkflows c = Some ws ->
  List.find (fun w => String.eqb (name w) workflowName) ws = Some wf ->
  isSimulation (config c) = true ->
  Verifier.microUnits (priceUSDC wf) = Returned z ->
  Terms.roundTrips h (Verifier.jsonOfMockProof m) ->
  wire <> "" ->
  forall r st',
    plainInvoke workflowName payload (c, n) = (Returned r, st') ->
    AgentClient.paymentUsed r = Some wire
    /\ forall verifier now,
         Terms.sameAddress h recipient (Verifier.recipientAddress verifier) = true ->
         Verifier.requiredAmountUSDC verifier = priceUSDC wf ->
         Verifier.verify h verifier now wire =
         Returned (Verifier.accepted z recipient (JStr (payerAddress (config c)))
                     (Some ("0x" ++ padEnd0 64 (Verifier.randomHex1 (entropy n))))).
Proof.
  intros recipient m wire Hc Hf Hs Hz Hrt Hne r st' Hi.
  assert (Verifier.createMockPaymentProof h (entropy n) (payerAddress (config c))
            recipient (priceUSDC wf) = Returned wire) as Hcreate.
  { unfold Verifier.createMockPaymentProof. rewrite Hz. reflexivity. }
  split.
  - unfold plainInvoke, invoke, ensureDiscovered in Hi. cbn [fst] in Hi.
    rewrite Hc in Hi. unfold findWorkflow in Hi. rewrite Hc, Hf in Hi.
    cbn [recipientFor] in Hi. fold recipient in Hi.
    destruct (String.eqb recipient ""); [discriminate Hi |].
    unfold constructPaymentProofAsync in Hi. rewrite Hs, Hcreate in Hi.
    destruct (fetchPost _ wire _ n) as [[response | err] n2]; [| discriminate Hi].
    destruct (jsonBody response) as [data | err]; [| discriminate Hi].
    destruct (ok response); cbn [negb] in Hi.
    + injection Hi as <- _. reflexivity.
    + destruct (errorText data (status response)); [| discriminate Hi].
      injection Hi as <- _. reflexivity.
  - intros verifier now Hr Hq.
    destruct (VerifierFacts.mock_proof_is_accepted h (entropy n) (payerAddress (config c))
                recipient (priceUSDC wf) z verifier z now Hz Hr
                ltac:(rewrite Hq; exact Hz) ltac:(lia) Hrt Hne) as [_ H].
    exact H.
Qed.

Let plainSubmit := submitTask h viem fetchGet fetchPost entropy signerEntropy.
Let loggedSubmit :=
  submitTask h viem (loggedGet fetchGet) (loggedPost fetchPost)
    (unlogged entropy) (unlogged signerEntropy).

(** The payment of a task.  In simulation mode, with a cache, [submitTask]
    pays the price listed for agent-task-dispatch (0.01 when it is not
    listed) to the recipient listed for it (the configured one when it is
    not listed), whatever the task and its parameters: when it returns, it
    has made no GET and one POST, to [/agent/task], with the task and the
    parameters as body and that Simple proof in the header, and the result
    names the proof as [paymentUsed]. *)
Theorem task_payment_ignores_the_task task params c n log ws z :
  let listed := List.find (fun w => String.eqb (name w) "agent-task-dispatch") ws in
  let price := match listed with
               | Some w => priceUSDC w
               | None => 0.01%float
               end in
  let recipient := match listed with
                   | Some w => pay_recipient (payment w)
                   | None => match recipientAddress (config c) with
                             | Some r => r
                             | None => ""
                             end
                   end in
  let wire :=
    Verifier.encodeProof h
      (Verifier.jsonOfMockProof
         (Verifier.mockProofFor (entropy n) (payerAddress (config c)) recipient z)) in
  let body :=
    Verifier.JSON_stringify h
      (JObj (("task", JStr task)
             :: match params with
                | Some p => [("params", p)]
                | None => []
                end)) in
  cachedWorkflows c = Some ws ->
  isSimulation (config c) = true ->
  Verifier.microUnits price = Returned z ->
  forall r st',
    plainSubmit task params (c, n) = (Returned r, st') ->
    task_paymentUsed r = Some wire
    /\ fst (loggedSubmit task params (c, (n, log))) = Returned r
    /\ snd (snd (snd (loggedSubmit task params (c, (n, log))))) =
       (log ++ [POST (gatewayUrl (config c) ++ "/agent/task") wire body])%list.
Proof.
  intros listed price recipient wire body Hc Hs Hz r st' Hi.
  assert (Verifier.createMockPaymentProof h (entropy n) (payerAddress (config c))
            recipient price = Returned wire) as Hcreate.
  { unfold Verifier.createMockPaymentProof. rewrite Hz. reflexivity. }
  unfold plainSubmit, loggedSubmit, submitTask, ensureDiscovered in *. cbn [fst snd] in *.
  rewrite Hc in *. unfold findWorkflow in *. rewrite Hc in *.
  fold listed in Hi |- *. unfold recipientFor in *.
  fold price in Hi |- *. fold recipient in Hi |- *.
  destruct (String.eqb recipient ""); [discriminate Hi |].
  unfold constructPaymentProofAsync, unlogged in *. cbn [fst snd] in *.
  rewrite Hs, Hcreate in *. fold body in Hi |- *.
  unfold loggedPost. cbn [fst snd].
  destruct (fetchPost _ wire body n) as [[response | err] n2]; [| discriminate Hi].
  destruct (jsonBody response) as [data | err]; [| discriminate Hi].
  destruct (ok response); cbn [negb] in *.
  - injection Hi as <- _. repeat split.
  - destruct (errorText data (status response)); [| discriminate Hi].
    injection Hi as <- _. repeat split.
Qed.

End Requests.

(** The client of the examples pays 0.001 USDC for price-feed to the
    listed recipient, and the verifier of the examples accepts the proof. *)
Lemma client_payment_is_accepted_witness :
  Verifier.verify Examples.host (Examples.config true) Examples.now
    (Verifier.encodeProof Examples.host
       (Verifier.jsonOfMockProof
          (Verifier.mockProofFor Examples.entropy Examples.PAYER
             Examples.RECIPIENT 1000)))
  = Returned (Verifier.accepted 1000 Examples.RECIPIENT (JStr Examples.PAYER)
                (Some ("0x" ++ padEnd0 64 (Verifier.randomHex1 Examples.entropy)))).
Proof.
  refine (proj2 (client_payment_is_accepted nat Examples.host Examples.viem
                   Examples.noGet Examples.okPost (fun _ => Examples.entropy)
                   (fun _ => Examples.signerEntropy)
                   "price-feed" (JObj []) Examples.cachedClient O
                   [Examples.listedPriceFeed] Examples.listedPriceFeed 1000
                   _ _ _ _ _ _
                   {| AgentClient.success := true;
                      AgentClient.result := Some (JObj []);
                      AgentClient.meta := None;
                      AgentClient.error := None;
                      AgentClient.paymentUsed :=
                        Some (Verifier.encodeProof Examples.host
                                (Verifier.jsonOfMockProof
                                   (Verifier.mockProofFor Examples.entropy
                                      Examples.PAYER Examples.RECIPIENT 1000))) |}
                   (Examples.cachedClient, 1%nat) _)
            (Examples.config true) Examples.now _ _).
  - reflexivity.
  - reflexivity.
  - reflexivity.
  - vm_compute. reflexivity.
  - vm_compute. reflexivity.
  - vm_compute. discriminate.
  - vm_compute. reflexivity.
  - vm_compute. reflexivity.
  - reflexivity.
Defined.

(** The client of the examples has no listing for agent-task-dispatch: it
    pays 0.01 USDC to the recipient it is configured with. *)
Lemma task_payment_ignores_the_task_witness :
  exists r,
    fst (submitTask Examples.host Examples.viem Examples.noGet Examples.okPost
           (fun _ => Examples.entropy) (fun _ => Examples.signerEntropy)
           "summarise the news" None (Examples.cachedClient, O)) = Returned r
    /\ task_paymentUsed r =
       Some (Verifier.encodeProof Examples.host
               (Verifier.jsonOfMockProof
                  (Verifier.mockProofFor Examples.entropy Examples.PAYER
                     Examples.OTHER_RECIPIENT 10000))).
Proof.
  eexists. split; [vm_compute; reflexivity |].
  refine (proj1 (task_payment_ignores_the_task nat Examples.host Examples.viem
                   Examples.noGet Examples.okPost (fun _ => Examples.entropy)
                   (fun _ => Examples.signerEntropy)
                   "summarise the news" None Examples.cachedClient O []
                   [Examples.listedPriceFeed] 10000 _ _ _ _
                   (Examples.cachedClient, 1%nat) _)).
  - reflexivity.
  - reflexivity.
  - vm_compute. reflexivity.
  - vm_compute. reflexivity.
Defined.

End ClientFacts.

(** ** agent-client.ts against gateway.ts: the client and the server together *)

Module EndToEndFacts.
Import JS.
Import Registry.
Import RegistryTerms.
Import EndToEndTerms.

Section Served.

Variable S : Type.
Variable clock : S -> Z.
Variable h : Verifier.Host.
Variable RECIPIENT_ADDRESS : string.
Variable SIMULATION_MODE : bool.
Variable DEBUG : bool.

(** The registry of the server: the constructor's, extended by
    registrations. *)
Variables builtIn extra news : list (CREWorkflowDefinition S).
Let reg : Workflows S :=
  fold_left registerWorkflow news (newRegistry builtIn extra).

Variable N : Type.
Variable viem : WalletSigner.Viem.
Variable fetchGet : string -> N -> outcome (Client.Response Client.WorkflowDiscoveryResult) * N.
Variable fetchPost : string -> string -> string -> N -> outcome (Client.Response Client.ReplyBody) * N.
Variable entropy : N -> Verifier.Entropy.
Variable signerEntropy : N -> WalletSigner.Entropy.

(** The typed listing is the entry [GET /workflows] sends. *)
Lemma listing_is_what_the_server_sends (wf : CREWorkflowDefinition S) :
  Server.workflowInfo RECIPIENT_ADDRESS wf
  = jsonOfWorkflowInfo (listingOf RECIPIENT_ADDRESS wf).
Proof. reflexivity. Qed.

Lemma find_listed (m : Workflows S) n d :
  keyed m -> getWorkflow m n = Some d ->
  List.find (fun w => String.eqb (Client.name w) n)
    (map (listingOf RECIPIENT_ADDRESS) (listWorkflows m))
  = Some (listingOf RECIPIENT_ADDRESS d).
Proof.
  unfold keyed, getWorkflow, listWorkflows. intros [_ Hk]. revert Hk.
  induction m as [| [k v] rest IH]; intros Hk; cbn [mapGet map find snd]; [discriminate |].
  inversion Hk as [| ? ? Hkv Hrest]; subst. cbn [fst snd] in Hkv. subst k.
  cbn [listingOf Client.name]. rewrite (String.eqb_sym (name v) n).
  destruct (String.eqb n (name v)).
  - intros H. injection H as ->. reflexivity.
  - intros H. exact (IH Hrest H).
Qed.

Lemma sameAddress_refl a : Terms.sameAddress h a a = true.
Proof. unfold Terms.sameAddress. apply String.eqb_refl. Qed.

Lemma find_unlisted (m : Workflows S) n :
  keyed m -> getWorkflow m n = None ->
  List.find (fun w => String.eqb (Client.name w) n)
    (map (listingOf RECIPIENT_ADDRESS) (listWorkflows m))
  = None.
Proof.
  unfold keyed, getWorkflow, listWorkflows. intros [_ Hk]. revert Hk.
  induction m as [| [k v] rest IH]; intros Hk; cbn [mapGet map find snd]; [reflexivity |].
  inversion Hk as [| ? ? Hkv Hrest]; subst. cbn [fst snd] in Hkv. subst k.
  cbn [listingOf Client.name]. rewrite (String.eqb_sym (name v) n).
  destruct (String.eqb n (name v)); [discriminate |].
  intros H. exact (IH Hrest H).
Qed.

Let gw := Server.gateway RECIPIENT_ADDRESS SIMULATION_MODE DEBUG reg.

(** A client that pays the listed price is served.  Take a server over a
    registry built by registrations and a client in simulation mode whose
    cache is the listing of that server.  For a registered workflow, the
    proof an [invoke] of the client sends is the Simple proof of the
    workflow's price made out to the server's recipient; and
    on [POST /invoke/:workflow] with that proof and the payload the handler
    of the workflow runs once, on that payload.  The answer is 200, the body
    carrying as [result] what the handler returned, and none when it threw;
    but when the handler threw [null] or [undefined] the answer is 500, with
    the message of the [TypeError] that the registry raised. *)
Theorem listed_price_opens_the_gate workflowName payload c n d z uuid w :
  let wire :=
    Verifier.encodeProof h
      (Verifier.jsonOfMockProof
         (Verifier.mockProofFor (entropy n) (Client.payerAddress (Client.config c))
            RECIPIENT_ADDRESS z)) in
  let answer :=
    Server.postInvoke clock h RECIPIENT_ADDRESS SIMULATION_MODE DEBUG reg uuid
      {| Server.param_workflow := workflowName;
         Server.x_payment := Some wire;
         Server.req_body := payload |} w in
  getWorkflow reg workflowName = Some d ->
  Client.cachedWorkflows c
    = Some (map (listingOf RECIPIENT_ADDRESS) (listWorkflows reg)) ->
  Client.isSimulation (Client.config c) = true ->
  Verifier.microUnits (priceUSDC d) = Returned z ->
  Terms.roundTrips h
    (Verifier.jsonOfMockProof
       (Verifier.mockProofFor (entropy n) (Client.payerAddress (Client.config c))
          RECIPIENT_ADDRESS z)) ->
  wire <> "" ->
  forall r st',
    Client.invoke h viem fetchGet fetchPost entropy signerEntropy
      workflowName payload (c, n) = (Returned r, st') ->
    AgentClient.paymentUsed r = Some wire
    /\ invoked (snd answer) = (invoked w ++ [(workflowName, payload)])%list
    /\ store (snd answer) = snd (handler d payload (store w))
    /\ match fst (handler d payload (store w)) with
       | completes v =>
           Server.statusCode (fst answer) = 200 /\
           getProp (Some (Server.body (fst answer))) "result" = Returned v
       | throws t =>
           match messageOf t with
           | Returned _ =>
               Server.statusCode (fst answer) = 200 /\
               getProp (Some (Server.body (fst answer))) "result" = Returned None
           | Thrown e => fst answer = Server.errorHandler e
           end
       end.
Proof.
  intros wire answer Hg Hc Hs Hz Hrt Hne r st' Hi.
  pose proof (RegistryFacts.built_registry_is_keyed S builtIn extra news) as Hkeyed.
  fold reg in Hkeyed.
  split.
  - pose proof (find_listed reg workflowName d Hkeyed Hg) as Hf.
    assert (Verifier.createMockPaymentProof h (entropy n)
              (Client.payerAddress (Client.config c))
              RECIPIENT_ADDRESS (priceUSDC d) = Returned wire) as Hcreate.
    { unfold Verifier.createMockPaymentProof. rewrite Hz. reflexivity. }
    unfold Client.invoke, Client.ensureDiscovered in Hi. cbn [fst] in Hi.
    rewrite Hc in Hi. unfold Client.findWorkflow in Hi. rewrite Hc, Hf in Hi.
    cbn [Client.recipientFor listingOf Client.payment Client.pay_recipient
         Client.priceUSDC] in Hi.
    destruct (String.eqb RECIPIENT_ADDRESS ""); [discriminate Hi |].
    unfold Client.constructPaymentProofAsync in Hi. rewrite Hs, Hcreate in Hi.
    destruct (fetchPost _ wire _ n) as [[response | err] n2]; [| discriminate Hi].
    destruct (Client.jsonBody response) as [data | err]; [| discriminate Hi].
    destruct (Client.ok response); cbn [negb] in Hi.
    + injection Hi as <- _. reflexivity.
    + destruct (Client.errorText data (Client.status response)); [| discriminate Hi].
      injection Hi as <- _. reflexivity.
  - subst answer. unfold Server.postInvoke, Gateway.invoke.
    cbn [Server.param_workflow Server.x_payment Server.req_body].
    assert (Gateway.requiredPriceOf (Server.gateway RECIPIENT_ADDRESS SIMULATION_MODE DEBUG reg)
              workflowName = priceUSDC d) as Hp.
    { unfold Gateway.requiredPriceOf, Server.gateway, Gateway.newGateway.
      cbn [Gateway.registry]. rewrite Hg. reflexivity. }
    rewrite Hp.
    destruct (VerifierFacts.mock_proof_is_accepted h (entropy n)
                (Client.payerAddress (Client.config c)) RECIPIENT_ADDRESS
                (priceUSDC d) z
                (Gateway.verifierConfig
                   (Server.gateway RECIPIENT_ADDRESS SIMULATION_MODE DEBUG reg)
                   (priceUSDC d))
                z (clock (store w) / 1000) Hz (sameAddress_refl _) Hz
                ltac:(lia) Hrt Hne) as [_ Hv].
    fold wire in Hv. rewrite Hv.
    cbn [Verifier.accepted Verifier.valid negb].
    unfold execute. cbn [Server.gateway Gateway.newGateway Gateway.registry
                         Registry.workflowName Registry.payload].
    unfold getWorkflow in Hg. rewrite Hg.
    destruct (handler d payload (store w)) as [[v | t] st]; cbn [fst snd].
    + cbn [Gateway.allowed negb Gateway.workflowResult Server.ok Server.statusCode
           Server.body fst snd store invoked Registry.result].
      repeat split. destruct v; reflexivity.
    + destruct (messageOf t) as [m | e]; cbn [fst snd];
        cbn [Gateway.allowed negb Gateway.workflowResult Server.ok Server.statusCode
             Server.body fst snd store invoked Registry.result];
        repeat split.
Qed.

(** The payment of a task against its route.  [submitTask] pays the price
    of agent-task-dispatch (0.01 when the server does not list it), while
    [POST /agent/task] requires the price of the workflow the task text is
    routed to.  With [z] and [req] the micro-units of the two prices: when
    [req <= z] the task passes the gate and is answered 200 (500 only if the
    registry throws); when [z < req] it is answered 500
    with "Insufficient payment: required <price> USDC, got <paid> USDC" and
    no handler runs, though the client paid what was listed. *)
Theorem task_payment_against_the_route task params c n z req taskUuid requestUuid w :
  let dispatch := getWorkflow reg "agent-task-dispatch" in
  let paid := match dispatch with
              | Some d => priceUSDC d
              | None => 0.01%float
              end in
  let recipient := match dispatch with
                   | Some _ => RECIPIENT_ADDRESS
                   | None => match Client.recipientAddress (Client.config c) with
                             | Some r => r
                             | None => ""
                             end
                   end in
  let required := Gateway.requiredPriceOf gw (Gateway.routeTask h task) in
  let proof :=
    Verifier.jsonOfMockProof
      (Verifier.mockProofFor (entropy n) (Client.payerAddress (Client.config c))
         recipient z) in
  let wire := Verifier.encodeProof h proof in
  let answer :=
    Server.postAgentTask clock h RECIPIENT_ADDRESS SIMULATION_MODE DEBUG reg
      taskUuid requestUuid
      {| Server.param_workflow := "";
         Server.x_payment := Some wire;
         Server.req_body := JObj (("task", JStr task)
                                  :: match params with
                                     | Some p => [("params", p)]
                                     | None => []
                                     end) |} w in
  Client.cachedWorkflows c
    = Some (map (listingOf RECIPIENT_ADDRESS) (listWorkflows reg)) ->
  Client.isSimulation (Client.config c) = true ->
  task <> "" ->
  Verifier.microUnits paid = Returned z ->
  Verifier.microUnits required = Returned req ->
  Terms.sameAddress h recipient RECIPIENT_ADDRESS = true ->
  Terms.roundTrips h proof ->
  wire <> "" ->
  forall r st',
    Client.submitTask h viem fetchGet fetchPost entropy signerEntropy
      task params (c, n) = (Returned r, st') ->
    Client.task_paymentUsed r = Some wire
    /\ (req <= z ->
        match execute clock reg
                {| requestId := requestUuid;
                   Registry.workflowName := Gateway.routeTask h task;
                   Registry.payload := match params with
                                       | Some JNull | None => JObj [("task", JStr task)]
                                       | Some q => q
                                       end;
                   paymentProof := Some wire;
                   createdAt := isoFormat (clock (store w)) |} w with
        | (Returned _, _) => Server.statusCode (fst answer) = 200
        | (Thrown e, w') => answer = (Server.errorHandler e, w')
        end)
    /\ (z < req ->
        answer =
        ({| Server.statusCode := 500;
            Server.body :=
              JObj [ ("error", JStr "Internal server error");
                     ("message",
                      JStr (Verifier.insufficientMessage required z)) ] |}, w)).
Proof.
  intros dispatch paid recipient required proof wire answer
         Hc Hs Ht Hz Hq Hr Hrt Hne r st' Hi.
  pose proof (RegistryFacts.built_registry_is_keyed S builtIn extra news) as Hkeyed.
  fold reg in Hkeyed.
  split.
  - assert (List.find (fun w => String.eqb (Client.name w) "agent-task-dispatch")
              (map (listingOf RECIPIENT_ADDRESS) (listWorkflows reg))
            = option_map (listingOf RECIPIENT_ADDRESS) dispatch) as Hf.
    { subst dispatch. destruct (getWorkflow reg "agent-task-dispatch") as [d |] eqn:E.
      - exact (find_listed reg _ d Hkeyed E).
      - exact (find_unlisted reg _ Hkeyed E). }
    assert (Verifier.createMockPaymentProof h (entropy n)
              (Client.payerAddress (Client.config c)) recipient paid = Returned wire)
      as Hcreate.
    { unfold Verifier.createMockPaymentProof. rewrite Hz. reflexivity. }
    unfold Client.submitTask, Client.ensureDiscovered in Hi. cbn [fst] in Hi.
    rewrite Hc in Hi. unfold Client.findWorkflow in Hi. rewrite Hc, Hf in Hi.
    assert (Client.recipientFor c (option_map (listingOf RECIPIENT_ADDRESS) dispatch)
            = recipient) as Hrec.
    { subst recipient. destruct dispatch; reflexivity. }
    assert (match option_map (listingOf RECIPIENT_ADDRESS) dispatch with
            | Some w => Client.priceUSDC w
            | None => 0.01%float
            end = paid) as Hpaid.
    { subst paid. destruct dispatch; reflexivity. }
    rewrite Hrec, Hpaid in Hi.
    destruct (String.eqb recipient ""); [discriminate Hi |].
    unfold Client.constructPaymentProofAsync in Hi. rewrite Hs, Hcreate in Hi.
    destruct (fetchPost _ wire _ n) as [[response | err] n2]; [| discriminate Hi].
    destruct (Client.jsonBody response) as [data | err]; [| discriminate Hi].
    destruct (Client.ok response); cbn [negb] in Hi.
    + injection Hi as <- _. reflexivity.
    + destruct (Client.errorText data (Client.status response)); [| discriminate Hi].
      injection Hi as <- _. reflexivity.
  - pose proof (VerifierFacts.mock_proof_verdict h (entropy n)
                  (Client.payerAddress (Client.config c)) recipient z
                  (Gateway.verifierConfig gw required) req (clock (store w) / 1000)
                  Hr Hq Hrt Hne) as Hv.
    fold proof in Hv. fold wire in Hv.
    assert (falsy (Some (JStr task)) = false) as Hf.
    { destruct task; [contradiction | reflexivity]. }
    subst answer. unfold Server.postAgentTask.
    cbn [Server.x_payment Server.req_body getProp lookupField String.eqb Ascii.eqb
         Bool.eqb].
    rewrite Hf.
    unfold Gateway.orchestrateAgentTask. cbn [Gateway.task].
    fold gw. unfold Gateway.invoke. fold required. rewrite Hv.
    split.
    + intros Hle. destruct (z <? req) eqn:E; [apply Z.ltb_lt in E; lia |].
      cbn [Verifier.accepted Verifier.valid negb].
      change (Gateway.registry gw) with reg.
      cbn [Gateway.params].
      destruct params as [[] |]; cbn [lookupField String.eqb Ascii.eqb Bool.eqb];
        (destruct (execute clock reg _ w) as [[wr | e] w']; reflexivity).
    + intros Hlt. destruct (z <? req) eqn:E; [| apply Z.ltb_ge in E; lia].
      cbn [Verifier.invalid Verifier.valid negb Verifier.error]. reflexivity.
Qed.

End Served.

(** The client of the examples, served by the server of the examples. *)
Lemma listed_price_opens_the_gate_witness :
  Server.statusCode
    (fst (Server.postInvoke Examples.fixedClock Examples.host Examples.RECIPIENT
            true false Examples.servedRegistry "request-1"
            {| Server.param_workflow := "price-feed";
               Server.x_payment :=
                 Some (Verifier.encodeProof Examples.host
                         (Verifier.jsonOfMockProof
                            (Verifier.mockProofFor Examples.entropy Examples.PAYER
                               Examples.RECIPIENT 1000)));
               Server.req_body := JObj [] |}
            Examples.freshWorld)) = 200.
Proof.
  refine (proj1 (proj2 (proj2 (proj2
    (listed_price_opens_the_gate nat Examples.fixedClock Examples.host
       Examples.RECIPIENT true false [] [Examples.countingWorkflow] []
       nat Examples.viem Examples.noGet Examples.okPost
       (fun _ => Examples.entropy) (fun _ => Examples.signerEntropy)
       "price-feed" (JObj []) Examples.discoveredClient O
       Examples.countingWorkflow 1000 "request-1" Examples.freshWorld
       _ _ _ _ _ _
       {| AgentClient.success := true;
          AgentClient.result := Some (JObj []);
          AgentClient.meta := None;
          AgentClient.error := None;
          AgentClient.paymentUsed :=
            Some (Verifier.encodeProof Examples.host
                    (Verifier.jsonOfMockProof
                       (Verifier.mockProofFor Examples.entropy Examples.PAYER
                          Examples.RECIPIENT 1000))) |}
       (Examples.discoveredClient, 1%nat) _))))).
  - reflexivity.
  - reflexivity.
  - reflexivity.
  - vm_compute. reflexivity.
  - vm_compute. reflexivity.
  - vm_compute. discriminate.
  - vm_compute. reflexivity.
Defined.

(** A task about a price: the client pays 0.01 USDC, the route costs
    0.001. *)
Lemma task_payment_against_the_route_witness :
  Server.statusCode
    (fst (Server.postAgentTask Examples.fixedClock Examples.host Examples.RECIPIENT
            true false Examples.servedRegistry "task-1" "request-1"
            {| Server.param_workflow := "";
               Server.x_payment :=
                 Some (Verifier.encodeProof Examples.host
                         (Verifier.jsonOfMockProof
                            (Verifier.mockProofFor Examples.entropy Examples.PAYER
                               Examples.RECIPIENT 10000)));
               Server.req_body := JObj [("task", JStr "price of ETH")] |}
            Examples.freshWorld)) = 200.
Proof.
  refine (proj1 (proj2
    (task_payment_against_the_route nat Examples.fixedClock Examples.host
       Examples.RECIPIENT true false [] [Examples.countingWorkflow] []
       nat Examples.viem Examples.noGet Examples.okPost
       (fun _ => Examples.entropy) (fun _ => Examples.signerEntropy)
       "price of ETH" None Examples.discoveredClient O 10000 1000
       "task-1" "request-1" Examples.freshWorld
       _ _ _ _ _ _ _ _
       {| Client.task_success := true;
          Client.task_taskId := None;
          Client.task_task := None;
          Client.task_result := Some (JObj []);
          Client.task_error := None;
          Client.task_paymentUsed :=
            Some (Verifier.encodeProof Examples.host
                    (Verifier.jsonOfMockProof
                       (Verifier.mockProofFor Examples.entropy Examples.PAYER
                          Examples.RECIPIENT 10000))) |}
       (Examples.discoveredClient, 1%nat) _)) _).
  - reflexivity.
  - reflexivity.
  - discriminate.
  - vm_compute. reflexivity.
  - vm_compute. reflexivity.
  - vm_compute. reflexivity.
  - vm_compute. reflexivity.
  - vm_compute. discriminate.
  - vm_compute. reflexivity.
  - lia.
Defined.

End EndToEndFacts.
